(* ===== verification/_CoqProject ===== *)
-Q . S2P
Prelude.v
RustStr.v
Float64.v
Platform.v
JsNum.v
Ids.v
Entities.v
Event.v
Protocol.v
Wire.v
JsonTrees.v
TestPlatform.v
Pricing.v
Paths.v
Modules.v
Config.v
Project.v
ProjectFacts.v
Tail.v
WatchClaude.v
WatchClaudeFacts.v
WatchCodex.v
WatchFiles.v
WatchApps.v
WatchZed.v
Watchers.v
WatcherFacts.v
Schema.v
Store.v
StoreInv.v
StoreStep.v
StoreLog.v
StoreTyped.v
StoreFlows.v
Migrations.v
Settings.v
HubState.v
HubCommands.v
HubInv.v
Links.v
ClientDelivery.v
HubSystem.v
Samples.v
ContractTheorems.v
StoreTheorems.v
HubFacts.v
Credits.v
Reattribute.v
Heartbeats.v
Auth.v
Tokens.v
TokenFacts.v
Ingest.v
Totals.v
ReadApi.v
AgentQueue.v
ActivityFlow.v
Calendar.v
Backoff.v
Outbox.v
NodeDelivery.v
HubContract.v
EngineDef.v
Process.v
NodeEngine.v
NodeLoop.v
ClaireText.v
Claire.v
ClaireFacts.v
ClaireSystem.v
ActivityTheorems.v
ServerTheorems.v
ReadTheorems.v
ClaireTheorems.v
CoreTheorems.v
AgentTheorems.v
NodeTheorems.v
HubTheorems.v
