(* ===== verification/Prelude.v ===== *)
(** * Stackhour: a verification library

    Stackhour is two programs in one repository. The control plane lets clients
    (browser, Telegram, an assistant) drive coding agents that run on execution nodes:
    a hub keeps a durable event log in SQLite, applies client commands to it,
    broadcasts what it appends, and exchanges work and events with nodes over
    WebSocket links. The activity tracker collects heartbeats from editors and agents
    on each machine, queues them on disk, sends them to a server, and turns them into
    credited time. This library models both as executable definitions and proves the
    properties that make them correct. Paths are relative to src/.

    ** Layout

    Shared ground. Prelude.v: the error and result types of
    crates/stackhour-core/src/lib.rs, the state-and-error monad the translations are
    written in, notation, tactics and the lemmas several files share. RustStr.v: Rust
    strings as UTF-8 bytes and their characters. Float64.v: Rust's f64 as the Standard
    Library's IEEE 754 specification, exact on integers below 2^53, with the order,
    the stable sort and the insertion-ordered grouping built on it. Platform.v: the
    interfaces to what is not under src/ (uuid, serde_json, chrono, the SQLite limits,
    randomness and the clock), each a class with documented laws; TestPlatform.v
    satisfies all of them with concrete functions, so that every conditional property
    has an instance.

    Domain, crates/stackhour-domain/src. Ids.v (ids.rs), Entities.v (entities.rs),
    Event.v (event.rs), Protocol.v and Wire.v (protocol.rs and the serde derives:
    every message to and from JSON). Schema.v: tables as row lists in rowid order, the
    statements on them and the row mappers; Store.v: every method of [Hub] in
    store.rs, statement by statement; Migrations.v: its DDL and migrator.
      StoreInv.v, StoreStep.v, StoreTyped.v: the invariant of the ten tables, every
    operation as a step that keeps it, and the typing of stored rows. StoreLog.v: the
    abstract log, a list of typed events, that the store refines. StoreFlows.v:
    dispatches, assistant wakes and approvals followed from creation to their end.

    Hub, crates/stackhour-hub/src/lib.rs. Settings.v: settings, validators, installer
    arguments, token check. HubState.v: [HubState] and its methods that are not client
    commands, in the monad over the whole state (store, bus, registry, channels,
    routing cache). HubCommands.v: [apply_command] arm by arm and the assistant's
    operations. Links.v: [handle_client] and [handle_node], cut at their await points,
    one definition per arm of the select loops.
      HubInv.v: every method moves the hub along one relation, and its receipts;
    HubSystem.v: the calls of clients, nodes and the assistant as one transition
    system; HubFacts.v: facts about single calls; ClientDelivery.v: what a client link
    delivers. Samples.v: concrete stores and the life of a small hub.

    Node, crates/stackhour-node/src, with crates/stackhour-core/src/engine.rs.
    EngineDef.v: engine definitions and argument assembly. Process.v (process.rs): the
    command line of a child and the reading of its output. NodeEngine.v (engine.rs):
    [CliEngine], its bookkeeping, jobs and reports. Outbox.v: [EngineOutbox] and the
    tasks of a session. Backoff.v (backoff.rs) and NodeLoop.v (lib.rs, config.rs): the
    handshake, the frames, the reconnect loop. NodeDelivery.v: node and hub with a
    lossy link between them, against the interface [HubSide]; HubContract.v: the hub
    of HubState.v and Links.v implements that interface.

    Assistant, crates/stackhour/src/control.rs. ClaireText.v: the prompts, the quoted
    histories and their bounds, the validators, the answer envelope and its JSON.
    Claire.v: [ClaireRunner], the thread of a turn cut at its lock acquisitions, and
    every function of the bridge, over the modelled hub. ClaireFacts.v: frames and the
    invariant of each function; ClaireSystem.v: input, output, polling, turn threads,
    processes and other callers of the hub as one transition system, and what becomes
    of a worker's wake.

    Core, crates/stackhour-core/src, and the token command of crates/stackhour/src.
    JsonTrees.v: well-formed JSON values, the object map, and the class of JSON text
    (TestPlatform.v satisfies it). Pricing.v (pricing.rs), Paths.v (paths.rs),
    Modules.v (modules.rs), Config.v (config.rs), Tokens.v (tokens.rs, with args.rs
    and token.rs of the binary). Config.v ends with the merge as entries put one after
    another; TokenFacts.v: the file after each token command and what the server reads
    of it. Project.v (project.rs): the repository of a location, its remote and its
    name; ProjectFacts.v: paths as stacks of names, the spellings of a remote, and
    what lies within a boundary.

    Agent, crates/stackhour-agent/src. Tail.v (tail.rs, state.rs): logs read as they
    grow, the walk to them, the state object. WatchClaude.v, WatchCodex.v,
    WatchFiles.v, WatchApps.v, WatchZed.v (watch_claude.rs, watch_codex.rs,
    watch_files.rs, watch_ssh.rs with watch_mac.rs, watch_zed.rs): each watcher from
    what the system answers and the state to its rows and the next state. Watchers.v
    (lib.rs): the trait as a record, the gates, the pass over the six with its health
    bookkeeping, the interval. WatchClaudeFacts.v, WatcherFacts.v and the end of
    Tail.v: many ticks one after another, with the invariants that carry over.
    AgentQueue.v (queue.rs and [tick] of lib.rs) takes the watchers as an interface.

    Activity tracker. JsNum.v (crates/stackhour-core/src/jsnum.rs): the shortest
    decimal text of a binary64 value, JavaScript's number reading, texts and
    coercions. Calendar.v (timeparse.rs of the same crate). Credits.v, Reattribute.v
    and Heartbeats.v (crates/stackhour-store/src/summarize.rs, reattribute.rs, db.rs):
    credit, attribution, and the heartbeat table with its dedupe index and range
    queries. Auth.v and Ingest.v (crates/stackhour-server/src/auth.rs, ingest.rs):
    authentication and the two ingest routes. Totals.v (the rest of summarize.rs) and
    ReadApi.v (read_api.rs, detail.rs): grouped totals and the read routes.
    AgentQueue.v (crates/stackhour-agent/src/queue.rs and [tick] of lib.rs), and
    ActivityFlow.v: watchers, agent, link and server as one system.

    The properties are in StoreTheorems.v, ContractTheorems.v, HubTheorems.v,
    NodeTheorems.v, ClaireTheorems.v, CoreTheorems.v, ActivityTheorems.v,
    ServerTheorems.v, ReadTheorems.v and AgentTheorems.v, each with instances on
    concrete data.

    ** State and operations

    A method that takes [&self] and a lock becomes a function from the state to a
    result and the new state ([M S A] of Prelude.v); [?] is the bind, an early return
    the error case. A transaction that fails leaves the tables as they were. A
    WebSocket loop becomes a record of its local variables and one function per arm. A
    child process, a link or a server that can fail becomes a choice the step takes as
    an argument, so a property over all steps covers all failures.

    ** What the properties show

    Store: the appends refine the abstract log, with replay and deduplication by id
    forever; history is only extended; every read of a reachable store parses; a
    committed dispatch stays until its own node acknowledges it; terminal events close
    exactly their run; wakes stay until processed; decisions are final.
      Hub: the bus carries each appended event once, in order; a client gets the log
    without gap or duplicate through lags and resynchronizations; commands are applied
    once and always answered; work goes only to eligible nodes and is durable first;
    only a run's own node can report on it; admission, validation and failed
    scheduling behave as specified.
      Wire and schema: all messages survive encoding; the migrator converges.
      Node: no event is lost between node and hub and what is pending can always be
    settled; commands run once; only live children are signalled; a job's report, the
    command lines and the answer of a stream are exactly as documented; reconnects are
    paced; a link behaves as the calls it carries.
      Assistant: in every interleaving one turn runs at a time; a worker's result
    counts as told only when its message was delivered; a refused answer has no
    effect; a turn whose process vanished is failed and freed; workers it creates are
    checked first; quoted text is bounded.
      Core: a created token lets its machine in after a restart and a revoked one does
    not; token commands are all or nothing; enrollment codes are read back; the
    configuration merge and the price search equal their declarative descriptions.
      Activity: the calendar is exact; whatever fails or dies between the watchers and
    the database, each heartbeat is stored exactly once and the queue drains; an
    ingest request is taken whole or not at all; only configured tokens are let in;
    credits, segments, totals and reattribution equal their declarative descriptions;
    reads are closed exactly when writes are, and the read routes answer what they
    describe and agree with each other.
      Agent: a growing log yields each complete line once; a message whose usage is
    written again as it streams is charged once, at its maxima; a saved file is
    reported by one scan; a thread is reported when it changed; a watcher that fails
    takes no other down; every checkout of a repository has one project name, and
    nothing above a configured root can give it.

    ** Bounds and fuel

    Sequence numbers, attempts and milliseconds keep their Rust widths, with the
    overflow behaviour the code has (checked, saturating or SQLite's). Recursion is
    structural, except for the binary search of Reattribute.v, whose fuel is the
    length of its range; [lower_bound_spec] shows that it is enough; the search for
    the shortest decimal text, which tries at most 17 digits (that 17 always suffice
    is not proved); and the repeated prefix removal of RustStr.v, whose fuel is the
    length of the text. Times in the activity store are binary64 values with NaN and
    infinities.

    ** Assumptions and what is not modelled

    Each hub method is one atomic step: the code holds one mutex through each of them.
    SQLite commits whole transactions; durability across power loss is not modelled,
    and a failing statement is a choice of the step. Interleavings are those of whole
    steps, of the session's tasks, of the lock acquisitions of a turn's thread and of
    process death between the writes of an agent tick. The assistant's system assumes
    that no turn starts or ends between the moment a finished turn's thread reads the
    session and the moment it writes it back ([write_back_current]). Fewer than 2^63-1
    events and heartbeats are stored. URL and URL query parsing, Unicode lower-casing,
    chrono's date text, OptMem and the delivery of a Telegram message are parameters;
    so are the answers of the file system, of commands and of Zed's database to a
    watcher: the files of one tick are those of one moment, and what changes between
    ticks is free.
      Not modelled: HTTP and WebSocket I/O below frames, the hub's axum handlers,
    process spawning, file permissions and locks, the rest of the command-line binary
    (installers, Telegram's HTTP calls, doctor, status), the front end, backup and
    restore, retention and import of the activity database, and the dashboard's files.
    They are I/O around the modelled operations or parts left for later; the manifest
    lists them by component. *)
From Stdlib Require Export ZArith Lia ssreflect.
From stdpp Require Export gmap strings list fin_maps pretty.

#[global] Open Scope general_if_scope.
#[global] Set Default Goal Selector "!".
#[global] Set Warnings "-rewrite-rw".
Ltac done := stdpp.tactics.done.

(** ** The workspace error and result types (crates/stackhour-core/src/lib.rs) *)

(** [Error]: an exact message and the optional HTTP status code. *)
Record Error := MkError { err_msg : string; err_status : option Z }.

(** [Error::msg] *)
Definition Error_msg (m : string) : Error := MkError m None.

(** [Error::with_status] *)
Definition Error_with_status (m : string) (code : Z) : Error := MkError m (Some code).

(** [Error::status_code]: 500 when no status was attached. *)
Definition status_code (e : Error) : Z := default 500%Z (err_status e).

(** [Error::has_status] *)
Definition has_status (e : Error) : bool :=
  match err_status e with Some _ => true | None => false end.

(** [Result<T, Error>] *)
Inductive Result (A : Type) : Type :=
| Ok (a : A)
| Err (e : Error).
Arguments Ok {A} a.
Arguments Err {A} e.

#[global] Instance result_ret : MRet Result := fun A a => Ok a.
#[global] Instance result_bind : MBind Result := fun A B f r =>
  match r with Ok a => f a | Err e => Err e end.
#[global] Instance result_fmap : FMap Result := fun A B f r =>
  match r with Ok a => Ok (f a) | Err e => Err e end.

(** [Option::ok_or_else] *)
Definition ok_or {A} (o : option A) (e : Error) : Result A :=
  match o with Some a => Ok a | None => Err e end.

(** [Result::ok] *)
Definition res_ok {A} (r : Result A) : option A :=
  match r with Ok a => Some a | Err _ => None end.

(** [Result::is_ok] *)
Definition is_ok {A} (r : Result A) : bool :=
  match r with Ok _ => true | Err _ => false end.

Lemma bind_ok {A B} (m : Result A) (f : A -> Result B) b :
  m ≫= f = Ok b <-> exists a, m = Ok a /\ f a = Ok b.
Proof. destruct m as [a|e]; cbn; [|by split; [|intros (? & ? & ?)]]. split; [by eauto|]. by intros (? & [= <-] & ?). Qed.

(** Read off the successful steps of a chain of fallible ones. *)
Ltac inv_bind H :=
  repeat (let a := fresh "v" in let Ha := fresh "Hv" in apply bind_ok in H as (a & Ha & H)).

(** ** State-and-error computations

    [M S A] is a method that reads and writes a state [S] and may return an
    error; what was written before an error stays written, as it does in the
    code. [transaction] is the exception: an error restores the entry state. *)
Definition M (S A : Type) : Type := S -> Result A * S.

#[global] Instance M_ret {S} : MRet (M S) := fun A a s => (Ok a, s).
#[global] Instance M_bind {S} : MBind (M S) := fun A B f m s =>
  match m s with
  | (Ok a, s') => f a s'
  | (Err e, s') => (Err e, s')
  end.

Definition gets {S A} (f : S -> A) : M S A := fun s => (Ok (f s), s).
Definition modify {S} (f : S -> S) : M S unit := fun s => (Ok tt, f s).
Definition fail {S A} (e : Error) : M S A := fun s => (Err e, s).
Definition lift {S A} (r : Result A) : M S A := fun s => (r, s).

(** Run [m] and hand its result over as a value ([match m { Ok.. Err.. }]). *)
Definition try {S A} (m : M S A) : M S (Result A) := fun s =>
  let '(r, s') := m s in (Ok r, s').

(** BEGIN IMMEDIATE ... COMMIT: an error rolls every write back. *)
Definition transaction {S A} (m : M S A) : M S A := fun s =>
  match m s with
  | (Ok a, s') => (Ok a, s')
  | (Err e, _) => (Err e, s)
  end.

(** [for x in xs { f(x)?; }] *)
Fixpoint for_each {S A} (f : A -> M S unit) (xs : list A) : M S unit :=
  match xs with
  | [] => mret tt
  | x :: xs' => f x ≫= fun _ => for_each f xs'
  end.

(** Collecting an iterator of results: the first error wins. *)
Fixpoint collect {A B} (f : A -> Result B) (xs : list A) : Result (list B) :=
  match xs with
  | [] => Ok []
  | x :: xs' => y ← f x; ys ← collect f xs'; Ok (y :: ys)
  end.

(** ** Successful runs, one step at a time *)
Lemma m_bind_ok {S A B} (m : M S A) (f : A -> M S B) s b s' :
  (m ≫= f) s = (Ok b, s') -> exists a s1, m s = (Ok a, s1) /\ f a s1 = (Ok b, s').
Proof. unfold mbind, M_bind. destruct (m s) as [[a|e] s1]; [eauto|done]. Qed.

Lemma m_ret_ok {S A} (a b : A) (s s' : S) : mret (M := M S) a s = (Ok b, s') -> b = a /\ s' = s.
Proof. by intros [= <- <-]. Qed.

(** ** Tactics *)

(** Split a pair-returning call in a hypothesis or the goal. *)
Ltac dest_pair :=
  match goal with
  | H : context [let '(_, _) := ?p in _] |- _ => destruct p eqn:?
  | |- context [let '(_, _) := ?p in _] => destruct p eqn:?
  end.

(** Case analysis on every [match] of the goal, closing the impossible cases. *)
Ltac crush_match :=
  repeat (case_match; simplify_eq/=; try done).

(** ** Lists *)

(** A length as an integer. *)
Abbreviation zlen l := (Z.of_nat (length l)).

Lemma collect_fmap {A B C} (f : B -> Result C) (g : A -> B) (xs : list A) :
  collect f (g <$> xs) = collect (fun x => f (g x)) xs.
Proof. induction xs as [|x xs IH]; csimpl; [done|]. by rewrite IH. Qed.

Lemma collect_ok {A B} (f : A -> Result B) (g : A -> B) (xs : list A) :
  Forall (fun x => f x = Ok (g x)) xs -> collect f xs = Ok (g <$> xs).
Proof. induction 1 as [|x xs Hx _ IH]; csimpl; [done|]. by rewrite Hx /= IH. Qed.

Lemma collect_err {A B} (f : A -> Result B) (xs : list A) x e :
  x ∈ xs -> f x = Err e -> exists e', collect f xs = Err e'.
Proof.
  induction xs as [|y xs IH]; intros Hin Hf; [by apply elem_of_nil in Hin|].
  simpl. apply elem_of_cons in Hin as [<-|Hin].
  - rewrite Hf. by eexists.
  - destruct (f y) as [b|e1]; simpl; [|by eexists].
    destruct (IH Hin Hf) as [e' ->]. by eexists.
Qed.
