(* ===== verification/RustStr.v ===== *)
(** The parts of Rust's [str] and [char] the control plane's validators use.
    A [str] is the list of its UTF-8 bytes ([string]); [chars] decodes it into
    Unicode scalar values. *)
From S2P Require Import Prelude.
From Stdlib Require Import Ascii.

Local Open Scope N_scope.

(** The payload of a continuation byte. *)
Definition cont (a : ascii) : N := N_of_ascii a mod 64.

(** [str::chars], for well-formed UTF-8 (which every [str] is). *)
Fixpoint chars (s : string) : list N :=
  match s with
  | EmptyString => []
  | String a r =>
      let b := N_of_ascii a in
      if b <? 128 then b :: chars r
      else if b <? 224 then
        match r with
        | String a1 r1 => ((b - 192) * 64 + cont a1) :: chars r1
        | EmptyString => []
        end
      else if b <? 240 then
        match r with
        | String a1 (String a2 r2) =>
            ((b - 224) * 4096 + cont a1 * 64 + cont a2) :: chars r2
        | _ => []
        end
      else
        match r with
        | String a1 (String a2 (String a3 r3)) =>
            ((b - 240) * 262144 + cont a1 * 4096 + cont a2 * 64 + cont a3) :: chars r3
        | _ => []
        end
  end.

(** [str::len]: bytes. *)
Definition str_len (s : string) : N := N.of_nat (String.length s).

Definition str_is_empty (s : string) : bool :=
  match s with EmptyString => true | _ => false end.

(** [char::is_control]: the general category Cc. *)
Definition is_control (c : N) : bool :=
  (c <? 32) || ((127 <=? c) && (c <? 160)).

(** [char::is_whitespace]: the White_Space property. *)
Definition is_whitespace (c : N) : bool :=
  ((9 <=? c) && (c <=? 13)) || (c =? 32) || (c =? 133) || (c =? 160)
  || (c =? 5760) || ((8192 <=? c) && (c <=? 8202))
  || (c =? 8232) || (c =? 8233) || (c =? 8239) || (c =? 8287) || (c =? 12288).

(** [value.trim().is_empty()] *)
Definition is_blank (s : string) : bool := forallb is_whitespace (chars s).

(** The characters of a [str], each as its own bytes. *)
Fixpoint split_chars (s : string) : list string :=
  match s with
  | EmptyString => []
  | String a r =>
      let b := N_of_ascii a in
      if b <? 128 then String a EmptyString :: split_chars r
      else if b <? 224 then
        match r with
        | String a1 r1 => String a (String a1 EmptyString) :: split_chars r1
        | EmptyString => []
        end
      else if b <? 240 then
        match r with
        | String a1 (String a2 r2) => String a (String a1 (String a2 EmptyString)) :: split_chars r2
        | _ => []
        end
      else
        match r with
        | String a1 (String a2 (String a3 r3)) =>
            String a (String a1 (String a2 (String a3 EmptyString))) :: split_chars r3
        | _ => []
        end
  end.

Fixpoint drop_blank (cs : list string) : list string :=
  match cs with
  | c :: cs' => if is_blank c then drop_blank cs' else cs
  | [] => []
  end.

(** [str::trim] *)
Definition trim (s : string) : string :=
  String.concat "" (rev (drop_blank (rev (drop_blank (split_chars s))))).

(** [char::is_ascii_alphanumeric] *)
Definition is_ascii_alphanumeric (c : N) : bool :=
  ((48 <=? c) && (c <=? 57)) || ((65 <=? c) && (c <=? 90)) || ((97 <=? c) && (c <=? 122)).

(** [matches!(ch, 'a' | 'b' | ..)], the alternatives spelled in one string. *)
Definition one_of (alts : string) (c : N) : bool := existsb (N.eqb c) (chars alts).

(** [str::starts_with] a literal. *)
Fixpoint starts_with (p s : string) : bool :=
  match p, s with
  | EmptyString, _ => true
  | String a p', String b s' => Ascii.eqb a b && starts_with p' s'
  | String _ _, EmptyString => false
  end.

(** [str::strip_prefix] *)
Fixpoint strip_prefix (p s : string) : option string :=
  match p, s with
  | EmptyString, _ => Some s
  | String a p', String b s' => if Ascii.eqb a b then strip_prefix p' s' else None
  | String _ _, EmptyString => None
  end.

(** [str::contains] of a literal. *)
Fixpoint contains (p s : string) : bool :=
  starts_with p s || match s with EmptyString => false | String _ r => contains p r end.

(** [str::replace] of a non-empty literal: left to right, without overlaps; the
    next [skip] bytes belong to the occurrence just replaced. *)
Fixpoint replace_from (skip : nat) (p w s : string) : string :=
  match s with
  | EmptyString => EmptyString
  | String a r =>
      match skip with
      | S k => replace_from k p w r
      | O => if starts_with p s then w +:+ replace_from (String.length p - 1) p w r
             else String a (replace_from 0 p w r)
      end
  end.
Definition replace (p w s : string) : string := replace_from 0 p w s.

(** The newline. *)
Definition LF : ascii := "010".

(** [str::split] at one ASCII byte. *)
Fixpoint split_byte (a : ascii) (s : string) : list string :=
  match s with
  | EmptyString => [EmptyString]
  | String b r =>
      if Ascii.eqb a b then EmptyString :: split_byte a r
      else match split_byte a r with h :: t => String b h :: t | [] => [String b EmptyString] end
  end.

(** A byte within a range. *)
Definition byte_in (lo hi : N) (a : ascii) : bool := (lo <=? N_of_ascii a) && (N_of_ascii a <=? hi).

(** [str::from_utf8] succeeds: the well-formed byte sequences of Unicode. *)
Fixpoint utf8_valid (s : string) : bool :=
  match s with
  | EmptyString => true
  | String a r =>
      if byte_in 0 127 a then utf8_valid r
      else
        match r with
        | String a1 r1 =>
            if byte_in 194 223 a then byte_in 128 191 a1 && utf8_valid r1
            else
              match r1 with
              | String a2 r2 =>
                  if byte_in 224 239 a then
                    byte_in (if byte_in 224 224 a then 160 else 128) (if byte_in 237 237 a then 159 else 191) a1
                    && byte_in 128 191 a2 && utf8_valid r2
                  else
                    match r2 with
                    | String a3 r3 =>
                        byte_in 240 244 a &&
                        byte_in (if byte_in 240 240 a then 144 else 128) (if byte_in 244 244 a then 143 else 191) a1
                        && byte_in 128 191 a2 && byte_in 128 191 a3 && utf8_valid r3
                    | EmptyString => false
                    end
              | EmptyString => false
              end
        | EmptyString => false
        end
  end.

(** [Path::new(value).is_absolute()] on Unix. *)
Definition path_is_absolute (s : string) : bool := starts_with "/" s.

(** A byte that does not continue a multi-byte scalar value. *)
Definition is_char_boundary (a : ascii) : bool :=
  let b := N_of_ascii a in (b <? 128) || (192 <=? b).

(** [s.chars().take(n).collect::<String>()] on the bytes of [s]. *)
Fixpoint take_chars (n : nat) (s : string) : string :=
  match s with
  | EmptyString => EmptyString
  | String a r =>
      if is_char_boundary a then
        match n with O => EmptyString | S n' => String a (take_chars n' r) end
      else String a (take_chars n r)
  end.

(** The number of scalar values of a well-formed string. *)
Fixpoint char_count (s : string) : nat :=
  match s with
  | EmptyString => O
  | String a r => ((if is_char_boundary a then 1 else 0) + char_count r)%nat
  end.

Lemma take_chars_bound (n : nat) (s : string) : (char_count (take_chars n s) <= n)%nat.
Proof.
  revert n. induction s as [|a s IH]; intros n; simpl; [lia|].
  destruct (is_char_boundary a) eqn:Ha.
  - destruct n as [|n]; simpl; [lia|]. rewrite Ha. specialize (IH n). lia.
  - simpl. rewrite Ha. apply IH.
Qed.

Lemma take_chars_id (n : nat) (s : string) : (char_count s <= n)%nat -> take_chars n s = s.
Proof.
  revert n. induction s as [|a s IH]; intros n; simpl; [done|].
  destruct (is_char_boundary a) eqn:Ha; intros Hn.
  - destruct n as [|n]; [simpl in Hn; lia|]. f_equal. apply IH. simpl in Hn. lia.
  - f_equal. by apply IH.
Qed.

Lemma starts_with_app (p s : string) : starts_with p (p +:+ s) = true.
Proof. induction p as [|a p IH]; simpl; [done|]. by rewrite Ascii.eqb_refl. Qed.

Lemma strip_prefix_app (p s : string) : strip_prefix p (p +:+ s) = Some s.
Proof. induction p as [|a p IH]; simpl; [done|]. by rewrite Ascii.eqb_refl. Qed.

Lemma strip_prefix_spec (p s r : string) : strip_prefix p s = Some r <-> s = p +:+ r.
Proof.
  split; [|intros ->; apply strip_prefix_app].
  revert s. induction p as [|a p IH]; intros s; simpl; [by intros [= ->]|].
  destruct s as [|b s]; [done|]. destruct (Ascii.eqb_spec a b) as [->|]; [|done].
  intros H%IH. by rewrite H.
Qed.

Lemma replace_absent p w s : contains p s = false -> replace p w s = s.
Proof.
  unfold replace. induction s as [|a s IH]; [done|]. intros [Hs Hr]%orb_false_iff.
  cbn [replace_from]. rewrite Hs. f_equal. by apply IH.
Qed.

Lemma str_app_nil_r (s : string) : s +:+ "" = s.
Proof. induction s as [|a s IH]; [done|]. change (String a (s +:+ "") = String a s). by rewrite IH. Qed.

Lemma str_app_assoc (a b c : string) : (a +:+ b) +:+ c = a +:+ b +:+ c.
Proof.
  induction a as [|x a IH]; [done|]. change (String x ((a +:+ b) +:+ c) = String x (a +:+ b +:+ c)). by rewrite IH.
Qed.

Lemma replace_whole a p w : replace (String a p) w (String a p) = w.
Proof.
  unfold replace. cbn [replace_from]. assert (starts_with (String a p) (String a p) = true) as ->.
  { pose proof (starts_with_app (String a p) "") as H. by rewrite str_app_nil_r in H. }
  cbn [String.length]. rewrite Nat.sub_succ Nat.sub_0_r.
  assert (forall q k, k = String.length q -> replace_from k (String a p) w q = "") as ->.
  { intros q. induction q as [|b q IH]; intros k ->; [done|]. cbn. by apply IH. }
  - by rewrite str_app_nil_r.
  - done.
Qed.

(** No byte of the string is [a]. *)
Fixpoint byte_free (a : ascii) (s : string) : bool :=
  match s with EmptyString => true | String b r => negb (Ascii.eqb a b) && byte_free a r end.

Lemma byte_free_contains a p s : byte_free a s = true -> contains (String a p) s = false.
Proof.
  induction s as [|b s IH]; [done|]. cbn. intros [Hb Hs]%andb_true_iff. apply negb_true_iff in Hb.
  by rewrite Hb IH.
Qed.

Lemma byte_free_app a s t : byte_free a (s +:+ t) = byte_free a s && byte_free a t.
Proof.
  induction s as [|b s IH]; [done|].
  change (negb (Ascii.eqb a b) && byte_free a (s +:+ t) = negb (Ascii.eqb a b) && byte_free a s && byte_free a t).
  by rewrite IH andb_assoc.
Qed.

Lemma starts_with_cut n p u v :
  byte_free n p = true -> starts_with p (u +:+ String n v) = true -> starts_with p u = true.
Proof.
  revert u. induction p as [|a p IH]; intros u; [done|]. cbn [byte_free]. intros [Ha Hp]%andb_true_iff.
  destruct u as [|b u].
  - change (Ascii.eqb a n && starts_with p v = true -> starts_with (String a p) "" = true).
    apply negb_true_iff in Ha. rewrite Ascii.eqb_sym Ha. done.
  - change (Ascii.eqb a b && starts_with p (u +:+ String n v) = true -> Ascii.eqb a b && starts_with p u = true).
    intros [Hb H]%andb_true_iff. rewrite Hb. by apply IH.
Qed.

(** Text without the pattern, ended by a byte the pattern does not have, is kept. *)
Lemma replace_past n a p w s t :
  byte_free n (String a p) = true -> contains (String a p) s = false ->
  replace (String a p) w (s +:+ String n t) = s +:+ String n (replace (String a p) w t).
Proof.
  intros Hn. unfold replace. induction s as [|b s IH]; intros Hs.
  - change (replace_from 0 (String a p) w (String n t) = String n (replace_from 0 (String a p) w t)).
    cbn [replace_from]. cbn [byte_free] in Hn. apply andb_true_iff in Hn as [Hn _]. apply negb_true_iff in Hn.
    cbn [starts_with]. by rewrite Ascii.eqb_sym Hn.
  - apply orb_false_iff in Hs as [Hs Hr].
    change (replace_from 0 (String a p) w (String b (s +:+ String n t)) =
            String b (s +:+ String n (replace_from 0 (String a p) w t))).
    rewrite -IH; [exact Hr|]. cbn [replace_from].
    destruct (starts_with (String a p) (String b (s +:+ String n t))) eqn:H; [|done].
    apply (starts_with_cut n _ (String b s)) in H; [|exact Hn]. by rewrite H in Hs.
Qed.

Lemma utf8_valid_app s t : utf8_valid s = true -> utf8_valid t = true -> utf8_valid (s +:+ t) = true.
Proof.
  intros Hs Ht. remember (String.length s) as n eqn:Hn. revert s Hn Hs.
  induction n as [n IH] using lt_wf_ind. intros s Hn Hs. destruct s as [|a s]; [exact Ht|].
  assert (forall r, (String.length r < n)%nat -> utf8_valid r = true -> utf8_valid (r +:+ t) = true) as Hrec.
  { intros r Hr. by apply (IH (String.length r)). }
  cbn [String.length] in Hn. change (String a s +:+ t) with (String a (s +:+ t)). cbn [utf8_valid] in *.
  destruct (byte_in 0 127 a); [apply Hrec; [lia|done]|].
  destruct s as [|a1 s]; [done|]. cbn [String.length] in *.
  change (String a1 s +:+ t) with (String a1 (s +:+ t)).
  destruct (byte_in 194 223 a).
  { apply andb_true_iff in Hs as [-> Hs]. apply Hrec; [lia|done]. }
  destruct s as [|a2 s]; [done|]. cbn [String.length] in *.
  change (String a2 s +:+ t) with (String a2 (s +:+ t)). destruct (byte_in 224 239 a).
  { apply andb_true_iff in Hs as [-> Hs]. apply Hrec; [lia|done]. }
  destruct s as [|a3 s]; [done|]. cbn [String.length] in *.
  change (String a3 s +:+ t) with (String a3 (s +:+ t)).
  apply andb_true_iff in Hs as [-> Hs]. apply Hrec; [lia|done].
Qed.

(** The non-empty lines of a text. *)
Definition full_lines (a : ascii) (s : string) : list string :=
  List.filter (fun l => negb (str_is_empty l)) (split_byte a s).

Lemma split_byte_nonempty a s : split_byte a s <> [].
Proof. destruct s as [|b s]; cbn; [done|]. destruct (Ascii.eqb a b); [done|]. by destruct (split_byte a s). Qed.

Lemma split_byte_app a s t : split_byte a (s +:+ String a t) = split_byte a s ++ split_byte a t.
Proof.
  induction s as [|b s IH].
  - change (split_byte a (String a t) = [EmptyString] ++ split_byte a t). cbn [split_byte]. by rewrite Ascii.eqb_refl.
  - change (split_byte a (String b (s +:+ String a t)) = split_byte a (String b s) ++ split_byte a t).
    cbn [split_byte]. rewrite IH. destruct (Ascii.eqb a b); [done|].
    pose proof (split_byte_nonempty a s). by destruct (split_byte a s).
Qed.

Lemma full_lines_app a s t : full_lines a (s +:+ String a t) = full_lines a s ++ full_lines a t.
Proof. unfold full_lines. by rewrite split_byte_app List.filter_app. Qed.

Lemma split_byte_free a s : byte_free a s = true -> split_byte a s = [s].
Proof.
  induction s as [|b s IH]; [done|]. cbn [byte_free split_byte]. intros [Hb Hs]%andb_true_iff.
  apply negb_true_iff in Hb. by rewrite Hb IH.
Qed.

Lemma full_lines_one a s : byte_free a s = true -> str_is_empty s = false -> full_lines a s = [s].
Proof. intros Hs Hne. unfold full_lines. rewrite split_byte_free //. cbn. by rewrite Hne. Qed.

(** [s.trim_matches(p)] *)
Fixpoint drop_chars (p : N -> bool) (cs : list string) : list string :=
  match cs with
  | c :: cs' => if forallb p (chars c) then drop_chars p cs' else cs
  | [] => []
  end.
Definition trim_matches (p : N -> bool) (s : string) : string :=
  String.concat "" (rev (drop_chars p (rev (drop_chars p (split_chars s))))).

(** [String::from_utf8_lossy]: each maximal ill-formed prefix becomes U+FFFD. *)
Definition replacement : string := String "239" (String "191" (String "189" EmptyString)).
Fixpoint from_utf8_lossy (s : string) : string :=
  match s with
  | EmptyString => EmptyString
  | String a r =>
      if byte_in 0 127 a then String a (from_utf8_lossy r)
      else
        match r with
        | EmptyString => replacement
        | String a1 r1 =>
            if byte_in 194 223 a && byte_in 128 191 a1 then String a (String a1 (from_utf8_lossy r1))
            else if byte_in 224 239 a
                    && byte_in (if byte_in 224 224 a then 160 else 128) (if byte_in 237 237 a then 159 else 191) a1
            then
              match r1 with
              | EmptyString => replacement
              | String a2 r2 =>
                  if byte_in 128 191 a2 then String a (String a1 (String a2 (from_utf8_lossy r2)))
                  else replacement +:+ from_utf8_lossy r1
              end
            else if byte_in 240 244 a
                    && byte_in (if byte_in 240 240 a then 144 else 128) (if byte_in 244 244 a then 143 else 191) a1
            then
              match r1 with
              | EmptyString => replacement
              | String a2 r2 =>
                  if byte_in 128 191 a2 then
                    match r2 with
                    | EmptyString => replacement
                    | String a3 r3 =>
                        if byte_in 128 191 a3 then String a (String a1 (String a2 (String a3 (from_utf8_lossy r3))))
                        else replacement +:+ from_utf8_lossy r2
                    end
                  else replacement +:+ from_utf8_lossy r1
              end
            else replacement +:+ from_utf8_lossy r
        end
  end.

(** Well-formed text is kept. *)
Lemma from_utf8_lossy_valid s : utf8_valid s = true -> from_utf8_lossy s = s.
Proof.
  remember (String.length s) as n eqn:Hn. revert s Hn. induction n as [n IH] using lt_wf_ind. intros s Hn.
  assert (forall r, (String.length r < n)%nat -> utf8_valid r = true -> from_utf8_lossy r = r) as Hrec.
  { intros r Hr. by apply (IH (String.length r)). }
  destruct s as [|a s]; [done|]. cbn [String.length] in Hn. cbn [utf8_valid from_utf8_lossy].
  destruct (byte_in 0 127 a); [intros Hv; rewrite Hrec //; lia|].
  destruct s as [|a1 s]; [done|]. cbn [String.length] in Hn. destruct (byte_in 194 223 a) eqn:H2.
  { intros [H1 Hv]%andb_true_iff. rewrite H1 /= Hrec //. lia. }
  cbn [andb]. destruct s as [|a2 s]; [done|]. cbn [String.length] in Hn. destruct (byte_in 224 239 a) eqn:H3.
  { intros [[H1 Ha2]%andb_true_iff Hv]%andb_true_iff. rewrite H1 Ha2 /= Hrec //. lia. }
  cbn [andb]. destruct s as [|a3 s]; [done|]. cbn [String.length] in Hn.
  intros [[[[H4 H1]%andb_true_iff Ha2]%andb_true_iff Ha3]%andb_true_iff Hv]%andb_true_iff.
  rewrite H4 H1 Ha2 Ha3 /= Hrec //. lia.
Qed.

(** [&s[n..]], the bytes from index [n] on. *)
Fixpoint str_drop (n : nat) (s : string) : string :=
  match n, s with
  | S n', String _ r => str_drop n' r
  | _, _ => s
  end.

(** [str::strip_suffix] *)
Definition strip_suffix (p s : string) : option string :=
  let n := (String.length s - String.length p)%nat in
  if Nat.leb (String.length p) (String.length s) && String.eqb (str_drop n s) p
  then Some (String.substring 0 n s) else None.

(** [str::trim_start_matches] of a non-empty literal: each round removes a byte at
    least, so the length of the text bounds the rounds. *)
Fixpoint trim_start_rounds (n : nat) (p s : string) : string :=
  match n, strip_prefix p s with
  | S n', Some r => trim_start_rounds n' p r
  | _, _ => s
  end.
Definition trim_start_matches (p s : string) : string := trim_start_rounds (String.length s) p s.

Lemma str_drop_length n s : String.length (str_drop n s) = (String.length s - n)%nat.
Proof. revert s. induction n as [|n IH]; intros [|a s]; cbn; [done..|]. apply IH. Qed.

Lemma str_drop_split n s : exists p, s = p +:+ str_drop n s /\ (n <= String.length s -> String.length p = n)%nat.
Proof.
  revert s. induction n as [|n IH]; intros s; [by exists EmptyString|].
  destruct s as [|a s]; [exists EmptyString; split; [done|cbn; lia]|].
  destruct (IH s) as (p & Hp & Hl). exists (String a p). split.
  - change (String a s = String a (p +:+ str_drop n s)). by rewrite -Hp.
  - cbn. intros H. rewrite Hl; lia.
Qed.

Lemma str_length_app s t : String.length (s +:+ t) = (String.length s + String.length t)%nat.
Proof.
  induction s as [|a s IH]; [done|]. change (S (String.length (s +:+ t)) = S (String.length s + String.length t)).
  by rewrite IH.
Qed.

(** Well-formed text and its characters: splitting, joining, trimming. *)

Local Open Scope Z_scope.

(** Every byte of the text satisfies [f]. *)
Fixpoint all_bytes (f : ascii -> bool) (s : string) : bool :=
  match s with EmptyString => true | String a r => f a && all_bytes f r end.

Lemma all_bytes_impl (p q : ascii -> bool) s : (forall a, p a = true -> q a = true) -> all_bytes p s = true -> all_bytes q s = true.
Proof. intros H. induction s as [|a s IH]; cbn; [done|]. intros [Ha Hs]%andb_true_iff. by rewrite (H a Ha) IH. Qed.

Lemma all_bytes_app p s t : all_bytes p (s +:+ t) = all_bytes p s && all_bytes p t.
Proof.
  induction s as [|a s IH]; [done|]. change (p a && all_bytes p (s +:+ t) = p a && all_bytes p s && all_bytes p t).
  by rewrite IH andb_assoc.
Qed.

Lemma bytes_free a s : all_bytes (fun b => negb (Ascii.eqb a b)) s = byte_free a s.
Proof. by induction s as [|b s IH]; cbn; [|rewrite IH]. Qed.

(** The bytes of one character, which the split takes off whatever follows. *)
Record is_char (c : string) : Prop := {
  char_valid : utf8_valid c = true;
  char_split t : split_chars (c +:+ t) = c :: split_chars t;
}.

Lemma byte_in_bounds lo hi a : byte_in lo hi a = true -> (lo <= N_of_ascii a <= hi)%N.
Proof. unfold byte_in. intros [H1%N.leb_le H2%N.leb_le]%andb_true_iff. done. Qed.

Ltac lead_byte :=
  repeat match goal with H : byte_in _ _ _ = true |- _ => apply byte_in_bounds in H end;
  repeat match goal with |- context [N.ltb ?b ?k] => destruct (N.ltb_spec b k); try lia end.

Lemma first_char a s : utf8_valid (String a s) = true ->
  exists c t, String a s = c +:+ t /\ is_char c /\ utf8_valid t = true /\ (String.length t < String.length (String a s))%nat.
Proof.
  cbn [utf8_valid]. destruct (byte_in 0 127 a) eqn:H0.
  { intros Hv. exists (String a EmptyString), s. split_and!; [done| |done|cbn; lia]. constructor.
    - cbn [utf8_valid]. by rewrite H0.
    - intros t. change (String a EmptyString +:+ t) with (String a t). cbn [split_chars]. by lead_byte. }
  destruct s as [|a1 s]; [done|]. destruct (byte_in 194 223 a) eqn:H2.
  { intros [H1 Hv]%andb_true_iff. exists (String a (String a1 EmptyString)), s. split_and!; [done| |done|cbn; lia]. constructor.
    - cbn [utf8_valid]. by rewrite H0 H2 H1.
    - intros t. change (String a (String a1 EmptyString) +:+ t) with (String a (String a1 t)). cbn [split_chars]. by lead_byte. }
  destruct s as [|a2 s]; [done|]. destruct (byte_in 224 239 a) eqn:H3.
  { intros [[H1 Ha2]%andb_true_iff Hv]%andb_true_iff. exists (String a (String a1 (String a2 EmptyString))), s.
    split_and!; [done| |done|cbn; lia]. constructor.
    - cbn [utf8_valid]. by rewrite H0 H2 H3 H1 Ha2.
    - intros t. change (String a (String a1 (String a2 EmptyString)) +:+ t) with (String a (String a1 (String a2 t))).
      cbn [split_chars]. by lead_byte. }
  destruct s as [|a3 s]; [done|]. intros [[[[H4 H1]%andb_true_iff Ha2]%andb_true_iff Ha3]%andb_true_iff Hv]%andb_true_iff.
  exists (String a (String a1 (String a2 (String a3 EmptyString)))), s. split_and!; [done| |done|cbn; lia]. constructor.
  - cbn [utf8_valid]. by rewrite H0 H2 H3 H4 H1 Ha2 Ha3.
  - intros t. change (String a (String a1 (String a2 (String a3 EmptyString))) +:+ t) with (String a (String a1 (String a2 (String a3 t)))).
    cbn [split_chars]. by lead_byte.
Qed.

Lemma concat_cons c cs : String.concat "" (c :: cs) = c +:+ String.concat "" cs.
Proof. destruct cs; cbn; [by rewrite str_app_nil_r|done]. Qed.

Lemma split_valid s : utf8_valid s = true -> Forall is_char (split_chars s) /\ String.concat "" (split_chars s) = s.
Proof.
  remember (String.length s) as n eqn:Hn. revert s Hn. induction n as [n IH] using lt_wf_ind. intros s -> Hv.
  destruct s as [|a s]; [split; [constructor|done]|]. destruct (first_char a s Hv) as (c & t & He & Hc & Ht & Hl).
  rewrite He (char_split c Hc). destruct (IH _ Hl t eq_refl Ht) as [H1 H2].
  split; [by constructor|]. by rewrite concat_cons H2.
Qed.

Lemma split_concat cs : Forall is_char cs -> split_chars (String.concat "" cs) = cs.
Proof. induction 1 as [|c cs Hc _ IH]; [done|]. by rewrite concat_cons (char_split c Hc) IH. Qed.

Lemma concat_valid cs : Forall is_char cs -> utf8_valid (String.concat "" cs) = true.
Proof. induction 1 as [|c cs Hc _ IH]; [done|]. rewrite concat_cons. apply utf8_valid_app; [apply Hc|done]. Qed.

(** *** Trimming *)

Section Trim.
Context (p : N -> bool).

Lemma drop_chars_suffix cs : exists pre, cs = pre ++ drop_chars p cs.
Proof.
  induction cs as [|c cs [pre IH]]; [by exists []|]. cbn. destruct (forallb p (chars c)); [|by exists []].
  exists (c :: pre). cbn. by f_equal.
Qed.

Lemma drop_chars_stop c cs : forallb p (chars c) = false -> drop_chars p (c :: cs) = c :: cs.
Proof. cbn. by intros ->. Qed.

Lemma drop_chars_head cs : drop_chars p cs = [] \/ exists c cs', drop_chars p cs = c :: cs' /\ forallb p (chars c) = false.
Proof.
  induction cs as [|c cs IH]; [by left|]. cbn. destruct (forallb p (chars c)) eqn:Hc; [done|right; by exists c, cs].
Qed.

Lemma drop_chars_Forall (Q : string -> Prop) cs : Forall Q cs -> Forall Q (drop_chars p cs).
Proof. intros H. destruct (drop_chars_suffix cs) as [pre Hp]. rewrite Hp in H. by apply Forall_app in H as [_ ?]. Qed.

(** The characters trimming keeps. *)
Definition trimmed (cs : list string) : list string := rev (drop_chars p (rev (drop_chars p cs))).

Lemma trimmed_Forall (Q : string -> Prop) cs : Forall Q cs -> Forall Q (trimmed cs).
Proof. intros H. unfold trimmed. apply Forall_rev, drop_chars_Forall, Forall_rev, drop_chars_Forall, H. Qed.

Lemma trimmed_twice cs : trimmed (trimmed cs) = trimmed cs.
Proof.
  unfold trimmed. set (d := drop_chars p cs).
  assert (drop_chars p (rev (drop_chars p (rev d))) = rev (drop_chars p (rev d))) as ->.
  { destruct (drop_chars_suffix (rev d)) as [pre Hp]. apply (f_equal (@rev string)) in Hp. rewrite rev_involutive rev_app_distr in Hp.
    destruct (rev (drop_chars p (rev d))) as [|c l] eqn:Hr; [done|]. apply drop_chars_stop.
    destruct (drop_chars_head cs) as [Hd|(c' & cs' & Hd & Hc)]; fold d in Hd; rewrite Hd in Hp; [done|].
    by injection Hp as -> _. }
  rewrite rev_involutive. f_equal. destruct (drop_chars_head (rev d)) as [->|(c & cs' & -> & Hc)]; [done|]. by apply drop_chars_stop.
Qed.

Lemma trim_valid s : utf8_valid s = true -> utf8_valid (trim_matches p s) = true.
Proof. intros H. apply concat_valid, trimmed_Forall, split_valid, H. Qed.

Lemma trim_twice s : utf8_valid s = true -> trim_matches p (trim_matches p s) = trim_matches p s.
Proof.
  intros H. unfold trim_matches at 1. fold (trimmed (split_chars (trim_matches p s))).
  change (trim_matches p s) with (String.concat "" (trimmed (split_chars s))).
  rewrite split_concat; [apply trimmed_Forall, split_valid, H|]. by rewrite trimmed_twice.
Qed.
End Trim.
