(* ===== verification/Float64.v ===== *)
(** Rust's [f64]: the IEEE 754 binary64 values and operations, as the Standard
    Library specifies them; their order, and the stable sort and the
    insertion-ordered grouping the activity store builds on. *)
From S2P Require Import Prelude.
From Stdlib Require Import SpecFloat Sorted.
From Stdlib Require Import SpecFloat.

Local Open Scope Z_scope.

Abbreviation f64 := spec_float.

#[export] Instance f64_eq_dec : EqDecision f64.
Proof. solve_decision. Defined.

Definition f64_sub : f64 -> f64 -> f64 := SFsub 53 1024.
Definition f64_add : f64 -> f64 -> f64 := SFadd 53 1024.
Definition f64_zero : f64 := S754_zero false.
Definition f64_infinity : f64 := S754_infinity false.

(** An integer of at most 53 bits. *)
Definition f64_of_Z (z : Z) : f64 := binary_normalize 53 1024 z 0 false.

(** [PartialOrd] *)
Definition f64_lt (a b : f64) : bool := match SFcompare a b with Some Lt => true | _ => false end.
Definition f64_le (a b : f64) : bool := match SFcompare a b with Some Lt | Some Eq => true | _ => false end.

Definition f64_is_nan (a : f64) : bool := match a with S754_nan => true | _ => false end.

Definition f64_is_finite (a : f64) : bool := match a with S754_zero _ | S754_finite _ _ _ => true | _ => false end.
Definition f64_eq (a b : f64) : bool := match SFcompare a b with Some Eq => true | _ => false end.
Definition f64_mul : f64 -> f64 -> f64 := SFmul 53 1024.
Definition f64_div : f64 -> f64 -> f64 := SFdiv 53 1024.

(** A finite value as an integer, rounded down, and towards zero. *)
Definition f64_floor_Z (a : f64) : Z :=
  match a with
  | S754_finite s m e =>
      let v := if s then Zneg m else Zpos m in if 0 <=? e then v * 2 ^ e else v / 2 ^ (- e)
  | _ => 0
  end.
Definition f64_trunc_Z (a : f64) : Z :=
  match a with
  | S754_finite s m e =>
      let v := if s then Zneg m else Zpos m in if 0 <=? e then v * 2 ^ e else Z.quot v (2 ^ (- e))
  | _ => 0
  end.

(** [f64::floor] and [f64::trunc]: the integer, with the sign of the argument on a zero. *)
Definition f64_signed (s : bool) (z : Z) : f64 := if z =? 0 then S754_zero s else f64_of_Z z.
Definition f64_floor (a : f64) : f64 :=
  match a with S754_finite s _ e => if 0 <=? e then a else f64_signed s (f64_floor_Z a) | _ => a end.
Definition f64_trunc (a : f64) : f64 :=
  match a with S754_finite s _ e => if 0 <=? e then a else f64_signed s (f64_trunc_Z a) | _ => a end.

(** [f as i64]: towards zero, saturating; NaN is 0. *)
Definition f64_to_i64 (a : f64) : Z :=
  match a with
  | S754_infinity s => if s then - 2 ^ 63 else 2 ^ 63 - 1
  | _ => Z.max (- 2 ^ 63) (Z.min (f64_trunc_Z a) (2 ^ 63 - 1))
  end.

(** [f64::abs] *)
Definition f64_abs (a : f64) : f64 := SFabs a.

(** [f64::min]: the other operand when one is NaN. *)
Definition f64_min (a b : f64) : f64 :=
  if f64_is_nan a then b else if f64_is_nan b then a else if f64_lt a b then a else b.

(** [f64::max] *)
Definition f64_max (a b : f64) : f64 :=
  if f64_is_nan a then b else if f64_is_nan b then a else if f64_lt b a then a else b.

(** *** The order *)

(** The comparison is that of these keys, most significant first. *)
Definition f64_key (a : f64) : Z * Z * Z :=
  match a with
  | S754_zero _ | S754_nan => (0, 0, 0)
  | S754_infinity s => (if s then -2 else 2, 0, 0)
  | S754_finite s m e => if s then (-1, - e, Zneg m) else (1, e, Zpos m)
  end.

Definition key_lt (a b : Z * Z * Z) : Prop :=
  a.1.1 < b.1.1 \/ (a.1.1 = b.1.1 /\ (a.1.2 < b.1.2 \/ (a.1.2 = b.1.2 /\ a.2 < b.2))).

Lemma f64_lt_key a b :
  f64_is_nan a = false -> f64_is_nan b = false -> (f64_lt a b = true <-> key_lt (f64_key a) (f64_key b)).
Proof.
  unfold f64_lt, key_lt. intros Ha Hb.
  destruct a as [sa|sa| |sa ma ea], b as [sb|sb| |sb mb eb]; try done; cbn [SFcompare f64_key fst snd];
    repeat match goal with |- context [if ?s then _ else _] => is_var s; destruct s end; cbn [fst snd];
    try (split; [try done; lia|try done; lia]).
  - change (Pos.compare_cont Eq ma mb) with (Pos.compare ma mb).
    destruct (Z.compare_spec ea eb); destruct (Pos.compare_spec ma mb); cbn [CompOpp]; split; try done; lia.
  - change (Pos.compare_cont Eq ma mb) with (Pos.compare ma mb).
    destruct (Z.compare_spec ea eb); destruct (Pos.compare_spec ma mb); cbn [CompOpp]; split; try done; lia.
Qed.

Lemma f64_eq_key a b :
  f64_is_nan a = false -> f64_is_nan b = false -> f64_eq a b = bool_decide (f64_key a = f64_key b).
Proof.
  intros Ha Hb. apply eq_true_iff_eq. rewrite bool_decide_eq_true. unfold f64_eq.
  destruct a as [sa|sa| |sa ma ea], b as [sb|sb| |sb mb eb]; try done; cbn [SFcompare f64_key];
    repeat match goal with |- context [if ?s then _ else _] => is_var s; destruct s end;
    try (split; intros H; first [done | discriminate H | by injection H]).
  - change (Pos.compare_cont Eq ma mb) with (Pos.compare ma mb).
    destruct (Z.compare_spec ea eb); destruct (Pos.compare_spec ma mb); cbn [CompOpp];
      split; intros H'; first [discriminate H' | injection H' as ??; lia | congruence].
  - change (Pos.compare_cont Eq ma mb) with (Pos.compare ma mb).
    destruct (Z.compare_spec ea eb); destruct (Pos.compare_spec ma mb); cbn [CompOpp];
      split; intros H'; first [discriminate H' | injection H' as ??; lia | congruence].
Qed.

(** Without NaN, not after is the negation of before. *)
Lemma f64_le_lt a b : f64_is_nan a = false -> f64_is_nan b = false -> f64_le a b = negb (f64_lt b a).
Proof.
  intros Ha Hb. assert (f64_le a b = f64_lt a b || f64_eq a b) as ->.
  { unfold f64_le, f64_lt, f64_eq. by destruct (SpecFloat.SFcompare a b) as [[]|]. }
  rewrite f64_eq_key //. apply eq_true_iff_eq. rewrite orb_true_iff negb_true_iff bool_decide_eq_true -not_true_iff_false !f64_lt_key //.
  destruct (f64_key a) as [[a1 a2] a3], (f64_key b) as [[b1 b2] b3]. unfold key_lt. cbn [fst snd].
  split; [intros [H|[= -> -> ->]]; lia|]. intros H.
  destruct (decide ((a1, a2, a3) = (b1, b2, b3))) as [He|Hne]; [by right|left].
  assert (a1 <> b1 \/ a2 <> b2 \/ a3 <> b3); [|lia].
  destruct (Z.eq_dec a1 b1), (Z.eq_dec a2 b2), (Z.eq_dec a3 b3); try lia. by subst.
Qed.

Lemma finite_not_nan a : f64_is_finite a = true -> f64_is_nan a = false.
Proof. by destruct a. Qed.

Lemma f64_lt_asym a b : f64_is_nan a = false -> f64_is_nan b = false -> f64_lt a b = true -> f64_lt b a = false.
Proof.
  intros Ha Hb H. apply f64_lt_key in H; [|done..]. destruct (f64_lt b a) eqn:Hba; [|done].
  apply f64_lt_key in Hba; [|done..]. unfold key_lt in *. lia.
Qed.

Lemma f64_ge_trans a b c :
  f64_is_nan a = false -> f64_is_nan b = false -> f64_is_nan c = false ->
  f64_lt b a = false -> f64_lt c b = false -> f64_lt c a = false.
Proof.
  intros Ha Hb Hc H1 H2. destruct (f64_lt c a) eqn:H; [|done]. apply f64_lt_key in H; [|done..].
  assert (~ key_lt (f64_key b) (f64_key a)) as N1 by (rewrite -f64_lt_key // H1 //).
  assert (~ key_lt (f64_key c) (f64_key b)) as N2 by (rewrite -f64_lt_key // H2 //).
  unfold key_lt in *. lia.
Qed.

Lemma f64_le_refl a : f64_is_nan a = false -> f64_le a a = true.
Proof.
  unfold f64_le. destruct a as [s|s| |s m e]; try done; cbn [SFcompare]; intros _; [by destruct s|].
  change (Pos.compare_cont Eq m m) with (Pos.compare m m). rewrite Z.compare_refl Pos.compare_refl. by destruct s.
Qed.

Lemma f64_min_le a b : f64_is_nan b = false -> f64_le (f64_min a b) b = true.
Proof.
  intros Hb. unfold f64_min. rewrite Hb. destruct (f64_is_nan a); [by apply f64_le_refl|].
  destruct (f64_lt a b) eqn:H; [|by apply f64_le_refl]. unfold f64_lt, f64_le in *. by repeat case_match.
Qed.

(** *** [slice::sort_by], for a comparison that says "before" *)

Section Sort.
Context {A : Type} (before : A -> A -> bool).

(** After every element it does not come before. *)
Fixpoint insert_by (x : A) (l : list A) : list A :=
  match l with
  | [] => [x]
  | y :: l' => if before x y then x :: y :: l' else y :: insert_by x l'
  end.

Definition sort_by (l : list A) : list A := fold_left (fun acc x => insert_by x acc) l [].

Lemma insert_by_perm x l : insert_by x l ≡ₚ x :: l.
Proof.
  induction l as [|y l IH]; [done|]. cbn. destruct (before x y); [done|]. rewrite IH. apply Permutation_swap.
Qed.

Lemma sort_by_perm l : sort_by l ≡ₚ l.
Proof.
  unfold sort_by. rewrite -{2}(app_nil_r l). generalize (@nil A). induction l as [|x l IH]; intros acc; [done|].
  cbn [fold_left app]. rewrite IH insert_by_perm. by rewrite Permutation_middle.
Qed.

Context (Q : A -> Prop).
Context (asym : forall x y, Q x -> Q y -> before x y = true -> before y x = false).
Context (trans : forall x y z, Q x -> Q y -> Q z -> before y x = false -> before z y = false -> before z x = false).

Definition ordered (l : list A) : Prop := StronglySorted (fun x y => before y x = false) l.

Lemma insert_by_ordered x l : Q x -> Forall Q l -> ordered l -> ordered (insert_by x l).
Proof.
  intros Hx. induction l as [|y l IH]; cbn; intros Hl Ho; [repeat constructor|].
  apply Forall_cons in Hl as [Hy Hl]. apply StronglySorted_inv in Ho as [Ho Hall].
  destruct (before x y) eqn:Hxy.
  - constructor; [by constructor|]. constructor; [by apply asym|].
    apply Forall_forall. intros z Hz. apply (trans x y z); [done..| | |].
    + by eapply Forall_forall in Hl.
    + by apply asym.
    + by eapply Forall_forall in Hall.
  - constructor; [by apply IH|]. rewrite insert_by_perm. by constructor.
Qed.

Lemma sort_by_ordered l : Forall Q l -> ordered (sort_by l).
Proof.
  intros Hl. unfold sort_by. assert (Forall Q (@nil A) /\ ordered (@nil A)) as [H1 H2] by repeat constructor.
  revert H1 H2. generalize (@nil A). induction l as [|x l IH]; intros acc Hacc Ho; [done|].
  apply Forall_cons in Hl as [Hx Hl]. cbn [fold_left]. apply IH; [done| |by apply insert_by_ordered].
  rewrite insert_by_perm. by constructor.
Qed.
End Sort.

(** *** [IndexMap] of vectors, filled with [entry(k).or_default().push(v)] *)

Section Groups.
Context {K V : Type} `{EqDecision K}.

Fixpoint index_push (k : K) (v : V) (l : list (K * list V)) : list (K * list V) :=
  match l with
  | [] => [(k, [v])]
  | (k', vs) :: l' => if decide (k = k') then (k', vs ++ [v]) :: l' else (k', vs) :: index_push k v l'
  end.

Definition group_by (key : V -> K) (l : list V) : list (K * list V) :=
  fold_left (fun g v => index_push (key v) v g) l [].

(** What a group map holds for a key. *)
Definition group_of (k : K) (g : list (K * list V)) : list V :=
  match List.find (fun e => bool_decide (e.1 = k)) g with Some e => e.2 | None => [] end.

Lemma index_push_keys k v g : (index_push k v g).*1 = if decide (k ∈ g.*1) then g.*1 else g.*1 ++ [k].
Proof.
  induction g as [|[k' vs] g IH]; cbn; [done|]. destruct (decide (k = k')) as [->|Hne]; cbn.
  - by rewrite decide_True; [left|].
  - rewrite IH. destruct (decide (k ∈ g.*1)) as [Hin|Hin].
    + by rewrite decide_True; [right|].
    + rewrite decide_False; [|done]. by intros [?|?]%elem_of_cons.
Qed.

Lemma index_push_NoDup k v g : NoDup g.*1 -> NoDup (index_push k v g).*1.
Proof.
  intros H. rewrite index_push_keys. destruct (decide _); [done|]. apply NoDup_app. split; [done|].
  split; [|apply NoDup_singleton]. intros x Hx Hx'%list_elem_of_singleton. by subst.
Qed.

Lemma index_push_of k v g k' :
  group_of k' (index_push k v g) = if decide (k = k') then group_of k' g ++ [v] else group_of k' g.
Proof.
  unfold group_of. induction g as [|[k2 vs] g IH]; cbn.
  - destruct (decide (k = k')) as [->|Hne]; cbn; [by rewrite bool_decide_eq_true_2|by rewrite bool_decide_eq_false_2].
  - destruct (decide (k = k2)) as [->|Hne]; cbn.
    + case_bool_decide as Hk; cbn in Hk; [subst; by rewrite decide_True|]. by rewrite decide_False.
    + case_bool_decide as Hk; cbn in Hk; [subst; by rewrite decide_False|]. exact IH.
Qed.

Lemma group_by_NoDup key l : NoDup (group_by key l).*1.
Proof.
  unfold group_by. assert (NoDup (@nil (K * list V)).*1) as H by constructor. revert H. generalize (@nil (K * list V)).
  induction l as [|v l IH]; intros g Hg; [done|]. cbn [fold_left]. by apply IH, index_push_NoDup.
Qed.

(** A group is what a filter for its key selects, in order. *)
Lemma group_by_of key l k : group_of k (group_by key l) = filter (fun v => key v = k) l.
Proof.
  unfold group_by. assert (group_of k (@nil (K * list V)) = []) as H by done.
  rewrite -[RHS]app_nil_l -H. clear H. generalize (@nil (K * list V)).
  induction l as [|v l IH]; intros g; cbn [fold_left]; [by rewrite app_nil_r|].
  rewrite IH index_push_of filter_cons. destruct (decide (key v = k)); [by rewrite -app_assoc|done].
Qed.

Lemma index_push_perm k v g : flat_map snd (index_push k v g) ≡ₚ flat_map snd g ++ [v].
Proof.
  induction g as [|[k' vs] g IH]; cbn; [done|]. destruct (decide (k = k')); cbn.
  - rewrite -!app_assoc. apply Permutation_app_head. by rewrite Permutation_app_comm.
  - by rewrite IH app_assoc.
Qed.

Lemma group_by_perm key l : flat_map snd (group_by key l) ≡ₚ l.
Proof.
  unfold group_by. assert (flat_map snd (@nil (K * list V)) = []) as H by done.
  rewrite -[X in _ ≡ₚ X]app_nil_l -H. clear H. generalize (@nil (K * list V)).
  induction l as [|v l IH]; intros g; cbn [fold_left]; [by rewrite app_nil_r|].
  rewrite IH index_push_perm. by rewrite -app_assoc.
Qed.

Lemma group_of_elem k vs (g : list (K * list V)) : NoDup g.*1 -> (k, vs) ∈ g -> group_of k g = vs.
Proof.
  unfold group_of. induction g as [|[k' ws] g IH]; intros Hnd Hin; [by apply not_elem_of_nil in Hin|].
  cbn in *. apply NoDup_cons in Hnd as [Hk Hnd]. apply elem_of_cons in Hin as [[= -> ->]|Hin].
  - by rewrite bool_decide_eq_true_2.
  - rewrite bool_decide_eq_false_2; [|by apply IH]. intros ->. apply Hk. apply list_elem_of_fmap. by exists (k, vs).
Qed.

(** The groups are the filters of the keys. *)
Lemma group_by_elem key l k vs : (k, vs) ∈ group_by key l -> vs = filter (fun v => key v = k) l.
Proof. intros H. rewrite -group_by_of. symmetry. apply group_of_elem; [apply group_by_NoDup|done]. Qed.

Lemma filter_all {B} (Q : B -> Prop) `{!forall x, Decision (Q x)} l : Forall Q l -> filter Q l = l.
Proof. induction 1 as [|x l Hx Hl IH]; [done|]. rewrite filter_cons decide_True; [done|]. by rewrite IH. Qed.

Lemma filter_none {B} (Q : B -> Prop) `{!forall x, Decision (Q x)} l : Forall (fun x => ~ Q x) l -> filter Q l = [].
Proof. induction 1 as [|x l Hx Hl IH]; [done|]. rewrite filter_cons decide_False; [done|]. by rewrite IH. Qed.

(** What is computed group by group, seen at one key. *)
Lemma flat_map_group {B} (key : V -> K) (keyB : B -> K) (f : K -> list V -> list B) l k :
  (forall k' vs, Forall (fun v => key v = k') vs -> Forall (fun b => keyB b = k') (f k' vs)) -> f k [] = [] ->
  filter (fun b => keyB b = k) (flat_map (fun e => f e.1 e.2) (group_by key l)) = f k (filter (fun v => key v = k) l).
Proof.
  intros Hf Hnil. rewrite -group_by_of.
  assert (forall k' vs, (k', vs) ∈ group_by key l -> Forall (fun b => keyB b = k') (f k' vs)) as Hkeys.
  { intros k' vs Hin%group_by_elem. subst vs. apply Hf, Forall_forall. by intros v [? _]%list_elem_of_filter. }
  pose proof (group_by_NoDup key l) as Hnd. revert Hkeys Hnd.
  induction (group_by key l) as [|[k' vs] g IH]; intros Hkeys Hnd; [done|]. cbn in Hnd. apply NoDup_cons in Hnd as [Hk Hnd].
  specialize (IH (fun k1 vs1 Hin => Hkeys k1 vs1 (list_elem_of_further _ _ _ Hin)) Hnd).
  cbn [flat_map fst snd]. rewrite filter_app IH.
  assert (Forall (fun b => keyB b = k') (f k' vs)) as Hb by (apply Hkeys; by left).
  unfold group_of at 2. cbn [List.find fst]. case_bool_decide as Hd.
  - subst k'. rewrite filter_all // /=. assert (group_of k g = []) as ->; [|by rewrite Hnil app_nil_r].
    unfold group_of. destruct (List.find _ g) as [[k2 ws]|] eqn:Hfind; [|done].
    apply List.find_some in Hfind as [Hin Hk2]. apply bool_decide_eq_true in Hk2. cbn in Hk2. subst k2.
    exfalso. apply Hk, list_elem_of_fmap. exists (k, ws). split; [done|]. by apply list_elem_of_In.
  - rewrite filter_none; [|done]. eapply Forall_impl; [exact Hb|]. intros b Hk'. cbn in Hk'. congruence.
Qed.
End Groups.

(** Integers below 2^53 as doubles: they are represented exactly, compared as
    integers, and their sums and differences are exact. *)

(** The number of binary digits. *)
Lemma digits_log2 p : Z.pos (digits2_pos p) = Z.log2 (Z.pos p) + 1.
Proof.
  induction p as [p IH|p IH|]; cbn [digits2_pos]; [..|done]; rewrite Pos2Z.inj_succ IH.
  - rewrite (Pos2Z.inj_xI p) Z.log2_succ_double; lia.
  - rewrite (Pos2Z.inj_xO p) Z.log2_double; lia.
Qed.

Lemma log2_shift p k : 0 < p -> 0 <= k -> Z.log2 (p * 2 ^ k) = Z.log2 p + k.
Proof. intros Hp Hk. rewrite Z.log2_mul_pow2; lia. Qed.

Lemma log2_small p : 0 < p < 2 ^ 53 -> 0 <= Z.log2 p < 53.
Proof. intros [H0 H]. split; [apply Z.log2_nonneg|]. by apply Z.log2_lt_pow2. Qed.

(** Shifting left and right. *)
Lemma iter_xO m d : Z.pos (Pos.iter xO m d) = Z.pos m * 2 ^ Z.pos d.
Proof. change (Pos.iter xO m d) with (Zpower.shift_pos d m). rewrite Zpower.shift_pos_correct Zpower.Zpower_pos_nat. rewrite -Zpower.Zpower_pos_nat. change (Z.pow_pos 2 d) with (2 ^ Z.pos d). lia. Qed.

Lemma shl_align_exact m e e' : e' <= e ->
  exists m', shl_align m e e' = (m', e') /\ Z.pos m' = Z.pos m * 2 ^ (e - e').
Proof.
  intros He. unfold shl_align. destruct (e' - e) as [|d|d] eqn:Hd; [|lia|].
  - assert (e' = e) as -> by lia. exists m. rewrite Z.sub_diag. split; [done|lia].
  - exists (Pos.iter xO m d). split; [done|]. rewrite iter_xO. f_equal. f_equal. lia.
Qed.

Lemma iter_pos_nat {A} (f : A -> A) n x : iter_pos f n x = Nat.iter (Pos.to_nat n) f x.
Proof.
  revert x. induction n as [n IH|n IH|]; intros x; cbn [iter_pos]; [..|done].
  - rewrite !IH -Nat.iter_add. rewrite Pos2Nat.inj_xI -Nat.iter_succ_r. f_equal. lia.
  - rewrite !IH -Nat.iter_add Pos2Nat.inj_xO. f_equal. lia.
Qed.

Lemma shr_1_double q : 0 < q -> shr_1 (Build_shr_record (2 * q) false false) = Build_shr_record q false false.
Proof. by destruct q. Qed.

Lemma shr_exact q e n : 0 < q -> 0 <= n ->
  shr (Build_shr_record (q * 2 ^ n) false false) e n = (Build_shr_record q false false, e + n).
Proof.
  intros Hq Hn. destruct n as [|n|n]; [|cbn [shr]|lia].
  - by rewrite Z.mul_1_r Z.add_0_r.
  - rewrite iter_pos_nat. f_equal. rewrite -(positive_nat_Z n). generalize (Pos.to_nat n). clear Hn. clear n.
    intros n. induction n as [|n IH]; [by rewrite Z.mul_1_r|].
    rewrite Nat.iter_succ_r Nat2Z.inj_succ Z.pow_succ_r; [lia|].
    replace (q * (2 * 2 ^ Z.of_nat n)) with (2 * (q * 2 ^ Z.of_nat n)) by lia.
    rewrite shr_1_double; [|done]. assert (0 < 2 ^ Z.of_nat n) by (apply Z.pow_pos_nonneg; lia). nia.
Qed.

Lemma fexp_normal e : -1021 <= e -> fexp 53 1024 e = e - 53.
Proof. unfold fexp, emin. lia. Qed.

(** A mantissa that needs no rounding: 53 digits once shifted. *)
Lemma round_aux_exact s q n e : 0 <= n -> Z.log2 q = 52 -> -1074 <= e + n <= 971 -> 0 < q ->
  binary_round_aux 53 1024 s (q * 2 ^ n) e loc_Exact = S754_finite s (Z.to_pos q) (e + n).
Proof.
  intros Hn Hl He Hq. assert (0 < 2 ^ n) as H2 by (apply Z.pow_pos_nonneg; lia).
  assert (forall z, 0 < z -> Zdigits2 z = Z.log2 z + 1) as Hd by (intros [|z|z] Hz; [lia|apply digits_log2|lia]).
  unfold binary_round_aux, shr_fexp. cbn [shr_record_of_loc].
  rewrite Hd; [nia|]. rewrite log2_shift // Hl fexp_normal; [lia|].
  replace (52 + n + 1 + e - 53 - e) with n by lia. rewrite shr_exact //. cbn [shr_m loc_of_shr_record round_nearest_even].
  rewrite Hd // Hl fexp_normal; [lia|]. replace (52 + 1 + (e + n) - 53 - (e + n)) with 0 by lia. cbn [shr shr_m].
  destruct q as [|q|q]; [lia| |lia]. cbn [shr_m]. by rewrite (proj2 (Z.leb_le (e + n) (1024 - 53))); [lia|].
Qed.

(** The double of an integer: its mantissa and exponent. *)
Definition mant (p : Z) : Z := p * 2 ^ (52 - Z.log2 p).

Lemma mant_log2 p : 0 < p < 2 ^ 53 -> Z.log2 (mant p) = 52.
Proof. intros Hp. pose proof (log2_small p Hp). unfold mant. rewrite log2_shift; lia. Qed.

Lemma mant_pos p : 0 < p < 2 ^ 53 -> 0 < mant p.
Proof.
  intros Hp. pose proof (log2_small p Hp). unfold mant.
  assert (0 < 2 ^ (52 - Z.log2 p)) by (apply Z.pow_pos_nonneg; lia). nia.
Qed.

Definition double (s : bool) (p : Z) : f64 := S754_finite s (Z.to_pos (mant p)) (Z.log2 p - 52).

(** An integer scaled by a power of two and back is its double. *)
Lemma round_integer s p k m : 0 < p < 2 ^ 53 -> 0 <= k <= 53 -> Z.pos m = p * 2 ^ k ->
  binary_round 53 1024 s m (- k) = double s p.
Proof.
  intros Hp Hk Hm. pose proof (log2_small p Hp) as Hl. pose proof (mant_pos p Hp) as Hq. pose proof (mant_log2 p Hp) as Hml.
  unfold binary_round, double. rewrite digits_log2 Hm log2_shift; [lia..|].
  rewrite fexp_normal; [lia|]. replace (Z.log2 p + k + 1 + - k - 53) with (Z.log2 p - 52) by lia.
  destruct (Z.le_gt_cases (Z.log2 p - 52) (- k)) as [Hle|Hgt].
  - destruct (shl_align_exact m (- k) (Z.log2 p - 52) Hle) as (m' & -> & Hm').
    replace (Z.pos m') with (mant p * 2 ^ 0).
    + rewrite round_aux_exact //; [lia|]. by rewrite Z.add_0_r.
    + rewrite Z.mul_1_r Hm' Hm -Z.mul_assoc -Z.pow_add_r; [lia..|]. unfold mant. f_equal. f_equal. lia.
  - assert (shl_align m (- k) (Z.log2 p - 52) = (m, - k)) as ->.
    { unfold shl_align. by destruct (Z.log2 p - 52 - - k) eqn:Hd; [| |lia]. }
    replace (Z.pos m) with (mant p * 2 ^ (Z.log2 p - 52 + k)).
    + rewrite round_aux_exact //; [lia..|]. f_equal. lia.
    + rewrite Hm. unfold mant. rewrite -Z.mul_assoc -Z.pow_add_r; [lia..|]. f_equal. f_equal. lia.
Qed.

Lemma normalize_integer p k z : 0 <= p < 2 ^ 53 -> 0 <= k <= 53 -> z = p * 2 ^ k ->
  binary_normalize 53 1024 z (- k) false = if p =? 0 then f64_zero else double false p.
Proof.
  intros Hp Hk ->. destruct (Z.eqb_spec p 0) as [->|Hne]; [done|].
  assert (0 < 2 ^ k) by (apply Z.pow_pos_nonneg; lia). destruct (p * 2 ^ k) as [|m|m] eqn:Hm; [nia| |nia].
  cbn [binary_normalize]. by apply round_integer; [lia|lia|].
Qed.

Lemma f64_of_integer p : 0 <= p < 2 ^ 53 -> f64_of_Z p = if p =? 0 then f64_zero else double false p.
Proof. intros Hp. unfold f64_of_Z. change 0 with (- 0) at 1. apply normalize_integer; lia. Qed.

(** The mantissas of two integers aligned to the smaller exponent. *)
Lemma mant_aligned p e : 0 < p < 2 ^ 53 -> e <= Z.log2 p - 52 -> e <= 0 ->
  Z.pos (fst (shl_align (Z.to_pos (mant p)) (Z.log2 p - 52) e)) = p * 2 ^ (- e).
Proof.
  intros Hp He H0. destruct (shl_align_exact (Z.to_pos (mant p)) (Z.log2 p - 52) e He) as (m & -> & Hm). cbn [fst].
  pose proof (mant_pos p Hp). pose proof (log2_small p Hp). rewrite Hm Z2Pos.id //. unfold mant.
  rewrite -Z.mul_assoc -Z.pow_add_r; [lia..|]. f_equal. f_equal. lia.
Qed.

Lemma f64_sub_integer a b : 0 <= b <= a -> a < 2 ^ 53 -> f64_sub (f64_of_Z a) (f64_of_Z b) = f64_of_Z (a - b).
Proof.
  intros Hb Ha. rewrite !f64_of_integer; [lia..|].
  destruct (Z.eqb_spec b 0) as [->|Hb0].
  { rewrite Z.sub_0_r. by destruct (Z.eqb_spec a 0). }
  rewrite (proj2 (Z.eqb_neq a 0)); [lia|]. unfold double at 1 2.
  pose proof (log2_small a ltac:(lia)). pose proof (log2_small b ltac:(lia)). pose proof (Z.log2_le_mono b a ltac:(lia)).
  set (e := Z.min (Z.log2 a - 52) (Z.log2 b - 52)). unfold f64_sub, SFsub, cond_Zopp. fold e.
  rewrite !mant_aligned; [lia..|]. rewrite -Z.mul_sub_distr_r. rewrite -{2}(Z.opp_involutive e).
  apply normalize_integer; lia.
Qed.

Lemma f64_add_integer a b : 0 <= a -> 0 <= b -> a + b < 2 ^ 53 -> f64_add (f64_of_Z a) (f64_of_Z b) = f64_of_Z (a + b).
Proof.
  intros Ha Hb Hab. rewrite !f64_of_integer; [lia..|].
  destruct (Z.eqb_spec a 0) as [->|Ha0]; [rewrite Z.add_0_l; by destruct (Z.eqb_spec b 0)|].
  destruct (Z.eqb_spec b 0) as [->|Hb0]; [rewrite Z.add_0_r; by rewrite (proj2 (Z.eqb_neq a 0))|].
  unfold double at 1 2. pose proof (log2_small a ltac:(lia)). pose proof (log2_small b ltac:(lia)).
  unfold f64_add, SFadd, cond_Zopp. set (e := Z.min (Z.log2 a - 52) (Z.log2 b - 52)).
  rewrite !mant_aligned; [lia..|]. rewrite -Z.mul_add_distr_r. rewrite -{2}(Z.opp_involutive e).
  apply normalize_integer; lia.
Qed.

(** A fact about positives as one about integers. *)
Ltac pos_to_Z H :=
  match type of H with
  | (?p < ?q)%positive => change (Z.pos p < Z.pos q) in H
  | ?p = ?q => apply (f_equal Z.pos) in H
  end.

Lemma f64_lt_integer a b : 0 <= a < 2 ^ 53 -> 0 <= b < 2 ^ 53 -> f64_lt (f64_of_Z a) (f64_of_Z b) = (a <? b).
Proof.
  intros Ha Hb. rewrite !f64_of_integer //.
  destruct (Z.eqb_spec a 0) as [->|Ha0], (Z.eqb_spec b 0) as [->|Hb0]; [done| | |].
  - symmetry. apply Z.ltb_lt. lia.
  - symmetry. apply Z.ltb_ge. lia.
  - unfold f64_lt, double, SFcompare.
    destruct (Z.compare_spec (Z.log2 a - 52) (Z.log2 b - 52)) as [He|He|He].
    + change (Pos.compare_cont Eq (Z.to_pos (mant a)) (Z.to_pos (mant b)))
        with (Pos.compare (Z.to_pos (mant a)) (Z.to_pos (mant b))).
      pose proof (mant_pos a ltac:(lia)). pose proof (mant_pos b ltac:(lia)). pose proof (log2_small a ltac:(lia)).
      assert (0 < 2 ^ (52 - Z.log2 a)) as Hpow by (apply Z.pow_pos_nonneg; lia).
      assert (mant a = a * 2 ^ (52 - Z.log2 a) /\ mant b = b * 2 ^ (52 - Z.log2 a)) as [Hma Hmb].
      { unfold mant. split; [done|]. do 2 f_equal. lia. }
      destruct (Pos.compare_spec (Z.to_pos (mant a)) (Z.to_pos (mant b))) as [Hm|Hm|Hm];
        symmetry; [apply Z.ltb_ge|apply Z.ltb_lt|apply Z.ltb_ge]; pos_to_Z Hm;
        rewrite ?Z2Pos.id // in Hm; nia.
    + symmetry. apply Z.ltb_lt, Z.log2_lt_cancel. lia.
    + symmetry. apply Z.ltb_ge, Z.lt_le_incl, Z.log2_lt_cancel. lia.
Qed.

(** A difference below zero is not positive. *)
Lemma round_aux_negative m e l : f64_lt f64_zero (binary_round_aux 53 1024 true m e l) = false.
Proof.
  unfold binary_round_aux. destruct (shr_fexp _ _ m e l) as [r1 e1]. destruct (shr_fexp _ _ _ e1 _) as [r2 e2].
  destruct (shr_m r2) as [|m2|m2]; [done| |done]. by destruct (_ <=? _).
Qed.

Lemma f64_sub_negative a b : 0 <= a < b -> b < 2 ^ 53 -> f64_lt f64_zero (f64_sub (f64_of_Z a) (f64_of_Z b)) = false.
Proof.
  intros Ha Hb. rewrite !f64_of_integer; [lia..|]. rewrite (proj2 (Z.eqb_neq b 0)); [lia|].
  destruct (Z.eqb_spec a 0) as [->|Ha0]; [done|]. unfold double.
  pose proof (log2_small a ltac:(lia)). pose proof (log2_small b ltac:(lia)).
  unfold f64_sub, SFsub, cond_Zopp. set (e := Z.min (Z.log2 a - 52) (Z.log2 b - 52)).
  rewrite !mant_aligned; [lia..|]. rewrite -Z.mul_sub_distr_r.
  assert (0 < 2 ^ (- e)) by (apply Z.pow_pos_nonneg; lia).
  destruct ((a - b) * 2 ^ (- e)) as [|m|m] eqn:Hm; [nia..|]. cbn [binary_normalize]. unfold binary_round.
  destruct (shl_align _ _ _) as [m' e']. apply round_aux_negative.
Qed.

(** The growth of a counter, floored at zero, and the larger of two. *)
Lemma f64_growth a b : 0 <= a < 2 ^ 53 -> 0 <= b < 2 ^ 53 ->
  f64_max (f64_sub (f64_of_Z a) (f64_of_Z b)) f64_zero = f64_of_Z (Z.max 0 (a - b)).
Proof.
  intros Ha Hb. unfold f64_max. destruct (Z.le_gt_cases b a) as [Hle|Hgt].
  - rewrite f64_sub_integer; [lia..|]. rewrite Z.max_r; [lia|].
    assert (f64_is_nan (f64_of_Z (a - b)) = false) as -> by (rewrite f64_of_integer; [lia|by destruct (_ =? _)]).
    change f64_zero with (f64_of_Z 0). rewrite f64_lt_integer; [lia..|]. cbn [f64_is_nan].
    change (f64_is_nan (f64_of_Z 0)) with false. cbv iota.
    destruct (Z.ltb_spec 0 (a - b)); [done|]. by assert (a - b = 0) as -> by lia.
  - rewrite f64_sub_negative; [lia..|]. rewrite Z.max_l; [lia|]. by destruct (f64_is_nan _).
Qed.

Lemma f64_max_integer a b : 0 <= a < 2 ^ 53 -> 0 <= b < 2 ^ 53 ->
  f64_max (f64_of_Z a) (f64_of_Z b) = f64_of_Z (Z.max a b).
Proof.
  intros Ha Hb. unfold f64_max. assert (forall p, 0 <= p < 2 ^ 53 -> f64_is_nan (f64_of_Z p) = false) as Hn.
  { intros p Hp. rewrite f64_of_integer //. by destruct (_ =? _). }
  rewrite !Hn // f64_lt_integer //. destruct (Z.ltb_spec b a); f_equal; lia.
Qed.

Lemma f64_integer_finite p : 0 <= p < 2 ^ 53 -> f64_is_finite (f64_of_Z p) = true.
Proof. intros Hp. rewrite f64_of_integer //. by destruct (_ =? _). Qed.

Lemma f64_trunc_integer p : 0 <= p < 2 ^ 53 -> f64_trunc_Z (f64_of_Z p) = p.
Proof.
  intros Hp. rewrite f64_of_integer //. destruct (Z.eqb_spec p 0) as [->|Hne]; [done|].
  pose proof (mant_pos p ltac:(lia)). pose proof (log2_small p ltac:(lia)).
  unfold double, f64_trunc_Z. rewrite Z2Pos.id //. unfold mant.
  destruct (Z.leb_spec 0 (Z.log2 p - 52)) as [He|He].
  - assert (Z.log2 p = 52) as -> by lia. change (2 ^ (52 - 52)) with 1. lia.
  - replace (- (Z.log2 p - 52)) with (52 - Z.log2 p) by lia. apply Z.quot_mul.
    assert (0 < 2 ^ (52 - Z.log2 p)) by (apply Z.pow_pos_nonneg; lia). lia.
Qed.
