(* ===== verification/Platform.v ===== *)
(** Interfaces to the code that is not under src/: the uuid, serde_json and
    chrono crates and the SQLite library. [Platform] gathers the operations the
    control plane calls, [PlatformLaws] the documented behaviour it relies on.
    Nothing else of those libraries is assumed. *)
From S2P Require Import Prelude.
From S2P Require Import RustStr.
From S2P Require Import Float64.

Local Open Scope Z_scope.
#[local] Set Warnings "-register-all".

(** [chrono::DateTime<Utc>]: an instant, in nanoseconds since the Unix epoch. *)
Abbreviation Time := Z.

(** The SQLite failures the store can provoke. *)
Inductive SqlError :=
| UniqueViolation (column : string)
| FromSqlConversionFailure (msg : string)
| InvalidColumnType
| SqliteFailure (msg : string).

(** [serde_json::Number]: an integer of 64 bits, signed or not, or a finite double. *)
Inductive Number :=
| Num_int (z : Z)
| Num_float (f : f64).

(** [serde_json::Value], which is a public enum: what a match on a value sees. An
    object's entries are in insertion order. *)
Inductive JsonTree :=
| Json_null
| Json_bool (b : bool)
| Json_number (n : Number)
| Json_string (s : string)
| Json_array (l : list JsonTree)
| Json_object (l : list (string * JsonTree)).

Class Platform := {
  (* uuid *)
  Uuid : Type;
  Uuid_eq_dec :: EqDecision Uuid;
  Uuid_countable :: Countable Uuid;
  uuid_to_string : Uuid -> string;
  uuid_parse_str : string -> option Uuid;
  uuid_error : string -> string;
  uuid_nil : Uuid;
  (* serde_json *)
  Value : Type;
  value_null : Value;
  value_bool : bool -> Value;
  value_i64 : Z -> Value;
  value_str : string -> Value;
  value_array : list Value -> Value;
  value_object : list (string * Value) -> Value;
  value_get : Value -> string -> option Value;
  value_is_null : Value -> bool;
  value_as_bool : Value -> option bool;
  value_as_i64 : Value -> option Z;
  value_as_str : Value -> option string;
  value_as_array : Value -> option (list Value);
  value_as_object : Value -> option (list (string * Value));
  value_tree : Value -> JsonTree;
  json_to_string : Value -> string;
  json_from_str : string -> option Value;
  json_error : string -> string;
  value_error : Value -> string;   (* the message of serde_json::from_value *)
  (* chrono *)
  to_rfc3339_nanos : Time -> string;
  parse_from_rfc3339 : string -> option Time;
  rfc3339_error : string -> string;
  value_time : Time -> Value;
  value_as_time : Value -> option Time;
  (* rusqlite *)
  sqlite_message : SqlError -> string;
  (* [Debug for str], used in two error messages only *)
  debug_str : string -> string;
}.

(** The association-list lookup that [serde_json::Map::get] performs. *)
Fixpoint assoc {V} (k : string) (l : list (string * V)) : option V :=
  match l with
  | [] => None
  | (k', v) :: l' => if String.eqb k k' then Some v else assoc k l'
  end.

(** The instants RFC 3339 text with a four-digit year can carry, from the epoch
    on: 1970-01-01T00:00:00Z to 9999-12-31T23:59:59.999999999Z. *)
Definition time_ok (t : Time) : Prop := 0 <= t <= 253402300799999999999.

#[global] Instance time_ok_dec t : Decision (time_ok t).
Proof. unfold time_ok. apply _. Defined.

Class PlatformLaws (P : Platform) : Prop := {
  (* Uuid::parse_str reads what Display writes. *)
  uuid_roundtrip u : uuid_parse_str (uuid_to_string u) = Some u;
  (* the nil UUID is a constant of the crate *)
  uuid_nil_text : uuid_parse_str "00000000-0000-0000-0000-000000000000" = Some uuid_nil;
  (* serde_json::from_str reads what to_string writes. *)
  json_roundtrip v : json_from_str (json_to_string v) = Some v;
  (* the empty text is not JSON *)
  json_empty : json_from_str EmptyString = None;
  (* serde_json::to_string is compact and escapes control characters: one line of
     UTF-8. *)
  json_one_line v : byte_free LF (json_to_string v) = true;
  json_utf8 v : utf8_valid (json_to_string v) = true;
  (* The accessors of serde_json::Value on each constructor. *)
  get_object l k : NoDup l.*1 -> value_get (value_object l) k = assoc k l;
  is_null_null : value_is_null value_null = true;
  is_null_bool b : value_is_null (value_bool b) = false;
  is_null_i64 z : value_is_null (value_i64 z) = false;
  is_null_str s : value_is_null (value_str s) = false;
  is_null_object l : value_is_null (value_object l) = false;
  is_null_time t : value_is_null (value_time t) = false;
  as_bool_bool b : value_as_bool (value_bool b) = Some b;
  as_bool_str s : value_as_bool (value_str s) = None;
  as_bool_array l : value_as_bool (value_array l) = None;
  as_i64_i64 z : value_as_i64 (value_i64 z) = Some z;
  as_str_str s : value_as_str (value_str s) = Some s;
  as_str_null : value_as_str value_null = None;
  as_array_array l : value_as_array (value_array l) = Some l;
  tree_i64 z : value_tree (value_i64 z) = Json_number (Num_int z);
  tree_str s : value_tree (value_str s) = Json_string s;
  tree_object l : value_tree (value_object l) = Json_object ((fun e => (e.1, value_tree e.2)) <$> l);
  (* parse_from_rfc3339 reads what to_rfc3339_opts(Nanos, true) writes, and the
     fixed-width text orders like the instants. *)
  rfc3339_roundtrip t : time_ok t -> parse_from_rfc3339 (to_rfc3339_nanos t) = Some t;
  rfc3339_order t u : time_ok t -> time_ok u ->
    String.leb (to_rfc3339_nanos t) (to_rfc3339_nanos u) = (t <=? u);
  (* serde of DateTime<Utc>. *)
  time_roundtrip t : time_ok t -> value_as_time (value_time t) = Some t;
}.

Create Rewrite HintDb platform.
#[export] Hint Rewrite @uuid_roundtrip @json_roundtrip @is_null_null @is_null_bool @is_null_i64
  @is_null_str @is_null_object @is_null_time @as_bool_bool @as_bool_str @as_bool_array
  @as_i64_i64 @as_str_str @as_str_null @as_array_array using (solve [eauto]) : platform.

Section PlatformFacts.
Context {P : Platform} {PL : PlatformLaws P}.

Lemma uuid_to_string_inj u v : uuid_to_string u = uuid_to_string v -> u = v.
Proof. intros H. pose proof (uuid_roundtrip u) as Hu. rewrite H uuid_roundtrip in Hu. congruence. Qed.

Lemma uuid_eqb_iff u v : String.eqb (uuid_to_string u) (uuid_to_string v) = bool_decide (u = v).
Proof.
  case_bool_decide as Huv; [subst; apply String.eqb_refl|].
  apply String.eqb_neq. intros H. by apply Huv, uuid_to_string_inj.
Qed.

Lemma json_to_string_inj v w : json_to_string v = json_to_string w -> v = w.
Proof. intros H. pose proof (json_roundtrip v) as Hv. rewrite H json_roundtrip in Hv. congruence. Qed.
End PlatformFacts.

(** What a decoder finds under a key of such an object. *)
Section ObjectOf.
Context {V : Type}.
Implicit Types fields : list (string * option V).

Definition present fields : list (string * V) := omap (fun '(k, o) => pair k <$> o) fields.

Lemma present_keys fields k : k ∈ (present fields).*1 -> k ∈ fields.*1.
Proof.
  unfold present. induction fields as [|[k' [v|]] fields IH]; cbn; [done| |].
  - intros [->|Hin]%elem_of_cons; apply elem_of_cons; eauto.
  - intros Hin. apply elem_of_cons. eauto.
Qed.

Lemma present_NoDup fields : NoDup fields.*1 -> NoDup (present fields).*1.
Proof.
  induction fields as [|[k' [v|]] fields IH]; cbn; [constructor| |];
    intros [Hk Hnd]%NoDup_cons; [|by apply IH].
  apply NoDup_cons. split; [|by apply IH]. by intros ?%present_keys.
Qed.

Lemma assoc_None k (l : list (string * V)) : k ∉ l.*1 -> assoc k l = None.
Proof.
  induction l as [|[k' v] l IH]; cbn; [done|].
  intros [Hne Hk]%not_elem_of_cons. rewrite (proj2 (String.eqb_neq _ _) Hne). by apply IH.
Qed.

Lemma assoc_present fields k : NoDup fields.*1 -> assoc k (present fields) = mjoin (assoc k fields).
Proof.
  induction fields as [|[k' o] fields IH]; cbn; [done|].
  intros [Hk Hnd]%NoDup_cons. specialize (IH Hnd).
  destruct (String.eqb_spec k k') as [->|Hne]; destruct o as [v|]; cbn.
  - by rewrite String.eqb_refl.
  - apply assoc_None. by intros ?%present_keys.
  - rewrite (proj2 (String.eqb_neq _ _) Hne). exact IH.
  - exact IH.
Qed.
End ObjectOf.

(** [serde]'s derived [Serialize] of a struct whose optional fields carry
    [skip_serializing_if]: an absent field is not written at all. *)
Definition object_of {P : Platform} (fields : list (string * option Value)) : Value :=
  value_object (present fields).

Lemma get_object_of {P : Platform} {PL : PlatformLaws P} (fields : list (string * option Value)) k :
  NoDup fields.*1 -> value_get (object_of fields) k = mjoin (assoc k fields).
Proof.
  intros Hnd. unfold object_of. rewrite get_object; [by apply present_NoDup|].
  by apply assoc_present.
Qed.

(** Decide the duplicate-freeness of a literal field list. *)
Ltac solve_keys := cbn [fmap list_fmap fst]; apply (bool_decide_unpack _); vm_compute; exact I.

(** Compute a decoder on an encoded object. *)
Ltac json_simpl :=
  repeat (first [ rewrite get_object_of; [solve_keys|] | rewrite get_object; [solve_keys|] ];
          cbn [assoc String.eqb Ascii.eqb Bool.eqb mjoin option_join]).
