(* ===== verification/JsNum.v ===== *)
(** JavaScript's numbers and coercions (crates/stackhour-core/src/jsnum.rs):
    truthiness, [String(v)], [Number(v)], [Math.round] and the number text of
    ECMA-262. *)
From S2P Require Import Prelude.
From S2P Require Import RustStr.
From S2P Require Import Float64.
From S2P Require Import Platform.
From Stdlib Require Import Ascii SpecFloat.

(** Decimal text: integers in a fixed width, and the text of a double as Rust's
    standard library reads and writes it. *)

Local Open Scope Z_scope.

(** *** Integers *)

(** An ASCII digit and its value. *)
Definition digit (n : Z) : ascii := ascii_of_N (48 + Z.to_N n).
Definition digit_value (a : ascii) : option Z :=
  let b := Z.of_N (N_of_ascii a) in
  if (48 <=? b) && (b <=? 57) then Some (b - 48) else None.

(** The decimal text of [0 <= n < 10^w] in [w] digits, as [format!("{:0w}", n)] gives it. *)
Fixpoint zero_padded (w : nat) (n : Z) : string :=
  match w with
  | O => EmptyString
  | S w' => zero_padded w' (n / 10) +:+ String (digit (n mod 10)) EmptyString
  end.

(** The value of a text of digits, most significant first, after [n]. *)
Fixpoint digits (n : Z) (s : string) : option Z :=
  match s with
  | EmptyString => Some n
  | String c r => d ← digit_value c; digits (n * 10 + d) r
  end.

Lemma digit_roundtrip n : 0 <= n <= 9 -> digit_value (digit n) = Some n.
Proof.
  intros Hn. rewrite -(Z2Nat.id n); [lia|]. assert (Z.to_nat n < 10)%nat as Hk by lia.
  generalize dependent (Z.to_nat n). intros k Hk. do 10 (destruct k as [|k]; [done|]). lia.
Qed.

Lemma digits_app n s t : digits n (s +:+ t) = digits n s ≫= fun k => digits k t.
Proof.
  revert n. induction s as [|a s IH]; intros n; [done|].
  change ((d ← digit_value a; digits (n * 10 + d) (s +:+ t)) =
          (d ← digit_value a; digits (n * 10 + d) s) ≫= fun k => digits k t).
  destruct (digit_value a); [apply IH|done].
Qed.

Lemma digits_padded w n : 0 <= n < 10 ^ Z.of_nat w -> digits 0 (zero_padded w n) = Some n.
Proof.
  revert n. induction w as [|w IH]; intros n Hn.
  - cbn in *. f_equal. lia.
  - rewrite Nat2Z.inj_succ Z.pow_succ_r in Hn; [lia|]. cbn [zero_padded]. rewrite digits_app IH.
    + split; [apply Z.div_pos; lia|]. apply Z.div_lt_upper_bound; lia.
    + cbn [mbind option_bind digits]. rewrite digit_roundtrip; [pose proof (Z.mod_pos_bound n 10 eq_refl); lia|].
      cbn [mbind option_bind]. f_equal. pose proof (Z.div_mod n 10 ltac:(lia)). lia.
Qed.

(** *** Doubles *)

(** The double nearest to [d * 10^x], ties to even: what [str::parse::<f64>] gives for
    that decimal. *)
Definition f64_of_decimal (neg : bool) (d x : Z) : f64 :=
  match d with
  | Zpos p =>
      if 0 <=? x then
        match d * 10 ^ x with Zpos q => binary_round 53 1024 neg q 0 | _ => S754_zero neg end
      else
        let '(q, e, l) := SFdiv_core_binary 53 1024 d 0 (10 ^ (- x)) 0 in
        binary_round_aux 53 1024 neg q e l
  | _ => S754_zero neg
  end.

(** [m * 2^e] as a fraction. *)
Definition ratio_of (m : positive) (e : Z) : Z * Z :=
  if 0 <=? e then (Zpos m * 2 ^ e, 1) else (Zpos m, 2 ^ (- e)).

Definition below (num den n : Z) : bool := if 0 <=? n then num <? den * 10 ^ n else num * 10 ^ (- n) <? den.

(** The position of the decimal point, the least [n] with [num / den < 10^n]: next to
    the one the binary logarithms give (log10 2 = 0.30103). *)
Definition point_of (num den : Z) : Z :=
  let n := (Z.log2 num - Z.log2 den - 1) * 30103 / 100000 in
  default (n + 3) (List.find (below num den) [n; n + 1; n + 2]).

(** Among the [k]-digit decimals next to [m * 2^e], the closest one that reads back as
    it, the upper one when both are as close: its digits as a number, and the
    exponent of its last digit. *)
Definition candidate (m : positive) (e n k : Z) : option (Z * Z) :=
  let '(num, den) := ratio_of m e in
  let x := n - k in
  let '(num, den) := if 0 <=? x then (num, den * 10 ^ x) else (num * 10 ^ (- x), den) in
  let lo := num / den in
  let reads d := bool_decide (f64_of_decimal false d x = S754_finite false m e) in
  if reads (lo + 1) && (negb (reads lo) || (den <=? 2 * (num - lo * den)))
  then Some (if lo + 1 =? 10 ^ k then (10 ^ (k - 1), x + 1) else (lo + 1, x))
  else if reads lo then Some (lo, x)
  else None.

(** The shortest such decimal, and its number of digits. Seventeen digits identify
    every double. *)
Fixpoint shortest_from (fuel : nat) (m : positive) (e n k : Z) : Z * (Z * Z) :=
  match fuel with
  | O => (k, default (0, 0) (candidate m e n k))
  | S fuel' =>
      match candidate m e n k with
      | Some c => (k, c)
      | None => shortest_from fuel' m e n (k + 1)
      end
  end.
Definition shortest (m : positive) (e : Z) : Z * (Z * Z) :=
  let '(num, den) := ratio_of m e in shortest_from 16 m e (point_of num den) 1.

(** JavaScript's numbers and coercions (crates/stackhour-core/src/jsnum.rs):
    truthiness, [String(v)], [Number(v)], [Math.round] and the number text of
    ECMA-262. *)

(** *** Reading a number *)

(** [is_js_whitespace] *)
Definition is_js_whitespace (c : N) : bool := N.eqb c 65279 || (is_whitespace c && negb (N.eqb c 133)).

Definition js_trim (s : string) : string := trim_matches is_js_whitespace s.

(** [char::to_digit] *)
Definition to_digit (radix : Z) (a : ascii) : option Z :=
  let b := Z.of_N (N_of_ascii a) in
  let d := if (48 <=? b) && (b <=? 57) then b - 48
           else if (97 <=? b) && (b <=? 122) then b - 87
           else if (65 <=? b) && (b <=? 90) then b - 55
           else radix in
  if d <? radix then Some d else None.

(** The loop of [parse_radix_digits]: exact in 128 bits, then in floating point. *)
Fixpoint radix_digits (radix : Z) (s : string) (acc : Z) (f_acc : option f64) : f64 :=
  match s with
  | EmptyString => match f_acc with Some f => f | None => f64_of_Z acc end
  | String a r =>
      match to_digit radix a with
      | None => S754_nan
      | Some d =>
          match f_acc with
          | Some f => radix_digits radix r acc (Some (f64_add (f64_mul f (f64_of_Z radix)) (f64_of_Z d)))
          | None =>
              if acc * radix + d <? 2 ^ 128 then radix_digits radix r (acc * radix + d) None
              else radix_digits radix r acc (Some (f64_add (f64_mul (f64_of_Z acc) (f64_of_Z radix)) (f64_of_Z d)))
          end
      end
  end.
Definition parse_radix_digits (s : string) (radix : Z) : f64 :=
  if str_is_empty s then S754_nan else radix_digits radix s 0 None.

(** The leading digits of a text, and what follows them. *)
Fixpoint span_digits (s : string) : string * string :=
  match s with
  | String a r => match digit_value a with Some _ => let '(d, t) := span_digits r in (String a d, t) | None => (EmptyString, s) end
  | EmptyString => (EmptyString, EmptyString)
  end.

(** An optional sign: whether it is a minus, and the rest. *)
Definition span_sign (s : string) : bool * string :=
  match s with
  | String "+" r => (false, r)
  | String "-" r => (true, r)
  | _ => (false, s)
  end.

(** The parts of a decimal literal: sign, digits before and after the point, and the
    exponent's sign and digits when there is one. *)
Record Literal := MkLiteral {
  lt_neg : bool; lt_int : string; lt_frac : string; lt_exp : option (bool * string); lt_rest : string;
}.

Definition scan (s : string) : Literal :=
  let '(neg, s) := span_sign s in
  let '(int, s) := span_digits s in
  let '(frac, s) := match s with String "." r => span_digits r | _ => (EmptyString, s) end in
  let '(e, s) :=
    match s with
    | String ("e" | "E") r =>
        let '(eneg, r) := span_sign r in let '(digits, r) := span_digits r in (Some (eneg, digits), r)
    | _ => (None, s)
    end in
  MkLiteral neg int frac e s.

(** [is_valid_js_decimal] *)
Definition is_valid_js_decimal (s : string) : bool :=
  let l := scan s in
  negb (str_is_empty (lt_int l) && str_is_empty (lt_frac l))
  && match lt_exp l with Some (_, digits) => negb (str_is_empty digits) | None => true end
  && str_is_empty (lt_rest l).

Definition digits_to_Z (s : string) : Z := default 0 (digits 0 s).

(** [t.parse::<f64>()] of such a literal. *)
Definition parse_f64 (s : string) : f64 :=
  let l := scan s in
  let e := match lt_exp l with
           | Some (neg, digits) => if neg then - digits_to_Z digits else digits_to_Z digits
           | None => 0
           end in
  f64_of_decimal (lt_neg l) (digits_to_Z (lt_int l +:+ lt_frac l)) (e - Z.of_nat (String.length (lt_frac l))).

(** [parse_js_number_str] *)
Definition parse_js_number_str (s : string) : f64 :=
  let t := js_trim s in
  if str_is_empty t then f64_zero
  else
    let '(neg, unsigned) := span_sign t in
    if String.eqb unsigned "Infinity" then S754_infinity neg
    else
      let decimal := if is_valid_js_decimal t then parse_f64 t else S754_nan in
      match t with
      | String "0" (String ("x" | "X") r) => parse_radix_digits r 16
      | String "0" (String ("o" | "O") r) => parse_radix_digits r 8
      | String "0" (String ("b" | "B") r) => parse_radix_digits r 2
      | _ => decimal
      end.

(** *** Writing a number *)

Fixpoint zeros (n : nat) : string := match n with O => EmptyString | S n' => String "0" (zeros n') end.

(** The layout of [js_f64_to_string] for [k] digits whose point is at [n]. *)
Definition layout (digits : string) (k n : Z) : string :=
  if (k <=? n) && (n <=? 21) then digits +:+ zeros (Z.to_nat (n - k))
  else if (0 <? n) && (n <=? 21) then
    String.substring 0 (Z.to_nat n) digits +:+ "." +:+
      String.substring (Z.to_nat n) (String.length digits - Z.to_nat n) digits
  else if (-6 <? n) && (n <=? 0) then "0." +:+ zeros (Z.to_nat (- n)) +:+ digits
  else
    let e := n - 1 in
    let mant := if k =? 1 then digits
                else String.substring 0 1 digits +:+ "." +:+ String.substring 1 (String.length digits - 1) digits in
    mant +:+ "e" +:+ (if Z.leb 0 e then "+" else "-") +:+ pretty.pretty (Z.abs e).

(** [js_f64_to_string] *)
Definition js_f64_to_string (f : f64) : string :=
  match f with
  | S754_nan => "NaN"
  | S754_zero _ => "0"
  | S754_infinity neg => if neg then "-Infinity" else "Infinity"
  | S754_finite neg m e =>
      let '(k, (d, x)) := shortest m e in
      let body := layout (zero_padded (Z.to_nat k) d) k (x + k) in
      if neg then "-" +:+ body else body
  end.

(** *** Coercions *)

(** [Number::as_f64]: an integer converts to the nearest double. *)
Definition number_f64 (n : Number) : f64 := match n with Num_int z => f64_of_Z z | Num_float f => f end.

(** [js_truthy] *)
Definition js_truthy (v : JsonTree) : bool :=
  match v with
  | Json_null => false
  | Json_bool b => b
  | Json_number n => negb (f64_eq (number_f64 n) f64_zero)
  | Json_string s => negb (str_is_empty s)
  | Json_array _ | Json_object _ => true
  end.

(** [js_display] *)
Fixpoint js_display (v : JsonTree) : string :=
  match v with
  | Json_null => "null"
  | Json_bool b => if b then "true" else "false"
  | Json_number n => js_f64_to_string (number_f64 n)
  | Json_string s => s
  | Json_array items =>
      String.concat "," (map (fun e => match e with Json_null => EmptyString | _ => js_display e end) items)
  | Json_object _ => "[object Object]"
  end.

(** [js_number] *)
Definition js_number (v : JsonTree) : f64 :=
  match v with
  | Json_null => f64_zero
  | Json_bool b => if b then f64_of_Z 1 else f64_zero
  | Json_number n => number_f64 n
  | Json_string s => parse_js_number_str s
  | Json_array _ => parse_js_number_str (js_display v)
  | Json_object _ => S754_nan
  end.

(** [js_round_f64] *)
Definition f64_half : f64 := f64_of_decimal false 5 (-1).
Definition js_round_f64 (f : f64) : f64 :=
  match f with
  | S754_nan => f64_zero
  | S754_infinity _ => f
  | _ =>
      let floor := f64_floor f in
      if f64_le f64_half (f64_sub f floor) then f64_add floor (f64_of_Z 1) else floor
  end.

(** [js_round] *)
Definition js_round (f : f64) : Z := f64_to_i64 (js_round_f64 f).

(** [nonneg] *)
Definition nonneg (v : JsonTree) (integer : bool) : f64 :=
  let n := if js_truthy v then js_number v else f64_zero in
  if negb (f64_is_finite n) || f64_lt n f64_zero then f64_zero
  else if integer then f64_of_Z (js_round n) else n.

(** [js_string_or] *)
Definition js_string_or (v : option JsonTree) (default : string) : string :=
  match v with
  | Some val => if js_truthy val then js_display val else default
  | None => default
  end.

(** [number_param] *)
Definition number_param (raw : option string) (default : f64) (min max : option f64) : f64 :=
  let value := match raw with None => default | Some s => parse_js_number_str s end in
  let value := if f64_is_finite value then value else default in
  let value := match min with Some mn => f64_max value mn | None => value end in
  match max with Some mx => f64_min value mx | None => value end.

(** [json_num] *)
Definition json_num (f : f64) : Number :=
  if f64_is_finite f && f64_eq f (f64_trunc f) && f64_le (f64_abs f) (f64_of_Z (2 ^ 53))
  then Num_int (f64_to_i64 f)
  else if f64_is_finite f then Num_float f else Num_int 0.

(** [Value::get] *)
Definition get (k : string) (v : JsonTree) : option JsonTree :=
  match v with Json_object l => assoc k l | _ => None end.

(** [Value::as_str] *)
Definition as_str (v : JsonTree) : option string := match v with Json_string s => Some s | _ => None end.

(** *** The text of a number is never empty *)

Lemma str_app_empty s t : str_is_empty (s +:+ t) = str_is_empty s && str_is_empty t.
Proof. by destruct s. Qed.

Lemma zero_padded_nonempty w n : str_is_empty (zero_padded (S w) n) = false.
Proof. cbn [zero_padded]. rewrite str_app_empty. by rewrite andb_false_r. Qed.

Lemma layout_nonempty digits k n : str_is_empty digits = false -> str_is_empty (layout digits k n) = false.
Proof.
  intros Hd. unfold layout. repeat case_match; rewrite ?str_app_empty ?Hd //; cbn; rewrite ?andb_false_r //.
Qed.

Lemma shortest_from_digits fuel m e n k : k <= (shortest_from fuel m e n k).1.
Proof.
  revert k. induction fuel as [|fuel IH]; intros k; cbn [shortest_from]; [cbn; lia|].
  destruct (candidate m e n k); [cbn; lia|]. specialize (IH (k + 1)). lia.
Qed.

Lemma js_f64_nonempty f : str_is_empty (js_f64_to_string f) = false.
Proof.
  destruct f as [?|[]| |neg m e]; [done..|]. unfold js_f64_to_string, shortest. destruct (ratio_of m e) as [num den].
  pose proof (shortest_from_digits 16 m e (point_of num den) 1) as Hk.
  destruct (shortest_from 16 m e (point_of num den) 1) as [k [d x]]. cbn [fst] in Hk.
  assert (str_is_empty (layout (zero_padded (Z.to_nat k) d) k (x + k)) = false) as Hl.
  { apply layout_nonempty. destruct (Z.to_nat k) eqn:Hn; [lia|]. apply zero_padded_nonempty. }
  by destruct neg.
Qed.
