(* ===== verification/Ids.v ===== *)
(** Newtype identifiers (crates/stackhour-domain/src/ids.rs). The [uuid_id!]
    macro declares five UUID newtypes with the same methods: here one type
    family indexed by which of the five it is. *)
From S2P Require Import Prelude.
From S2P Require Import Platform.

Inductive IdKind := KTask | KRun | KEvent | KCommand | KApproval.

Section Ids.
Context {P : Platform}.

Record Id (k : IdKind) : Type := MkId { as_uuid : Uuid }.
Arguments MkId {k} as_uuid.
Arguments as_uuid {k} i.

#[export] Instance Id_eq_dec k : EqDecision (Id k).
Proof. intros [u] [v]. destruct (decide (u = v)); [left|right]; congruence. Defined.

#[export] Instance Id_countable k : Countable (Id k).
Proof. refine (inj_countable' as_uuid MkId _). by intros []. Defined.

(** [$name::new()]: the UUID is the random-v4 draw. *)
Definition id_new {k} (v4 : Uuid) : Id k := MkId v4.

(** [Display] *)
Definition id_to_string {k} (i : Id k) : string := uuid_to_string (as_uuid i).

(** [FromStr] *)
Definition id_from_str {k} (s : string) : Result (Id k) :=
  ok_or (MkId <$> uuid_parse_str s) (Error_msg (uuid_error s)).

(** [Serialize] / [Deserialize]: the plain string form. *)
Definition id_to_value {k} (i : Id k) : Value := value_str (id_to_string i).
Definition id_from_value {k} (v : Value) : option (Id k) :=
  s ← value_as_str v; MkId <$> uuid_parse_str s.

(** [NodeId(pub String)] *)
Record NodeId := MkNodeId { node_as_str : string }.

#[export] Instance NodeId_eq_dec : EqDecision NodeId.
Proof. solve_decision. Defined.
#[export] Instance NodeId_countable : Countable NodeId.
Proof. refine (inj_countable' node_as_str MkNodeId _). by intros []. Defined.

Definition node_id_to_value (n : NodeId) : Value := value_str (node_as_str n).
Definition node_id_from_value (v : Value) : option NodeId := MkNodeId <$> value_as_str v.
End Ids.

Arguments MkId {P k} as_uuid.
Arguments as_uuid {P k} i.

Abbreviation TaskId := (Id KTask).
Abbreviation RunId := (Id KRun).
Abbreviation EventId := (Id KEvent).
Abbreviation CommandId := (Id KCommand).
Abbreviation ApprovalId := (Id KApproval).

Section IdLaws.
Context {P : Platform} {PL : PlatformLaws P}.

Lemma id_from_to_string {k} (i : Id k) : id_from_str (id_to_string i) = Ok i.
Proof. destruct i as [u]. unfold id_from_str, id_to_string. by rewrite uuid_roundtrip. Qed.

Lemma id_from_to_value {k} (i : Id k) : id_from_value (id_to_value i) = Some i.
Proof.
  destruct i as [u]. unfold id_from_value, id_to_value, id_to_string.
  rewrite as_str_str /=. by rewrite uuid_roundtrip.
Qed.

Lemma node_id_from_to_value n : node_id_from_value (node_id_to_value n) = Some n.
Proof. destruct n. unfold node_id_from_value, node_id_to_value. by rewrite as_str_str. Qed.

Lemma id_to_string_inj {k} (i j : Id k) : id_to_string i = id_to_string j -> i = j.
Proof. destruct i, j. unfold id_to_string. simpl. intros ?%uuid_to_string_inj. congruence. Qed.

Lemma id_eqb {k} (i j : Id k) :
  String.eqb (id_to_string i) (id_to_string j) = bool_decide (i = j).
Proof.
  case_bool_decide as H; [subst; apply String.eqb_refl|].
  apply String.eqb_neq. by intros ?%id_to_string_inj.
Qed.

Lemma id_eqb_refl {k} (i : Id k) : String.eqb (id_to_string i) (id_to_string i) = true.
Proof. apply String.eqb_refl. Qed.
End IdLaws.

#[export] Hint Rewrite @id_from_to_string @id_from_to_value @node_id_from_to_value
  using (solve [eauto]) : platform.
