(* ===== verification/Entities.v ===== *)
(** The durable entities and their on-disk tokens
    (crates/stackhour-domain/src/entities.rs). *)
From S2P Require Import Prelude.
From S2P Require Import Platform.
From S2P Require Import Ids.

(** Reject an unknown enum token read back from the database. *)
Definition unknown (kind got : string) : Error := Error_msg ("unknown " +:+ kind +:+ ": " +:+ got).

Module ConnectionStatus.
Inductive t := Connected | Disconnected.

Definition as_str (s : t) : string :=
  match s with
  | Connected => "connected"
  | Disconnected => "disconnected"
  end.

Definition from_db (s : string) : Result t :=
  if String.eqb s "connected" then Ok Connected
  else if String.eqb s "disconnected" then Ok Disconnected
  else Err (unknown "connection status" s).
End ConnectionStatus.

Module TaskStatus.
Inductive t := Open | Running | Completed | Failed | Interrupted.

Definition as_str (s : t) : string :=
  match s with
  | Open => "open"
  | Running => "running"
  | Completed => "completed"
  | Failed => "failed"
  | Interrupted => "interrupted"
  end.

Definition from_db (s : string) : Result t :=
  if String.eqb s "open" then Ok Open
  else if String.eqb s "running" then Ok Running
  else if String.eqb s "completed" then Ok Completed
  else if String.eqb s "failed" then Ok Failed
  else if String.eqb s "interrupted" then Ok Interrupted
  else Err (unknown "task status" s).
End TaskStatus.

Module AccessPolicy.
Inductive t := Supervised | Automatic | FullAccess.

Definition as_str (s : t) : string :=
  match s with
  | Supervised => "supervised"
  | Automatic => "automatic"
  | FullAccess => "full_access"
  end.

Definition from_db (s : string) : Result t :=
  if String.eqb s "supervised" then Ok Supervised
  else if String.eqb s "automatic" then Ok Automatic
  else if String.eqb s "full_access" then Ok FullAccess
  else Err (unknown "access policy" s).
End AccessPolicy.

Module RunStatus.
Inductive t := Started | Interrupted | Completed | Failed.

Definition as_str (s : t) : string :=
  match s with
  | Started => "started"
  | Interrupted => "interrupted"
  | Completed => "completed"
  | Failed => "failed"
  end.

Definition from_db (s : string) : Result t :=
  if String.eqb s "started" then Ok Started
  else if String.eqb s "interrupted" then Ok Interrupted
  else if String.eqb s "completed" then Ok Completed
  else if String.eqb s "failed" then Ok Failed
  else Err (unknown "run status" s).
End RunStatus.

Module Decision.
Inductive t := Pending | Allowed | Denied.

Definition as_str (s : t) : string :=
  match s with
  | Pending => "pending"
  | Allowed => "allowed"
  | Denied => "denied"
  end.

Definition from_db (s : string) : Result t :=
  if String.eqb s "pending" then Ok Pending
  else if String.eqb s "allowed" then Ok Allowed
  else if String.eqb s "denied" then Ok Denied
  else Err (unknown "decision" s).
End Decision.

#[export] Instance ConnectionStatus_eq_dec : EqDecision ConnectionStatus.t.
Proof. solve_decision. Defined.
#[export] Instance TaskStatus_eq_dec : EqDecision TaskStatus.t.
Proof. solve_decision. Defined.
#[export] Instance AccessPolicy_eq_dec : EqDecision AccessPolicy.t.
Proof. solve_decision. Defined.
#[export] Instance RunStatus_eq_dec : EqDecision RunStatus.t.
Proof. solve_decision. Defined.
#[export] Instance Decision_eq_dec : EqDecision Decision.t.
Proof. solve_decision. Defined.

(** Every token parses back to its variant: the on-disk contract. *)
Lemma ConnectionStatus_roundtrip s : ConnectionStatus.from_db (ConnectionStatus.as_str s) = Ok s.
Proof. by destruct s. Qed.
Lemma TaskStatus_roundtrip s : TaskStatus.from_db (TaskStatus.as_str s) = Ok s.
Proof. by destruct s. Qed.
Lemma AccessPolicy_roundtrip s : AccessPolicy.from_db (AccessPolicy.as_str s) = Ok s.
Proof. by destruct s. Qed.
Lemma RunStatus_roundtrip s : RunStatus.from_db (RunStatus.as_str s) = Ok s.
Proof. by destruct s. Qed.
Lemma Decision_roundtrip s : Decision.from_db (Decision.as_str s) = Ok s.
Proof. by destruct s. Qed.

Section Entities.
Context {P : Platform}.

Record Node := MkNode {
  n_id : NodeId;
  n_label : string;
  n_status : ConnectionStatus.t;
  n_software_version : string;
  n_capabilities : Value;
  n_last_seen_sequence : option Z;
}.

Record Task := MkTask {
  t_id : TaskId;
  t_title : string;
  t_status : TaskStatus.t;
  t_created_at : Time;
}.

Record Run := MkRun {
  r_id : RunId;
  r_task_id : TaskId;
  r_node_id : NodeId;
  r_engine : string;
  r_model : option string;
  r_reasoning_effort : option string;
  r_system_prompt : option string;
  r_access_policy : AccessPolicy.t;
  r_workspace_path : option string;
  r_status : RunStatus.t;
  r_started_at : Time;
}.

Record Approval := MkApproval {
  a_id : ApprovalId;
  a_run_id : RunId;
  a_task_id : TaskId;
  a_tool_call_id : string;
  a_scope : string;
  a_options : list string;
  a_expires_at : option Time;
  a_decision : Decision.t;
  a_resolved_by : option string;
  a_created_at : Time;
  a_resolved_at : option Time;
}.

(** [Approval::is_pending] *)
Definition is_pending (a : Approval) : bool := bool_decide (a_decision a = Decision.Pending).

(** [Approval::is_expired] *)
Definition is_expired (a : Approval) (now : Time) : bool :=
  is_pending a &&
  match a_expires_at a with Some exp => (exp <=? now)%Z | None => false end.
End Entities.
