(* ===== verification/Event.v ===== *)
(** The event vocabulary and the event rows
    (crates/stackhour-domain/src/event.rs). *)
From S2P Require Import Prelude.
From S2P Require Import Platform.
From S2P Require Import Ids.

(** [PROTOCOL_VERSION] *)
Definition PROTOCOL_VERSION : Z := 5.

Inductive EventKind :=
| TaskCreated
| RunStarted
| RunInterrupted
| RunCompleted
| RunFailed
| MessageUser
| MessageAssistantDelta
| MessageAssistantCompleted
| ApprovalRequested
| ApprovalResolved
| NodeConnected
| NodeDisconnected.

#[export] Instance EventKind_eq_dec : EqDecision EventKind.
Proof. solve_decision. Defined.

(** [EventKind::ALL] *)
Definition EventKind_ALL : list EventKind :=
  [TaskCreated; RunStarted; RunInterrupted; RunCompleted; RunFailed; MessageUser;
   MessageAssistantDelta; MessageAssistantCompleted; ApprovalRequested; ApprovalResolved;
   NodeConnected; NodeDisconnected].

(** [EventKind::as_str], also the serde spelling. *)
Definition kind_as_str (k : EventKind) : string :=
  match k with
  | TaskCreated => "task.created"
  | RunStarted => "run.started"
  | RunInterrupted => "run.interrupted"
  | RunCompleted => "run.completed"
  | RunFailed => "run.failed"
  | MessageUser => "message.user"
  | MessageAssistantDelta => "message.assistant.delta"
  | MessageAssistantCompleted => "message.assistant.completed"
  | ApprovalRequested => "approval.requested"
  | ApprovalResolved => "approval.resolved"
  | NodeConnected => "node.connected"
  | NodeDisconnected => "node.disconnected"
  end.

(** [EventKind::from_dotted] *)
Definition from_dotted (s : string) : option EventKind :=
  List.find (fun k => String.eqb (kind_as_str k) s) EventKind_ALL.

Lemma kind_in_all (k : EventKind) : k ∈ EventKind_ALL.
Proof. destruct k; apply (bool_decide_unpack _); exact I. Qed.

Lemma kind_roundtrip (k : EventKind) : from_dotted (kind_as_str k) = Some k.
Proof. by destruct k. Qed.

Lemma from_dotted_sound s k : from_dotted s = Some k -> s = kind_as_str k.
Proof. intros [_ H]%List.find_some. by apply String.eqb_eq in H. Qed.

Section Event.
Context {P : Platform}.

Record EventDraft := MkDraft {
  d_kind : EventKind;
  d_task_id : TaskId;
  d_run_id : option RunId;
  d_provider_session_id : option string;
  d_node_id : NodeId;
  d_protocol_version : Z;
  d_occurred_at : Time;
  d_payload : Value;
}.

(** [EventDraft::new]; [now] is the clock reading it makes. *)
Definition draft_new (now : Time) (kind : EventKind) (task_id : TaskId) (node_id : NodeId) : EventDraft :=
  {| d_kind := kind;
     d_task_id := task_id;
     d_run_id := None;
     d_provider_session_id := None;
     d_node_id := node_id;
     d_protocol_version := PROTOCOL_VERSION;
     d_occurred_at := now;
     d_payload := value_null |}.

(** [EventDraft::with_run], also the assignment [draft.run_id = ..]. *)
Definition set_run_id (r : option RunId) (d : EventDraft) : EventDraft :=
  {| d_kind := d_kind d; d_task_id := d_task_id d; d_run_id := r;
     d_provider_session_id := d_provider_session_id d; d_node_id := d_node_id d;
     d_protocol_version := d_protocol_version d; d_occurred_at := d_occurred_at d;
     d_payload := d_payload d |}.
Definition with_run (run_id : RunId) (d : EventDraft) : EventDraft := set_run_id (Some run_id) d.

(** [EventDraft::with_payload] *)
Definition with_payload (payload : Value) (d : EventDraft) : EventDraft :=
  {| d_kind := d_kind d; d_task_id := d_task_id d; d_run_id := d_run_id d;
     d_provider_session_id := d_provider_session_id d; d_node_id := d_node_id d;
     d_protocol_version := d_protocol_version d; d_occurred_at := d_occurred_at d;
     d_payload := payload |}.

(** [draft.provider_session_id = ..] *)
Definition set_session (s : option string) (d : EventDraft) : EventDraft :=
  {| d_kind := d_kind d; d_task_id := d_task_id d; d_run_id := d_run_id d;
     d_provider_session_id := s; d_node_id := d_node_id d;
     d_protocol_version := d_protocol_version d; d_occurred_at := d_occurred_at d;
     d_payload := d_payload d |}.

Record Event := MkEvent {
  e_sequence : Z;
  e_event_id : EventId;
  e_command_id : option CommandId;
  e_kind : EventKind;
  e_task_id : TaskId;
  e_run_id : option RunId;
  e_provider_session_id : option string;
  e_node_id : NodeId;
  e_protocol_version : Z;
  e_occurred_at : Time;
  e_hub_received_at : Time;
  e_payload : Value;
}.

(** The event a draft becomes once the hub has stamped it. *)
Definition stamp (sequence : Z) (event_id : EventId) (command_id : option CommandId)
    (draft : EventDraft) (received_at : Time) : Event :=
  {| e_sequence := sequence; e_event_id := event_id; e_command_id := command_id;
     e_kind := d_kind draft; e_task_id := d_task_id draft; e_run_id := d_run_id draft;
     e_provider_session_id := d_provider_session_id draft; e_node_id := d_node_id draft;
     e_protocol_version := d_protocol_version draft; e_occurred_at := d_occurred_at draft;
     e_hub_received_at := received_at; e_payload := d_payload draft |}.
End Event.
