(* ===== verification/Protocol.v ===== *)
(** The wire-message contract between clients, the hub and execution nodes
    (crates/stackhour-domain/src/protocol.rs): the message types, the version
    negotiation and the receipts. Their JSON form is in Wire.v. *)
From S2P Require Import Prelude.
From S2P Require Import Platform.
From S2P Require Import Ids.
From S2P Require Import Entities.
From S2P Require Import Event.

(** [WIRE_PROTOCOL_VERSION] *)
Definition WIRE_PROTOCOL_VERSION : Z := PROTOCOL_VERSION.

Section Protocol.
Context {P : Platform}.

Inductive ClientCommand :=
| CC_CreateTask (command_id : CommandId) (title : string)
| CC_SendUserMessage (command_id : CommandId) (task_id : TaskId) (run_id : option RunId)
    (text : string) (client_message_id : string)
| CC_StartRun (command_id : CommandId) (task_id : TaskId) (node_id : option NodeId)
    (engine : string) (model reasoning_effort system_prompt : option string)
    (access_policy : AccessPolicy.t) (workspace_path : option string)
| CC_InterruptRun (command_id : CommandId) (run_id : RunId)
| CC_ResolveApproval (command_id : CommandId) (approval_id : ApprovalId)
    (decision : Decision.t) (actor : string).

(** [ClientCommand::command_id] *)
Definition command_id (c : ClientCommand) : CommandId :=
  match c with
  | CC_CreateTask i _ | CC_SendUserMessage i _ _ _ _ | CC_StartRun i _ _ _ _ _ _ _ _
  | CC_InterruptRun i _ | CC_ResolveApproval i _ _ _ => i
  end.

Record Subscribe := MkSubscribe {
  sub_token : option string;
  sub_after_sequence : option Z;
}.

Inductive ProtocolError :=
| VersionMismatch (client hub : Z)
| Unauthenticated
| UnknownTask (task_id : TaskId)
| UnknownRun (run_id : RunId)
| NoEligibleNode (engine : string) (node_id : option NodeId)
| UnknownApproval (approval_id : ApprovalId)
| Expired
| InvalidRequest (message : string).

Inductive HubToClient :=
| HC_CommandReceipt (command_id : CommandId) (accepted : bool) (assigned_sequence : option Z)
    (event_id : option EventId) (error : option ProtocolError)
| HC_EventDelivery (event : Event)
| HC_SubscribeAck (after_sequence : option Z) (head_sequence : Z)
| HC_Heartbeat.

(** [HubToClient::accepted] *)
Definition accepted_receipt (c : CommandId) (assigned_sequence : Z) (event_id : EventId) : HubToClient :=
  HC_CommandReceipt c true (Some assigned_sequence) (Some event_id) None.

(** [HubToClient::rejected] *)
Definition rejected_receipt (c : CommandId) (error : ProtocolError) : HubToClient :=
  HC_CommandReceipt c false None None (Some error).

Record NodeHello := MkHello {
  h_node_id : NodeId;
  h_token : string;
  h_software_version : string;
  h_protocol_version : Z;
  h_capabilities : Value;
  h_resume_after_sequence : option Z;
}.

Record HubWelcome := MkWelcome {
  w_accepted : bool;
  w_protocol_version : Z;
  w_error : option ProtocolError;
}.

(** [HubWelcome::accept] *)
Definition welcome_accept : HubWelcome :=
  {| w_accepted := true; w_protocol_version := WIRE_PROTOCOL_VERSION; w_error := None |}.

(** [HubWelcome::reject] *)
Definition welcome_reject (e : ProtocolError) : HubWelcome :=
  {| w_accepted := false; w_protocol_version := WIRE_PROTOCOL_VERSION; w_error := Some e |}.

(** [HubWelcome::negotiate] *)
Definition negotiate (node_version : Z) : HubWelcome :=
  if (node_version =? WIRE_PROTOCOL_VERSION)%Z then welcome_accept
  else welcome_reject (VersionMismatch node_version WIRE_PROTOCOL_VERSION).

Inductive NodeToHub :=
| NH_NodeEvent (event_id : EventId) (draft : EventDraft)
| NH_CommandAck (command_id : CommandId)
| NH_Heartbeat.

Inductive NodeWork :=
| NW_StartRun (run_id : RunId) (task_id : TaskId) (engine : string)
    (model reasoning_effort system_prompt : option string) (access_policy : AccessPolicy.t)
    (workspace_path : option string)
| NW_SendPrompt (task_id : TaskId) (run_id : RunId) (text : string) (client_message_id : string)
| NW_InterruptRun (run_id : RunId)
| NW_Update (version : string).

Inductive HubToNode :=
| HN_DispatchCommand (command_id : CommandId) (expires_at : option Time) (work : NodeWork)
| HN_ApprovalDecision (approval_id : ApprovalId) (decision : Decision.t) (actor : string)
| HN_CancelCommand (command_id : CommandId)
| HN_EventAck (event_id : EventId)
| HN_Heartbeat.
End Protocol.

(** [Display] of an integer: decimal digits with a sign. *)
Definition display_i64 (z : Z) : string := pretty.pretty z.

(** [Display for ProtocolError] *)
Definition protocol_error_display {P : Platform} (e : ProtocolError) : string :=
  match e with
  | VersionMismatch client hub =>
      "protocol version mismatch: client " +:+ display_i64 client +:+ ", hub " +:+ display_i64 hub
  | Unauthenticated => "unauthenticated node"
  | UnknownTask t => "unknown task: " +:+ id_to_string t
  | UnknownRun r => "unknown run: " +:+ id_to_string r
  | NoEligibleNode engine (Some n) =>
      "node " +:+ node_as_str n +:+ " is not active and eligible for engine " +:+ engine
  | NoEligibleNode engine None => "no active node is eligible for engine " +:+ engine
  | UnknownApproval a => "unknown approval: " +:+ id_to_string a
  | Expired => "request expired"
  | InvalidRequest message => "invalid request: " +:+ message
  end.

(** A node is accepted exactly when it speaks the hub's version, and the
    welcome always states that version. *)
Lemma negotiate_spec {P : Platform} v :
  w_protocol_version (negotiate v) = WIRE_PROTOCOL_VERSION /\
  (w_accepted (negotiate v) = true <-> v = WIRE_PROTOCOL_VERSION) /\
  (w_error (negotiate v) = None <-> v = WIRE_PROTOCOL_VERSION).
Proof.
  unfold negotiate. destruct (Z.eqb_spec v WIRE_PROTOCOL_VERSION); simpl; naive_solver.
Qed.
