(* ===== verification/Wire.v ===== *)
(** The JSON form of the wire messages: what serde derives from the attributes
    of crates/stackhour-domain/src/protocol.rs and event.rs. Enums are
    internally tagged ([tag = "type", rename_all = "snake_case"]), a field with
    [skip_serializing_if = "Option::is_none"] is left out when absent, and an
    optional field is read as [None] when it is missing or null. *)
From S2P Require Import Prelude.
From S2P Require Import Platform.
From S2P Require Import Ids.
From S2P Require Import Entities.
From S2P Require Import Event.
From S2P Require Import Protocol.

Section Wire.
Context {P : Platform}.

(** A required and an optional struct field. *)
Definition req {A} (f : Value -> option A) (v : Value) (k : string) : option A :=
  w ← value_get v k; f w.
Definition opt {A} (f : Value -> option A) (v : Value) (k : string) : option (option A) :=
  match value_get v k with
  | None => Some None
  | Some w => if value_is_null w then Some None else Some <$> f w
  end.

(** [Option<T>] serialized without [skip_serializing_if]. *)
Definition nullable {A} (f : A -> Value) (o : option A) : Value :=
  match o with Some a => f a | None => value_null end.

Definition tagged (tag : string) (fields : list (string * option Value)) : Value :=
  object_of (("type"%string, Some (value_str tag)) :: fields).
Definition get_tag (v : Value) : option string := req value_as_str v "type".

(** *** Enumerations spelled in snake case *)

Definition policy_to_value (p : AccessPolicy.t) : Value := value_str (AccessPolicy.as_str p).
Definition policy_from_value (v : Value) : option AccessPolicy.t :=
  s ← value_as_str v; res_ok (AccessPolicy.from_db s).

Definition decision_to_value (d : Decision.t) : Value := value_str (Decision.as_str d).
Definition decision_from_value (v : Value) : option Decision.t :=
  s ← value_as_str v; res_ok (Decision.from_db s).

Definition kind_to_value (k : EventKind) : Value := value_str (kind_as_str k).
Definition kind_from_value (v : Value) : option EventKind := s ← value_as_str v; from_dotted s.

(** *** Structs of event.rs *)

Definition draft_to_value (d : EventDraft) : Value := object_of
  [("kind", Some (kind_to_value (d_kind d)));
   ("task_id", Some (id_to_value (d_task_id d)));
   ("run_id", Some (nullable id_to_value (d_run_id d)));
   ("provider_session_id", Some (nullable value_str (d_provider_session_id d)));
   ("node_id", Some (node_id_to_value (d_node_id d)));
   ("protocol_version", Some (value_i64 (d_protocol_version d)));
   ("occurred_at", Some (value_time (d_occurred_at d)));
   ("payload", Some (d_payload d))]%string.

Definition draft_from_value (v : Value) : option EventDraft :=
  kind ← req kind_from_value v "kind";
  task_id ← req id_from_value v "task_id";
  run_id ← opt id_from_value v "run_id";
  provider_session_id ← opt value_as_str v "provider_session_id";
  node_id ← req node_id_from_value v "node_id";
  protocol_version ← req value_as_i64 v "protocol_version";
  occurred_at ← req value_as_time v "occurred_at";
  payload ← value_get v "payload";
  Some (MkDraft kind task_id run_id provider_session_id node_id protocol_version occurred_at payload).

Definition event_to_value (e : Event) : Value := object_of
  [("sequence", Some (value_i64 (e_sequence e)));
   ("event_id", Some (id_to_value (e_event_id e)));
   ("command_id", Some (nullable id_to_value (e_command_id e)));
   ("kind", Some (kind_to_value (e_kind e)));
   ("task_id", Some (id_to_value (e_task_id e)));
   ("run_id", Some (nullable id_to_value (e_run_id e)));
   ("provider_session_id", Some (nullable value_str (e_provider_session_id e)));
   ("node_id", Some (node_id_to_value (e_node_id e)));
   ("protocol_version", Some (value_i64 (e_protocol_version e)));
   ("occurred_at", Some (value_time (e_occurred_at e)));
   ("hub_received_at", Some (value_time (e_hub_received_at e)));
   ("payload", Some (e_payload e))]%string.

Definition event_from_value (v : Value) : option Event :=
  sequence ← req value_as_i64 v "sequence";
  event_id ← req id_from_value v "event_id";
  command_id ← opt id_from_value v "command_id";
  kind ← req kind_from_value v "kind";
  task_id ← req id_from_value v "task_id";
  run_id ← opt id_from_value v "run_id";
  provider_session_id ← opt value_as_str v "provider_session_id";
  node_id ← req node_id_from_value v "node_id";
  protocol_version ← req value_as_i64 v "protocol_version";
  occurred_at ← req value_as_time v "occurred_at";
  hub_received_at ← req value_as_time v "hub_received_at";
  payload ← value_get v "payload";
  Some (MkEvent sequence event_id command_id kind task_id run_id provider_session_id node_id
          protocol_version occurred_at hub_received_at payload).

(** *** Client to hub *)

Definition client_command_to_value (c : ClientCommand) : Value :=
  match c with
  | CC_CreateTask cid title => tagged "create_task"
      [("command_id", Some (id_to_value cid)); ("title", Some (value_str title))]%string
  | CC_SendUserMessage cid task_id run_id text cmid => tagged "send_user_message"
      [("command_id", Some (id_to_value cid)); ("task_id", Some (id_to_value task_id));
       ("run_id", id_to_value <$> run_id); ("text", Some (value_str text));
       ("client_message_id", Some (value_str cmid))]%string
  | CC_StartRun cid task_id node_id engine model effort prompt policy workspace => tagged "start_run"
      [("command_id", Some (id_to_value cid)); ("task_id", Some (id_to_value task_id));
       ("node_id", node_id_to_value <$> node_id); ("engine", Some (value_str engine));
       ("model", value_str <$> model); ("reasoning_effort", value_str <$> effort);
       ("system_prompt", value_str <$> prompt); ("access_policy", Some (policy_to_value policy));
       ("workspace_path", value_str <$> workspace)]%string
  | CC_InterruptRun cid run_id => tagged "interrupt_run"
      [("command_id", Some (id_to_value cid)); ("run_id", Some (id_to_value run_id))]%string
  | CC_ResolveApproval cid approval_id decision actor => tagged "resolve_approval"
      [("command_id", Some (id_to_value cid)); ("approval_id", Some (id_to_value approval_id));
       ("decision", Some (decision_to_value decision)); ("actor", Some (value_str actor))]%string
  end.

Definition client_command_from_value (v : Value) : option ClientCommand :=
  tag ← get_tag v;
  cid ← req id_from_value v "command_id";
  if String.eqb tag "create_task" then CC_CreateTask cid <$> req value_as_str v "title"
  else if String.eqb tag "send_user_message" then
    task_id ← req id_from_value v "task_id";
    run_id ← opt id_from_value v "run_id";
    text ← req value_as_str v "text";
    cmid ← req value_as_str v "client_message_id";
    Some (CC_SendUserMessage cid task_id run_id text cmid)
  else if String.eqb tag "start_run" then
    task_id ← req id_from_value v "task_id";
    node_id ← opt node_id_from_value v "node_id";
    engine ← req value_as_str v "engine";
    model ← opt value_as_str v "model";
    effort ← opt value_as_str v "reasoning_effort";
    prompt ← opt value_as_str v "system_prompt";
    policy ← req policy_from_value v "access_policy";
    workspace ← opt value_as_str v "workspace_path";
    Some (CC_StartRun cid task_id node_id engine model effort prompt policy workspace)
  else if String.eqb tag "interrupt_run" then CC_InterruptRun cid <$> req id_from_value v "run_id"
  else if String.eqb tag "resolve_approval" then
    approval_id ← req id_from_value v "approval_id";
    decision ← req decision_from_value v "decision";
    actor ← req value_as_str v "actor";
    Some (CC_ResolveApproval cid approval_id decision actor)
  else None.

Definition subscribe_to_value (s : Subscribe) : Value := object_of
  [("token", value_str <$> sub_token s); ("after_sequence", value_i64 <$> sub_after_sequence s)]%string.
Definition subscribe_from_value (v : Value) : option Subscribe :=
  token ← opt value_as_str v "token";
  after_sequence ← opt value_as_i64 v "after_sequence";
  Some (MkSubscribe token after_sequence).

(** *** Errors and hub-to-client frames *)

Definition protocol_error_to_value (e : ProtocolError) : Value :=
  match e with
  | VersionMismatch client hub => tagged "version_mismatch"
      [("client", Some (value_i64 client)); ("hub", Some (value_i64 hub))]%string
  | Unauthenticated => tagged "unauthenticated" []
  | UnknownTask t => tagged "unknown_task" [("task_id", Some (id_to_value t))]%string
  | UnknownRun r => tagged "unknown_run" [("run_id", Some (id_to_value r))]%string
  | NoEligibleNode engine n => tagged "no_eligible_node"
      [("engine", Some (value_str engine)); ("node_id", node_id_to_value <$> n)]%string
  | UnknownApproval a => tagged "unknown_approval" [("approval_id", Some (id_to_value a))]%string
  | Expired => tagged "expired" []
  | InvalidRequest m => tagged "invalid_request" [("message", Some (value_str m))]%string
  end.

Definition protocol_error_from_value (v : Value) : option ProtocolError :=
  tag ← get_tag v;
  if String.eqb tag "version_mismatch" then
    client ← req value_as_i64 v "client"; hub ← req value_as_i64 v "hub";
    Some (VersionMismatch client hub)
  else if String.eqb tag "unauthenticated" then Some Unauthenticated
  else if String.eqb tag "unknown_task" then UnknownTask <$> req id_from_value v "task_id"
  else if String.eqb tag "unknown_run" then UnknownRun <$> req id_from_value v "run_id"
  else if String.eqb tag "no_eligible_node" then
    engine ← req value_as_str v "engine"; node_id ← opt node_id_from_value v "node_id";
    Some (NoEligibleNode engine node_id)
  else if String.eqb tag "unknown_approval" then
    UnknownApproval <$> req id_from_value v "approval_id"
  else if String.eqb tag "expired" then Some Expired
  else if String.eqb tag "invalid_request" then InvalidRequest <$> req value_as_str v "message"
  else None.

Definition hub_to_client_to_value (m : HubToClient) : Value :=
  match m with
  | HC_CommandReceipt cid acc seq event_id error => tagged "command_receipt"
      [("command_id", Some (id_to_value cid)); ("accepted", Some (value_bool acc));
       ("assigned_sequence", value_i64 <$> seq); ("event_id", id_to_value <$> event_id);
       ("error", protocol_error_to_value <$> error)]%string
  | HC_EventDelivery e => tagged "event_delivery" [("event", Some (event_to_value e))]%string
  | HC_SubscribeAck after head => tagged "subscribe_ack"
      [("after_sequence", value_i64 <$> after); ("head_sequence", Some (value_i64 head))]%string
  | HC_Heartbeat => tagged "heartbeat" []
  end.

Definition hub_to_client_from_value (v : Value) : option HubToClient :=
  tag ← get_tag v;
  if String.eqb tag "command_receipt" then
    cid ← req id_from_value v "command_id";
    acc ← req value_as_bool v "accepted";
    seq ← opt value_as_i64 v "assigned_sequence";
    event_id ← opt id_from_value v "event_id";
    error ← opt protocol_error_from_value v "error";
    Some (HC_CommandReceipt cid acc seq event_id error)
  else if String.eqb tag "event_delivery" then HC_EventDelivery <$> req event_from_value v "event"
  else if String.eqb tag "subscribe_ack" then
    after ← opt value_as_i64 v "after_sequence";
    head ← req value_as_i64 v "head_sequence";
    Some (HC_SubscribeAck after head)
  else if String.eqb tag "heartbeat" then Some HC_Heartbeat
  else None.

(** *** Node link *)

Definition hello_to_value (h : NodeHello) : Value := object_of
  [("node_id", Some (node_id_to_value (h_node_id h)));
   ("token", Some (value_str (h_token h)));
   ("software_version", Some (value_str (h_software_version h)));
   ("protocol_version", Some (value_i64 (h_protocol_version h)));
   ("capabilities", Some (h_capabilities h));
   ("resume_after_sequence", value_i64 <$> h_resume_after_sequence h)]%string.

Definition hello_from_value (v : Value) : option NodeHello :=
  node_id ← req node_id_from_value v "node_id";
  token ← req value_as_str v "token";
  software_version ← req value_as_str v "software_version";
  protocol_version ← req value_as_i64 v "protocol_version";
  capabilities ← value_get v "capabilities";
  resume ← opt value_as_i64 v "resume_after_sequence";
  Some (MkHello node_id token software_version protocol_version capabilities resume).

Definition welcome_to_value (w : HubWelcome) : Value := object_of
  [("accepted", Some (value_bool (w_accepted w)));
   ("protocol_version", Some (value_i64 (w_protocol_version w)));
   ("error", protocol_error_to_value <$> w_error w)]%string.

Definition welcome_from_value (v : Value) : option HubWelcome :=
  accepted ← req value_as_bool v "accepted";
  protocol_version ← req value_as_i64 v "protocol_version";
  error ← opt protocol_error_from_value v "error";
  Some (MkWelcome accepted protocol_version error).

Definition node_to_hub_to_value (m : NodeToHub) : Value :=
  match m with
  | NH_NodeEvent event_id draft => tagged "node_event"
      [("event_id", Some (id_to_value event_id)); ("draft", Some (draft_to_value draft))]%string
  | NH_CommandAck cid => tagged "command_ack" [("command_id", Some (id_to_value cid))]%string
  | NH_Heartbeat => tagged "heartbeat" []
  end.

Definition node_to_hub_from_value (v : Value) : option NodeToHub :=
  tag ← get_tag v;
  if String.eqb tag "node_event" then
    event_id ← req id_from_value v "event_id"; draft ← req draft_from_value v "draft";
    Some (NH_NodeEvent event_id draft)
  else if String.eqb tag "command_ack" then NH_CommandAck <$> req id_from_value v "command_id"
  else if String.eqb tag "heartbeat" then Some NH_Heartbeat
  else None.

Definition node_work_to_value (w : NodeWork) : Value :=
  match w with
  | NW_StartRun run_id task_id engine model effort prompt policy workspace => tagged "start_run"
      [("run_id", Some (id_to_value run_id)); ("task_id", Some (id_to_value task_id));
       ("engine", Some (value_str engine)); ("model", value_str <$> model);
       ("reasoning_effort", value_str <$> effort); ("system_prompt", value_str <$> prompt);
       ("access_policy", Some (policy_to_value policy));
       ("workspace_path", value_str <$> workspace)]%string
  | NW_SendPrompt task_id run_id text cmid => tagged "send_prompt"
      [("task_id", Some (id_to_value task_id)); ("run_id", Some (id_to_value run_id));
       ("text", Some (value_str text)); ("client_message_id", Some (value_str cmid))]%string
  | NW_InterruptRun run_id => tagged "interrupt_run" [("run_id", Some (id_to_value run_id))]%string
  | NW_Update version => tagged "update" [("version", Some (value_str version))]%string
  end.

Definition node_work_from_value (v : Value) : option NodeWork :=
  tag ← get_tag v;
  if String.eqb tag "start_run" then
    run_id ← req id_from_value v "run_id";
    task_id ← req id_from_value v "task_id";
    engine ← req value_as_str v "engine";
    model ← opt value_as_str v "model";
    effort ← opt value_as_str v "reasoning_effort";
    prompt ← opt value_as_str v "system_prompt";
    policy ← req policy_from_value v "access_policy";
    workspace ← opt value_as_str v "workspace_path";
    Some (NW_StartRun run_id task_id engine model effort prompt policy workspace)
  else if String.eqb tag "send_prompt" then
    task_id ← req id_from_value v "task_id";
    run_id ← req id_from_value v "run_id";
    text ← req value_as_str v "text";
    cmid ← req value_as_str v "client_message_id";
    Some (NW_SendPrompt task_id run_id text cmid)
  else if String.eqb tag "interrupt_run" then NW_InterruptRun <$> req id_from_value v "run_id"
  else if String.eqb tag "update" then NW_Update <$> req value_as_str v "version"
  else None.

Definition hub_to_node_to_value (m : HubToNode) : Value :=
  match m with
  | HN_DispatchCommand cid expires_at work => tagged "dispatch_command"
      [("command_id", Some (id_to_value cid)); ("expires_at", value_time <$> expires_at);
       ("work", Some (node_work_to_value work))]%string
  | HN_ApprovalDecision approval_id decision actor => tagged "approval_decision"
      [("approval_id", Some (id_to_value approval_id));
       ("decision", Some (decision_to_value decision)); ("actor", Some (value_str actor))]%string
  | HN_CancelCommand cid => tagged "cancel_command" [("command_id", Some (id_to_value cid))]%string
  | HN_EventAck event_id => tagged "event_ack" [("event_id", Some (id_to_value event_id))]%string
  | HN_Heartbeat => tagged "heartbeat" []
  end.

Definition hub_to_node_from_value (v : Value) : option HubToNode :=
  tag ← get_tag v;
  if String.eqb tag "dispatch_command" then
    cid ← req id_from_value v "command_id";
    expires_at ← opt value_as_time v "expires_at";
    work ← req node_work_from_value v "work";
    Some (HN_DispatchCommand cid expires_at work)
  else if String.eqb tag "approval_decision" then
    approval_id ← req id_from_value v "approval_id";
    decision ← req decision_from_value v "decision";
    actor ← req value_as_str v "actor";
    Some (HN_ApprovalDecision approval_id decision actor)
  else if String.eqb tag "cancel_command" then
    HN_CancelCommand <$> req id_from_value v "command_id"
  else if String.eqb tag "event_ack" then HN_EventAck <$> req id_from_value v "event_id"
  else if String.eqb tag "heartbeat" then Some HN_Heartbeat
  else None.

(** The instants a message carries, each of which must be representable. *)
Definition draft_times_ok (d : EventDraft) : Prop := time_ok (d_occurred_at d).
Definition event_times_ok (e : Event) : Prop :=
  time_ok (e_occurred_at e) /\ time_ok (e_hub_received_at e).
Definition hub_to_node_times_ok (m : HubToNode) : Prop :=
  match m with
  | HN_DispatchCommand _ (Some t) _ => time_ok t
  | _ => True
  end.
End Wire.

(** ** Round trips: every decoder reads what its encoder writes. *)
Section WireFields.
Context {P : Platform} {PL : PlatformLaws P}.

(** What [req], [opt] and the tag read from an encoded object. *)
Lemma req_object_of {A} (f : Value -> option A) fs k v :
  NoDup fs.*1 -> mjoin (assoc k fs) = Some v -> req f (object_of fs) k = f v.
Proof. intros Hnd Hk. unfold req. by rewrite get_object_of ?Hk. Qed.

Lemma get_object_some fs k v :
  NoDup fs.*1 -> mjoin (assoc k fs) = Some v -> value_get (object_of fs) k = Some v.
Proof. intros Hnd Hk. by rewrite get_object_of. Qed.

Lemma opt_object_of {A} (f : Value -> option A) (enc : A -> Value) fs k (o : option A) :
  NoDup fs.*1 -> mjoin (assoc k fs) = enc <$> o ->
  (forall a, o = Some a -> f (enc a) = Some a /\ value_is_null (enc a) = false) ->
  opt f (object_of fs) k = Some o.
Proof.
  intros Hnd Hk Henc. unfold opt. rewrite get_object_of; [done|]. rewrite Hk.
  destruct o as [a|]; simpl; [|done]. destruct (Henc a eq_refl) as [-> ->]. done.
Qed.

Lemma opt_nullable {A} (f : Value -> option A) (enc : A -> Value) fs k (o : option A) :
  NoDup fs.*1 -> mjoin (assoc k fs) = Some (nullable enc o) ->
  (forall a, o = Some a -> f (enc a) = Some a /\ value_is_null (enc a) = false) ->
  opt f (object_of fs) k = Some o.
Proof.
  intros Hnd Hk Henc. unfold opt. rewrite get_object_of; [done|]. rewrite Hk.
  destruct o as [a|]; simpl; [|by rewrite is_null_null].
  destruct (Henc a eq_refl) as [-> ->]. done.
Qed.

Lemma get_tag_tagged tag fs :
  NoDup ("type"%string :: fs.*1) -> get_tag (tagged tag fs) = Some tag.
Proof.
  intros Hnd. unfold get_tag, tagged.
  rewrite (req_object_of _ _ _ (value_str tag)); [done|done|apply as_str_str].
Qed.

Lemma policy_from_to p : policy_from_value (policy_to_value p) = Some p.
Proof. unfold policy_from_value, policy_to_value. rewrite as_str_str /=. by destruct p. Qed.
Lemma decision_from_to d : decision_from_value (decision_to_value d) = Some d.
Proof. unfold decision_from_value, decision_to_value. rewrite as_str_str /=. by destruct d. Qed.
Lemma kind_from_to k : kind_from_value (kind_to_value k) = Some k.
Proof. unfold kind_from_value, kind_to_value. rewrite as_str_str /=. by destruct k. Qed.

Lemma is_null_id {k} (i : Id k) : value_is_null (id_to_value i) = false.
Proof. apply is_null_str. Qed.
Lemma is_null_node_id n : value_is_null (node_id_to_value n) = false.
Proof. apply is_null_str. Qed.
Lemma is_null_tagged t fs : value_is_null (tagged t fs) = false.
Proof. apply is_null_object. Qed.
End WireFields.

Create HintDb wire.
#[export] Hint Resolve id_from_to_value node_id_from_to_value policy_from_to decision_from_to
  kind_from_to as_str_str as_i64_i64 as_bool_bool time_roundtrip is_null_str is_null_i64
  is_null_time is_null_id is_null_node_id is_null_tagged : wire.
Create Rewrite HintDb wire.
#[export] Hint Rewrite @id_from_to_value @node_id_from_to_value @policy_from_to @decision_from_to
  @kind_from_to @as_str_str @as_i64_i64 @as_bool_bool @time_roundtrip using (by eauto) : wire.

(** Read one field of an encoded object; decode a whole encoded message. *)
Ltac wire_opt := intros; simplify_eq/=; split; simpl in *; eauto 3 with wire.
Ltac wire_field :=
  first
    [ erewrite opt_object_of; [|solve_keys|reflexivity|wire_opt]
    | erewrite opt_nullable; [|solve_keys|reflexivity|wire_opt]
    | erewrite req_object_of; [|solve_keys|reflexivity]
    | erewrite get_object_some; [|solve_keys|reflexivity] ].
Ltac wire_tag :=
  erewrite get_tag_tagged; [|solve_keys]; cbn [mbind option_bind String.eqb Ascii.eqb Bool.eqb].
Ltac wire_solve :=
  try wire_tag; unfold tagged; repeat wire_field; autorewrite with wire; try reflexivity.

Section WireLaws.
Context {P : Platform} {PL : PlatformLaws P}.

Lemma draft_roundtrip d : draft_times_ok d -> draft_from_value (draft_to_value d) = Some d.
Proof. intros Ht. unfold draft_from_value, draft_to_value. wire_solve. by destruct d. Qed.

Lemma event_roundtrip e : event_times_ok e -> event_from_value (event_to_value e) = Some e.
Proof. intros [Ho Hr]. unfold event_from_value, event_to_value. wire_solve. by destruct e. Qed.

Lemma protocol_error_roundtrip e : protocol_error_from_value (protocol_error_to_value e) = Some e.
Proof. destruct e; unfold protocol_error_from_value, protocol_error_to_value; wire_solve. Qed.

Lemma is_null_protocol_error e : value_is_null (protocol_error_to_value e) = false.
Proof. destruct e; apply is_null_tagged. Qed.

Hint Resolve protocol_error_roundtrip is_null_protocol_error : wire.

Lemma client_command_roundtrip c :
  client_command_from_value (client_command_to_value c) = Some c.
Proof. destruct c; unfold client_command_from_value, client_command_to_value; wire_solve. Qed.

Lemma subscribe_roundtrip s : subscribe_from_value (subscribe_to_value s) = Some s.
Proof. unfold subscribe_from_value, subscribe_to_value. wire_solve. by destruct s. Qed.

Lemma hub_to_client_roundtrip m :
  (forall e, m = HC_EventDelivery e -> event_times_ok e) ->
  hub_to_client_from_value (hub_to_client_to_value m) = Some m.
Proof.
  intros Ht. destruct m; unfold hub_to_client_from_value, hub_to_client_to_value; wire_solve.
  by rewrite event_roundtrip; [apply Ht|].
Qed.

Lemma hello_roundtrip h : hello_from_value (hello_to_value h) = Some h.
Proof. unfold hello_from_value, hello_to_value. wire_solve. by destruct h. Qed.

Lemma welcome_roundtrip w : welcome_from_value (welcome_to_value w) = Some w.
Proof. unfold welcome_from_value, welcome_to_value. wire_solve. by destruct w. Qed.

Lemma node_to_hub_roundtrip m :
  (forall i d, m = NH_NodeEvent i d -> draft_times_ok d) ->
  node_to_hub_from_value (node_to_hub_to_value m) = Some m.
Proof.
  intros Ht. destruct m; unfold node_to_hub_from_value, node_to_hub_to_value; wire_solve.
  simpl. by erewrite draft_roundtrip by eauto.
Qed.

Lemma node_work_roundtrip w : node_work_from_value (node_work_to_value w) = Some w.
Proof. destruct w; unfold node_work_from_value, node_work_to_value; wire_solve. Qed.

Lemma hub_to_node_roundtrip m :
  hub_to_node_times_ok m -> hub_to_node_from_value (hub_to_node_to_value m) = Some m.
Proof.
  intros Ht. destruct m as [? [t|] ?| | | |];
    unfold hub_to_node_from_value, hub_to_node_to_value; wire_solve;
    simpl; by rewrite node_work_roundtrip.
Qed.
End WireLaws.
