(* ===== verification/JsonTrees.v ===== *)
(** serde_json values as the trees a match on them sees: what the parser makes, the
    operations of [Map] the configuration code performs on them, and their text.
    [JsonText] is the interface to serde_json's reader and writers. *)
From S2P Require Import Prelude.
From S2P Require Import RustStr.
From S2P Require Import Float64.
From S2P Require Import Platform.
From Stdlib Require Import SpecFloat.

Local Open Scope Z_scope.

(** Induction that reaches the elements of arrays and objects. *)
Lemma json_tree_ind (Q : JsonTree -> Prop) :
  Q Json_null -> (forall b, Q (Json_bool b)) -> (forall n, Q (Json_number n)) -> (forall s, Q (Json_string s)) ->
  (forall l, Forall Q l -> Q (Json_array l)) -> (forall l, Forall (fun e => Q e.2) l -> Q (Json_object l)) ->
  forall v, Q v.
Proof.
  intros Hn Hb Hd Hs Ha Ho. fix IH 1. intros [|b|n|s|l|l]; [exact Hn|exact (Hb b)|exact (Hd n)|exact (Hs s)| |].
  - apply Ha. induction l as [|x l IHl]; constructor; [exact (IH x)|exact IHl].
  - apply Ho. induction l as [|[k x] l IHl]; constructor; [exact (IH x)|exact IHl].
Qed.

(** What a parse can yield: integers of 64 bits, finite doubles, text, and objects
    whose keys are distinct. *)
Definition number_ok (n : Number) : bool :=
  match n with
  | Num_int z => (- 2 ^ 63 <=? z) && (z <? 2 ^ 64)
  | Num_float f => f64_is_finite f && valid_binary 53 1024 f
  end.
Fixpoint tree_ok (v : JsonTree) : bool :=
  match v with
  | Json_null | Json_bool _ => true
  | Json_number n => number_ok n
  | Json_string s => utf8_valid s
  | Json_array l => forallb tree_ok l
  | Json_object l =>
      bool_decide (NoDup l.*1) && forallb (fun e => utf8_valid e.1 && tree_ok e.2) l
  end.

(** *** [Map] *)

(** [Map::contains_key], [Map::insert]: in place, or at the end; [Map::shift_remove]. *)
Definition contains_key {V} (k : string) (l : list (string * V)) : bool := existsb (fun e => String.eqb e.1 k) l.
Definition object_insert {V} (k : string) (v : V) (l : list (string * V)) : list (string * V) :=
  if contains_key k l then (fun e => if String.eqb e.1 k then (e.1, v) else e) <$> l else l ++ [(k, v)].
Definition shift_remove {V} (k : string) (l : list (string * V)) : list (string * V) :=
  List.filter (fun e => negb (String.eqb e.1 k)) l.

Section Objects.
Context {V : Type}.
Implicit Types l : list (string * V).

Lemma contains_key_assoc k l : contains_key k l = bool_decide (is_Some (assoc k l)).
Proof.
  unfold contains_key. induction l as [|[k' v] l IH]; cbn; [done|]. rewrite String.eqb_sym IH.
  destruct (String.eqb k k'); [|done]. symmetry. by apply bool_decide_eq_true.
Qed.

Lemma contains_key_elem k l : contains_key k l = true <-> k ∈ l.*1.
Proof.
  unfold contains_key. rewrite existsb_exists. split.
  - intros ([k' v] & Hin%list_elem_of_In & Hk%String.eqb_eq). cbn in Hk. subst. by apply (list_elem_of_fmap_2 fst) in Hin.
  - intros ([k' v] & -> & Hin%list_elem_of_In)%list_elem_of_fmap. exists (k', v). by rewrite String.eqb_refl.
Qed.

Lemma assoc_concat k l l' : assoc k (l ++ l') = match assoc k l with Some v => Some v | None => assoc k l' end.
Proof. induction l as [|[k' v] l IH]; cbn; [done|]. by destruct (String.eqb k k'). Qed.

Lemma assoc_update k k' v l :
  assoc k' ((fun e => if String.eqb e.1 k then (e.1, v) else e) <$> l) =
    if String.eqb k' k then (if contains_key k l then Some v else None) else assoc k' l.
Proof.
  induction l as [|[j x] l IH]; cbn; [by destruct (String.eqb k' k)|].
  destruct (String.eqb_spec j k) as [->|Hj]; cbn; rewrite IH; destruct (String.eqb_spec k' k) as [->|Hk]; try done.
  by rewrite (proj2 (String.eqb_neq k j)).
Qed.

Lemma assoc_insert k k' v l : assoc k' (object_insert k v l) = if String.eqb k' k then Some v else assoc k' l.
Proof.
  unfold object_insert. destruct (contains_key k l) eqn:Hc; [by rewrite assoc_update Hc|].
  rewrite assoc_concat. cbn. destruct (String.eqb_spec k' k) as [->|]; [|by destruct (assoc k' l)].
  rewrite contains_key_assoc in Hc. apply bool_decide_eq_false in Hc.
  destruct (assoc k l); [by exfalso; apply Hc|done].
Qed.

Lemma assoc_remove k k' l : assoc k' (shift_remove k l) = if String.eqb k' k then None else assoc k' l.
Proof.
  unfold shift_remove. induction l as [|[j x] l IH]; cbn; [by destruct (String.eqb k' k)|].
  destruct (String.eqb_spec j k) as [->|Hj]; cbn; rewrite IH; destruct (String.eqb_spec k' k) as [->|Hk]; try done.
  - by rewrite (proj2 (String.eqb_neq k j)).
Qed.

Lemma insert_keys k v l : (object_insert k v l).*1 = if contains_key k l then l.*1 else l.*1 ++ [k].
Proof.
  unfold object_insert. destruct (contains_key k l); [|by rewrite fmap_app].
  rewrite -list_fmap_compose. apply list_fmap_ext. intros i [j x] _. cbn. by destruct (String.eqb j k).
Qed.

Lemma insert_NoDup k v l : NoDup l.*1 -> NoDup (object_insert k v l).*1.
Proof.
  intros Hl. rewrite insert_keys. destruct (contains_key k l) eqn:Hc; [done|]. apply NoDup_app.
  split; [done|]. split; [|by apply NoDup_singleton]. intros j Hj Hjk%list_elem_of_singleton.
  subst. apply contains_key_elem in Hj. congruence.
Qed.

Lemma remove_keys k l : (shift_remove k l).*1 = List.filter (fun j => negb (String.eqb j k)) l.*1.
Proof. induction l as [|[j x] l IH]; cbn; [done|]. destruct (String.eqb j k); cbn; by rewrite IH. Qed.

Lemma remove_NoDup k l : NoDup l.*1 -> NoDup (shift_remove k l).*1.
Proof.
  rewrite remove_keys. induction 1 as [|j js Hj _ IH]; cbn; [constructor|].
  destruct (negb _); [|done]. constructor; [|done]. intros Hin%list_elem_of_In%filter_In. apply Hj, list_elem_of_In, Hin.
Qed.

(** Two objects with the same distinct keys in the same order and the same lookups
    are the same. *)
Lemma object_ext l l' : NoDup l.*1 -> l.*1 = l'.*1 -> (forall k, assoc k l = assoc k l') -> l = l'.
Proof.
  revert l'. induction l as [|[k v] l IH]; intros [|[k' v'] l'] Hnd Hk Ha; try done.
  cbn in Hnd, Hk. injection Hk as <- Hk. apply NoDup_cons in Hnd as [Hn Hnd].
  pose proof (Ha k) as Hv. cbn in Hv. rewrite String.eqb_refl in Hv. injection Hv as ->. f_equal.
  apply IH; [done|done|]. intros j. specialize (Ha j). cbn in Ha. destruct (String.eqb_spec j k) as [Hj|Hj]; [|done].
  assert (forall l0 : list (string * V), j ∉ l0.*1 -> assoc j l0 = None) as Hnone.
  { intros l0 H0. destruct (assoc j l0) eqn:He; [|done]. exfalso. apply H0, contains_key_elem.
    rewrite contains_key_assoc He. by apply bool_decide_eq_true. }
  rewrite !Hnone //; rewrite Hj // -Hk //.
Qed.

Lemma assoc_elem k l v : NoDup l.*1 -> (k, v) ∈ l -> assoc k l = Some v.
Proof.
  induction l as [|[j x] l IH]; cbn; intros Hnd Hin; [by apply not_elem_of_nil in Hin|].
  apply NoDup_cons in Hnd as [Hn Hnd]. apply elem_of_cons in Hin as [[= -> ->]|Hin]; [by rewrite String.eqb_refl|].
  destruct (String.eqb_spec k j) as [->|]; [|by apply IH]. exfalso. apply Hn. by apply (list_elem_of_fmap_2 fst) in Hin.
Qed.
End Objects.

(** [tree_ok] of an object, and its preservation by the operations of [Map]. *)
Definition entry_ok (e : string * JsonTree) : bool := utf8_valid e.1 && tree_ok e.2.
Definition entries_ok (l : list (string * JsonTree)) : Prop := NoDup l.*1 /\ Forall (fun e => entry_ok e = true) l.

Lemma tree_ok_object l : tree_ok (Json_object l) = true <-> entries_ok l.
Proof.
  cbn [tree_ok]. unfold entries_ok. rewrite andb_true_iff bool_decide_eq_true forallb_forall Forall_forall.
  split; intros [H1 H2]; (split; [done|]); intros e He; apply H2, list_elem_of_In, He.
Qed.

Lemma tree_ok_array l : tree_ok (Json_array l) = true <-> Forall (fun v => tree_ok v = true) l.
Proof.
  cbn [tree_ok]. rewrite forallb_forall Forall_forall. by split; intros H e He%list_elem_of_In; apply H.
Qed.

Lemma insert_ok k v l : utf8_valid k = true -> tree_ok v = true -> entries_ok l -> entries_ok (object_insert k v l).
Proof.
  intros Hk Hv [Hn Hl]. split; [by apply insert_NoDup|]. unfold object_insert.
  destruct (contains_key k l).
  - apply Forall_fmap. eapply Forall_impl; [exact Hl|]. intros [j x] Hx. cbn. destruct (String.eqb j k); [|done].
    unfold entry_ok in *. cbn in *. apply andb_true_iff in Hx as [-> _]. by rewrite Hv.
  - apply Forall_app. split; [done|]. constructor; [|done]. unfold entry_ok. cbn. by rewrite Hk Hv.
Qed.

Lemma remove_ok k l : entries_ok l -> entries_ok (shift_remove k l).
Proof.
  intros [Hn Hl]. split; [by apply remove_NoDup|]. rewrite !Forall_forall in Hl |- *.
  intros e He%list_elem_of_In%filter_In. apply Hl, list_elem_of_In, He.
Qed.

Lemma ok_lookup k v l : entries_ok l -> assoc k l = Some v -> tree_ok v = true.
Proof.
  intros [_ Hl]. induction Hl as [|[j x] l Hx Hl IH]; cbn; [done|].
  destruct (String.eqb k j); [|done]. intros [= ->]. unfold entry_ok in Hx. cbn in Hx. by apply andb_true_iff in Hx as [_ ?].
Qed.

(** *** Text *)

(** [serde_json::from_str], the message of its error, [to_string], [to_string_pretty]. *)
Class JsonText := {
  tree_from_str : string -> option JsonTree;
  tree_error : string -> string;
  tree_to_string : JsonTree -> string;
  tree_to_pretty : JsonTree -> string;
}.

(** What is written is not empty, is UTF-8 and reads back, also before a line feed (the crate is
    built with float_roundtrip); what is read is well formed. *)
Class JsonTextLaws (J : JsonText) : Prop := {
  read_compact v : tree_ok v = true -> tree_from_str (tree_to_string v) = Some v;
  read_pretty v : tree_ok v = true -> tree_from_str (tree_to_pretty v +:+ String LF EmptyString) = Some v;
  compact_text v : tree_ok v = true -> tree_to_string v <> EmptyString;
  compact_utf8 v : tree_ok v = true -> utf8_valid (tree_to_string v) = true;
  read_ok s v : tree_from_str s = Some v -> tree_ok v = true;
}.
