(* ===== verification/TestPlatform.v ===== *)
(** A concrete platform satisfying every law of Platform.v: UUIDs are their own
    text, JSON text is the binary numeral of the value's code, instants are
    fixed-width binary numerals. The witnesses of the development run on it. *)
From S2P Require Import Prelude.
From S2P Require Import RustStr.
From S2P Require Import Float64.
From S2P Require Import Platform.
From S2P Require Import JsonTrees.
From Stdlib Require Import Ascii.
From Stdlib Require Import SpecFloat Ascii.

Local Open Scope Z_scope.
#[local] Set Warnings "-register-all".

(** *** JSON values *)

Inductive Json :=
| JNull
| JBool (b : bool)
| JInt (z : Z)
| JTime (t : Z)
| JStr (s : string)
| JArray (l : list Json)
| JObject (l : list (string * Json)).

(** Leaves of the generic tree a value is encoded through. *)
Definition leaf : Type := bool + Z + string.

Fixpoint json_tree (j : Json) : gen_tree leaf :=
  match j with
  | JNull => GenNode 0 []
  | JBool b => GenLeaf (inl (inl b))
  | JInt z => GenLeaf (inl (inr z))
  | JTime t => GenNode 1 [GenLeaf (inl (inr t))]
  | JStr s => GenLeaf (inr s)
  | JArray l => GenNode 2 (map json_tree l)
  | JObject l => GenNode 3 (map (fun '(k, v) => GenNode 4 [GenLeaf (inr k); json_tree v]) l)
  end.

Fixpoint tree_json (t : gen_tree leaf) : Json :=
  match t with
  | GenLeaf (inl (inl b)) => JBool b
  | GenLeaf (inl (inr z)) => JInt z
  | GenLeaf (inr s) => JStr s
  | GenNode 1 [GenLeaf (inl (inr z))] => JTime z
  | GenNode 2 l => JArray (map tree_json l)
  | GenNode 3 l =>
      JObject (map (fun t => match t with
                             | GenNode _ [GenLeaf (inr k); v] => (k, tree_json v)
                             | _ => (EmptyString, JNull)
                             end) l)
  | _ => JNull
  end.

Lemma tree_json_tree j : tree_json (json_tree j) = j.
Proof.
  revert j. fix IH 1. intros [|b|z|t|s|l|l]; simpl; try reflexivity.
  - f_equal. induction l as [|j l IHl]; simpl; [reflexivity|]. rewrite (IH j). by f_equal.
  - f_equal. induction l as [|[k j] l IHl]; simpl; [reflexivity|]. rewrite (IH j). by f_equal.
Qed.

#[export] Instance Json_eq_dec : EqDecision Json.
Proof.
  intros a b. destruct (decide (json_tree a = json_tree b)) as [H|H]; [left|right; congruence].
  by rewrite -(tree_json_tree a) -(tree_json_tree b) H.
Defined.
#[export] Instance Json_countable : Countable Json := inj_countable' json_tree tree_json tree_json_tree.

(** *** Numerals *)

Fixpoint pos_text (p : positive) : string :=
  match p with
  | xH => EmptyString
  | xO p => String "0" (pos_text p)
  | xI p => String "1" (pos_text p)
  end.
Fixpoint text_pos (s : string) : option positive :=
  match s with
  | EmptyString => Some xH
  | String a s => if Ascii.eqb a "0" then xO <$> text_pos s else xI <$> text_pos s
  end.
Lemma text_pos_text p : text_pos (pos_text p) = Some p.
Proof. induction p as [p IH|p IH|]; simpl; rewrite ?IH //. Qed.

Lemma pos_text_one_line p : byte_free LF (pos_text p) = true.
Proof. by induction p. Qed.
Lemma pos_text_utf8 p : utf8_valid (pos_text p) = true.
Proof. by induction p. Qed.

Definition json_text (j : Json) : string := pos_text (encode j).
Definition text_json (s : string) : option Json := text_pos s ≫= decode.
Lemma text_json_text j : text_json (json_text j) = Some j.
Proof. unfold text_json, json_text. rewrite text_pos_text /=. apply decode_encode. Qed.

(** *** Instants: [n] binary digits, the most significant first *)

Fixpoint time_text (n : nat) (t : Z) : string :=
  match n with
  | O => EmptyString
  | S n' => if 2 ^ Z.of_nat n' <=? t then String "1" (time_text n' (t - 2 ^ Z.of_nat n'))
            else String "0" (time_text n' t)
  end.
Fixpoint text_time (s : string) : Z :=
  match s with
  | EmptyString => 0
  | String a s => (if Ascii.eqb a "1" then 2 ^ Z.of_nat (String.length s) else 0) + text_time s
  end.

Lemma time_text_length n t : String.length (time_text n t) = n.
Proof. revert t. induction n as [|n IH]; intros t; simpl; [done|]. case_match; simpl; by rewrite IH. Qed.

Lemma text_time_text n t : 0 <= t < 2 ^ Z.of_nat n -> text_time (time_text n t) = t.
Proof.
  revert t. induction n as [|n IH]; intros t; simpl time_text.
  - simpl. intros ?. lia.
  - rewrite Nat2Z.inj_succ Z.pow_succ_r; [lia|]. intros Ht.
    destruct (Z.leb_spec (2 ^ Z.of_nat n) t); simpl text_time; rewrite ?time_text_length IH; lia.
Qed.

Lemma time_text_order n t u :
  0 <= t < 2 ^ Z.of_nat n -> 0 <= u < 2 ^ Z.of_nat n ->
  String.leb (time_text n t) (time_text n u) = (t <=? u).
Proof.
  unfold String.leb. revert t u. induction n as [|n IH]; intros t u; simpl time_text.
  - simpl. intros ??. by assert (t = u) as -> by lia; rewrite Z.leb_refl.
  - rewrite Nat2Z.inj_succ Z.pow_succ_r; [lia|]. intros Ht Hu.
    destruct (Z.leb_spec (2 ^ Z.of_nat n) t), (Z.leb_spec (2 ^ Z.of_nat n) u); cbn [String.compare].
    + change (Ascii.compare "1" "1") with Eq. cbv iota. rewrite IH; [lia|lia|].
      destruct (Z.leb_spec t u), (Z.leb_spec (t - 2 ^ Z.of_nat n) (u - 2 ^ Z.of_nat n)); lia.
    + change (Ascii.compare "1" "0") with Gt. cbv iota. symmetry. apply Z.leb_gt. lia.
    + change (Ascii.compare "0" "1") with Lt. cbv iota. symmetry. apply Z.leb_le. lia.
    + change (Ascii.compare "0" "0") with Eq. cbv iota. apply IH; lia.
Qed.

(** The value as the enum it is; an instant is a string. *)
Fixpoint test_tree (j : Json) : JsonTree :=
  match j with
  | JNull => Json_null
  | JBool b => Json_bool b
  | JInt z => Json_number (Num_int z)
  | JTime t => Json_string (time_text 68 t)
  | JStr s => Json_string s
  | JArray l => Json_array (map test_tree l)
  | JObject l => Json_object (map (fun e => (e.1, test_tree e.2)) l)
  end.

(** *** The platform *)

Definition test_sqlite_message (e : SqlError) : string :=
  match e with
  | UniqueViolation c => "UNIQUE constraint failed: " +:+ c
  | FromSqlConversionFailure m => "Conversion error: " +:+ m
  | InvalidColumnType => "Invalid column type"
  | SqliteFailure msg => msg
  end.

#[export] Instance test_platform : Platform := {
  Uuid := string;
  uuid_to_string u := u;
  uuid_parse_str s := Some s;
  uuid_error s := "invalid uuid " +:+ s;
  uuid_nil := "00000000-0000-0000-0000-000000000000"%string;
  Value := Json;
  value_null := JNull;
  value_bool := JBool;
  value_i64 := JInt;
  value_str := JStr;
  value_array := JArray;
  value_object := JObject;
  value_get v k := match v with JObject l => assoc k l | _ => None end;
  value_is_null v := match v with JNull => true | _ => false end;
  value_as_bool v := match v with JBool b => Some b | _ => None end;
  value_as_i64 v := match v with JInt z => Some z | _ => None end;
  value_as_str v := match v with JStr s => Some s | _ => None end;
  value_as_array v := match v with JArray l => Some l | _ => None end;
  value_as_object v := match v with JObject l => Some l | _ => None end;
  value_tree := test_tree;
  json_to_string := json_text;
  json_from_str := text_json;
  json_error s := "invalid json";
  value_error v := "invalid value";
  to_rfc3339_nanos := time_text 68;
  parse_from_rfc3339 s := if Nat.eqb (String.length s) 68 then Some (text_time s) else None;
  rfc3339_error s := "invalid timestamp";
  value_time := JTime;
  value_as_time v := match v with JTime t => Some t | _ => None end;
  sqlite_message := test_sqlite_message;
  debug_str s := s;
}.

Lemma time_ok_width t : time_ok t -> 0 <= t < 2 ^ Z.of_nat 68.
Proof. intros [H0 H1]. split; [done|]. eapply Z.le_lt_trans; [exact H1|]. by vm_compute. Qed.

Lemma test_rfc3339_roundtrip t : time_ok t ->
  (if Nat.eqb (String.length (time_text 68 t)) 68 then Some (text_time (time_text 68 t)) else None)
  = Some t.
Proof.
  intros Ht%time_ok_width. rewrite time_text_length Nat.eqb_refl. f_equal. by apply text_time_text.
Qed.

Lemma test_rfc3339_order t u : time_ok t -> time_ok u ->
  String.leb (time_text 68 t) (time_text 68 u) = (t <=? u).
Proof. intros Ht%time_ok_width Hu%time_ok_width. by apply time_text_order. Qed.

#[export] Instance test_platform_laws : PlatformLaws test_platform.
Proof.
  constructor;
    first [ exact text_json_text | intros; apply pos_text_one_line | intros; apply pos_text_utf8 | exact test_rfc3339_roundtrip | exact test_rfc3339_order
          | intros; reflexivity ].
Qed.

(** Close an equation between closed terms by evaluation. *)
Ltac vm_refl := match goal with |- _ = ?b => vm_cast_no_check (eq_refl b) end.

(** A concrete JSON text satisfying [JsonTextLaws]: the binary numeral of the tree's
    code after a sign, which a reader accepts with or without a line feed after it. *)

Definition tree_leaf : Type := bool + Z + string.
Definition f64_gen (f : f64) : gen_tree tree_leaf :=
  match f with
  | S754_zero b => GenNode 0 [GenLeaf (inl (inl b))]
  | S754_infinity b => GenNode 1 [GenLeaf (inl (inl b))]
  | S754_nan => GenNode 2 []
  | S754_finite b m e => GenNode 3 [GenLeaf (inl (inl b)); GenLeaf (inl (inr (Zpos m))); GenLeaf (inl (inr e))]
  end.
Definition gen_f64 (t : gen_tree tree_leaf) : f64 :=
  match t with
  | GenNode 0 [GenLeaf (inl (inl b))] => S754_zero b
  | GenNode 1 [GenLeaf (inl (inl b))] => S754_infinity b
  | GenNode 3 [GenLeaf (inl (inl b)); GenLeaf (inl (inr (Zpos m))); GenLeaf (inl (inr e))] => S754_finite b m e
  | _ => S754_nan
  end.
Lemma gen_f64_gen f : gen_f64 (f64_gen f) = f.
Proof. by destruct f. Qed.

Fixpoint tree_gen (v : JsonTree) : gen_tree tree_leaf :=
  match v with
  | Json_null => GenNode 0 []
  | Json_bool b => GenLeaf (inl (inl b))
  | Json_number (Num_int z) => GenLeaf (inl (inr z))
  | Json_number (Num_float f) => GenNode 1 [f64_gen f]
  | Json_string s => GenLeaf (inr s)
  | Json_array l => GenNode 2 (map tree_gen l)
  | Json_object l => GenNode 3 (map (fun e => GenNode 4 [GenLeaf (inr e.1); tree_gen e.2]) l)
  end.
Fixpoint gen_tree_json (t : gen_tree tree_leaf) : JsonTree :=
  match t with
  | GenLeaf (inl (inl b)) => Json_bool b
  | GenLeaf (inl (inr z)) => Json_number (Num_int z)
  | GenLeaf (inr s) => Json_string s
  | GenNode 1 [f] => Json_number (Num_float (gen_f64 f))
  | GenNode 2 l => Json_array (map gen_tree_json l)
  | GenNode 3 l =>
      Json_object (map (fun t => match t with
                                 | GenNode _ [GenLeaf (inr k); v] => (k, gen_tree_json v)
                                 | _ => (EmptyString, Json_null)
                                 end) l)
  | _ => Json_null
  end.
Lemma gen_tree_gen v : gen_tree_json (tree_gen v) = v.
Proof.
  induction v as [|b|[z|f]|s|l IH|l IH] using json_tree_ind; cbn; rewrite ?gen_f64_gen; try done; f_equal.
  - induction IH as [|v l Hv _ IHl]; cbn; [done|]. by rewrite Hv IHl.
  - induction IH as [|[k v] l Hv _ IHl]; cbn in *; [done|]. by rewrite Hv IHl.
Qed.

Definition tree_text (v : JsonTree) : string := String "+" (pos_text (encode (tree_gen v))).
Definition text_tree (s : string) : option JsonTree :=
  match s with String "+" r => text_pos r ≫= fun p => gen_tree_json <$> decode p | _ => None end.
Lemma text_tree_text v : text_tree (tree_text v) = Some v.
Proof. unfold text_tree, tree_text. rewrite text_pos_text /= decode_encode /=. by rewrite gen_tree_gen. Qed.

(** The text without the line feed that may end it. *)
Fixpoint chomp (s : string) : string :=
  match s with
  | EmptyString => EmptyString
  | String a r => if Ascii.eqb a LF && str_is_empty r then EmptyString else String a (chomp r)
  end.
Lemma chomp_free s : byte_free LF s = true -> chomp s = s /\ chomp (s +:+ String LF EmptyString) = s.
Proof.
  induction s as [|a s IH]; [done|]. change (String a s +:+ ?t) with (String a (s +:+ t)). cbn [byte_free chomp].
  intros [Ha Hs]%andb_true_iff. destruct (IH Hs) as [H1 H2]. apply negb_true_iff in Ha. rewrite Ascii.eqb_sym in Ha.
  by rewrite ?Ha ?[Ascii.eqb LF a]Ascii.eqb_sym ?Ha /= H1 H2.
Qed.

#[export] Instance test_json : JsonText := {
  tree_from_str s := v ← text_tree (chomp s); if tree_ok v then Some v else None;
  tree_error _ := "invalid json"%string;
  tree_to_string := tree_text;
  tree_to_pretty := tree_text;
}.

#[export] Instance test_json_laws : JsonTextLaws test_json.
Proof.
  assert (forall v, byte_free LF (tree_text v) = true) as Hf by (intros v; exact (pos_text_one_line _)).
  constructor; cbn [tree_from_str tree_to_string tree_to_pretty test_json].
  - intros v Hv. destruct (chomp_free _ (Hf v)) as [-> _]. by rewrite text_tree_text /= Hv.
  - intros v Hv. destruct (chomp_free _ (Hf v)) as [_ ->]. by rewrite text_tree_text /= Hv.
  - intros v _. done.
  - intros v _. exact (pos_text_utf8 _).
  - intros s v. destruct (text_tree (chomp s)) as [w|]; cbn; [|done]. destruct (tree_ok w) eqn:Hw; [|done]. by intros [= <-].
Qed.
