(* ===== verification/Pricing.v ===== *)
(** Model prices (crates/stackhour-core/src/pricing.rs): the built-in table, the
    match of a model id against it, and the cost of a turn. [str::to_lowercase] is a
    parameter: its Unicode tables are not reproduced here. *)
From S2P Require Import Prelude.
From S2P Require Import RustStr.
From S2P Require Import Float64.
From S2P Require Import Platform.
From S2P Require Import JsNum.
From S2P Require Import JsonTrees.
From Stdlib Require Import SpecFloat.

Local Open Scope Z_scope.

(** [Price] *)
Record Price := MkPrice { pc_in : f64; pc_out : f64; pc_cache_read : f64; pc_cache_write : f64 }.

(** [PricingTable]: in insertion order, keys distinct. *)
Definition PricingTable := list (string * Price).

(** [Usage] *)
Record Usage := MkUsage { us_input : f64; us_output : f64; us_cache_read : f64; us_cache_write : f64 }.

(** Hundredths and thousandths. *)
Definition dollars (d x : Z) : f64 := f64_of_decimal false d x.

(** [BUILT_IN_DEFAULT] *)
Definition BUILT_IN_DEFAULT : Price := MkPrice (f64_of_Z 3) (f64_of_Z 15) (dollars 3 (-1)) (dollars 375 (-2)).

(** [default_pricing] *)
Definition default_pricing : PricingTable :=
  [("claude-fable", MkPrice (f64_of_Z 10) (f64_of_Z 50) (f64_of_Z 1) (dollars 125 (-1)));
   ("claude-opus", MkPrice (f64_of_Z 5) (f64_of_Z 25) (dollars 5 (-1)) (dollars 625 (-2)));
   ("claude-sonnet", MkPrice (f64_of_Z 3) (f64_of_Z 15) (dollars 3 (-1)) (dollars 375 (-2)));
   ("claude-haiku", MkPrice (f64_of_Z 1) (f64_of_Z 5) (dollars 1 (-1)) (dollars 125 (-2)));
   ("gpt-5", MkPrice (dollars 125 (-2)) (f64_of_Z 10) (dollars 125 (-3)) f64_zero);
   ("default", BUILT_IN_DEFAULT)]%string.

(** The condition of the loop but the length of the best key so far. *)
Definition key_matches (id key : string) : bool := negb (String.eqb key "default") && contains key id.

(** One round of the loop: the best price and the length of its key. *)
Definition price_step (id : string) (best : Price * nat) (entry : string * Price) : Price * nat :=
  if key_matches id entry.1 && (best.2 <? String.length entry.1)%nat
  then (entry.2, String.length entry.1) else best.

Section Pricing.
Context (to_lowercase : string -> string).

(** [price_for] *)
Definition price_for (model : string) (table : option PricingTable) : Price :=
  let id := to_lowercase model in
  let pricing := default default_pricing table in
  (fold_left (price_step id) pricing (default BUILT_IN_DEFAULT (assoc "default" pricing), O)).1.

(** [orz] *)
Definition orz (v : f64) : f64 := if f64_is_nan v then f64_zero else v.

(** [cost_of]: the sums and the products in the order of the source. *)
Definition cost_of (model : string) (usage : Usage) (table : option PricingTable) : f64 :=
  let p := price_for model table in
  f64_div
    (f64_add
       (f64_add
          (f64_add (f64_mul (orz (us_input usage)) (pc_in p)) (f64_mul (orz (us_cache_read usage)) (pc_cache_read p)))
          (f64_mul (orz (us_cache_write usage)) (pc_cache_write p)))
       (f64_mul (orz (us_output usage)) (pc_out p)))
    (f64_of_Z 1000000).
End Pricing.

(** *** Reading a table *)

(** [f64] from JSON: any number. *)
Definition f64_from_tree (v : JsonTree) : option f64 :=
  match v with Json_number n => Some (number_f64 n) | _ => None end.
Definition f64_or_zero (v : option JsonTree) : option f64 :=
  match v with Some v => f64_from_tree v | None => Some f64_zero end.

(** The derived [Deserialize] of [Price]: from an object, unknown keys ignored, or
    from an array in the order of the fields. *)
Definition price_from_tree (v : JsonTree) : option Price :=
  match v with
  | Json_object l =>
      i ← assoc "in" l ≫= f64_from_tree;
      o ← assoc "out" l ≫= f64_from_tree;
      r ← f64_or_zero (assoc "cacheRead" l);
      w ← f64_or_zero (assoc "cacheWrite" l);
      Some (MkPrice i o r w)
  | Json_array (i :: o :: rest) =>
      match rest with
      | [] | [_] | [_; _] =>
          i ← f64_from_tree i;
          o ← f64_from_tree o;
          r ← f64_or_zero (rest !! 0%nat);
          w ← f64_or_zero (rest !! 1%nat);
          Some (MkPrice i o r w)
      | _ => None
      end
  | _ => None
  end%string.

(** *** The best match *)

(** The entry the loop ends with: its key matches and is not empty, none that
    matches is longer, and none before it is as long. *)
Record best_entry (id : string) (table : PricingTable) (entry : string * Price) : Prop := {
  be_elem : exists before after, table = before ++ entry :: after /\
    forall e, e ∈ before -> key_matches id e.1 = true -> (String.length e.1 < String.length entry.1)%nat;
  be_matches : key_matches id entry.1 = true;
  be_nonempty : entry.1 <> EmptyString;
  be_longest e : e ∈ table -> key_matches id e.1 = true -> (String.length e.1 <= String.length entry.1)%nat;
}.

(** No key of the table but the fallback occurs in the id. *)
Definition unmatched (id : string) (table : PricingTable) : Prop :=
  forall e, e ∈ table -> key_matches id e.1 = true -> e.1 = EmptyString.

Lemma price_loop id base table :
  (unmatched id table /\ fold_left (price_step id) table (base, O) = (base, O)) \/
  exists entry, best_entry id table entry /\
    fold_left (price_step id) table (base, O) = (entry.2, String.length entry.1).
Proof.
  induction table as [|x table IH] using rev_ind; [left; split; [by intros e ?%not_elem_of_nil|done]|].
  rewrite fold_left_app. cbn [fold_left]. unfold price_step at 1 3.
  destruct IH as [[Hno ->]|(entry & [(before & after & -> & Hfirst) Hm Hne Hlong] & ->)]; cbn [fst snd].
  - destruct (key_matches id x.1) eqn:Hx; cbn [andb].
    + destruct (Nat.ltb_spec 0 (String.length x.1)) as [Hlen|Hlen].
      * right. exists x. split; [|done]. assert (x.1 <> EmptyString) as Hn by (intros He; rewrite He in Hlen; cbn in Hlen; lia).
        constructor; [|done|done|].
        -- exists table, []. split; [done|]. intros e He Hk. by rewrite (Hno e He Hk).
        -- intros e [He|He]%elem_of_app Hk; [rewrite (Hno e He Hk); cbn; lia|].
           apply list_elem_of_singleton in He. by subst.
      * left. split; [|done]. intros e [He|He]%elem_of_app Hk; [by apply Hno|].
        apply list_elem_of_singleton in He. subst. destruct x as [[|] ?]; [done|cbn in Hlen; lia].
    + left. split; [|done]. intros e [He|He]%elem_of_app Hk; [by apply Hno|].
      apply list_elem_of_singleton in He. subst. congruence.
  - right. destruct (key_matches id x.1) eqn:Hx; cbn [andb].
    + destruct (Nat.ltb_spec (String.length entry.1) (String.length x.1)) as [Hlen|Hlen].
      * exists x. split; [|done]. constructor; [|done|by intros He; rewrite He in Hlen; cbn in Hlen; lia|].
        -- exists (before ++ entry :: after), []. split; [done|]. intros e He Hk. specialize (Hlong e He Hk). lia.
        -- intros e [He|He]%elem_of_app Hk; [specialize (Hlong e He Hk); lia|].
           apply list_elem_of_singleton in He. by subst.
      * exists entry. split; [|done]. constructor; [|done|done|].
        -- exists before, (after ++ [x]). by rewrite -app_assoc.
        -- intros e [He|He]%elem_of_app Hk; [by apply Hlong|]. apply list_elem_of_singleton in He. by subst.
    + exists entry. split; [|done]. constructor; [|done|done|].
      * exists before, (after ++ [x]). by rewrite -app_assoc.
      * intros e [He|He]%elem_of_app Hk; [by apply Hlong|]. apply list_elem_of_singleton in He. subst. congruence.
Qed.
