(* ===== verification/Paths.v ===== *)
(** Storage paths (crates/stackhour-core/src/paths.rs) on POSIX paths as text:
    [Path::join], [Path::parent], the expansion of a leading tilde and Node's path
    normalisation. *)
From S2P Require Import Prelude.
From S2P Require Import RustStr.
From Stdlib Require Import Ascii.

Local Open Scope Z_scope.

Definition SLASH : ascii := "/".
Definition ends_with_slash (s : string) : bool := bool_decide (is_Some (strip_suffix "/" s)).

(** *** [std::path] *)

(** [Path::join] *)
Definition path_join (base rel : string) : string :=
  if path_is_absolute rel then rel
  else if str_is_empty base || ends_with_slash base then base +:+ rel
  else base +:+ "/" +:+ rel.

(** The text without trailing separators and current-directory components; a path
    that is only a root or only such a component stays. Characters in reverse. *)
Fixpoint trim_components (rev : list ascii) : list ascii :=
  match rev with
  | "/"%char :: (_ :: _) as rest => trim_components rest
  | "."%char :: (("/"%char :: _) as rest) => trim_components rest
  | _ => rev
  end.
Fixpoint drop_component (rev : list ascii) : list ascii :=
  match rev with
  | a :: rest => if Ascii.eqb a SLASH then rev else drop_component rest
  | [] => []
  end.

(** [Path::parent] *)
Definition path_parent (p : string) : option string :=
  let t := trim_components (reverse (String.list_ascii_of_string p)) in
  match t with
  | [] => None
  | ["/"%char] => None
  | _ => Some (String.string_of_list_ascii (reverse (trim_components (drop_component t))))
  end.

(** *** Resolution *)

(** [StoragePaths] *)
Record StoragePaths := MkPaths { sp_config_path : string; sp_config_dir : string; sp_data_dir : string; sp_db_path : string }.

(** [env_nonempty] *)
Definition env_nonempty (env : string -> option string) (key : string) : option string :=
  v ← env key; if str_is_empty v then None else Some v.

(** [dirname] *)
Definition dirname (p : string) : string :=
  match path_parent p with
  | None => if str_is_empty p then "."%string else p
  | Some parent => if str_is_empty parent then "."%string else parent
  end.

(** [resolve_storage_paths] *)
Definition resolve_storage_paths (env : string -> option string) (home : string) : StoragePaths :=
  let config_path :=
    match env_nonempty env "STACKHOUR_CONFIG" with
    | Some p => p
    | None => path_join (path_join (path_join home ".config") "stackhour") "config.json"
    end in
  let config_dir :=
    match env_nonempty env "STACKHOUR_CONFIG_DIR" with Some d => d | None => dirname config_path end in
  let data_dir :=
    match env_nonempty env "STACKHOUR_DATA" with
    | Some d => d
    | None => path_join (path_join (path_join home ".local") "share") "stackhour"
    end in
  MkPaths config_path config_dir data_dir (path_join data_dir "stackhour.db").

(** *** Normalisation *)

(** One segment of [posix_normalize]; the stack has its top first. *)
Definition push_segment (absolute : bool) (stack : list string) (seg : string) : list string :=
  if String.eqb seg "" || String.eqb seg "." then stack
  else if String.eqb seg ".." then
    match stack with
    | last :: rest => if String.eqb last ".." then (if absolute then stack else ".."%string :: stack) else rest
    | [] => if absolute then [] else [".."%string]
    end
  else seg :: stack.

(** [posix_normalize] *)
Definition posix_normalize (p : string) : string :=
  if str_is_empty p then "."
  else
    let absolute := starts_with "/" p in
    let trailing_slash := ends_with_slash p in
    let stack := fold_left (push_segment absolute) (split_byte SLASH p) [] in
    let out := (if absolute then "/" else "") +:+ String.concat "/" (reverse stack) in
    if str_is_empty out then "."
    else if trailing_slash && negb (ends_with_slash out) then out +:+ "/" else out.

(** [posix_join] *)
Definition posix_join (a b : string) : string :=
  match str_is_empty a, str_is_empty b with
  | true, true => "."
  | true, false => posix_normalize b
  | false, true => posix_normalize a
  | false, false => posix_normalize (a +:+ "/" +:+ b)
  end.

(** [expand_home] *)
Definition expand_home (p home : string) : string :=
  if str_is_empty p || negb (starts_with "~" p) then p else posix_join home (str_drop 1 p).

(** What a normalised path is made of: no empty or dot segment, and parent segments
    only at the start of a relative one. *)
Definition plain (seg : string) : Prop := seg <> ""%string /\ seg <> "."%string /\ seg <> ".."%string.
Definition stack_ok (absolute : bool) (stack : list string) : Prop :=
  exists names ups, stack = names ++ ups /\ Forall plain names /\ Forall (eq ".."%string) ups /\
    (absolute = true -> ups = []).

Lemma push_segment_ok absolute stack seg : stack_ok absolute stack -> stack_ok absolute (push_segment absolute stack seg).
Proof.
  intros (names & ups & -> & Hn & Hu & Ha). unfold push_segment.
  destruct (String.eqb_spec seg ""); [by exists names, ups|]. destruct (String.eqb_spec seg "."); [by exists names, ups|].
  cbn [orb]. destruct (String.eqb_spec seg "..") as [->|].
  2:{ exists (seg :: names), ups. split_and!; [done| |done|done]. by constructor. }
  destruct Hn as [|x names [_ [_ Hx]] Hn]; cbn [app].
  - destruct Hu as [|y ups <- Hu]; cbn.
    + destruct absolute; [by exists [], []|]. exists [], [".."%string]. split_and!; [done..| |done]. by constructor.
    + destruct absolute; [by specialize (Ha eq_refl)|]. exists [], (".." :: ".." :: ups)%string.
      split_and!; [done|done| |done]. by repeat constructor.
  - rewrite (proj2 (String.eqb_neq x "..")) //. by exists names, ups.
Qed.

Lemma normal_stack_ok absolute segs : stack_ok absolute (fold_left (push_segment absolute) segs []).
Proof.
  assert (stack_ok absolute []) as H0 by (exists [], []; by split_and!).
  revert H0. generalize (@nil string). induction segs as [|seg segs IH]; intros stack H; [done|]. by apply IH, push_segment_ok.
Qed.

(** A stack of that form pushed again, from its bottom, is itself. *)
Lemma push_again absolute stack :
  stack_ok absolute stack -> fold_left (push_segment absolute) (reverse stack) [] = stack.
Proof.
  intros (names & ups & -> & Hn & Hu & Ha). rewrite reverse_app fold_left_app.
  assert (fold_left (push_segment absolute) (reverse ups) [] = ups) as ->.
  { induction Hu as [|y ups <- Hu IH]; [done|]. rewrite reverse_cons fold_left_app IH; [by intros [=]%Ha|].
    destruct absolute; [by specialize (Ha eq_refl)|]. cbn. destruct Hu as [|z ups <- _]; [done|]. by cbn. }
  induction Hn as [|x names (H1 & H2 & H3) _ IH]; [done|]. rewrite reverse_cons fold_left_app IH. cbn.
  unfold push_segment. by rewrite (proj2 (String.eqb_neq x "")) // (proj2 (String.eqb_neq x ".")) // (proj2 (String.eqb_neq x "..")).
Qed.
