(* ===== verification/Modules.v ===== *)
(** The gates of the optional products (crates/stackhour-core/src/modules.rs). *)
From S2P Require Import Prelude.
From S2P Require Import RustStr.
From S2P Require Import Float64.
From S2P Require Import Platform.
From S2P Require Import JsNum.
From S2P Require Import JsonTrees.
From Stdlib Require Import Ascii.

(** [Module] *)
Inductive Product := Tracker | Agent | Control.
#[export] Instance Product_eq_dec : EqDecision Product.
Proof. solve_decision. Defined.

(** [Module::ALL], [Module::name], [Module::config_key] *)
Definition Product_ALL : list Product := [Tracker; Agent; Control].
Definition product_name (m : Product) : string :=
  match m with Tracker => "tracker" | Agent => "agent" | Control => "control" end.
Definition config_key (m : Product) : string :=
  match m with Tracker => "modules.tracker" | Agent => "modules.agent" | Control => "modules.control" end.

(** [ModuleSet], its methods *)
Record ModuleSet := MkModules { ms_tracker : bool; ms_agent : bool; ms_control : bool }.
Definition ModuleSet_ALL : ModuleSet := MkModules true true true.
Definition set_contains (s : ModuleSet) (m : Product) : bool :=
  match m with Tracker => ms_tracker s | Agent => ms_agent s | Control => ms_control s end.
Definition disabled (s : ModuleSet) : list Product := List.filter (fun m => negb (set_contains s m)) Product_ALL.

(** [from_raw] *)
Definition modules_from_raw (raw : JsonTree) : ModuleSet :=
  match get "modules" raw with
  | Some (Json_object block) =>
      let enabled m :=
        match assoc (product_name m) block with
        | None | Some Json_null => true
        | Some value => js_truthy value
        end in
      MkModules (enabled Tracker) (enabled Agent) (enabled Control)
  | _ => ModuleSet_ALL
  end.

(** [from_config_file]; [None] is a file that cannot be read. *)
Definition modules_from_file {J : JsonText} (text : option string) : ModuleSet :=
  match text with
  | Some t => match tree_from_str t with Some user => modules_from_raw user | None => ModuleSet_ALL end
  | None => ModuleSet_ALL
  end.

(** [module_for] *)
Definition among (s : string) (l : list string) : bool := existsb (String.eqb s) l.
Definition module_for (verb : string) (sub : option string) : option Product :=
  if among verb ["serve"; "status"; "token"; "data"; "backup"; "migrate"; "import-wakatime"]%string then Some Tracker
  else if String.eqb verb "agent" then Some Agent
  else if String.eqb verb "control" then Some Control
  else if among verb ["init"; "install"]%string then
    match sub with
    | Some r => if String.eqb r "server" then Some Tracker else if String.eqb r "agent" then Some Agent else None
    | None => None
    end
  else None.

(** [service_roles_for] *)
Definition service_roles_for (role : string) : list (string * Product) :=
  if String.eqb role "server" then [("server"%string, Tracker); ("agent"%string, Agent)]
  else if String.eqb role "agent" then [("agent"%string, Agent)] else [].

(** [invocation_label] *)
Definition invocation_label (verb : string) (sub : option string) : string :=
  match sub with
  | Some role =>
      if (among verb ["init"; "install"]%string && among role ["server"; "agent"]%string)
         || (String.eqb verb "migrate" && String.eqb role "tempo")
      then verb +:+ " " +:+ role else verb
  | None => verb
  end.

(** [Gate] *)
Inductive Gate := Allowed | NotCompiled (m : Product) | Disabled (m : Product).

(** [gate] *)
Definition gate (verb : string) (sub : option string) (compiled runtime : ModuleSet) : Gate :=
  match module_for verb sub with
  | None => Allowed
  | Some m =>
      if negb (set_contains compiled m) then NotCompiled m
      else if negb (set_contains runtime m) then Disabled m else Allowed
  end.

Definition quote_char : string := String "034" EmptyString.

(** [Gate::message] *)
Definition gate_message (g : Gate) (invocation config_path : string) : option string :=
  match g with
  | Allowed => None
  | Disabled m =>
      Some ("stackhour: " +:+ invocation +:+ " needs the " +:+ product_name m +:+
            " module, which is disabled by " +:+ quote_char +:+ config_key m +:+ quote_char +:+ ": false in " +:+ config_path)
  | NotCompiled m =>
      Some ("stackhour: " +:+ invocation +:+ " needs the " +:+ product_name m +:+
            " module, which was not compiled into this binary (rebuild with --features " +:+ product_name m +:+ ")")
  end.

(** [Gate::skip_line] *)
Definition skip_line (g : Gate) (unit config_path : string) : option string :=
  match g with
  | Allowed => None
  | Disabled m =>
      Some ("Skipped " +:+ unit +:+ ": the " +:+ product_name m +:+ " module is disabled by " +:+
            quote_char +:+ config_key m +:+ quote_char +:+ ": false in " +:+ config_path)
  | NotCompiled m =>
      Some ("Skipped " +:+ unit +:+ ": the " +:+ product_name m +:+ " module was not compiled into this binary")
  end.

(** [GateContext] and its methods *)
Record GateContext := MkGateContext { gx_compiled : ModuleSet; gx_runtime : ModuleSet; gx_config_path : string }.
Definition all_enabled : GateContext := MkGateContext ModuleSet_ALL ModuleSet_ALL EmptyString.
Definition context_from_file {J : JsonText} (compiled : ModuleSet) (text : option string) (config_path : string)
    : GateContext :=
  MkGateContext compiled (modules_from_file text) config_path.
Definition refusal (cx : GateContext) (verb : string) (sub : option string) : option string :=
  gate_message (gate verb sub (gx_compiled cx) (gx_runtime cx)) (invocation_label verb sub) (gx_config_path cx).
Definition allows (cx : GateContext) (m : Product) : bool :=
  set_contains (gx_compiled cx) m && set_contains (gx_runtime cx) m.
Definition skip_line_for (cx : GateContext) (m : Product) (unit : string) : option string :=
  skip_line
    (if negb (set_contains (gx_compiled cx) m) then NotCompiled m
     else if negb (set_contains (gx_runtime cx) m) then Disabled m else Allowed)
    unit (gx_config_path cx).

(** A command is refused exactly when its product is not allowed. *)
Lemma refusal_iff cx verb sub :
  is_Some (refusal cx verb sub) <-> exists m, module_for verb sub = Some m /\ allows cx m = false.
Proof.
  unfold refusal, gate, allows. destruct (module_for verb sub) as [m|].
  - destruct (set_contains (gx_compiled cx) m) eqn:Hc, (set_contains (gx_runtime cx) m) eqn:Hr; cbn; rewrite ?is_Some_alt;
      split; try done; try (intros _; exists m; by rewrite Hc ?Hr); intros (m' & [= <-] & Hm); by rewrite Hc Hr in Hm.
  - split; [by intros [? [=]]|]. by intros (m & [=] & _).
Qed.

(** A block that is missing, unreadable or no object leaves everything on. *)
Lemma modules_fail_open {J : JsonText} text :
  (forall t user, text = Some t -> tree_from_str t = Some user ->
     match get "modules" user with Some (Json_object _) => False | _ => True end) ->
  modules_from_file text = ModuleSet_ALL.
Proof.
  intros H. unfold modules_from_file. destruct text as [t|]; [|done]. destruct (tree_from_str t) as [user|] eqn:Hu; [|done].
  specialize (H t user eq_refl Hu). unfold modules_from_raw. by repeat case_match.
Qed.
