(* ===== verification/Config.v ===== *)
(** The configuration (crates/stackhour-core/src/config.rs): the defaults, the deep
    merge of a user's file into them, and the typed views read from the result. *)
From S2P Require Import Prelude.
From S2P Require Import RustStr.
From S2P Require Import Float64.
From S2P Require Import Platform.
From S2P Require Import JsNum.
From S2P Require Import JsonTrees.
From S2P Require Import Pricing.
From S2P Require Import Paths.
From S2P Require Import Modules.
From Stdlib Require Import Ascii SpecFloat.

Local Open Scope Z_scope.

(** *** The typed views *)

(** [ServerCfg], [WatchCfg], [AppCfg], [AgentCfg], [SummaryCfg], [Config] *)
Record ServerCfg := MkServerCfg {
  sc_port : Z; sc_host : string; sc_db : string; sc_token : string; sc_public_url : option string;
}.
Record WatchCfg := MkWatchCfg {
  wc_files : bool; wc_claude : bool; wc_codex : bool; wc_mac_apps : bool; wc_ssh : bool; wc_zed : bool;
}.
Record AppCfg := MkAppCfg { ap_source : string; ap_category : string; ap_project_from_title : option string }.
Record AgentCfg := MkAgentCfg {
  ac_server_url : string; ac_token : string; ac_machine : string; ac_interval_seconds : f64;
  ac_project_roots : list string; ac_project_aliases : list (string * string); ac_watch : WatchCfg;
  ac_apps : list (string * AppCfg); ac_idle_seconds : f64; ac_ignore_dirs : list string; ac_max_scan_depth : f64;
}.
Record SummaryCfg := MkSummaryCfg {
  su_cap_seconds : f64; su_last_event_credit_seconds : f64; su_reattribute_window_seconds : f64;
  su_join_gap_seconds : f64;
}.
Record Config := MkConfig {
  cf_raw : JsonTree; cf_server : ServerCfg; cf_agent : AgentCfg; cf_summary : SummaryCfg;
  cf_pricing : option PricingTable; cf_modules : ModuleSet; cf_wakatime_api_key : string; cf_paths : StoragePaths;
}.

(** *** Defaults *)

Definition js_num (z : Z) : JsonTree := Json_number (Num_int z).
Definition app_entry (source category : string) : JsonTree :=
  Json_object [("source", Json_string source); ("category", Json_string category)]%string.

(** [defaults_with] *)
Definition defaults_with (db_path machine : string) : JsonTree :=
  Json_object [
    ("server", Json_object [
      ("port", js_num 4040); ("host", Json_string "0.0.0.0"); ("db", Json_string db_path);
      ("token", Json_string ""); ("tokens", Json_object [])]);
    ("agent", Json_object [
      ("serverUrl", Json_string "http://127.0.0.1:4040"); ("token", Json_string ""); ("machine", Json_string machine);
      ("intervalSeconds", js_num 20); ("projectRoots", Json_array []); ("projectAliases", Json_object []);
      ("watch", Json_object [("files", Json_bool true); ("claude", Json_bool true); ("codex", Json_bool true);
        ("macApps", Json_bool true); ("ssh", Json_bool true); ("zed", Json_bool true)]);
      ("apps", Json_object [("Claude", app_entry "claude-desktop" "ai coding");
        ("Codex", app_entry "codex-desktop" "ai coding"); ("ChatGPT", app_entry "codex-desktop" "ai coding");
        ("WebStorm", app_entry "webstorm" "coding"); ("Zed", app_entry "zed" "coding")]);
      ("idleSeconds", js_num 120);
      ("ignoreDirs", Json_array (map Json_string ["node_modules"; ".git"; "dist"; "build"; "out"; "target"; ".next";
        ".venv"; "venv"; "vendor"; "Library"; ".cache"; "Pods"; "DerivedData"; "Temp"; "Logs"; "obj"]));
      ("maxScanDepth", js_num 8)]);
    ("summary", Json_object [("capSeconds", js_num 120); ("lastEventCreditSeconds", js_num 60);
      ("reattributeWindowSeconds", js_num 120); ("joinGapSeconds", js_num 300)]);
    ("wakatime", Json_object [("apiKey", Json_string "")])]%string.

(** *** The merge *)

Definition index_key (i : nat) : string := pretty.pretty i.

(** [spread_into_map] *)
Definition spread_into_map (v : JsonTree) : list (string * JsonTree) :=
  match v with
  | Json_object m => m
  | Json_array a => imap (fun i x => (index_key i, x)) a
  | Json_string s => imap (fun i c => (index_key i, Json_string c)) (split_chars s)
  | _ => []
  end.

(** [deep_merge] with the user's value first, on which it recurs. A value that is an
    object is merged into an object or an array already there; any other replaces. *)
Fixpoint merge_into (user base : JsonTree) {struct user} : JsonTree :=
  match user with
  | Json_object m =>
      Json_object (fold_left (fun out e =>
        object_insert e.1
          (match e.2 with
           | Json_object _ =>
               match assoc e.1 out with
               | Some (Json_object _ as b) | Some (Json_array _ as b) => merge_into e.2 b
               | _ => e.2
               end
           | _ => e.2
           end) out) m (spread_into_map base))
  | Json_array a =>
      Json_object (fold_left (fun (acc : nat * list (string * JsonTree)) v =>
        (S acc.1,
         object_insert (index_key acc.1)
          (match v with
           | Json_object _ =>
               match assoc (index_key acc.1) acc.2 with
               | Some (Json_object _ as b) | Some (Json_array _ as b) => merge_into v b
               | _ => v
               end
           | _ => v
           end) acc.2)) a (O, spread_into_map base)).2
  | Json_string s =>
      Json_object (fold_left (fun out e => object_insert e.1 e.2 out) (spread_into_map user) (spread_into_map base))
  | _ => Json_object (spread_into_map base)
  end.
Definition deep_merge (base user : JsonTree) : JsonTree := merge_into user base.

(** *** Coercions *)

(** [truthy] *)
Definition truthy (v : JsonTree) : bool :=
  match v with
  | Json_null => false
  | Json_bool b => b
  | Json_number n => negb (f64_eq (number_f64 n) f64_zero) && negb (f64_is_nan (number_f64 n))
  | Json_string s => negb (str_is_empty s)
  | _ => true
  end.

(** [u64::from_str_radix(s, 16)] *)
Fixpoint hex_digits (s : string) (acc : Z) : option Z :=
  match s with
  | EmptyString => Some acc
  | String a r => d ← to_digit 16 a; if acc * 16 + d <? 2 ^ 64 then hex_digits r (acc * 16 + d) else None
  end.
Definition u64_from_hex (s : string) : option Z :=
  let digits := match s with String "+" r => r | _ => s end in
  if str_is_empty digits then None else hex_digits digits 0.

Definition ascii_lower (a : ascii) : ascii :=
  if byte_in 65 90 a then ascii_of_N (N_of_ascii a + 32) else a.
Fixpoint to_ascii_lowercase (s : string) : string :=
  match s with EmptyString => EmptyString | String a r => String (ascii_lower a) (to_ascii_lowercase r) end.
(** [str::eq_ignore_ascii_case] *)
Definition eq_ignore_ascii_case (s t : string) : bool := String.eqb (to_ascii_lowercase s) (to_ascii_lowercase t).

(** [str::parse::<f64>]: a decimal literal, or a signed infinity or NaN in any case. *)
Definition rust_parse_f64 (s : string) : option f64 :=
  if is_valid_js_decimal s then Some (parse_f64 s)
  else
    let '(neg, t) := span_sign s in
    if eq_ignore_ascii_case t "inf" || eq_ignore_ascii_case t "infinity" then Some (S754_infinity neg)
    else if eq_ignore_ascii_case t "nan" then Some S754_nan else None.

(** [js_number_of] *)
Definition js_number_of (v : JsonTree) : f64 :=
  match v with
  | Json_null => f64_zero
  | Json_bool b => if b then f64_of_Z 1 else f64_zero
  | Json_number n => number_f64 n
  | Json_string s =>
      let t := trim s in
      if str_is_empty t then f64_zero
      else
        match (match strip_prefix "0x" t with Some hex => Some hex | None => strip_prefix "0X" t end) with
        | Some hex => match u64_from_hex hex with Some n => f64_of_Z n | None => S754_nan end
        | None =>
            if String.eqb t "Infinity" || String.eqb t "+Infinity" then S754_infinity false
            else if String.eqb t "-Infinity" then S754_infinity true
            else if eq_ignore_ascii_case t "inf" || eq_ignore_ascii_case t "infinity" || eq_ignore_ascii_case t "nan"
            then S754_nan
            else default S754_nan (rust_parse_f64 t)
        end
  | _ => S754_nan
  end.

(** [f64]'s [Display]: the shortest digits, without an exponent. *)
Definition f64_display (f : f64) : string :=
  match f with
  | S754_nan => "NaN"
  | S754_infinity neg => if neg then "-inf" else "inf"
  | S754_zero neg => if neg then "-0" else "0"
  | S754_finite neg m e =>
      let '(k, (d, x)) := shortest m e in
      let digits := zero_padded (Z.to_nat k) d in
      let n := x + k in
      let body :=
        if 0 <=? x then digits +:+ zeros (Z.to_nat x)
        else if 0 <? n then
          String.substring 0 (Z.to_nat n) digits +:+ "." +:+
            String.substring (Z.to_nat n) (String.length digits - Z.to_nat n) digits
        else "0." +:+ zeros (Z.to_nat (- n)) +:+ digits in
      if neg then "-" +:+ body else body
  end.

(** [fmt_js_number] *)
Definition fmt_js_number (n : Number) : string :=
  match n with
  | Num_int z => pretty.pretty z
  | Num_float f =>
      if f64_is_nan f then "NaN"
      else
        match f with
        | S754_infinity neg => if neg then "-Infinity" else "Infinity"
        | _ =>
            if f64_eq f f64_zero then "0"
            else if f64_eq f (f64_trunc f) && f64_lt (f64_abs f) (f64_of_Z (10 ^ 21)) then pretty.pretty (f64_trunc_Z f)
            else f64_display f
        end
  end.

(** [js_display] of this file *)
Fixpoint config_display (v : JsonTree) : string :=
  match v with
  | Json_null => "null"
  | Json_bool b => if b then "true" else "false"
  | Json_number n => fmt_js_number n
  | Json_string s => s
  | Json_array a =>
      String.concat "," (map (fun e => match e with Json_null => EmptyString | _ => config_display e end) a)
  | Json_object _ => "[object Object]"
  end.

(** *** Fields *)

Definition field (obj : option JsonTree) (key : string) : option JsonTree := obj ≫= get key.

(** [string_field], [num_field], [watch_flag] *)
Definition string_field (obj : option JsonTree) (key default : string) : string :=
  match field obj key with
  | None | Some Json_null => default
  | Some v => config_display v
  end.
Definition num_field (obj : option JsonTree) (key : string) (default : f64) : f64 :=
  match field obj key with None => default | Some v => js_number_of v end.
Definition watch_flag (watch : option JsonTree) (key : string) : bool :=
  match field watch key with Some v => truthy v | None => false end.

(** [items.iter().filter_map(|v| v.as_str()..)] *)
Definition strings_of (v : option JsonTree) : list string :=
  match v with Some (Json_array items) => omap as_str items | _ => [] end.

(** [build_server] *)
Definition build_server (raw : JsonTree) : ServerCfg :=
  let s := get "server" raw in
  let port_num := num_field s "port" (f64_of_Z 4040) in
  let port :=
    if f64_is_finite port_num && (f64_le (f64_of_Z 1) port_num && f64_le port_num (f64_of_Z 65535))
    then f64_trunc_Z port_num else 4040 in
  let public_url :=
    match field s "publicUrl" with
    | None | Some Json_null => None
    | Some v => Some (config_display v)
    end in
  MkServerCfg port (string_field s "host" "0.0.0.0") (string_field s "db" "") (string_field s "token" "") public_url.

(** One entry of [agent.apps]. *)
Definition app_cfg (e : string * JsonTree) : option (string * AppCfg) :=
  match e.2 with
  | Json_object entry =>
      let category := match assoc "category" entry with
                      | Some c => if truthy c then config_display c else "coding"
                      | None => "coding"
                      end in
      let project_from_title := match assoc "projectFromTitle" entry with
                                | Some p => if truthy p then Some (config_display p) else None
                                | None => None
                                end in
      Some (e.1, MkAppCfg (string_field (Some e.2) "source" "") category project_from_title)
  | _ => None
  end%string.

(** [build_agent] *)
Definition build_agent (raw : JsonTree) : AgentCfg :=
  let a := get "agent" raw in
  let watch := field a "watch" in
  MkAgentCfg
    (string_field a "serverUrl" "http://127.0.0.1:4040") (string_field a "token" "") (string_field a "machine" "")
    (num_field a "intervalSeconds" (f64_of_Z 20))
    (strings_of (field a "projectRoots"))
    (match field a "projectAliases" with Some (Json_object m) => map (fun e => (e.1, config_display e.2)) m | _ => [] end)
    (MkWatchCfg (watch_flag watch "files") (watch_flag watch "claude") (watch_flag watch "codex")
       (watch_flag watch "macApps") (watch_flag watch "ssh") (watch_flag watch "zed"))
    (match field a "apps" with Some (Json_object m) => omap app_cfg m | _ => [] end)
    (num_field a "idleSeconds" (f64_of_Z 120))
    (strings_of (field a "ignoreDirs"))
    (num_field a "maxScanDepth" (f64_of_Z 8)).

(** [build_summary] *)
Definition build_summary (raw : JsonTree) : SummaryCfg :=
  let s := get "summary" raw in
  MkSummaryCfg (num_field s "capSeconds" (f64_of_Z 120)) (num_field s "lastEventCreditSeconds" (f64_of_Z 60))
    (num_field s "reattributeWindowSeconds" (f64_of_Z 120)) (num_field s "joinGapSeconds" (f64_of_Z 300)).

(** [build_pricing]: entries that are no price are left out. *)
Definition build_pricing (raw : JsonTree) : option PricingTable :=
  v ← get "pricing" raw;
  if negb (truthy v) then None
  else
    match v with
    | Json_object m => Some (omap (fun e => p ← price_from_tree e.2; Some (e.1, p)) m)
    | _ => Some []
    end.

(** *** Loading *)

(** [raw.get_mut(key).and_then(Value::as_object_mut)] *)
Definition update_object (key : string) (f : list (string * JsonTree) -> list (string * JsonTree)) (v : JsonTree)
    : JsonTree :=
  match v with
  | Json_object l =>
      match assoc key l with
      | Some (Json_object m) => Json_object (object_insert key (Json_object (f m)) l)
      | _ => v
      end
  | _ => v
  end.

Definition expand_text (home : string) (v : JsonTree) : JsonTree :=
  match v with Json_string s => Json_string (expand_home s home) | _ => v end.

Definition expand_db (home : string) (server : list (string * JsonTree)) : list (string * JsonTree) :=
  match assoc "db" server with
  | Some v => object_insert "db" (expand_text home v) server
  | None => server
  end.

Definition expand_roots (home : string) (agent : list (string * JsonTree)) : list (string * JsonTree) :=
  match assoc "projectRoots" agent with
  | Some (Json_array items) => object_insert "projectRoots" (Json_array (map (expand_text home) items)) agent
  | Some v => if truthy v then agent else object_insert "projectRoots" (Json_array []) agent
  | None => object_insert "projectRoots" (Json_array []) agent
  end.

(** The string shorthand of an app entry. *)
Definition normal_app (e : string * JsonTree) : string * JsonTree :=
  match e.2 with Json_string s => (e.1, app_entry s "coding") | _ => e end.
Definition normal_apps (agent : list (string * JsonTree)) : list (string * JsonTree) :=
  match assoc "apps" agent with
  | Some (Json_object apps) => object_insert "apps" (Json_object (map normal_app apps)) agent
  | _ => agent
  end.

Section Load.
Context {J : JsonText}.
Context (home machine : string).

(** [load_config_with] up to the views: the merged value. *)
Definition merged_raw (storage : StoragePaths) (user : JsonTree) : JsonTree :=
  let raw := deep_merge (defaults_with (sp_db_path storage) machine) user in
  update_object "agent" (fun agent => normal_apps (expand_roots home agent))
    (update_object "server" (expand_db home) raw).

(** The views of a merged value. *)
Definition views (storage : StoragePaths) (raw : JsonTree) : Config :=
  MkConfig raw (build_server raw) (build_agent raw) (build_summary raw) (build_pricing raw) (modules_from_raw raw)
    (string_field (get "wakatime" raw) "apiKey" "") storage.

(** [load_config_with]; [file] is [None] when there is no file, else its text or the
    error of reading it. *)
Definition load_config_with (path : string) (env : string -> option string) (file : option (Result string))
    : Result Config :=
  let forced key := if String.eqb key "STACKHOUR_CONFIG" then Some path else env key in
  let storage := resolve_storage_paths forced home in
  match file with
  | None => Ok (Json_object [])
  | Some text =>
      t ← text;
      match tree_from_str t with Some v => Ok v | None => Err (Error_msg (tree_error t)) end
  end ≫= fun user => Ok (views storage (merged_raw storage user)).

(** [read_existing_raw] *)
Definition read_existing_raw (file : option (Result string)) : Result JsonTree :=
  match file with
  | None => Ok (Json_object [])
  | Some (Err e) => Err (Error_msg ("cannot read existing config: " +:+ err_msg e))
  | Some (Ok t) =>
      match tree_from_str t with
      | Some v => Ok v
      | None => Err (Error_msg ("cannot read existing config: " +:+ tree_error t))
      end
  end.
End Load.

(** Facts about the merge of a user's configuration into the defaults, and about the
    configuration loaded from it. *)

Local Close Scope Z_scope.

(** *** Inserting a list of entries *)

Section Entries.
Context {V : Type} (g : V -> option V -> V).

Definition put_all (m out : list (string * V)) : list (string * V) :=
  fold_left (fun out e => object_insert e.1 (g e.2 (assoc e.1 out)) out) m out.

Lemma put_all_assoc m out k :
  NoDup m.*1 ->
  assoc k (put_all m out) = match assoc k m with Some v => Some (g v (assoc k out)) | None => assoc k out end.
Proof.
  revert out. induction m as [|[j v] m IH]; intros out Hnd; [done|]. apply NoDup_cons in Hnd as [Hj Hnd].
  cbn [put_all fold_left]. fold (put_all m (object_insert j (g v (assoc j out)) out)). cbn [fst snd].
  rewrite IH // assoc_insert. cbn [assoc]. destruct (String.eqb_spec k j) as [->|]; [|done].
  destruct (assoc j m) eqn:He; [|done]. exfalso. apply Hj, contains_key_elem. rewrite contains_key_assoc He.
  by apply bool_decide_eq_true.
Qed.

Lemma put_all_keys m out :
  NoDup m.*1 -> (put_all m out).*1 = out.*1 ++ List.filter (fun k => negb (contains_key k out)) m.*1.
Proof.
  revert out. induction m as [|[j v] m IH]; intros out Hnd; [by rewrite app_nil_r|]. apply NoDup_cons in Hnd as [Hj Hnd].
  cbn [put_all fold_left]. fold (put_all m (object_insert j (g v (assoc j out)) out)). cbn [fst snd].
  rewrite IH // insert_keys. cbn [fmap list_fmap List.filter fst].
  assert (List.filter (fun k => negb (contains_key k (object_insert j (g v (assoc j out)) out))) m.*1 =
          List.filter (fun k => negb (contains_key k out)) m.*1) as ->.
  { apply filter_ext_in. intros k Hk%list_elem_of_In. f_equal. rewrite !contains_key_assoc assoc_insert.
    by rewrite (proj2 (String.eqb_neq k j)); [intros ->|]. }
  destruct (contains_key j out); cbn [negb]; [done|]. by rewrite -app_assoc.
Qed.

Lemma put_all_NoDup m out : NoDup out.*1 -> NoDup (put_all m out).*1.
Proof. revert out. induction m as [|e m IH]; intros out H; [done|]. by apply IH, insert_NoDup. Qed.
End Entries.

(** *** The merge *)

(** What becomes of a user's value next to what is there. *)
Definition merge_value (v : JsonTree) (there : option JsonTree) : JsonTree :=
  match v with
  | Json_object _ =>
      match there with
      | Some (Json_object _ as b) | Some (Json_array _ as b) => merge_into v b
      | _ => v
      end
  | _ => v
  end.

Lemma merge_object m base : merge_into (Json_object m) base = Json_object (put_all merge_value m (spread_into_map base)).
Proof. done. Qed.

Lemma index_key_inj i j : index_key i = index_key j -> i = j.
Proof. apply pretty.pretty_nat_inj. Qed.

Lemma merge_array_loop a n out :
  (fold_left (fun (acc : nat * list (string * JsonTree)) v =>
     (S acc.1, object_insert (index_key acc.1) (merge_value v (assoc (index_key acc.1) acc.2)) acc.2)) a (n, out)).2 =
    put_all merge_value (imap (fun i x => (index_key (n + i), x)) a) out.
Proof.
  revert n out. induction a as [|v a IH]; intros n out; [done|]. cbn [fold_left fst snd imap]. rewrite IH.
  unfold put_all. cbn [fold_left fst snd]. rewrite Nat.add_0_r. f_equal. apply imap_ext. intros i x _. cbn.
  by rewrite Nat.add_succ_r.
Qed.

(** A user's array or text is merged as the object of its elements. *)
Lemma merge_entries user base : merge_into user base = Json_object (put_all merge_value (spread_into_map user) (spread_into_map base)).
Proof.
  destruct user as [|b|n|s|a|m]; try done.
  - cbn [merge_into]. f_equal.
    assert (Forall (fun e => exists c, e.2 = Json_string c) (spread_into_map (Json_string s))) as Ht.
    { apply Forall_forall. cbn [spread_into_map]. intros e (i & c & -> & _)%elem_of_lookup_imap. by exists c. }
    revert Ht. generalize (spread_into_map base). induction (spread_into_map (Json_string s)) as [|[k v] l IH];
      intros out Ht; [done|]. inversion_clear Ht as [|? ? [c Hc] Hl]. cbn in Hc. subst v. by apply IH.
  - cbn [merge_into]. f_equal. apply (merge_array_loop a 0).
Qed.

(** The keys that make an object, and the parts that are well formed. *)
Lemma spread_NoDup v : tree_ok v = true -> NoDup (spread_into_map v).*1.
Proof.
  assert (forall A (l : list A) (f : A -> JsonTree), NoDup (imap (fun i x => (index_key i, f x)) l).*1) as Himap.
  { intros A l f. rewrite fmap_imap. apply NoDup_alt. intros i j k. rewrite !list_lookup_imap.
    intros Hi Hj. destruct (l !! i), (l !! j); try done. cbn in *. apply index_key_inj. congruence. }
  destruct v as [|b|n|s|a|m]; intros H; try (by constructor).
  - apply (Himap _ (split_chars s) Json_string).
  - apply (Himap _ a id).
  - by apply tree_ok_object in H as [? _].
Qed.

Lemma assoc_Forall {V} (Q : V -> Prop) k v (l : list (string * V)) : Forall (fun e => Q e.2) l -> assoc k l = Some v -> Q v.
Proof.
  intros H. induction H as [|[j x] l Hx _ IH]; cbn; [done|]. destruct (String.eqb k j); [by intros [= <-]|done].
Qed.

Lemma assoc_not_in {V} k (l : list (string * V)) : assoc k l = None <-> k ∉ l.*1.
Proof.
  rewrite -contains_key_elem contains_key_assoc bool_decide_eq_true -eq_None_not_Some. done.
Qed.

(** Putting entries over themselves, or over a result that already has them, changes
    nothing when it changes no value. *)
Lemma put_all_id (m out : list (string * JsonTree)) :
  NoDup m.*1 -> NoDup out.*1 -> (forall k v, assoc k m = Some v -> exists w, assoc k out = Some w /\ merge_value v (Some w) = w) ->
  put_all merge_value m out = out.
Proof.
  intros Hm Ho H. apply object_ext.
  - by apply put_all_NoDup.
  - rewrite put_all_keys //. assert (List.filter (fun k => negb (contains_key k out)) m.*1 = []) as ->; [|by rewrite app_nil_r].
    destruct (List.filter _ _) as [|k l] eqn:Hf; [done|exfalso].
    assert (k ∈ List.filter (fun k => negb (contains_key k out)) m.*1) as Hk by (rewrite Hf; constructor).
    apply list_elem_of_In, filter_In in Hk as [Hk Hn]. apply list_elem_of_In, contains_key_elem in Hk.
    rewrite contains_key_assoc in Hk. apply bool_decide_eq_true in Hk as [v Hv]. destruct (H k v Hv) as (w & Hw & _).
    apply negb_true_iff in Hn. rewrite contains_key_assoc Hw in Hn. apply bool_decide_eq_false in Hn. by apply Hn.
  - intros k. rewrite put_all_assoc //. destruct (assoc k m) as [v|] eqn:Hv; [|done].
    destruct (H k v Hv) as (w & -> & Hw). by rewrite Hw.
Qed.

Lemma merge_value_other v o : (match v with Json_object _ => False | _ => True end) -> merge_value v o = v.
Proof. by destruct v. Qed.

(** The elements of a value, as entries, that are objects or arrays are well formed. *)
Definition element_ok (v : JsonTree) : Prop :=
  match v with Json_object _ | Json_array _ => tree_ok v = true | _ => True end.
Lemma spread_elements v : tree_ok v = true -> Forall (fun e => element_ok e.2) (spread_into_map v).
Proof.
  assert (forall x, tree_ok x = true -> element_ok x) as Hok by (intros x Hx; by destruct x).
  intros Hv. destruct v as [|b|n|s|a|l]; cbn [spread_into_map]; try by constructor.
  - apply Forall_forall. by intros e (i & c & -> & _)%elem_of_lookup_imap.
  - apply Forall_forall. intros e (i & x & -> & Hx)%elem_of_lookup_imap. apply Hok. cbn.
    apply tree_ok_array in Hv. rewrite Forall_forall in Hv. apply Hv. by eapply list_elem_of_lookup_2.
  - apply tree_ok_object in Hv as [_ Hl]. eapply Forall_impl; [exact Hl|]. intros [j x] Hx. apply Hok. cbn in *.
    unfold entry_ok in Hx. by apply andb_true_iff in Hx as [_ ?].
Qed.

(** A value merged into itself. *)
Lemma merge_self v : element_ok v -> merge_value v (Some v) = v.
Proof.
  induction v as [|b|n|s|a IH|l IH] using json_tree_ind; intros Hv; try done. cbn [element_ok] in Hv.
  cbn [merge_value]. rewrite merge_object. cbn [spread_into_map]. f_equal.
  pose proof (spread_elements _ Hv) as Hel. apply tree_ok_object in Hv as [Hnd _]. cbn [spread_into_map] in Hel.
  apply put_all_id; [done..|]. intros k v Hv. exists v. split; [done|].
  apply (assoc_Forall (fun v => element_ok v -> merge_value v (Some v) = v) k v l); [done..|].
  by apply (assoc_Forall element_ok k v l).
Qed.

Lemma filter_twice {A} (f : A -> bool) l : List.filter f (List.filter f l) = List.filter f l.
Proof. induction l as [|x l IH]; [done|]. cbn. destruct (f x) eqn:Hf; cbn; [by rewrite Hf IH|done]. Qed.

Definition merges_twice (v : JsonTree) : Prop :=
  forall b, tree_ok v = true -> tree_ok b = true -> merge_into (merge_into v b) b = merge_into v b.

(** One value merged twice over what the base has under its key. *)
Lemma merge_value_twice base k v :
  tree_ok base = true -> element_ok v -> merges_twice v ->
  let there := assoc k (spread_into_map base) in
  merge_value (merge_value v there) there = merge_value v there.
Proof.
  intros Hb Hv IH there. pose proof (spread_elements base Hb) as Hel.
  destruct v as [| | | | |l]; try done. destruct there as [b|] eqn:Ht; [|done].
  apply (assoc_Forall element_ok k b) in Hel; [|exact Ht].
  destruct b as [| | | |a|m]; try done; cbn [merge_value].
  - specialize (IH (Json_array a) Hv Hel). by rewrite !(merge_entries (Json_object l)) in IH |- *.
  - specialize (IH (Json_object m) Hv Hel). by rewrite !(merge_entries (Json_object l)) in IH |- *.
Qed.

(** Putting the entries of a result over the same base again changes nothing, when it
    changes none of the values. *)
Lemma put_all_twice (su sb : list (string * JsonTree)) :
  NoDup su.*1 -> NoDup sb.*1 ->
  (forall k v, assoc k su = Some v ->
     merge_value (merge_value v (assoc k sb)) (assoc k sb) = merge_value v (assoc k sb)) ->
  (forall k b, assoc k sb = Some b -> merge_value b (Some b) = b) ->
  put_all merge_value (put_all merge_value su sb) sb = put_all merge_value su sb.
Proof.
  intros Hu Hb H1 H2. pose proof (put_all_NoDup merge_value su sb Hb) as Hr. apply object_ext.
  - by apply put_all_NoDup.
  - rewrite (put_all_keys merge_value (put_all merge_value su sb)) // put_all_keys // List.filter_app. f_equal.
    assert (List.filter (fun k => negb (contains_key k sb)) sb.*1 = []) as ->.
    { destruct (List.filter _ _) as [|k l] eqn:Hf; [done|exfalso].
      assert (k ∈ List.filter (fun k => negb (contains_key k sb)) sb.*1) as Hk by (rewrite Hf; constructor).
      apply list_elem_of_In, filter_In in Hk as [Hk Hn]. apply list_elem_of_In, contains_key_elem in Hk. by rewrite Hk in Hn. }
    cbn [app]. apply filter_twice.
  - intros k. rewrite !put_all_assoc //. destruct (assoc k su) as [v|] eqn:Hv; [by rewrite H1|].
    destruct (assoc k sb) as [b|] eqn:Hk; [by rewrite (H2 k)|done].
Qed.

(** Merging the result again changes nothing. *)
Lemma merge_idempotent user base :
  tree_ok user = true -> tree_ok base = true -> merge_into (merge_into user base) base = merge_into user base.
Proof.
  revert base. enough (merges_twice user) as H by exact H.
  induction user as [|b|n|s|a IH|l IH] using json_tree_ind; intros base Hu Hb;
    (match goal with |- merge_into (merge_into ?u ?b) ?b = _ => rewrite (merge_entries u b) merge_object end); f_equal;
    (apply put_all_twice; [by apply spread_NoDup|by apply spread_NoDup| |]).
  all: try (intros k b0 Hk; apply merge_self; eapply (assoc_Forall element_ok); [by apply spread_elements|exact Hk]).
  all: try done.
  - intros k v Hk. assert (exists c, v = Json_string c) as [c ->]; [|done].
    apply (assoc_Forall (fun v => exists c, v = Json_string c) k v) in Hk; [done|].
    apply Forall_forall. cbn [spread_into_map]. intros e (i & c & -> & _)%elem_of_lookup_imap. by exists c.
  - intros k v Hk. apply (merge_value_twice base); [done| |].
    + exact (assoc_Forall element_ok _ _ _ (spread_elements _ Hu) Hk).
    + refine (assoc_Forall merges_twice _ _ _ _ Hk).
      apply Forall_forall. cbn [spread_into_map]. intros e (i & x & -> & Hx)%elem_of_lookup_imap.
      rewrite Forall_forall in IH. apply IH. by eapply list_elem_of_lookup_2.
  - intros k v Hk. apply (merge_value_twice base); [done| |].
    + exact (assoc_Forall element_ok _ _ _ (spread_elements _ Hu) Hk).
    + exact (assoc_Forall merges_twice _ _ _ IH Hk).
Qed.
