(* ===== verification/Project.v ===== *)
(** Project identity (crates/stackhour-core/src/project.rs): Node's lexical paths, the
    parts of a [.git] the resolver reads by hand, the normal form of a remote, the
    aliases and the order in which the name of a project is chosen.
      The file system is what [metadata] and [read] answer; the working directory,
    [Url::parse] and [str::to_lowercase] are parameters. The four regular expressions
    are literals of the source and are written out as recognisers. *)
From S2P Require Import Prelude.
From S2P Require Import RustStr.
From S2P Require Import Platform.
From S2P Require Import Paths.
From Stdlib Require Import Ascii.

Local Open Scope nat_scope.

(** What [metadata] says a path is. *)
Inductive Kind := Dir | File | Other.

(** The file system as one call sees it: [std::fs::metadata], following links, and
    [std::fs::read], which can fail where the first succeeds. *)
Record Files := MkFiles { fs_kind : string -> option Kind; fs_read : string -> option string }.

(** *** Text *)

Definition is_slash (c : N) : bool := N.eqb c 47.

(** The longest prefix of characters a class accepts, and the rest. *)
Fixpoint span_split (p : N -> bool) (cs : list string) : list string * list string :=
  match cs with
  | c :: cs' => if forallb p (chars c) then let '(a, b) := span_split p cs' in (c :: a, b) else ([], cs)
  | [] => ([], [])
  end.
Definition span_chars (p : N -> bool) (s : string) : string * string :=
  let '(a, b) := span_split p (split_chars s) in (String.concat "" a, String.concat "" b).
Definition skip_space (s : string) : string := (span_chars is_whitespace s).2.

(** [(.+)$]: the rest of the text, which must not be empty or have a line feed. *)
Definition rest_of_line (s : string) : option string :=
  if str_is_empty s || negb (byte_free LF s) then None else Some s.

Definition ascii_lower (a : ascii) : ascii :=
  let n := N_of_ascii a in if ((65 <=? n) && (n <=? 90))%N then ascii_of_N (n + 32) else a.
(** [str::eq_ignore_ascii_case] *)
Fixpoint eq_ignore_ascii_case (a b : string) : bool :=
  match a, b with
  | EmptyString, EmptyString => true
  | String x a', String y b' => Ascii.eqb (ascii_lower x) (ascii_lower y) && eq_ignore_ascii_case a' b'
  | _, _ => false
  end.
(** The prefix of a pattern under [(?i)]; its letters have ASCII case variants only. *)
Fixpoint strip_prefix_ci (p s : string) : option string :=
  match p, s with
  | EmptyString, _ => Some s
  | String a p', String b s' => if Ascii.eqb (ascii_lower a) (ascii_lower b) then strip_prefix_ci p' s' else None
  | String _ _, EmptyString => None
  end.

(** [str::replacen] with a count of one. *)
Fixpoint replace_first (p w s : string) : string :=
  if starts_with p s then w +:+ str_drop (String.length p) s
  else match s with EmptyString => EmptyString | String a r => String a (replace_first p w r) end.

(** *** The regular expressions *)

(** [gitdir_re], [^gitdir:\s*(.+)$] on trimmed text, so that its end is no space. *)
Definition gitdir_re (s : string) : option string :=
  rest ← strip_prefix_ci "gitdir:" s;
  rest_of_line (skip_space rest).

(** [remote_header_re], [^\[remote\s+'([^']+)'\]$] with double quotes, on a trimmed line. *)
Definition QUOTE : ascii := "034".
Definition quoted_end : string := String QUOTE "]".
Definition remote_header_re (s : string) : option string :=
  rest ← strip_prefix_ci "[remote" s;
  let '(space, rest) := span_chars is_whitespace rest in
  if str_is_empty space then None
  else
    rest ← strip_prefix (String QUOTE EmptyString) rest;
    name ← strip_suffix quoted_end rest;
    if str_is_empty name || negb (byte_free QUOTE name) then None else Some name.

(** [url_line_re], [^url\s*=\s*(.+)$] on a trimmed line. *)
Definition url_line_re (s : string) : option string :=
  rest ← strip_prefix_ci "url" s;
  rest ← strip_prefix "=" (skip_space rest);
  rest_of_line (skip_space rest).

(** [scp_re], [^(?:[^@/\s]+@)?([^:/\s]+):(.+)$]: with the user when the rest matches,
    else without. Each class excludes the character that must follow it. *)
Definition scp_user (c : N) : bool := negb (N.eqb c 64 || N.eqb c 47 || is_whitespace c).
Definition scp_host (c : N) : bool := negb (N.eqb c 58 || N.eqb c 47 || is_whitespace c).
Definition scp_tail (s : string) : option (string * string) :=
  let '(host, rest) := span_chars scp_host s in
  if str_is_empty host then None
  else
    rest ← strip_prefix ":" rest;
    path ← rest_of_line rest;
    Some (host, path).
Definition scp_re (s : string) : option (string * string) :=
  let '(user, rest) := span_chars scp_user s in
  match (if str_is_empty user then None else rest ← strip_prefix "@" rest; scp_tail rest) with
  | Some m => Some m
  | None => scp_tail s
  end.

(** *** Node's paths *)

(** One segment of [normalize_abs]; the stack has its top first. *)
Definition push_name (stack : list string) (seg : string) : list string :=
  if String.eqb seg "" || String.eqb seg "." then stack
  else if String.eqb seg ".." then tail stack
  else seg :: stack.
(** The path of a stack. *)
Definition path_of (stack : list string) : string := "/" +:+ String.concat "/" (reverse stack).
(** [normalize_abs]: with nothing on the stack the path is the root. *)
Definition normalize_abs (p : string) : string := path_of (fold_left push_name (split_byte SLASH p) []).

(** [s.trim_end_matches('/')] and [s.rfind('/')], the latter as the text before and
    after the last slash. *)
Fixpoint trim_end_slashes (s : string) : string :=
  match s with
  | EmptyString => EmptyString
  | String a r =>
      match trim_end_slashes r with
      | EmptyString => if Ascii.eqb a SLASH then EmptyString else String a EmptyString
      | r' => String a r'
      end
  end.
Fixpoint rsplit_slash (s : string) : option (string * string) :=
  match s with
  | EmptyString => None
  | String a r =>
      match rsplit_slash r with
      | Some (before, after) => Some (String a before, after)
      | None => if Ascii.eqb a SLASH then Some (EmptyString, r) else None
      end
  end.

(** [js_dirname] *)
Definition js_dirname (p : string) : string :=
  let trimmed := trim_end_slashes p in
  if str_is_empty trimmed then "/"
  else
    match rsplit_slash trimmed with
    | Some (before, _) => if str_is_empty before then "/" else before
    | None => "."
    end.

(** [js_basename] *)
Definition js_basename (p : string) : string :=
  let trimmed := trim_end_slashes p in
  match rsplit_slash trimmed with Some (_, after) => after | None => trimmed end.

(** [std::path::Component] of a Unix path. *)
Inductive Component := RootDir | CurDir | ParentDir | Normal (name : string).
#[export] Instance component_eq_dec : EqDecision Component.
Proof. solve_decision. Defined.
Definition component_of (seg : string) : option Component :=
  if String.eqb seg "" || String.eqb seg "." then None
  else if String.eqb seg ".." then Some ParentDir else Some (Normal seg).
Definition components (p : string) : list Component :=
  let segs := split_byte SLASH p in
  (if starts_with "/" p then [RootDir]
   else match segs with seg :: _ => if String.eqb seg "." then [CurDir] else [] | [] => [] end)
    ++ omap component_of segs.
(** [Path::starts_with] *)
Definition path_starts_with (p base : string) : bool := bool_decide (components base `prefix_of` components p).

Section Project.
Context (fs : Files) (cwd : string).
Context (url_parse : string -> option (string * string)).
Context (to_lowercase : string -> string).

(** [js_resolve1], [js_resolve2] *)
Definition js_resolve1 (p : string) : string :=
  if starts_with "/" p then normalize_abs p else normalize_abs (cwd +:+ "/" +:+ p).
Definition js_resolve2 (base p : string) : string :=
  if starts_with "/" p then normalize_abs p
  else if starts_with "/" base then normalize_abs (base +:+ "/" +:+ p)
  else normalize_abs (cwd +:+ "/" +:+ base +:+ "/" +:+ p).

(** [read_text] *)
Definition read_text (path : string) : option string := from_utf8_lossy <$> fs_read fs path.

(** *** The git directory *)

(** [git_dir_for_s] *)
Definition git_dir_for (root : string) : option string :=
  let dot_git := trim_end_slashes root +:+ "/.git" in
  kind ← fs_kind fs dot_git;
  match kind with
  | Dir => Some dot_git
  | _ =>
      content ← read_text dot_git;
      pointer ← gitdir_re (trim content);
      Some (js_resolve2 root pointer)
  end.

(** [common_git_dir_s] *)
Definition common_git_dir (git_dir : string) : string :=
  match read_text (git_dir +:+ "/commondir") with
  | Some content => js_resolve2 git_dir (trim content)
  | None => git_dir
  end.

(** The loop of [repository_root_s]: a directory without a git directory is left for
    its parent, until the parent is the directory itself. *)
Fixpoint walk_up (fuel : nat) (current : string) : option string :=
  match fuel with
  | O => None
  | S fuel' =>
      match git_dir_for current with
      | Some _ => Some current
      | None =>
          let parent := js_dirname current in
          if String.eqb parent current then None else walk_up fuel' parent
      end
  end.

(** Where the walk starts. *)
Definition walk_start (location : string) : string :=
  match fs_kind fs location with
  | Some Dir | None => js_resolve1 location
  | Some _ => js_dirname (js_resolve1 location)
  end.
(** [repository_root_s]: each round shortens the path. *)
Definition repository_root (location : string) : option string :=
  walk_up (S (String.length (walk_start location))) (walk_start location).

(** *** The remote *)

(** The scan of [remote_from_config], line by line: the open section and the remotes
    so far, the last first. *)
Definition config_line (acc : string * list (string * string)) (raw : string) : string * list (string * string) :=
  let '(section, remotes) := acc in
  let line := trim raw in
  match remote_header_re line with
  | Some name => (name, remotes)
  | None =>
      if starts_with "[" line then (EmptyString, remotes)
      else if str_is_empty section then (section, remotes)
      else
        match url_line_re line with
        | Some url => (section, (section, trim url) :: remotes)
        | None => (section, remotes)
        end
  end.
Definition config_remotes (config : string) : list (string * string) :=
  reverse (fold_left config_line (split_byte LF config) (EmptyString, [])).2.
(** [remote_from_config] *)
Definition remote_from_config (config : string) : option string :=
  let remotes := config_remotes config in
  match assoc "origin" remotes with
  | Some url => Some url
  | None => snd <$> head remotes
  end.

(** The removal of one trailing [.git]. *)
Definition strip_dot_git (path : string) : string :=
  let n := String.length path in
  if (4 <=? n) && eq_ignore_ascii_case (str_drop (n - 4) path) ".git"
  then String.substring 0 (n - 4) path else path.

(** [normalize_git_remote] *)
Definition normalize_git_remote (remote : string) : option string :=
  if str_is_empty remote then None
  else
    let trimmed := trim remote in
    '(host, pathname) ←
      match scp_re trimmed with
      | Some m => if contains "://" remote then url_parse trimmed else Some m
      | None => url_parse trimmed
      end;
    let clean_path := strip_dot_git (trim_matches is_slash pathname) in
    if str_is_empty host || str_is_empty clean_path then None
    else Some (to_lowercase host +:+ "/" +:+ clean_path).

(** [git_remote_for_root_s] *)
Definition git_remote_for_root (root : string) : option string :=
  git_dir ← git_dir_for root;
  config ← read_text (common_git_dir git_dir +:+ "/config");
  remote_from_config config ≫= normalize_git_remote.

(** [git_remote] *)
Definition git_remote (location : string) : option string := repository_root location ≫= git_remote_for_root.

(** *** The name *)

(** The candidates of [alias_for] for one entry: the exact key, then the first key
    that is equal in lower case. *)
Definition alias_of (aliases : list (string * string)) (candidate : string) : option string :=
  match assoc candidate aliases with
  | Some value => Some value
  | None => snd <$> List.find (fun e => String.eqb (to_lowercase e.1) (to_lowercase candidate)) aliases
  end.
(** [alias_for] *)
Fixpoint alias_for (aliases : list (string * string)) (candidates : list (option string)) : option string :=
  match candidates with
  | [] => None
  | None :: rest => alias_for aliases rest
  | Some candidate :: rest =>
      if str_is_empty candidate then alias_for aliases rest
      else match alias_of aliases candidate with Some value => Some value | None => alias_for aliases rest end
  end.

Definition nonempty (s : string) : option string := if str_is_empty s then None else Some s.

(** The last two segments of a remote, joined again. *)
Definition owner_repo (remote : string) : string :=
  let segments := split_byte SLASH remote in
  String.concat "/" (drop (length segments - 2) segments).

(** The name before the aliases: the fallback, the base name of the root or of the
    location, or unknown. *)
Definition project_name (value : string) (fallback : option string) (root : option string) : string :=
  let path_fallback :=
    match root with
    | Some r => Some (js_basename r)
    | None => if str_is_empty value then None else Some (js_basename value)
    end in
  match fallback ≫= nonempty with
  | Some f => f
  | None => default "unknown"%string (path_fallback ≫= nonempty)
  end.

Definition project_candidates (value : string) (root : option string) (name : string) : list (option string) :=
  let remote := root ≫= git_remote_for_root in
  [js_resolve1 <$> nonempty value; root; remote; owner_repo <$> remote; Some name].

(** [resolve_project_with_root] *)
Definition resolve_project_with_root (location : string) (aliases : list (string * string)) (fallback root : option string) : string :=
  let value := trim location in
  let name := project_name value fallback root in
  match alias_for aliases (project_candidates value root name) ≫= nonempty with
  | Some alias => alias
  | None => default name (owner_repo <$> (root ≫= git_remote_for_root))
  end.

(** The root of an absolute location. *)
Definition absolute_root (value : string) : option string :=
  if negb (str_is_empty value) && starts_with "/" value then repository_root value else None.

(** [resolve_project] *)
Definition resolve_project (location : string) (aliases : list (string * string)) (fallback : option string) : string :=
  resolve_project_with_root location aliases fallback (absolute_root (trim location)).

(** The filter of [resolve_project_within]. *)
Definition within (boundary : string) (root : option string) : option string :=
  r ← root; if path_starts_with r boundary then Some r else None.
(** [resolve_project_within] *)
Definition resolve_project_within (location boundary : string) (aliases : list (string * string)) (fallback : option string) : string :=
  resolve_project_with_root location aliases fallback (within boundary (absolute_root (trim location))).

(** *** The branch *)

(** What a trimmed HEAD names: a branch, or the start of a hash. *)
Definition head_branch (head : string) : string :=
  match strip_prefix "ref: " head with
  | Some reference => replace_first "refs/heads/" "" reference
  | None => take_chars 12 head
  end.

(** [git_branch] *)
Definition git_branch (project_dir : string) : option string :=
  let dot_git := trim_end_slashes project_dir +:+ "/.git" in
  kind ← fs_kind fs dot_git;
  git_dir ←
    match kind with
    | File =>
        content ← read_text dot_git;
        pointer ← gitdir_re (trim content);
        Some (js_resolve2 project_dir pointer)
    | _ => Some dot_git
    end;
  head ← read_text (git_dir +:+ "/HEAD");
  Some (head_branch (trim head)).
End Project.
