(* ===== verification/ProjectFacts.v ===== *)
(** Facts about project identity: the walk to the repository root as a search among
    the ancestors of a path, what the boundary of an activity root hides, and the
    normal form of the spellings of one remote. *)
From S2P Require Import Prelude.
From S2P Require Import RustStr.
From S2P Require Import Platform.
From S2P Require Import Paths.
From S2P Require Import Project.
From Stdlib Require Import Ascii.

Local Open Scope nat_scope.

(** *** Paths as stacks of names *)

(** A segment of a normal path. *)
Definition name (seg : string) : Prop :=
  seg <> ""%string /\ seg <> "."%string /\ seg <> ".."%string /\ byte_free SLASH seg = true.

Lemma split_byte_each a s : Forall (fun seg => byte_free a seg = true) (split_byte a s).
Proof.
  induction s as [|b s IH]; cbn; [by constructor|]. destruct (Ascii.eqb a b) eqn:Hb; [by constructor|].
  destruct IH as [|h t Hh Ht]; constructor; cbn; by rewrite ?Hb.
Qed.

Lemma push_name_ok stack seg : Forall name stack -> byte_free SLASH seg = true -> Forall name (push_name stack seg).
Proof.
  intros Hs Hf. unfold push_name. destruct (String.eqb_spec seg ""); [done|]. destruct (String.eqb_spec seg "."); [done|].
  destruct (String.eqb_spec seg ".."); cbn; [by destruct Hs|]. by constructor.
Qed.

Lemma normalize_abs_stack p : exists stack, Forall name stack /\ normalize_abs p = path_of stack.
Proof.
  exists (fold_left push_name (split_byte SLASH p) []). split; [|done].
  assert (Forall name []) as H0 by constructor. revert H0. generalize (@nil string).
  induction (split_byte_each SLASH p) as [|seg segs Hf _ IH]; intros stack H0; [done|]. by apply IH, push_name_ok.
Qed.

Lemma concat_snoc sep l x : l <> [] -> String.concat sep (l ++ [x]) = String.concat sep l +:+ sep +:+ x.
Proof.
  induction l as [|y l IH]; [done|]. intros _. destruct l as [|z l]; [done|].
  change (String.concat sep ((y :: z :: l) ++ [x])) with (y +:+ sep +:+ String.concat sep ((z :: l) ++ [x])).
  rewrite IH; [done|]. change (String.concat sep (y :: z :: l)) with (y +:+ sep +:+ String.concat sep (z :: l)).
  by rewrite !str_app_assoc.
Qed.

(** The path of a stack without the slash of the root. *)
Definition stem (stack : list string) : string := match stack with [] => EmptyString | _ => path_of stack end.

Lemma path_of_cons x stack : path_of (x :: stack) = stem stack +:+ String SLASH x.
Proof.
  unfold stem, path_of. destruct stack as [|y stack]; [done|]. rewrite reverse_cons concat_snoc.
  { intros H%(f_equal length). rewrite length_reverse in H. done. }
  by rewrite -str_app_assoc.
Qed.

Lemma trim_end_free x : byte_free SLASH x = true -> trim_end_slashes x = x.
Proof.
  induction x as [|a x IH]; [done|]. cbn [byte_free trim_end_slashes]. intros [Ha Hx]%andb_true_iff. rewrite IH //. apply negb_true_iff in Ha.
  destruct x; [|done]. by rewrite Ascii.eqb_sym Ha.
Qed.

Lemma trim_end_app s x : x <> EmptyString -> byte_free SLASH x = true -> trim_end_slashes (s +:+ x) = s +:+ x.
Proof.
  intros Hne Hx. induction s as [|a s IH]; [by apply trim_end_free|].
  change (String a s +:+ x) with (String a (s +:+ x)). cbn [trim_end_slashes]. rewrite IH.
    by destruct s; [destruct x|].
Qed.

Lemma rsplit_app s x : byte_free SLASH x = true -> rsplit_slash (s +:+ String SLASH x) = Some (s, x).
Proof.
  intros Hx. induction s as [|a s IH].
  - change (rsplit_slash (String SLASH x) = Some (EmptyString, x)). cbn [rsplit_slash].
    assert (rsplit_slash x = None) as ->; [|by rewrite Ascii.eqb_refl].
    clear -Hx. induction x as [|a x IH]; [done|]. cbn [byte_free rsplit_slash] in *. apply andb_true_iff in Hx as [Ha Hx].
    rewrite IH //. apply negb_true_iff in Ha. by rewrite Ascii.eqb_sym Ha.
  - change (String a s +:+ String SLASH x) with (String a (s +:+ String SLASH x)). cbn [rsplit_slash]. by rewrite IH.
Qed.

Lemma stem_trimmed stack : Forall name stack -> trim_end_slashes (path_of stack) = stem stack.
Proof.
  intros [|x rest (Hx & _ & _ & Hf) _]; [done|]. unfold stem at 1. rewrite path_of_cons.
  replace (stem rest +:+ String SLASH x) with ((stem rest +:+ "/") +:+ x) by (by rewrite str_app_assoc).
  by rewrite trim_end_app.
Qed.

Lemma stem_empty stack : str_is_empty (stem stack) = match stack with [] => true | _ => false end.
Proof. by destruct stack. Qed.

Lemma dirname_path stack : Forall name stack -> js_dirname (path_of stack) = path_of (tail stack).
Proof.
  intros Hs. unfold js_dirname. rewrite stem_trimmed // stem_empty.
  destruct Hs as [|x rest (_ & _ & _ & Hf) _]; [done|]. unfold stem at 1. rewrite path_of_cons rsplit_app //= stem_empty.
  by destruct rest.
Qed.

Lemma basename_path x stack : Forall name (x :: stack) -> js_basename (path_of (x :: stack)) = x.
Proof.
  intros Hs. unfold js_basename. rewrite stem_trimmed //. unfold stem. rewrite path_of_cons rsplit_app //.
  by apply Forall_cons in Hs as [(_ & _ & _ & ?) _].
Qed.

Lemma path_length stack : Forall name stack -> length stack < S (String.length (path_of stack)).
Proof.
  induction 1 as [|x rest (Hx & _) _ IH]; [cbn; lia|]. rewrite path_of_cons str_length_app. cbn [String.length length].
  destruct x; [done|]. cbn. unfold stem. destruct rest; cbn in *; lia.
Qed.

Lemma path_shorter x stack : Forall name (x :: stack) -> String.eqb (path_of stack) (path_of (x :: stack)) = false.
Proof.
  intros Hs. apply String.eqb_neq. intros He%(f_equal String.length). rewrite path_of_cons str_length_app in He.
  apply Forall_cons in Hs as [(Hx & _) _]. destruct x as [|a x]; [done|]. unfold stem in He.
  destruct stack as [|y stack]; [change (1 = 0 + S (S (String.length x))) in He; lia|]. set (n := String.length (path_of (y :: stack))) in He. cbn in He. lia.
Qed.

(** *** The walk *)

(** A path and its ancestors, up to the root. *)
Fixpoint suffixes (stack : list string) : list (list string) :=
  stack :: match stack with [] => [] | _ :: rest => suffixes rest end.
Definition ancestors (stack : list string) : list string := path_of <$> suffixes stack.

Section Walk.
Context (fs : Files) (cwd : string).

Definition has_git_dir (p : string) : bool := bool_decide (is_Some (git_dir_for fs cwd p)).

Lemma has_git_dir_case p :
  match git_dir_for fs cwd p with Some _ => has_git_dir p = true | None => has_git_dir p = false end.
Proof.
  unfold has_git_dir. destruct (git_dir_for fs cwd p); [by apply bool_decide_eq_true|apply bool_decide_eq_false].
  by intros [? [=]].
Qed.

Lemma walk_up_find fuel stack : Forall name stack -> length stack < fuel ->
  walk_up fs cwd fuel (path_of stack) = List.find has_git_dir (ancestors stack).
Proof.
  revert stack. induction fuel as [|fuel IH]; intros stack Hs Hf; [lia|]. cbn [walk_up].
  pose proof (has_git_dir_case (path_of stack)) as Hc. unfold ancestors. destruct stack as [|x rest].
  - cbn. destruct (git_dir_for fs cwd _) in Hc |- *; by rewrite Hc.
  - cbn [suffixes fmap list_fmap List.find]. destruct (git_dir_for fs cwd _) in Hc |- *; rewrite Hc; [done|].
    rewrite dirname_path // path_shorter //. apply Forall_cons in Hs as [_ Hs]. apply IH; [done|]. cbn in Hf |- *. lia.
Qed.

Lemma walk_start_stack location : exists stack, Forall name stack /\ walk_start fs cwd location = path_of stack.
Proof.
  assert (exists stack, Forall name stack /\ js_resolve1 cwd location = path_of stack) as (stack & Hs & He).
  { unfold js_resolve1. destruct (starts_with "/" location); apply normalize_abs_stack. }
  unfold walk_start. rewrite He. destruct (fs_kind fs location) as [[]|]; eauto;
    (exists (tail stack); split; [by destruct Hs|by apply dirname_path]).
Qed.

Lemma repository_root_find location stack : Forall name stack -> walk_start fs cwd location = path_of stack ->
  repository_root fs cwd location = List.find has_git_dir (ancestors stack).
Proof. intros Hs He. unfold repository_root. rewrite He. by apply walk_up_find, path_length. Qed.
End Walk.

(** *** The boundary of an activity root *)

Lemma split_concat_slash names : names <> [] -> Forall (fun s => byte_free SLASH s = true) names ->
  split_byte SLASH (String.concat "/" names) = names.
Proof.
  intros Hne Hf. induction Hf as [|x rest Hx Hr IH]; [done|]. destruct rest as [|y rest].
  - by apply split_byte_free.
  - change (String.concat "/" (x :: y :: rest)) with (x +:+ String SLASH (String.concat "/" (y :: rest))).
    by rewrite split_byte_app split_byte_free // IH.
Qed.

Lemma name_free names : Forall name names -> Forall (fun s => byte_free SLASH s = true) names.
Proof. intros H. eapply Forall_impl; [exact H|]. by intros x (_ & _ & _ & ?). Qed.

Lemma component_name x : name x -> component_of x = Some (Normal x).
Proof.
  intros (H1 & H2 & H3 & _). unfold component_of.
  by rewrite (proj2 (String.eqb_neq x "")) // (proj2 (String.eqb_neq x ".")) // (proj2 (String.eqb_neq x "..")).
Qed.

Lemma components_path stack : Forall name stack -> components (path_of stack) = RootDir :: (Normal <$> reverse stack).
Proof.
  intros Hs. assert (Forall name (reverse stack)) as Hr by (by rewrite reverse_Permutation). clear Hs.
  unfold components, path_of. change ("/" +:+ ?t) with (EmptyString +:+ String SLASH t).
  rewrite split_byte_app. change (starts_with "/" (EmptyString +:+ String SLASH ?t)) with true. cbn [app split_byte omap].
  assert (omap component_of (split_byte SLASH (String.concat "/" (reverse stack))) = Normal <$> reverse stack) as Ho.
  { revert Hr. generalize (reverse stack). intros names Hs. destruct (decide (names = [])) as [->|Hne]; [done|].
    rewrite split_concat_slash //; [by apply name_free|]. clear Hne.
    induction Hs as [|x names Hx _ IH]; [done|]. cbn [omap list_omap]. rewrite component_name //.
    change (Normal x :: omap component_of names = Normal <$> (x :: names)). by rewrite IH. }
  f_equal. exact Ho.
Qed.

Lemma path_within stack b : Forall name stack ->
  path_starts_with (path_of stack) b = bool_decide (components b `prefix_of` RootDir :: (Normal <$> reverse stack)).
Proof. intros Hs. unfold path_starts_with. by rewrite components_path. Qed.

Lemma within_grows x stack b : Forall name (x :: stack) ->
  path_starts_with (path_of stack) b = true -> path_starts_with (path_of (x :: stack)) b = true.
Proof.
  intros Hs. pose proof Hs as [_ Hr]%Forall_cons. rewrite !path_within // !bool_decide_eq_true. intros [k Hk].
  exists (k ++ [Normal x]). by rewrite reverse_cons fmap_app app_assoc -Hk.
Qed.

(** Two file systems with the same content below a directory. *)
Definition same_within (b : string) (fs1 fs2 : Files) : Prop :=
  forall p, path_starts_with p b = true -> fs_kind fs1 p = fs_kind fs2 p /\ fs_read fs1 p = fs_read fs2 p.

(** No pointer file below the directory leads out of it. *)
Definition pointers_inside (b : string) (fs : Files) (cwd : string) : Prop :=
  forall stack gd, Forall name stack -> path_starts_with (path_of stack) b = true -> git_dir_for fs cwd (path_of stack) = Some gd ->
    path_starts_with gd b = true /\ path_starts_with (common_git_dir fs cwd gd) b = true.

Section Boundary.
Context (b cwd : string) (fs1 fs2 : Files).
Context (Hsame : same_within b fs1 fs2).

Lemma dot_git_path stack : Forall name stack -> trim_end_slashes (path_of stack) +:+ "/.git" = path_of (".git"%string :: stack).
Proof. intros Hs. by rewrite stem_trimmed // path_of_cons. Qed.

Lemma sibling_within stack file : Forall name (file :: stack) -> path_starts_with (path_of stack) b = true ->
  read_text fs1 (path_of (file :: stack)) = read_text fs2 (path_of (file :: stack)).
Proof. intros Hf Hw. unfold read_text. by destruct (Hsame _ (within_grows _ _ _ Hf Hw)) as [_ ->]. Qed.

Lemma git_dir_same stack : Forall name stack -> path_starts_with (path_of stack) b = true ->
  git_dir_for fs1 cwd (path_of stack) = git_dir_for fs2 cwd (path_of stack).
Proof.
  intros Hs Hw. assert (Forall name (".git"%string :: stack)) as Hg by (by constructor).
  unfold git_dir_for. rewrite dot_git_path //. destruct (Hsame _ (within_grows _ _ _ Hg Hw)) as [-> _].
  by rewrite sibling_within.
Qed.

Lemma find_outside has stack : Forall name stack -> path_starts_with (path_of stack) b = false ->
  within b (List.find has (ancestors stack)) = None.
Proof.
  intros Hs Hw. destruct (List.find _ _) as [r|] eqn:Hf; [|done]. apply find_some in Hf as [Hin _].
  apply list_elem_of_In, list_elem_of_fmap in Hin as (st & -> & Hin). cbn.
  assert (path_starts_with (path_of st) b = false) as ->; [|done].
  induction Hs as [|x rest Hx Hr IH]; cbn in Hin.
  - apply list_elem_of_singleton in Hin. by subst.
  - apply elem_of_cons in Hin as [->|Hin]; [done|]. apply IH; [|done].
    apply not_true_is_false. intros Ht. rewrite (within_grows x) // in Hw. by constructor.
Qed.

Lemma find_same stack : Forall name stack ->
  within b (List.find (has_git_dir fs1 cwd) (ancestors stack)) = within b (List.find (has_git_dir fs2 cwd) (ancestors stack)).
Proof.
  intros Hs. induction Hs as [|x rest Hx Hr IH].
  - destruct (path_starts_with (path_of []) b) eqn:Hw; [|by rewrite !find_outside].
    unfold ancestors. cbn [suffixes fmap list_fmap List.find]. unfold has_git_dir. by rewrite git_dir_same.
  - destruct (path_starts_with (path_of (x :: rest)) b) eqn:Hw; [|by rewrite !find_outside; try constructor].
    unfold ancestors in *. cbn [suffixes fmap list_fmap List.find]. unfold has_git_dir at 1 3.
    rewrite git_dir_same; [by constructor|done|]. by destruct (bool_decide _).
Qed.

Lemma root_same value : path_starts_with value b = true ->
  within b (absolute_root fs1 cwd value) = within b (absolute_root fs2 cwd value).
Proof.
  intros Hv. unfold absolute_root. destruct (_ && _); [|done].
  destruct (walk_start_stack fs1 cwd value) as (stack & Hs & H1).
  assert (walk_start fs2 cwd value = path_of stack) as H2.
  { rewrite -H1. unfold walk_start. by destruct (Hsame _ Hv) as [-> _]. }
  rewrite !(repository_root_find _ _ _ stack) //. by apply find_same.
Qed.

(** A file of a directory that is named from the root. *)
Lemma within_child p x : starts_with "/" p = true -> name x -> path_starts_with p b = true ->
  path_starts_with (p +:+ "/" +:+ x) b = true.
Proof.
  intros Hp Hx. unfold path_starts_with. rewrite !bool_decide_eq_true. intros [k Hk]. exists (k ++ [Normal x]).
  rewrite app_assoc -Hk. unfold components. change (p +:+ "/" +:+ x) with (p +:+ String SLASH x). rewrite Hp.
  assert (starts_with "/" (p +:+ String SLASH x) = true) as ->; [by destruct p|].
  rewrite split_byte_app (split_byte_free _ x); [by destruct Hx as (_ & _ & _ & ?)|]. rewrite omap_app.
  cbn [omap list_omap]. rewrite component_name //.
Qed.

Lemma path_of_slash stack : starts_with "/" (path_of stack) = true.
Proof. unfold path_of. cbn. by destruct (String.concat _ _). Qed.

Lemma resolve2_slash c base p : starts_with "/" (js_resolve2 c base p) = true.
Proof. unfold js_resolve2, normalize_abs. destruct (starts_with "/" p), (starts_with "/" base); apply path_of_slash. Qed.

Lemma git_dir_slash fs stack gd : Forall name stack -> git_dir_for fs cwd (path_of stack) = Some gd -> starts_with "/" gd = true.
Proof.
  intros Hs. unfold git_dir_for. rewrite dot_git_path //. destruct (fs_kind _ _) as [k|]; [|done]. cbn [mbind option_bind].
  assert (forall o : option string, (pointer ← o; Some (js_resolve2 cwd (path_of stack) pointer)) = Some gd -> starts_with "/" gd = true) as Hr.
  { intros [p|]; [|done]. intros [= <-]. apply resolve2_slash. }
  destruct k; [intros [= <-]; apply path_of_slash|..]; destruct (read_text _ _); try done; apply Hr.
Qed.

Lemma common_slash fs gd : starts_with "/" gd = true -> starts_with "/" (common_git_dir fs cwd gd) = true.
Proof. intros H. unfold common_git_dir. destruct (read_text _ _); [apply resolve2_slash|done]. Qed.

Lemma child_same p x : starts_with "/" p = true -> name x -> path_starts_with p b = true ->
  read_text fs1 (p +:+ "/" +:+ x) = read_text fs2 (p +:+ "/" +:+ x).
Proof. intros H1 H2 H3. unfold read_text. by destruct (Hsame _ (within_child p x H1 H2 H3)) as [_ ->]. Qed.

Lemma remote_same url_parse to_lowercase stack : Forall name stack -> path_starts_with (path_of stack) b = true ->
  pointers_inside b fs1 cwd ->
  git_remote_for_root fs1 cwd url_parse to_lowercase (path_of stack) =
    git_remote_for_root fs2 cwd url_parse to_lowercase (path_of stack).
Proof.
  intros Hs Hw Hptr. unfold git_remote_for_root. rewrite -git_dir_same //.
  destruct (git_dir_for fs1 cwd (path_of stack)) as [gd|] eqn:Hg; [|done]. cbn [mbind option_bind].
  pose proof (git_dir_slash _ _ _ Hs Hg) as Hsl. destruct (Hptr _ _ Hs Hw Hg) as [Hgd Hcommon].
  assert (common_git_dir fs2 cwd gd = common_git_dir fs1 cwd gd) as ->.
  { unfold common_git_dir. change (gd +:+ "/commondir") with (gd +:+ "/" +:+ "commondir"). by rewrite child_same. }
  change (?p +:+ "/config") with (p +:+ "/" +:+ "config"). by rewrite child_same // common_slash.
Qed.

Lemma root_stack fs value r : within b (absolute_root fs cwd value) = Some r ->
  exists stack, Forall name stack /\ r = path_of stack /\ path_starts_with r b = true.
Proof.
  unfold absolute_root. destruct (_ && _); [|done]. destruct (walk_start_stack fs cwd value) as (stack & Hs & He).
  rewrite (repository_root_find fs cwd value stack) //. unfold within. destruct (List.find _ _) as [r'|] eqn:Hf; [|done].
  cbn. destruct (path_starts_with r' b) eqn:Hw; [|done]. intros [= <-]. apply find_some in Hf as [Hin _].
  apply list_elem_of_In, list_elem_of_fmap in Hin as (st & -> & Hin). exists st. split_and!; [|done..].
  clear -Hs Hin. induction Hs as [|x rest Hx Hr IH]; cbn in Hin.
  - apply list_elem_of_singleton in Hin. by subst.
  - apply elem_of_cons in Hin as [->|Hin]; [by constructor|by apply IH].
Qed.
End Boundary.

(** *** One remote, many spellings *)

(** The bytes of host, owner and repository names. *)
Definition plain_byte (a : ascii) : bool :=
  let n := N_of_ascii a in is_ascii_alphanumeric n || N.eqb n 45 || N.eqb n 46 || N.eqb n 95.
Definition plain_text (s : string) : Prop := s <> EmptyString /\ all_bytes plain_byte s = true.

(** A byte of the spellings: printable ASCII. *)
Definition visible (a : ascii) : bool := (33 <=? N_of_ascii a)%N && (N_of_ascii a <=? 126)%N.

(** A statement about bytes is checked on each. *)
Lemma by_bytes (Q : ascii -> bool) :
  forallb (fun n => Q (ascii_of_nat n)) (seq 0 256) = true -> forall a, Q a = true.
Proof.
  rewrite forallb_forall. intros H a. rewrite -(ascii_nat_embedding a). apply H, in_seq.
  pose proof (nat_ascii_bounded a). lia.
Qed.

Lemma plain_implies (Q : ascii -> bool) :
  forallb (fun n => implb (plain_byte (ascii_of_nat n)) (Q (ascii_of_nat n))) (seq 0 256) = true ->
  forall a, plain_byte a = true -> Q a = true.
Proof. intros H a Ha. pose proof (by_bytes (fun a => implb (plain_byte a) (Q a)) H a) as Hi. cbn in Hi. by rewrite Ha in Hi. Qed.

Lemma plain_visible a : plain_byte a = true -> visible a = true.
Proof. by apply (plain_implies visible). Qed.
Lemma plain_host a : plain_byte a = true -> forallb scp_host (chars (String a EmptyString)) = true.
Proof. by apply (plain_implies (fun a => forallb scp_host (chars (String a EmptyString)))). Qed.
Lemma plain_user a : plain_byte a = true -> forallb scp_user (chars (String a EmptyString)) = true.
Proof. by apply (plain_implies (fun a => forallb scp_user (chars (String a EmptyString)))). Qed.
Lemma plain_no_slash a : plain_byte a = true -> negb (Ascii.eqb SLASH a) = true.
Proof. by apply (plain_implies (fun a => negb (Ascii.eqb SLASH a))). Qed.
Lemma plain_no_colon a : plain_byte a = true -> negb (Ascii.eqb ":" a) = true.
Proof. by apply (plain_implies (fun a => negb (Ascii.eqb ":" a))). Qed.
Lemma visible_no_lf a : visible a = true -> negb (Ascii.eqb LF a) = true.
Proof.
  intros Ha. assert (forallb (fun n => implb (visible (ascii_of_nat n)) (negb (Ascii.eqb LF (ascii_of_nat n)))) (seq 0 256) = true) as H by done.
  pose proof (by_bytes (fun a => implb (visible a) (negb (Ascii.eqb LF a))) H a) as Hi. cbn in Hi. by rewrite Ha in Hi.
Qed.
Lemma visible_no_space a : visible a = true -> is_blank (String a EmptyString) = false.
Proof.
  intros Ha. assert (forallb (fun n => implb (visible (ascii_of_nat n)) (negb (is_blank (String (ascii_of_nat n) EmptyString)))) (seq 0 256) = true) as H by done.
  pose proof (by_bytes (fun a => implb (visible a) (negb (is_blank (String a EmptyString)))) H a) as Hi. cbn in Hi.
  rewrite Ha in Hi. by apply negb_true_iff in Hi.
Qed.

(** ASCII text is split into its bytes. *)
Definition bytes_of (s : string) : list string := (fun a => String a EmptyString) <$> String.list_ascii_of_string s.

Lemma visible_small a : visible a = true -> (N_of_ascii a <? 128)%N = true.
Proof. unfold visible. intros [_ H%N.leb_le]%andb_true_iff. apply N.ltb_lt. lia. Qed.

Lemma split_visible s t : all_bytes visible s = true -> split_chars (s +:+ t) = bytes_of s ++ split_chars t.
Proof.
  induction s as [|a s IH]; [done|]. cbn [all_bytes]. intros [Ha Hs]%andb_true_iff.
  change (String a s +:+ t) with (String a (s +:+ t)). cbn [split_chars]. rewrite visible_small // IH //.
Qed.

Lemma bytes_of_concat s : String.concat "" (bytes_of s) = s.
Proof.
  induction s as [|a s IH]; [done|]. unfold bytes_of in *. cbn [String.list_ascii_of_string fmap list_fmap].
  rewrite concat_cons IH. done.
Qed.

Lemma bytes_of_app s t : bytes_of (s +:+ t) = bytes_of s ++ bytes_of t.
Proof.
  induction s as [|a s IH]; [done|]. unfold bytes_of in *.
  change (String.list_ascii_of_string (String a s +:+ t)) with (a :: String.list_ascii_of_string (s +:+ t)).
  cbn [fmap list_fmap]. rewrite IH. done.
Qed.

Lemma split_chars_visible s : all_bytes visible s = true -> split_chars s = bytes_of s.
Proof. intros Hs. rewrite -{1}(str_app_nil_r s) split_visible //. by rewrite app_nil_r. Qed.

Lemma span_bytes p s a rest :
  all_bytes (fun b => forallb p (chars (String b EmptyString))) s = true -> forallb p (chars (String a EmptyString)) = false ->
  span_split p (bytes_of (s +:+ String a rest)) = (bytes_of s, bytes_of (String a rest)).
Proof.
  intros Hs Ha. induction s as [|b s IH].
  - change (span_split p (String a EmptyString :: bytes_of rest) = ([], String a EmptyString :: bytes_of rest)).
    cbn [span_split]. by rewrite Ha.
  - cbn [all_bytes] in Hs. apply andb_true_iff in Hs as [Hb Hs].
    change (span_split p (String b EmptyString :: bytes_of (s +:+ String a rest)) =
            (String b EmptyString :: bytes_of s, bytes_of (String a rest))).
    cbn [span_split]. by rewrite Hb IH.
Qed.

Lemma span_visible p s a rest : all_bytes visible (s +:+ String a rest) = true ->
  all_bytes (fun b => forallb p (chars (String b EmptyString))) s = true -> forallb p (chars (String a EmptyString)) = false ->
  span_chars p (s +:+ String a rest) = (s, String a rest).
Proof. intros Hv Hs Ha. unfold span_chars. by rewrite split_chars_visible // span_bytes // !bytes_of_concat. Qed.

(** Trimming. *)
Lemma trim_matches_space s : trim s = trim_matches is_whitespace s.
Proof.
  assert (forall cs, drop_blank cs = drop_chars is_whitespace cs) as H by (by induction cs as [|c cs IH]; cbn; [|rewrite IH]).
  unfold trim, trim_matches. by rewrite !H.
Qed.

Lemma drop_bytes p pre s : all_bytes visible (pre +:+ s) = true ->
  all_bytes (fun b => forallb p (chars (String b EmptyString))) pre = true ->
  drop_chars p (bytes_of (pre +:+ s)) = drop_chars p (bytes_of s).
Proof.
  intros _ Hp. induction pre as [|a pre IH]; [done|]. cbn [all_bytes] in Hp. apply andb_true_iff in Hp as [Ha Hp].
  change (bytes_of (String a pre +:+ s)) with (String a EmptyString :: bytes_of (pre +:+ s)). cbn [drop_chars].
  by rewrite Ha IH.
Qed.

(** Neither end of the text is in the class. *)
Record cut_at (p : N -> bool) (s : string) : Prop := {
  cut_first : exists a r, s = String a r /\ forallb p (chars (String a EmptyString)) = false;
  cut_last : exists r a, s = r +:+ String a EmptyString /\ forallb p (chars (String a EmptyString)) = false;
}.

Lemma trim_cut p pre s post : all_bytes visible (pre +:+ s +:+ post) = true ->
  all_bytes (fun b => forallb p (chars (String b EmptyString))) pre = true ->
  all_bytes (fun b => forallb p (chars (String b EmptyString))) post = true ->
  cut_at p s -> trim_matches p (pre +:+ s +:+ post) = s.
Proof.
  intros Hv Hpre Hpost [(a & r & Hs & Ha) (r' & b & Hs' & Hb)]. unfold trim_matches.
  rewrite split_chars_visible // drop_bytes //. rewrite bytes_of_app.
  assert (drop_chars p (bytes_of s ++ bytes_of post) = bytes_of s ++ bytes_of post) as ->.
  { rewrite Hs. change (bytes_of (String a r)) with (String a EmptyString :: bytes_of r). by apply drop_chars_stop. }
  rewrite rev_app_distr.
  assert (forall l, drop_chars p (rev (bytes_of post) ++ l) = drop_chars p l) as ->.
  { clear -Hpost. induction post as [|x post IH]; intros l; [done|]. cbn [all_bytes] in Hpost.
    apply andb_true_iff in Hpost as [Hx Hpost]. change (bytes_of (String x post)) with (String x EmptyString :: bytes_of post).
    cbn [rev]. rewrite -app_assoc IH //. cbn [app drop_chars]. by rewrite Hx. }
  rewrite {1}Hs' bytes_of_app rev_app_distr. change (rev (bytes_of (String b EmptyString))) with [String b EmptyString].
  cbn [app]. rewrite drop_chars_stop // -[String b EmptyString :: _]rev_involutive rev_involutive. cbn [rev].
  rewrite rev_involutive. change [String b EmptyString] with (bytes_of (String b EmptyString)).
  by rewrite -bytes_of_app -Hs' bytes_of_concat.
Qed.

Lemma cut_bytes q p s : (forall a, q a = true -> forallb p (chars (String a EmptyString)) = false) ->
  s <> EmptyString -> all_bytes q s = true -> cut_at p s.
Proof.
  intros Hq Hne Hs. destruct s as [|a s]; [done|]. cbn [all_bytes] in Hs. apply andb_true_iff in Hs as [Ha Hs].
  split; [exists a, s; split; [done|by apply Hq]|]. clear Hne. revert a Ha.
  induction s as [|b s IH]; intros a Ha; [exists EmptyString, a; split; [done|by apply Hq]|].
  cbn [all_bytes] in Hs. apply andb_true_iff in Hs as [Hb Hs]. destruct (IH Hs b Hb) as (r & c & Hr & Hc).
  exists (String a r), c. split; [|done]. rewrite Hr. done.
Qed.

Lemma cut_join p s mid t : cut_at p s -> cut_at p t -> cut_at p (s +:+ mid +:+ t).
Proof.
  intros [(a & r & -> & Ha) _] [_ (r' & b & -> & Hb)]. split.
  - by exists a, (r +:+ mid +:+ r' +:+ String b EmptyString).
  - exists (String a r +:+ mid +:+ r'), b. split; [|done]. by rewrite !str_app_assoc.
Qed.

Lemma visible_trim s : s <> EmptyString -> all_bytes visible s = true -> trim s = s.
Proof.
  intros Hne Hs. rewrite trim_matches_space.
  pose proof (trim_cut is_whitespace EmptyString s EmptyString) as H.
  change (EmptyString +:+ s +:+ EmptyString) with (s +:+ "") in H. rewrite str_app_nil_r in H. apply H; [done..|].
  by apply (cut_bytes visible); [apply visible_no_space| |].
Qed.

(** *** The identity of a repository *)

(** A host, an owner and a repository, the repository not itself named with a
    trailing [.git]. *)
Record identity (host owner repo : string) : Prop := {
  id_host : plain_text host;
  id_owner : plain_text owner;
  id_repo : plain_text repo;
  id_bare : strip_dot_git (owner +:+ "/" +:+ repo) = owner +:+ "/" +:+ repo;
}.

Lemma substring_app s t : String.substring 0 (String.length s) (s +:+ t) = s.
Proof.
  induction s as [|a s IH]; [by destruct t|].
  change (String a (String.substring 0 (String.length s) (s +:+ t)) = String a s). by rewrite IH.
Qed.

Lemma str_drop_app s t : str_drop (String.length s) (s +:+ t) = t.
Proof. induction s as [|a s IH]; [done|]. exact IH. Qed.

Lemma strip_git path : strip_dot_git (path +:+ ".git") = path.
Proof.
  unfold strip_dot_git. rewrite str_length_app. change (String.length ".git") with 4.
  rewrite (proj2 (Nat.leb_le 4 _)); [lia|]. replace (String.length path + 4 - 4) with (String.length path) by lia.
  by rewrite str_drop_app substring_app.
Qed.

(** What may follow the repository. *)
Inductive ending : string -> Prop :=
  | Bare : ending ""
  | Slash : ending "/"
  | Git : ending ".git"
  | Git_slash : ending ".git/".

(** The spellings of one remote: scp form without and with a user, and any URL the
    parser reads as that host and path. *)
Inductive spelling (url_parse : string -> option (string * string)) (host owner repo : string) : string -> Prop :=
  | Scp e : ending e -> spelling url_parse host owner repo (host +:+ ":" +:+ owner +:+ "/" +:+ repo +:+ e)
  | Scp_user user e : ending e -> plain_text user ->
      spelling url_parse host owner repo (user +:+ "@" +:+ host +:+ ":" +:+ owner +:+ "/" +:+ repo +:+ e)
  | Url url e : ending e -> contains "://" url = true ->
      url_parse (trim url) = Some (host, "/" +:+ owner +:+ "/" +:+ repo +:+ e) ->
      spelling url_parse host owner repo url.

Section Identity.
Context (url_parse : string -> option (string * string)) (to_lowercase : string -> string).
Context (host owner repo : string) (Hid : identity host owner repo).

Lemma plain_all_visible s : plain_text s -> all_bytes visible s = true.
Proof. intros [_ H]. eapply all_bytes_impl; [exact plain_visible|done]. Qed.

Lemma ending_visible e : ending e -> all_bytes visible e = true.
Proof. by destruct 1. Qed.

Lemma path_visible e : ending e -> all_bytes visible (owner +:+ "/" +:+ repo +:+ e) = true.
Proof. intros He. destruct Hid. by rewrite !all_bytes_app (plain_all_visible owner) // (plain_all_visible repo) // (ending_visible e). Qed.

Lemma plain_not_slash a : plain_byte a = true -> forallb is_slash (chars (String a EmptyString)) = false.
Proof.
  intros Ha. apply negb_true_iff. revert a Ha.
  by apply (plain_implies (fun a => negb (forallb is_slash (chars (String a EmptyString))))).
Qed.

(** The path is cleaned to owner and repository, whatever ends it and with or
    without a leading slash. *)
Lemma clean_path_exact pre e : (pre = "" \/ pre = "/")%string -> ending e ->
  strip_dot_git (trim_matches is_slash (pre +:+ owner +:+ "/" +:+ repo +:+ e)) = owner +:+ "/" +:+ repo.
Proof.
  intros Hpre He. destruct Hid as [_ Ho Hr Hbare].
  assert (forall core post, cut_at is_slash core -> (post = "" \/ post = "/")%string -> all_bytes visible core = true ->
    trim_matches is_slash (pre +:+ core +:+ post) = core) as Htrim.
  { intros core post Hcut Hpost Hv. apply trim_cut; [|by destruct Hpre as [-> | ->]|by destruct Hpost as [-> | ->]|done].
    rewrite !all_bytes_app Hv. by destruct Hpre as [-> | ->], Hpost as [-> | ->]. }
  assert (forall s, plain_text s -> cut_at is_slash s) as Hp by (intros s [? ?]; by eapply cut_bytes; [exact plain_not_slash|..]).
  assert (cut_at is_slash (owner +:+ "/" +:+ repo)) as Hcut by (apply cut_join; by apply Hp).
  assert (cut_at is_slash ((owner +:+ "/" +:+ repo) +:+ "" +:+ ".git")) as Hgit by (apply cut_join; [done|by apply Hp]).
  pose proof (path_visible "" Bare) as Hv. pose proof (path_visible ".git" Git) as Hvg.
  rewrite str_app_nil_r in Hv.
  destruct He.
  - rewrite -{1}Hbare -(Htrim (owner +:+ "/" +:+ repo) ""%string) //; [by left|]. by rewrite !str_app_assoc.
  - rewrite -{1}Hbare -(Htrim (owner +:+ "/" +:+ repo) "/"%string) //; [by right|]. by rewrite !str_app_assoc.
  - transitivity (strip_dot_git ((owner +:+ "/" +:+ repo) +:+ ".git")); [|by apply strip_git].
    rewrite -(Htrim ((owner +:+ "/" +:+ repo) +:+ ".git") ""%string) //; [by left|by rewrite !str_app_assoc|].
    by rewrite !str_app_assoc.
  - transitivity (strip_dot_git ((owner +:+ "/" +:+ repo) +:+ ".git")); [|by apply strip_git].
    rewrite -(Htrim ((owner +:+ "/" +:+ repo) +:+ ".git") "/"%string) //; [by right|by rewrite !str_app_assoc|].
    by rewrite !str_app_assoc.
Qed.

Lemma plain_span p s a rest : (forall b, plain_byte b = true -> forallb p (chars (String b EmptyString)) = true) ->
  plain_text s -> forallb p (chars (String a EmptyString)) = false -> all_bytes visible (String a rest) = true ->
  span_chars p (s +:+ String a rest) = (s, String a rest).
Proof.
  intros Hp Hs Ha Hr. apply span_visible; [by rewrite all_bytes_app plain_all_visible|
    |done]. destruct Hs as [_ Hs]. eapply all_bytes_impl; [exact Hp|done].
Qed.

Lemma scp_tail_exact path : path <> EmptyString -> all_bytes visible path = true ->
  scp_tail (host +:+ String ":" path) = Some (host, path).
Proof.
  intros Hne Hv. destruct Hid as [Hh _ _ _]. unfold scp_tail. rewrite plain_span //; [exact plain_host|].
  destruct Hh as [Hh _]. assert (str_is_empty host = false) as -> by (by destruct host). cbn [strip_prefix]. rewrite Ascii.eqb_refl. cbn [mbind option_bind].
  unfold rest_of_line. rewrite -bytes_free. destruct path as [|a path]; [done|]. cbn [str_is_empty orb].
  by rewrite (all_bytes_impl visible _ _ visible_no_lf).
Qed.

Lemma path_nonempty e : owner +:+ "/" +:+ repo +:+ e <> EmptyString.
Proof. destruct Hid as [_ [Ho _] _ _]. by destruct owner. Qed.

Lemma scp_re_plain e : ending e ->
  scp_re (host +:+ ":" +:+ owner +:+ "/" +:+ repo +:+ e) = Some (host, owner +:+ "/" +:+ repo +:+ e).
Proof.
  intros He. pose proof (path_visible e He) as Hv. destruct Hid as [Hh Ho Hr _]. unfold scp_re.
  replace (host +:+ ":" +:+ owner +:+ "/" +:+ repo +:+ e) with ((host +:+ ":" +:+ owner) +:+ String SLASH (repo +:+ e))
    by (by rewrite !str_app_assoc).
  rewrite span_visible //.
  - rewrite !str_app_assoc all_bytes_app (plain_all_visible host) //.
  - rewrite !all_bytes_app. destruct Hh as [_ Hh], Ho as [_ Ho].
    by rewrite (all_bytes_impl _ _ _ plain_user Hh) (all_bytes_impl _ _ _ plain_user Ho).
  - assert (str_is_empty (host +:+ ":" +:+ owner) = false) as ->; [destruct Hh as [Hh _]; by destruct host|].
    cbn [strip_prefix]. change (Ascii.eqb "@" SLASH) with false. cbn [mbind option_bind].
    replace ((host +:+ ":" +:+ owner) +:+ String SLASH (repo +:+ e)) with (host +:+ String ":" (owner +:+ "/" +:+ repo +:+ e))
      by (by rewrite !str_app_assoc).
    by apply scp_tail_exact; [apply path_nonempty|].
Qed.

Lemma scp_re_user user e : ending e -> plain_text user ->
  scp_re (user +:+ "@" +:+ host +:+ ":" +:+ owner +:+ "/" +:+ repo +:+ e) = Some (host, owner +:+ "/" +:+ repo +:+ e).
Proof.
  intros He Hu. pose proof (path_visible e He) as Hv. unfold scp_re.
  change (user +:+ "@" +:+ ?t) with (user +:+ String "@" t).
  rewrite plain_span //; [exact plain_user| |].
  - cbn [all_bytes]. destruct Hid as [Hh _ _ _]. rewrite all_bytes_app (plain_all_visible host) //.
  - assert (str_is_empty user = false) as ->; [destruct Hu as [Hu _]; by destruct user|].
    cbn [strip_prefix]. rewrite Ascii.eqb_refl. cbn [mbind option_bind].
    change (host +:+ ":" +:+ ?t) with (host +:+ String ":" t). by rewrite scp_tail_exact //; apply path_nonempty.
Qed.

(** A text whose only colon is not followed by a slash has no [://]. *)
Lemma contains_skip p a s t : byte_free a s = true -> contains (String a p) (s +:+ t) = contains (String a p) t.
Proof.
  induction s as [|b s IH]; [done|]. cbn [byte_free]. intros [Hb Hs]%andb_true_iff. apply negb_true_iff in Hb.
  change (String b s +:+ t) with (String b (s +:+ t)). cbn [contains starts_with]. by rewrite Hb IH.
Qed.

Lemma plain_colon_free s : plain_text s -> byte_free ":" s = true.
Proof. intros [_ H]. rewrite -bytes_free. eapply all_bytes_impl; [exact plain_no_colon|done]. Qed.

Lemma no_scheme pre e : byte_free ":" pre = true -> ending e -> contains "://" (pre +:+ ":" +:+ owner +:+ "/" +:+ repo +:+ e) = false.
Proof.
  intros Hpre He. rewrite contains_skip //. destruct Hid as [_ Ho Hr _].
  change (":" +:+ ?t) with (String ":" t).
  assert (byte_free ":" (owner +:+ "/" +:+ repo +:+ e) = true) as Hf.
  { rewrite !byte_free_app (plain_colon_free owner) // (plain_colon_free repo) //. by destruct He. }
  cbn [contains]. rewrite (byte_free_contains ":" "//" _ Hf) orb_false_r.
  destruct Ho as [Hne Ho]. destruct owner as [|a o]; [done|]. cbn [all_bytes] in Ho. apply andb_true_iff in Ho as [Ha _].
  apply plain_no_slash, negb_true_iff in Ha. change (Ascii.eqb "/" a && starts_with "/" (o +:+ "/" +:+ repo +:+ e) = false).
  unfold SLASH in Ha. by rewrite Ha.
Qed.

(** Every spelling has the same normal form. *)
Lemma remote_normal remote : spelling url_parse host owner repo remote ->
  normalize_git_remote url_parse to_lowercase remote = Some (to_lowercase host +:+ "/" +:+ owner +:+ "/" +:+ repo).
Proof.
  intros Hsp. assert (exists pre e, (pre = "" \/ pre = "/")%string /\ ending e /\ remote <> EmptyString /\
    match scp_re (trim remote) with
    | Some m => if contains "://" remote then url_parse (trim remote) else Some m
    | None => url_parse (trim remote)
    end = Some (host, pre +:+ owner +:+ "/" +:+ repo +:+ e)) as (pre & e & Hpre & He & Hne & Hm).
  { pose proof Hid as [Hh _ _ _]. destruct Hsp as [e He|user e He Hu|url e He Hc Hp].
    - exists "", e. split_and!; [by left|done|by destruct Hh as [? _]; destruct host|].
      rewrite visible_trim; [by destruct Hh as [? _]; destruct host| |by rewrite scp_re_plain // no_scheme // plain_colon_free].
      rewrite all_bytes_app (plain_all_visible host) // all_bytes_app path_visible //.
    - exists "", e. split_and!; [by left|done|by destruct Hu as [? _]; destruct user|].
      rewrite visible_trim; [by destruct Hu as [? _]; destruct user| |].
      + rewrite all_bytes_app (plain_all_visible user) // all_bytes_app all_bytes_app (plain_all_visible host) // all_bytes_app path_visible //.
      + rewrite scp_re_user //. replace (user +:+ "@" +:+ host +:+ ":" +:+ owner +:+ "/" +:+ repo +:+ e)
          with ((user +:+ "@" +:+ host) +:+ ":" +:+ owner +:+ "/" +:+ repo +:+ e) by (by rewrite !str_app_assoc).
        rewrite no_scheme //. by rewrite !byte_free_app (plain_colon_free user) // (plain_colon_free host).
    - exists "/", e. split_and!; [by right|done|by destruct url|]. rewrite Hc. by destruct (scp_re _). }
  unfold normalize_git_remote. assert (str_is_empty remote = false) as -> by (by destruct remote).
  rewrite Hm. cbn [mbind option_bind]. rewrite clean_path_exact //. destruct Hid as [[Hh _] [Ho _] _ _].
  by destruct host, owner.
Qed.

(** The last two segments of the normal form. *)
Lemma owner_repo_exact h : owner_repo (h +:+ "/" +:+ owner +:+ "/" +:+ repo) = owner +:+ "/" +:+ repo.
Proof.
  destruct Hid as [_ [_ Ho] [_ Hr] _]. unfold owner_repo. change ("/" +:+ ?t) with (String SLASH t).
  assert (forall s, all_bytes plain_byte s = true -> split_byte SLASH s = [s]) as Hf.
  { intros s Hs. apply split_byte_free. rewrite -bytes_free. eapply all_bytes_impl; [exact plain_no_slash|done]. }
  rewrite !split_byte_app (Hf owner) // (Hf repo) // length_app. cbn [length app].
  replace (length (split_byte SLASH h) + 2 - 2) with (length (split_byte SLASH h)) by lia. by rewrite drop_app_length.
Qed.
End Identity.
