(* ===== verification/Tail.v ===== *)
(** Following the log files of other programs (crates/stackhour-agent/src/tail.rs) and
    the saved state of the agent (state.rs): the lines appended since the last tick,
    the first line of a file, the offsets and their pruning.
      The state is the serde_json object of the file, its maps in insertion order. A
    file is its size, as [metadata] gives it, and what a read from an offset yields. *)
From S2P Require Import Prelude.
From S2P Require Import RustStr.
From S2P Require Import Float64.
From S2P Require Import Platform.
From S2P Require Import JsNum.
From S2P Require Import JsonTrees.
From S2P Require Import Paths.
From S2P Require Import Project.
From S2P Require Import ProjectFacts.
From Stdlib Require Import Ascii.

Local Open Scope Z_scope.

Definition Object := list (string * JsonTree).

(** [Value::as_u64], [Value::as_f64], [Value::is_object]; [json!] of integers and of
    doubles, which is null when the double is not finite; [Value::pointer] on keys. *)
Definition as_u64 (v : JsonTree) : option Z :=
  match v with Json_number (Num_int z) => if 0 <=? z then Some z else None | _ => None end.
Definition as_f64 (v : JsonTree) : option f64 := match v with Json_number n => Some (number_f64 n) | _ => None end.
Definition as_object (v : JsonTree) : option Object := match v with Json_object l => Some l | _ => None end.
Definition is_object (v : JsonTree) : bool := match v with Json_object _ => true | _ => false end.
Definition json_int (z : Z) : JsonTree := Json_number (Num_int z).
Definition json_f64 (f : f64) : JsonTree := if f64_is_finite f then Json_number (Num_float f) else Json_null.
Fixpoint pointer (path : list string) (v : JsonTree) : option JsonTree :=
  match path with [] => Some v | k :: rest => get k v ≫= pointer rest end.

(** A field that is text, and one that is text and not empty. *)
Definition str_field (k : string) (v : JsonTree) : option string := get k v ≫= as_str.
Definition truthy_str (k : string) (v : JsonTree) : option string := str_field k v ≫= nonempty.

(** *** tail.rs *)

(** [MAX_READ_PER_FILE], [MAX_HEAD_LINE], [DEFAULT_PRUNE_MAX] *)
Definition MAX_READ_PER_FILE : Z := 5 * 1024 * 1024.
Definition MAX_HEAD_LINE : Z := 1024 * 1024.
Definition DEFAULT_PRUNE_MAX : nat := 2000.

(** What the calls on a path answer: the size, when [metadata] succeeds, and the bytes
    a read of a length at an offset fills in, fewer at the end of the file. *)
Record FileView := MkView { fv_size : option Z; fv_read : Z -> Z -> option string }.

(** A file whose content does not change during the call. *)
Definition view_of (content : string) : FileView :=
  MkView (Some (Z.of_nat (String.length content)))
    (fun start len => Some (String.substring (Z.to_nat start) (Z.to_nat len) content)).
Definition no_file : FileView := MkView None (fun _ _ => None).

(** The text before the last line feed, whose length is its position. *)
Fixpoint before_last_lf (s : string) : option string :=
  match s with
  | EmptyString => None
  | String a r =>
      match before_last_lf r with
      | Some t => Some (String a t)
      | None => if Ascii.eqb a LF then Some EmptyString else None
      end
  end.

(** The text before the first line feed. *)
Fixpoint before_first_lf (s : string) : option string :=
  match s with
  | EmptyString => None
  | String a r => if Ascii.eqb a LF then Some EmptyString else String a <$> before_first_lf r
  end.

Section Tail.
Context {J : JsonText}.

(** One line: trimmed, dropped when blank or not JSON. *)
Definition parse_line (line : string) : option JsonTree :=
  let trimmed := trim line in
  if str_is_empty trimmed then None else tree_from_str trimmed.
Definition parse_lines (bytes : string) : list JsonTree := omap parse_line (split_byte LF (from_utf8_lossy bytes)).

(** [read_new_lines] *)
Definition read_new_lines (file : FileView) (name : string) (offsets : Object) : list JsonTree * Object :=
  match fv_size file with
  | None => ([], offsets)
  | Some size =>
      match assoc name offsets ≫= as_u64 with
      | None => ([], object_insert name (json_int size) offsets)
      | Some prev =>
          if size <=? prev then ([], object_insert name (json_int (Z.min prev size)) offsets)
          else
            let start := if MAX_READ_PER_FILE <? size - prev then size - MAX_READ_PER_FILE else prev in
            match fv_read file start (size - start) with
            | None => ([], offsets)
            | Some buf =>
                match before_last_lf buf with
                | None => ([], object_insert name (json_int start) offsets)
                | Some complete =>
                    (parse_lines complete,
                     object_insert name (json_int (start + Z.of_nat (String.length complete) + 1)) offsets)
                end
            end
      end
  end.

(** [read_first_json_line] *)
Definition read_first_json_line (file : FileView) (limit : Z) : option JsonTree :=
  size ← fv_size file;
  if size =? 0 then None
  else
    buf ← fv_read file 0 (Z.min size limit);
    line ←
      match before_first_lf buf with
      | Some line => Some line
      | None => if Z.of_nat (String.length buf) <? size then None else Some buf
      end;
    tree_from_str (from_utf8_lossy line).
End Tail.

(** [prune_offsets] *)
Definition prune_offsets {V} (map : list (string * V)) (live : list string) (max : nat) : list (string * V) :=
  if (length map <? max)%nat then map else List.filter (fun e => bool_decide (e.1 ∈ live)) map.

(** [parse_ts_seconds]: milliseconds, rounded down, as seconds. *)
Definition parse_ts_seconds {P : Platform} (value : option JsonTree) : option f64 :=
  text ← value ≫= as_str;
  dt ← parse_from_rfc3339 text;
  Some (f64_div (f64_of_Z (dt / 1000000)) (f64_of_Z 1000)).

(** What a directory holds: each entry with its own type, links not followed, when
    the type can be read. *)
Definition Listing := string -> option (list (string * option Kind)).

(** [walk_files]: [S depth] levels are left. *)
Fixpoint walk_files (read_dir : Listing) (keep : string -> bool) (levels : nat) (dir : string) : list string :=
  match levels with
  | O => []
  | S levels' =>
      match read_dir dir with
      | None => []
      | Some entries =>
          flat_map (fun e =>
            let full := path_join dir e.1 in
            match e.2 with
            | Some Dir => walk_files read_dir keep levels' full
            | Some _ => if keep e.1 then [full] else []
            | None => []
            end) entries
      end
  end.
(** The depths from which the walk goes on: 0 to 4. *)
Definition WALK_LEVELS : nat := 5.

(** *** [Path::extension] *)

(** The text before and after the last dot. *)
Fixpoint rsplit_dot (s : string) : option (string * string) :=
  match s with
  | EmptyString => None
  | String a r =>
      match rsplit_dot r with
      | Some (before, after) => Some (String a before, after)
      | None => if Ascii.eqb a "." then Some (EmptyString, r) else None
      end
  end.
(** The extension of a file name: none when the dot is the first character. *)
Definition name_extension (name : string) : option string :=
  if String.eqb name ".." then None
  else '(before, after) ← rsplit_dot name; if str_is_empty before then None else Some after.

(** *** state.rs *)

(** [USAGE_BY_ID_CAP] *)
Definition USAGE_BY_ID_CAP : nat := N.to_nat 20000.

(** [load_state]: the object in the file, or an empty one. *)
Definition load_state {J : JsonText} (file : option string) : Object :=
  default [] (text ← file; (if utf8_valid text then tree_from_str text else None) ≫= as_object).

(** [save_state]: the text of the file it leaves, when the write succeeds. *)
Definition save_state {J : JsonText} (state : Object) : string := tree_to_string (Json_object state).

(** [object_mut]: the map under a key, put there when it is missing, and the state
    with another map there. *)
Definition object_at (key : string) (state : Object) : Object := default [] (assoc key state ≫= as_object).
Definition ensure_object (key : string) (state : Object) : Object :=
  match assoc key state with Some (Json_object _) => state | _ => object_insert key (Json_object []) state end.
Definition put_object (key : string) (map state : Object) : Object := object_insert key (Json_object map) state.

(** [trim_usage_by_id]: entries leave from the front, the first inserted first. *)
Definition trim_entries (map : Object) : Object := drop (length map - USAGE_BY_ID_CAP) map.
Definition trim_usage_by_id (state : Object) : Object :=
  put_object "claudeUsageById" (trim_entries (object_at "claudeUsageById" state)) state.

(** Facts about the followed files: decoding and splitting commute with appending
    after a line feed, and the ticks over a growing file read each line once. *)

(** A line feed never belongs to a longer sequence. *)
Lemma lf_no_tail lo hi : (128 <= lo)%N -> byte_in lo hi LF = false.
Proof. intros H. unfold byte_in. change (N_of_ascii LF) with 10%N. by rewrite (proj2 (N.leb_gt lo 10)); [lia|]. Qed.

(** A step of the decoder on appended text, the end of the text before it, and a
    sequence broken off by the byte that follows. *)
Ltac step_app :=
  match goal with |- context [String ?x ?y +:+ ?u] => change (String x y +:+ u) with (String x (y +:+ u)) end; cbn beta iota.
Ltac at_end := change (EmptyString +:+ ?u) with u; cbn beta iota.
Ltac broken_off Hrec :=
  match goal with |- context [from_utf8_lossy (String ?x (?y +:+ ?u))] => change (String x (y +:+ u)) with (String x y +:+ u) end;
  rewrite Hrec; [cbn; lia|by rewrite -str_app_assoc].

Lemma lossy_lf s t : from_utf8_lossy (s +:+ String LF t) = from_utf8_lossy s +:+ String LF (from_utf8_lossy t).
Proof.
  remember (String.length s) as n eqn:Hn. revert s Hn. induction n as [n IH] using lt_wf_ind. intros s Hn.
  assert (forall r, (String.length r < n)%nat ->
    from_utf8_lossy (r +:+ String LF t) = from_utf8_lossy r +:+ String LF (from_utf8_lossy t)) as Hrec.
  { intros r Hr. by apply (IH (String.length r)). }
  assert (from_utf8_lossy (String LF t) = String LF (from_utf8_lossy t)) as Hlf by done.
  assert (forall (c : bool) hi, byte_in (if c then 160 else 128)%N hi LF = false) as H160 by (intros [] ?; by apply lf_no_tail).
  assert (forall (c : bool) hi, byte_in (if c then 144 else 128)%N hi LF = false) as H144 by (intros [] ?; by apply lf_no_tail).
  assert (byte_in 128 191 LF = false) as H128 by done.
  destruct s as [|a s]; [exact Hlf|]. cbn [String.length] in Hn. step_app.
  cbn [from_utf8_lossy]. destruct (byte_in 0 127 a); [rewrite Hrec; [lia|done]|].
  destruct s as [|a1 s]; [at_end; rewrite H128 H160 H144 !andb_false_r; by rewrite Hlf|].
  cbn [String.length] in Hn. step_app. destruct (_ && _); [rewrite Hrec; [lia|done]|].
  destruct (_ && _).
  { destruct s as [|a2 s]; [at_end; by rewrite H128 Hlf|]. cbn [String.length] in Hn. step_app.
    destruct (byte_in 128 191 a2); [rewrite Hrec; [lia|done]|]. broken_off Hrec. }
  destruct (_ && _); [|broken_off Hrec].
  destruct s as [|a2 s]; [at_end; by rewrite H128 Hlf|]. cbn [String.length] in Hn. step_app.
  destruct (byte_in 128 191 a2); [|broken_off Hrec].
  destruct s as [|a3 s]; [at_end; by rewrite H128 Hlf|]. cbn [String.length] in Hn. step_app.
  destruct (byte_in 128 191 a3); [rewrite Hrec; [lia|done]|broken_off Hrec].
Qed.

(** *** Positions of line feeds *)

Lemma last_lf_split s t : before_last_lf s = Some t -> exists u, s = t +:+ String LF u /\ before_last_lf u = None.
Proof.
  revert t. induction s as [|a s IH]; intros t; [done|]. cbn [before_last_lf].
  destruct (before_last_lf s) as [t'|] eqn:Hs.
  - intros [= <-]. destruct (IH _ eq_refl) as (u & -> & Hu). by exists u.
  - destruct (Ascii.eqb_spec a LF) as [->|]; [|done]. intros [= <-]. by exists s.
Qed.

Lemma last_lf_app t u : before_last_lf (t +:+ String LF u) =
  Some (match before_last_lf u with Some t' => t +:+ String LF t' | None => t end).
Proof.
  induction t as [|a t IH].
  - change (before_last_lf (String LF u) = Some (match before_last_lf u with Some t' => String LF t' | None => EmptyString end)).
    cbn [before_last_lf]. destruct (before_last_lf u); [done|]. by rewrite Ascii.eqb_refl.
  - change (String a t +:+ ?v) with (String a (t +:+ v)). cbn [before_last_lf]. rewrite IH. by destruct (before_last_lf u).
Qed.

Section TailFacts.
Context {J : JsonText}.

Lemma parse_lines_lf s t : parse_lines (s +:+ String LF t) = parse_lines s ++ parse_lines t.
Proof. unfold parse_lines. by rewrite lossy_lf split_byte_app omap_app. Qed.

(** What the complete lines of a text parse to. *)
Definition parse_complete (text : string) : list JsonTree :=
  match before_last_lf text with Some complete => parse_lines complete | None => [] end.

Lemma parse_complete_lf t u : parse_complete (t +:+ String LF u) = parse_lines t ++ parse_complete u.
Proof. unfold parse_complete. rewrite last_lf_app. destruct (before_last_lf u); [apply parse_lines_lf|by rewrite app_nil_r]. Qed.

(** *** The ticks over a growing file *)

(** One tick for each content of the file, in order. *)
Fixpoint tail_ticks (name : string) (offsets : Object) (contents : list string) : list JsonTree * Object :=
  match contents with
  | [] => ([], offsets)
  | content :: rest =>
      let '(rows, offsets) := read_new_lines (view_of content) name offsets in
      let '(more, offsets) := tail_ticks name offsets rest in
      (rows ++ more, offsets)
  end.

(** The contents of a file to which texts are appended. *)
Fixpoint growing (content : string) (appended : list string) : list string :=
  match appended with [] => [] | d :: rest => (content +:+ d) :: growing (content +:+ d) rest end.

(** What is left after the last line feed. *)
Fixpoint after_last_lf (s : string) : string :=
  match s with
  | EmptyString => EmptyString
  | String a r => match before_last_lf r with
                  | Some _ => after_last_lf r
                  | None => if Ascii.eqb a LF then r else s
                  end
  end.

(** No tick finds more than a read takes: the unfinished line and what was appended
    to it. *)
Fixpoint paced (pending : string) (appended : list string) : Prop :=
  match appended with
  | [] => True
  | d :: rest =>
      Z.of_nat (String.length (pending +:+ d)) <= MAX_READ_PER_FILE /\ paced (after_last_lf (pending +:+ d)) rest
  end.

Lemma after_last_lf_none s : before_last_lf s = None -> after_last_lf s = s.
Proof.
  destruct s as [|a s]; [done|]. cbn. destruct (before_last_lf s); [done|]. by destruct (Ascii.eqb a LF).
Qed.

Lemma after_last_lf_free s : before_last_lf (after_last_lf s) = None.
Proof.
  induction s as [|a s IH]; [done|]. cbn. destruct (before_last_lf s) eqn:Hs; [done|].
  destruct (Ascii.eqb a LF) eqn:Ha; [done|]. cbn. by rewrite Hs Ha.
Qed.

Lemma after_last_lf_app t u : before_last_lf u = None -> after_last_lf (t +:+ String LF u) = u.
Proof.
  intros Hu. induction t as [|a t IH].
  - change (after_last_lf (String LF u) = u). cbn [after_last_lf]. by rewrite Hu Ascii.eqb_refl.
  - change (String a t +:+ ?v) with (String a (t +:+ v)). cbn [after_last_lf]. by rewrite last_lf_app.
Qed.

Lemma substring_rest s t : String.substring (String.length s) (String.length t) (s +:+ t) = t.
Proof.
  induction s as [|a s IH]; [|exact IH]. change (EmptyString +:+ t) with t. cbn [String.length].
  rewrite -{2}(str_app_nil_r t). apply substring_app.
Qed.

(** A tick that starts at a pending line. *)
Lemma tick_growing name offsets base buf :
  assoc name offsets ≫= as_u64 = Some (Z.of_nat (String.length base)) ->
  Z.of_nat (String.length buf) <= MAX_READ_PER_FILE ->
  exists offsets' done, read_new_lines (view_of (base +:+ buf)) name offsets = (parse_complete buf, offsets') /\
    base +:+ buf = done +:+ after_last_lf buf /\
    assoc name offsets' ≫= as_u64 = Some (Z.of_nat (String.length done)) /\
    forall t, parse_complete (buf +:+ t) = parse_complete buf ++ parse_complete (after_last_lf buf +:+ t).
Proof.
  intros Ho Hmax. unfold read_new_lines, view_of. cbn [fv_size fv_read]. rewrite Ho str_length_app Nat2Z.inj_add.
  assert (forall z (d : Object), 0 <= z -> assoc name (object_insert name (json_int z) d) ≫= as_u64 = Some z) as Hat.
  { intros z d Hz. rewrite assoc_insert String.eqb_refl. cbn. by rewrite (proj2 (Z.leb_le 0 z)). }
  destruct (Z.leb_spec (Z.of_nat (String.length base) + Z.of_nat (String.length buf)) (Z.of_nat (String.length base))) as [Hle|Hlt].
  - destruct buf; [|cbn in Hle; lia]. eexists _, base. split_and!; [done|done| |done].
    rewrite Hat; cbn; [lia|]. f_equal. lia.
  - rewrite (proj2 (Z.ltb_ge MAX_READ_PER_FILE _)); [lia|].
    replace (Z.to_nat (Z.of_nat (String.length base) + Z.of_nat (String.length buf) - Z.of_nat (String.length base)))
      with (String.length buf) by lia. rewrite Nat2Z.id substring_rest. unfold parse_complete at 1 3.
    destruct (before_last_lf buf) as [t|] eqn:Hb.
    + destruct (last_lf_split _ _ Hb) as (u & -> & Hu). eexists _, (base +:+ t +:+ String LF EmptyString).
      split_and!; [done|by rewrite after_last_lf_app // !str_app_assoc| |].
      * rewrite Hat; [lia|]. f_equal. rewrite !str_length_app. cbn [String.length]. lia.
      * intros s. rewrite after_last_lf_app // str_app_assoc. apply parse_complete_lf.
    + rewrite after_last_lf_none //. eexists _, base. split_and!; [done|done|apply Hat; lia|done].
Qed.

Lemma ticks_growing name appended : forall offsets base pending,
  assoc name offsets ≫= as_u64 = Some (Z.of_nat (String.length base)) -> paced pending appended ->
  parse_complete pending = [] ->
  (tail_ticks name offsets (growing (base +:+ pending) appended)).1 = parse_complete (pending +:+ String.concat "" appended).
Proof.
  induction appended as [|d rest IH]; intros offsets base pending Ho Hp Hnone.
  - cbn. by rewrite str_app_nil_r.
  - destruct Hp as [Hmax Hp]. cbn [growing tail_ticks]. rewrite str_app_assoc.
    destruct (tick_growing name offsets base (pending +:+ d) Ho Hmax) as (offsets' & done & -> & Hd & Ho' & Hsplit).
    rewrite Hd concat_cons -str_app_assoc Hsplit -(IH offsets' done _ Ho' Hp); [|by destruct (tail_ticks _ _ _)].
    unfold parse_complete. by rewrite after_last_lf_free.
Qed.
End TailFacts.
