(* ===== verification/WatchClaude.v ===== *)
(** The watcher of Claude Code's session logs
    (crates/stackhour-agent/src/watch_claude.rs): which lines are a person's prompts,
    what each streamed usage record is charged, and the rows of a line, a file and a
    tick. *)
From S2P Require Import Prelude.
From S2P Require Import RustStr.
From S2P Require Import Float64.
From S2P Require Import Platform.
From S2P Require Import Pricing.
From S2P Require Import JsNum.
From S2P Require Import JsonTrees.
From S2P Require Import Project.
From S2P Require Import Tail.

Local Open Scope Z_scope.

(** What the watchers see of the machine: its files, its working directory, and the
    functions of other crates. *)
Record Machine := MkMachine {
  mc_files : Files;
  mc_cwd : string;
  mc_url_parse : string -> option (string * string);
  mc_lowercase : string -> string;
  mc_list : Listing;
  mc_view : string -> FileView;
}.
Definition project_of (m : Machine) (aliases : list (string * string)) (location : string) (fallback : option string) : string :=
  resolve_project (mc_files m) (mc_cwd m) (mc_url_parse m) (mc_lowercase m) location aliases fallback.

(** [RECENT_WINDOW_S] *)
Definition RECENT_WINDOW_S : f64 := f64_of_Z 3600.

(** [USAGE_KEYS] *)
Definition USAGE_KEYS : list (string * string) :=
  [("input", "input_tokens"); ("cacheWrite", "cache_creation_input_tokens");
   ("cacheRead", "cache_read_input_tokens"); ("output", "output_tokens")]%string.

(** [Path::extension] of a file name is [jsonl]. *)
Definition is_jsonl (name : string) : bool :=
  match name_extension name with Some e => String.eqb e "jsonl" | None => false end.

(** [value.get(key).and_then(Value::as_f64).unwrap_or(0.0)] *)
Definition number_at (key : string) (v : JsonTree) : f64 := default f64_zero (get key v ≫= as_f64).

(** [read_usage] *)
Definition read_usage (usage : JsonTree) : list f64 := map (fun k => number_at k.2 usage) USAGE_KEYS.
(** [read_previous] *)
Definition read_previous (usage_by_id : Object) (id : string) : list f64 :=
  match assoc id usage_by_id with
  | None => map (fun _ => f64_zero) USAGE_KEYS
  | Some prev => map (fun k => number_at k.1 prev) USAGE_KEYS
  end.

(** The text at a path. *)
Definition str_at (path : list string) (v : JsonTree) : option string := pointer path v ≫= as_str.

(** A text field with the given value. *)
Definition field_is (key value : string) (v : JsonTree) : bool :=
  match str_field key v with Some s => String.eqb s value | None => false end.

(** [is_human_prompt] *)
Definition is_human_prompt (line : JsonTree) : bool :=
  if negb (field_is "type" "user" line) then false
  else if match get "isSidechain" line with Some v => js_truthy v | None => false end then false
  else
    match pointer ["message"; "content"] line with
    | Some (Json_string _) => true
    | Some (Json_array blocks) =>
        existsb (field_is "type" "text") blocks && negb (existsb (field_is "type" "tool_result") blocks)
    | _ => false
    end.

(** *** Tokens *)

(** Input, output and cost of a charge. *)
Record Charge := MkCharge { ch_in : f64; ch_out : f64; ch_cost : f64 }.

(** [current] minus [previous], floored at zero, and their maximum. *)
Definition usage_delta (current previous : list f64) : list f64 :=
  zip_with (fun c p => f64_max (f64_sub c p) f64_zero) current previous.
Definition usage_max (current previous : list f64) : list f64 := zip_with f64_max current previous.
Definition usage_entry (maxed : list f64) : JsonTree :=
  Json_object (zip_with (fun k m => (k.1, json_f64 m)) USAGE_KEYS maxed).

Section Watcher.
Context (m : Machine) (aliases : list (string * string)) (pricing : option PricingTable).

(** The charge of a usage record: none when nothing grew. *)
Definition charge_of (model : string) (delta : list f64) : option Charge :=
  match delta with
  | [input; cache_write; cache_read; output] =>
      if existsb (fun d => f64_lt f64_zero d) delta
      then Some (MkCharge (f64_add (f64_add input cache_write) cache_read) output
                  (cost_of (mc_lowercase m) model (MkUsage input output cache_read cache_write) pricing))
      else None
  | _ => None
  end.

(** Token accounting of a line: the maxima it leaves in the state and what it is
    charged. A record without a message id is charged whole. *)
Definition account (line : JsonTree) (state : Object) : Object * option Charge :=
  match pointer ["message"; "usage"] line with
  | Some (Json_object fields) =>
      let current := read_usage (Json_object fields) in
      let model := default ""%string (str_at ["message"; "model"] line) in
      match js_display <$> pointer ["message"; "id"] line with
      | Some id =>
          let usage_by_id := object_at "claudeUsageById" state in
          let previous := read_previous usage_by_id id in
          (put_object "claudeUsageById" (object_insert id (usage_entry (usage_max current previous)) usage_by_id) state,
           charge_of model (usage_delta current previous))
      | None => (state, charge_of model (usage_delta current (map (fun _ => f64_zero) USAGE_KEYS)))
      end
  | _ => (state, None)
  end.

(** [attach] *)
Definition attach (fields : option Charge) (row : Object) : Object :=
  match fields with
  | Some c => object_insert "cost" (json_f64 (ch_cost c))
                (object_insert "tokens_out" (json_f64 (ch_out c)) (object_insert "tokens_in" (json_f64 (ch_in c)) row))
  | None => row
  end.

(** *** Rows *)

(** The fields a kind of row adds to the base, in order. *)
Definition row_with (base : Object) (actor entity entity_type : string) (is_write : Z) : Object :=
  object_insert "is_write" (json_int is_write)
    (object_insert "entity_type" (Json_string entity_type)
      (object_insert "entity" (Json_string entity) (object_insert "actor" (Json_string actor) base))).

(** The working directory of a line, and its base row. *)
Definition line_cwd (line : JsonTree) : string := default "unknown"%string (truthy_str "cwd" line).
Definition base_row (ts : f64) (line : JsonTree) : Object :=
  [("time", json_f64 ts);
   ("source", Json_string (if field_is "entrypoint" "claude-desktop" line then "claude-desktop" else "claude-code"));
   ("project", Json_string (project_of m aliases (line_cwd line) None));
   ("category", Json_string "ai coding");
   ("branch", match str_field "gitBranch" line with Some b => Json_string b | None => Json_null end)]%string.

(** The file a block writes or reads through a tool, and whether it writes. *)
Definition tool_file (block : JsonTree) : option (string * bool) :=
  if field_is "type" "tool_use" block then
    fp ← str_at ["input"; "file_path"] block ≫= nonempty;
    let lowered := mc_lowercase m (default ""%string (str_field "name" block)) in
    Some (fp, contains "edit" lowered || contains "write" lowered)
  else None.

(** The rows of the files of a line; the charge rides on the first. *)
Definition file_row (base : Object) (file : string * bool) : Object :=
  row_with base "agent" file.1 "file" (if file.2 then 1 else 0).
Definition file_rows (base : Object) (charge : option Charge) (files : list (string * bool)) : list Object :=
  match files with
  | [] => []
  | first :: rest => attach charge (file_row base first) :: map (file_row base) rest
  end.

(** The rows of a line, once it is accounted for. *)
Definition line_rows (ts : f64) (line : JsonTree) (charge : option Charge) : list Object :=
  let base := base_row ts line in
  if is_human_prompt line then [row_with base "human" (line_cwd line) "app" 0]
  else
    let files :=
      match pointer ["message"; "content"] line with Some (Json_array blocks) => omap tool_file blocks | _ => [] end in
    match files with
    | [] =>
        if field_is "type" "user" line || field_is "type" "assistant" line
        then [attach charge (row_with base "agent" (line_cwd line) "app" 0)] else []
    | _ => file_rows base charge files
    end.

Context {P : Platform} {J : JsonText}.
Context (now : f64).

(** A line of the recent past, or of the future. *)
Definition line_time (line : JsonTree) : option f64 :=
  ts ← parse_ts_seconds (get "timestamp" line);
  if f64_lt RECENT_WINDOW_S (f64_sub now ts) then None else Some ts.

(** One round of the loop over the lines of a file: the rows so far and the state. *)
Definition claude_line (acc : list Object * Object) (line : JsonTree) : list Object * Object :=
  match line_time line with
  | None => acc
  | Some ts =>
      let '(state, charge) := account line acc.2 in
      (acc.1 ++ line_rows ts line charge, state)
  end.

(** One file: skipped when it has not grown past its offset. *)
Definition claude_file (acc : list Object * Object) (file : string) : list Object * Object :=
  let '(rows, state) := acc in
  let view := mc_view m file in
  match fv_size view with
  | None => acc
  | Some size =>
      let state := ensure_object "claudeOffsets" state in
      let offsets := object_at "claudeOffsets" state in
      if match assoc file offsets ≫= as_u64 with Some prev => size <=? prev | None => false end then (rows, state)
      else
        let '(lines, offsets) := read_new_lines view file offsets in
        fold_left claude_line lines (rows, put_object "claudeOffsets" offsets state)
  end.

(** [run]: nothing when the directory does not exist. *)
Definition claude_run (projects_dir : string) (state : Object) : list Object * Object :=
  match fs_kind (mc_files m) projects_dir with
  | None => ([], state)
  | Some _ =>
      let files := walk_files (mc_list m) is_jsonl WALK_LEVELS projects_dir in
      let '(rows, state) := fold_left claude_file files ([], state) in
      let state := trim_usage_by_id state in
      (rows, put_object "claudeOffsets" (prune_offsets (object_at "claudeOffsets" state) files DEFAULT_PRUNE_MAX) state)
  end.
End Watcher.
