(* ===== verification/WatchClaudeFacts.v ===== *)
(** What the usage accounting of the Claude watcher adds up to: the charges of a
    message id, over the lines of any number of ticks, against the largest counters
    it was ever seen with. *)
From S2P Require Import Prelude.
From S2P Require Import RustStr.
From S2P Require Import Float64.
From S2P Require Import Platform.
From S2P Require Import Pricing.
From S2P Require Import JsNum.
From S2P Require Import JsonTrees.
From S2P Require Import Project.
From S2P Require Import Tail.
From S2P Require Import WatchClaude.

Local Open Scope Z_scope.

(** *** Sums and maxima *)

Definition sum_Z (l : list Z) : Z := foldr Z.add 0 l.

Lemma sum_Z_app l1 l2 : sum_Z (l1 ++ l2) = sum_Z l1 + sum_Z l2.
Proof. induction l1 as [|x l1 IH]; cbn; [done|]. unfold sum_Z in *. cbn. lia. Qed.

(** A usage record: a message id and its counters, in the order of [USAGE_KEYS]. *)
Definition UsageRecord : Type := string * list Z.

(** The largest value of a counter among the records of a message. *)
Definition peak (id : string) (k : nat) (records : list UsageRecord) : Z :=
  foldr Z.max 0 (map (fun r => if String.eqb r.1 id then nth k r.2 0 else 0) records).

Lemma peak_snoc id k rs r :
  peak id k (rs ++ [r]) = Z.max (peak id k rs) (if String.eqb r.1 id then nth k r.2 0 else 0).
Proof. unfold peak. rewrite map_app foldr_app. induction rs as [|x rs IH]; cbn in *; lia. Qed.

Lemma peak_nonneg id k rs : 0 <= peak id k rs.
Proof. induction rs as [|x rs IH]; cbn in *; unfold peak in *; cbn; lia. Qed.

Lemma peak_bound id k rs b : 0 <= b -> Forall (fun r => Forall (fun c => c <= b) r.2) rs -> peak id k rs <= b.
Proof.
  intros Hb H. induction H as [|x rs Hx _ IH]; [done|]. unfold peak in *. cbn [map foldr].
  assert ((if String.eqb x.1 id then nth k x.2 0 else 0) <= b); [|lia].
  destruct (String.eqb x.1 id); [|done]. destruct (nth_in_or_default k x.2 0) as [Hin| ->]; [|done].
  rewrite Forall_forall in Hx. by apply Hx, list_elem_of_In.
Qed.

(** The tokens of a message, in and out. *)
Definition tokens_in_of (records : list UsageRecord) (id : string) : Z :=
  peak id 0 records + peak id 1 records + peak id 2 records.
Definition tokens_out_of (records : list UsageRecord) (id : string) : Z := peak id 3 records.

(** The growth of a counter with one more record. *)
Definition growth (rs : list UsageRecord) (r : UsageRecord) (k : nat) : Z := Z.max 0 (nth k r.2 0 - peak r.1 k rs).

Lemma sum_grows (f : list UsageRecord -> string -> Z) rs r g ids :
  NoDup ids -> r.1 ∈ ids -> (forall id, id <> r.1 -> f (rs ++ [r]) id = f rs id) -> f (rs ++ [r]) r.1 = f rs r.1 + g ->
  sum_Z (map (f (rs ++ [r])) ids) = sum_Z (map (f rs) ids) + g.
Proof.
  intros Hnd Hin Hother Hself. induction Hnd as [|id ids Hid Hnd IH]; [by apply not_elem_of_nil in Hin|].
  cbn [map]. unfold sum_Z in *. cbn [foldr]. apply elem_of_cons in Hin as [<-|Hin].
  - rewrite Hself. assert (map (f (rs ++ [r])) ids = map (f rs) ids) as ->; [|lia].
    apply map_ext_in. intros id' Hid'%list_elem_of_In. apply Hother. by intros ->.
  - rewrite Hother; [by intros ->|]. rewrite IH //. lia.
Qed.

Lemma peak_other id k rs r : id <> r.1 -> peak id k (rs ++ [r]) = peak id k rs.
Proof. intros H. rewrite peak_snoc (proj2 (String.eqb_neq r.1 id)); [done|]. pose proof (peak_nonneg id k rs). lia. Qed.

Lemma peak_self k rs r : peak r.1 k (rs ++ [r]) = peak r.1 k rs + growth rs r k.
Proof. rewrite peak_snoc String.eqb_refl. unfold growth. lia. Qed.

Lemma tokens_in_grow rs r ids : NoDup ids -> r.1 ∈ ids ->
  sum_Z (map (tokens_in_of (rs ++ [r])) ids) =
    sum_Z (map (tokens_in_of rs) ids) + (growth rs r 0 + growth rs r 1 + growth rs r 2).
Proof.
  intros Hnd Hin. apply sum_grows; [done..| |]; unfold tokens_in_of.
  - intros id Hid. by rewrite !peak_other.
  - rewrite !peak_self. lia.
Qed.

Lemma tokens_out_grow rs r ids : NoDup ids -> r.1 ∈ ids ->
  sum_Z (map (tokens_out_of (rs ++ [r])) ids) = sum_Z (map (tokens_out_of rs) ids) + growth rs r 3.
Proof.
  intros Hnd Hin. apply sum_grows; [done..| |]; unfold tokens_out_of.
  - intros id Hid. by rewrite peak_other.
  - by rewrite peak_self.
Qed.

(** *** What rows carry *)

(** The integer under a key of a row, and its total. *)
Definition row_count (key : string) (row : Object) : Z :=
  match assoc key row ≫= as_f64 with Some f => f64_trunc_Z f | None => 0 end.
Definition total (key : string) (rows : list Object) : Z := sum_Z (map (row_count key) rows).

Lemma total_app key rows1 rows2 : total key (rows1 ++ rows2) = total key rows1 + total key rows2.
Proof. unfold total. by rewrite map_app sum_Z_app. Qed.

(** A counter below this bound is an integer the sums keep exact. *)
Definition COUNT_MAX : Z := 2 ^ 51.
Definition is_count (f : f64) : Prop := exists z, 0 <= z < COUNT_MAX /\ f = f64_of_Z z.

(** The tokens a charge carries. *)
Definition charge_in (c : option Charge) : Z := match c with Some c => f64_trunc_Z (ch_in c) | None => 0 end.
Definition charge_out (c : option Charge) : Z := match c with Some c => f64_trunc_Z (ch_out c) | None => 0 end.
Definition charge_finite (c : option Charge) : Prop :=
  match c with Some c => f64_is_finite (ch_in c) = true /\ f64_is_finite (ch_out c) = true | None => True end.

Section Rows.
Context (m : Machine) (aliases : list (string * string)) (pricing : option PricingTable).

Lemma charge_exact model d0 d1 d2 d3 :
  0 <= d0 < COUNT_MAX -> 0 <= d1 < COUNT_MAX -> 0 <= d2 < COUNT_MAX -> 0 <= d3 < COUNT_MAX ->
  let charge := charge_of m pricing model (map f64_of_Z [d0; d1; d2; d3]) in
  charge_in charge = d0 + d1 + d2 /\ charge_out charge = d3 /\ charge_finite charge.
Proof.
  unfold COUNT_MAX. intros H0 H1 H2 H3. cbn [map charge_of].
  assert (forall d, 0 <= d < 2 ^ 51 -> f64_lt f64_zero (f64_of_Z d) = (0 <? d)) as Hlt.
  { intros d Hd. change f64_zero with (f64_of_Z 0). apply f64_lt_integer; lia. }
  cbn [existsb]. rewrite !Hlt // !f64_add_integer; [lia..|].
  destruct (_ || _) eqn:Hany.
  - cbn [charge_in charge_out charge_finite ch_in ch_out]. rewrite !f64_trunc_integer; [lia..|].
    rewrite !f64_integer_finite; [lia..|]. done.
  - rewrite !orb_false_iff !Z.ltb_ge in Hany. cbn. lia.
Qed.

Lemma row_counts_base key base actor entity kind w : key = "tokens_in"%string \/ key = "tokens_out"%string ->
  assoc key base = None -> row_count key (row_with base actor entity kind w) = 0.
Proof.
  intros Hk Hb. unfold row_count, row_with. rewrite !assoc_insert Hb. by destruct Hk as [-> | ->].
Qed.

Lemma base_row_uncharged key ts line : key = "tokens_in"%string \/ key = "tokens_out"%string ->
  assoc key (base_row m aliases ts line) = None.
Proof. by intros [-> | ->]. Qed.

Lemma attach_in charge row : charge_finite charge -> row_count "tokens_in" row = 0 ->
  row_count "tokens_in" (attach charge row) = charge_in charge.
Proof.
  intros Hf Hr. destruct charge as [c|]; [|done]. destruct Hf as [Hi _]. unfold row_count, attach. rewrite !assoc_insert.
  cbn [String.eqb Ascii.eqb Bool.eqb]. unfold json_f64. by rewrite Hi.
Qed.

Lemma attach_out charge row : charge_finite charge -> row_count "tokens_out" row = 0 ->
  row_count "tokens_out" (attach charge row) = charge_out charge.
Proof.
  intros Hf Hr. destruct charge as [c|]; [|done]. destruct Hf as [_ Ho]. unfold row_count, attach. rewrite !assoc_insert.
  cbn [String.eqb Ascii.eqb Bool.eqb]. unfold json_f64. by rewrite Ho.
Qed.

Lemma plain_row_uncharged key ts line actor entity kind w : (key = "tokens_in" \/ key = "tokens_out")%string ->
  row_count key (row_with (base_row m aliases ts line) actor entity kind w) = 0.
Proof. intros Hk. apply row_counts_base; [done|by apply base_row_uncharged]. Qed.

Lemma file_rows_uncharged key ts line fs : (key = "tokens_in" \/ key = "tokens_out")%string ->
  sum_Z (map (row_count key) (map (file_row (base_row m aliases ts line)) fs)) = 0.
Proof.
  intros Hk. unfold sum_Z. induction fs as [|x fs IH]; [done|]. cbn [map foldr]. rewrite IH. unfold file_row.
  by rewrite plain_row_uncharged.
Qed.

(** Without a charge no row carries tokens. *)
Lemma rows_uncharged key ts line : (key = "tokens_in" \/ key = "tokens_out")%string ->
  total key (line_rows m aliases ts line None) = 0.
Proof.
  intros Hk. unfold line_rows, total. destruct (is_human_prompt line); [cbn; by rewrite plain_row_uncharged|].
  destruct (match pointer _ line with Some _ => _ | None => _ end) as [|f fs].
  - destruct (_ || _); [|done]. cbn. by rewrite plain_row_uncharged.
  - apply (file_rows_uncharged key ts line (f :: fs) Hk).
Qed.

(** The rows of a line carry its charge once, when the line is an assistant's. *)
Lemma rows_carry key part ts line charge :
  (forall row, row_count key row = 0 -> row_count key (attach charge row) = part) ->
  (key = "tokens_in" \/ key = "tokens_out")%string -> field_is "type" "assistant" line = true ->
  total key (line_rows m aliases ts line charge) = part.
Proof.
  intros Hatt Hk Ha.
  unfold line_rows. assert (is_human_prompt line = false) as ->.
  { unfold is_human_prompt, field_is in *. destruct (str_field "type" line) as [s|]; [|done].
    apply String.eqb_eq in Ha as ->. done. }
  rewrite Ha orb_true_r. destruct (match pointer _ line with Some _ => _ | None => _ end) as [|f fs].
  - unfold total. cbn [map]. rewrite Hatt; [by apply plain_row_uncharged|]. unfold sum_Z. cbn. lia.
  - unfold total. cbn [file_rows map]. rewrite Hatt; [by apply plain_row_uncharged|]. unfold sum_Z. cbn [foldr].
    pose proof (file_rows_uncharged key ts line fs Hk) as Hfs. unfold sum_Z in Hfs. lia.
Qed.
End Rows.

(** *** Lines *)

(** The counters of a usage record as integers. *)
Definition counters (usage : JsonTree) : list Z := map f64_trunc_Z (read_usage usage).

Section Lines.
Context {P : Platform}.

(** The usage record of a line the loop takes at a time. *)
Definition record_of (e : f64 * JsonTree) : option UsageRecord :=
  _ ← line_time e.1 e.2;
  match pointer ["message"; "usage"] e.2 with
  | Some (Json_object fields) =>
      Some (default ""%string (js_display <$> pointer ["message"; "id"] e.2), counters (Json_object fields))
  | _ => None
  end.

(** A line whose usage, if it has any, is that of an assistant's message with an id
    and integer counters. *)
Definition billable (e : f64 * JsonTree) : Prop :=
  forall fields, is_Some (line_time e.1 e.2) -> pointer ["message"; "usage"] e.2 = Some (Json_object fields) ->
    is_Some (pointer ["message"; "id"] e.2) /\ field_is "type" "assistant" e.2 = true /\
    Forall is_count (read_usage (Json_object fields)).

Lemma read_usage_counters usage : Forall is_count (read_usage usage) ->
  read_usage usage = map f64_of_Z (counters usage) /\ Forall (fun c => 0 <= c < COUNT_MAX) (counters usage).
Proof.
  unfold counters. induction 1 as [|f fs (z & Hz & ->) _ [IH1 IH2]]; [done|]. cbn [map].
  rewrite f64_trunc_integer; [unfold COUNT_MAX in Hz; lia|]. split; [by f_equal|by constructor].
Qed.

(** The map of usages after some records: the peaks of each message. *)
Definition recorded (rs : list UsageRecord) (usage_by_id : Object) : Prop :=
  forall id, read_previous usage_by_id id = map (fun k => f64_of_Z (peak id k rs)) [0%nat; 1%nat; 2%nat; 3%nat].

Definition bounded (rs : list UsageRecord) : Prop := Forall (fun r => Forall (fun c => 0 <= c < COUNT_MAX) r.2) rs.

Lemma peak_range id k rs : bounded rs -> 0 <= peak id k rs < COUNT_MAX.
Proof.
  intros H. split; [apply peak_nonneg|]. apply Z.le_lt_trans with (COUNT_MAX - 1); [|lia].
  apply peak_bound; [unfold COUNT_MAX; lia|]. eapply Forall_impl; [exact H|]. intros r Hr.
  eapply Forall_impl; [exact Hr|]. cbn. lia.
Qed.

Lemma read_inserted id id' ms usage_by_id : length ms = 4%nat -> Forall (fun z => 0 <= z < COUNT_MAX) ms ->
  read_previous (object_insert id (usage_entry (map f64_of_Z ms)) usage_by_id) id' =
    if String.eqb id' id then map f64_of_Z ms else read_previous usage_by_id id'.
Proof.
  intros Hl Hms. unfold read_previous. rewrite assoc_insert. destruct (String.eqb id' id); [|done].
  destruct ms as [|a [|b [|c [|d [|? ?]]]]]; try done. rewrite !Forall_cons in Hms. destruct Hms as (Ha & Hb & Hc & Hd & _).
  unfold usage_entry, json_f64, COUNT_MAX in *. cbn [map zip_with USAGE_KEYS fst snd].
  rewrite !f64_integer_finite; [lia..|]. done.
Qed.

Context (m : Machine) (aliases : list (string * string)) (pricing : option PricingTable).

Local Abbreviation usages := (object_at "claudeUsageById").

Lemma usages_put map state : usages (put_object "claudeUsageById" map state) = map.
Proof. unfold object_at, put_object. by rewrite assoc_insert. Qed.

Lemma usages_insert_other k v state : k <> "claudeUsageById"%string -> usages (object_insert k v state) = usages state.
Proof. intros Hk. unfold object_at. rewrite assoc_insert. by rewrite (proj2 (String.eqb_neq "claudeUsageById" k)). Qed.

(** One usage record: the state records it and the charge is the growth. *)
Lemma account_exact e r rs state : billable e -> record_of e = Some r -> bounded rs -> recorded rs (usages state) ->
  exists map' charge, account m pricing e.2 state = (put_object "claudeUsageById" map' state, charge) /\
    map' = object_insert r.1 (usage_entry (map f64_of_Z (map (fun k => peak r.1 k (rs ++ [r])) [0%nat; 1%nat; 2%nat; 3%nat]))) (usages state) /\
    bounded (rs ++ [r]) /\ recorded (rs ++ [r]) map' /\
    charge_in charge = growth rs r 0 + growth rs r 1 + growth rs r 2 /\ charge_out charge = growth rs r 3 /\
    charge_finite charge.
Proof.
  destruct e as [now line]. unfold record_of, billable. cbn [fst snd]. intros Hb Hr Hbd Hrec.
  destruct (line_time now line) as [ts|] eqn:Ht; [|done]. cbn [mbind option_bind] in Hr.
  destruct (pointer ["message"; "usage"] line) as [[| | | | |fields]|] eqn:Hu; try done. apply (inj Some) in Hr.
  destruct (Hb fields ltac:(done) eq_refl) as ([v Hid] & _ & [Hcur Hcnt]%read_usage_counters). rewrite Hid in Hr. cbn [fmap option_fmap option_map default] in Hr.
  unfold account. rewrite Hu Hid. cbn [fmap option_fmap option_map]. rewrite Hcur (Hrec (js_display v)).
  assert (exists c0 c1 c2 c3, counters (Json_object fields) = [c0; c1; c2; c3]) as (c0 & c1 & c2 & c3 & Hc).
  { unfold counters, read_usage. cbn. by eexists _, _, _, _. }
  rewrite Hc in Hcnt Hr |- *. set (mid := js_display v) in *. subst r. cbn [fst snd].
  assert (bounded (rs ++ [(mid, [c0; c1; c2; c3])])) as Hbd' by (apply Forall_app; split; [done|by constructor]).
  assert (forall k, 0 <= peak mid k rs < 2 ^ 53) as Hp.
  { intros k. pose proof (peak_range mid k rs Hbd). unfold COUNT_MAX in *. lia. }
  rewrite !Forall_cons in Hcnt. destruct Hcnt as (H0 & H1 & H2 & H3 & _). unfold COUNT_MAX in *.
  assert (usage_max (map f64_of_Z [c0; c1; c2; c3]) (map (fun k => f64_of_Z (peak mid k rs)) [0%nat; 1%nat; 2%nat; 3%nat]) =
    map f64_of_Z (map (fun k => peak mid k (rs ++ [(mid, [c0; c1; c2; c3])])) [0%nat; 1%nat; 2%nat; 3%nat])) as Hmax.
  { unfold usage_max. cbn [map zip_with]. rewrite !f64_max_integer //; [lia..|].
    rewrite !peak_snoc. cbn [fst snd nth]. rewrite String.eqb_refl. by rewrite !(Z.max_comm (peak _ _ _)). }
  assert (usage_delta (map f64_of_Z [c0; c1; c2; c3]) (map (fun k => f64_of_Z (peak mid k rs)) [0%nat; 1%nat; 2%nat; 3%nat]) =
    map f64_of_Z (map (growth rs (mid, [c0; c1; c2; c3])) [0%nat; 1%nat; 2%nat; 3%nat])) as Hdelta.
  { unfold usage_delta, growth. cbn [map zip_with fst snd nth]. rewrite !f64_growth //; lia. }
  rewrite Hmax Hdelta. eexists _, _. do 3 (split; [done|]). split.
  - intros id'. rewrite read_inserted //.
    + rewrite Forall_map Forall_forall. intros k _. by apply (peak_range mid k (rs ++ [(mid, [c0; c1; c2; c3])])).
    + destruct (String.eqb_spec id' mid) as [->|Hne]; [by rewrite map_map|]. rewrite Hrec. apply map_ext. intros k.
      by rewrite peak_other.
  - apply charge_exact; unfold COUNT_MAX, growth; cbn [fst snd nth].
    all: match goal with |- context [peak (?f ?i) ?k _] => change (f i) with mid; pose proof (Hp k) end; lia.
Qed.
(** What holds between the ticks: the records so far are in the state. *)
Record accounted (ids : list string) (rs : list UsageRecord) (rows : list Object) (state : Object) : Prop := {
  ac_bounded : bounded rs;
  ac_recorded : recorded rs (usages state);
  ac_keys : NoDup (usages state).*1 /\ forall id, id ∈ (usages state).*1 -> id ∈ ids;
  ac_in : total "tokens_in" rows = sum_Z (map (tokens_in_of rs) ids);
  ac_out : total "tokens_out" rows = sum_Z (map (tokens_out_of rs) ids);
}.

Lemma claude_line_accounted ids now line rs rows state :
  NoDup ids -> billable (now, line) -> (forall r, record_of (now, line) = Some r -> r.1 ∈ ids) ->
  accounted ids rs rows state ->
  let '(rows', state') := claude_line m aliases pricing now (rows, state) line in
  accounted ids (rs ++ option_list (record_of (now, line))) rows' state'.
Proof.
  intros Hnd Hb Hids [Hbd Hrec [Hk Hsub] Hin Hout]. unfold claude_line. cbn [fst snd].
  destruct (line_time now line) as [ts|] eqn:Ht.
  2:{ assert (record_of (now, line) = None) as -> by (unfold record_of; cbn; by rewrite Ht). by rewrite app_nil_r. }
  destruct (record_of (now, line)) as [r|] eqn:Hr.
  - destruct (account_exact (now, line) r rs state Hb Hr Hbd Hrec) as (map' & charge & Ha & -> & Hbd' & Hrec' & Hci & Hco & Hf).
    cbn [snd] in Ha. rewrite Ha. cbn [option_list]. specialize (Hids r eq_refl).
    assert (field_is "type" "assistant" line = true) as Hty.
    { unfold record_of in Hr. cbn [fst snd] in Hr. rewrite Ht in Hr. cbn [mbind option_bind] in Hr.
      destruct (pointer _ line) as [[| | | | |fields]|] eqn:Hu; try done. apply (Hb fields); [by rewrite /= Ht|done]. }
    constructor; rewrite ?usages_put; [done|done| | |].
    + split; [by apply insert_NoDup|]. intros id. rewrite insert_keys. destruct (contains_key _ _); [apply Hsub|].
      intros [H|H%list_elem_of_singleton]%elem_of_app; [by apply Hsub|by subst].
    + rewrite total_app Hin tokens_in_grow // -Hci. f_equal. apply rows_carry; [|by left|done].
      intros row. by apply attach_in.
    + rewrite total_app Hout tokens_out_grow // -Hco. f_equal. apply rows_carry; [|by right|done].
      intros row. by apply attach_out.
  - assert (account m pricing line state = (state, None)) as ->.
    { unfold record_of in Hr. cbn [fst snd] in Hr. rewrite Ht in Hr. cbn [mbind option_bind] in Hr. unfold account.
      by destruct (pointer _ line) as [[| | | | |fields]|]. }
    rewrite app_nil_r. constructor; [done..| |]; (rewrite total_app rows_uncharged; [auto|by rewrite Z.add_0_r]).
Qed.
(** The lines of a loop. *)
Lemma lines_accounted ids now lines rs rows state :
  NoDup ids -> Forall (fun line => billable (now, line)) lines ->
  (forall r, r ∈ omap record_of (map (pair now) lines) -> r.1 ∈ ids) -> accounted ids rs rows state ->
  let '(rows', state') := fold_left (claude_line m aliases pricing now) lines (rows, state) in
  accounted ids (rs ++ omap record_of (map (pair now) lines)) rows' state'.
Proof.
  intros Hnd Hb. revert rs rows state. induction Hb as [|line lines Hl _ IH]; intros rs rows state Hids Hac.
  - cbn. by rewrite app_nil_r.
  - cbn [fold_left map]. change (omap record_of (?e :: ?l)) with (match record_of e with Some r => r :: omap record_of l | None => omap record_of l end).
    pose proof (claude_line_accounted ids now line rs rows state Hnd Hl) as Hstep.
    destruct (claude_line _ _ _ now (rows, state) line) as [rows1 state1].
    specialize (IH (rs ++ option_list (record_of (now, line))) rows1 state1).
    destruct (record_of (now, line)) as [r|] eqn:Hr; cbn [option_list] in *.
    + rewrite -(app_assoc rs [r]) in IH. apply IH; [|apply Hstep; [|done]].
      * intros r' Hr'. apply Hids. cbn [map]. change (r' ∈ omap record_of ((now, line) :: map (pair now) lines)).
        cbn [omap list_omap]. rewrite Hr. by apply elem_of_cons; right.
      * intros r' [= <-]. apply Hids. cbn [map omap list_omap]. rewrite Hr. by apply elem_of_cons; left.
    + rewrite app_nil_r in IH, Hstep. apply IH; [|by apply Hstep].
      intros r' Hr'. apply Hids. cbn [map omap list_omap]. by rewrite Hr.
Qed.
End Lines.

(** *** Files and ticks *)

(** Loops that only append rows do so after any rows there already are. *)
Lemma fold_shift {A} (f : list Object * Object -> A -> list Object * Object) :
  (forall before acc x, f (before ++ acc.1, acc.2) x = (before ++ (f acc x).1, (f acc x).2)) ->
  forall l before acc, fold_left f l (before ++ acc.1, acc.2) = (before ++ (fold_left f l acc).1, (fold_left f l acc).2).
Proof. intros Hf l. induction l as [|x l IH]; intros before acc; [done|]. cbn [fold_left]. rewrite Hf. apply IH. Qed.

Section Ticks.
Context {P : Platform} {J : JsonText}.
Context (aliases : list (string * string)) (pricing : option PricingTable) (dir : string).

Local Abbreviation usages := (object_at "claudeUsageById").

Lemma claude_line_shift m now before acc line :
  claude_line m aliases pricing now (before ++ acc.1, acc.2) line =
    (before ++ (claude_line m aliases pricing now acc line).1, (claude_line m aliases pricing now acc line).2).
Proof.
  unfold claude_line. destruct (line_time now line); [|done]. cbn [fst snd].
  destruct (account _ _ _ acc.2) as [state charge]. cbn [fst snd]. by rewrite app_assoc.
Qed.

Lemma claude_file_shift m now before acc file :
  claude_file m aliases pricing now (before ++ acc.1, acc.2) file =
    (before ++ (claude_file m aliases pricing now acc file).1, (claude_file m aliases pricing now acc file).2).
Proof.
  destruct acc as [rows state]. unfold claude_file. cbn [fst snd]. destruct (fv_size _); [|done].
  destruct (match _ with Some _ => _ | None => _ end); [done|].
  destruct (read_new_lines _ _ _) as [lines offsets].
  apply (fold_shift (claude_line m aliases pricing now) (claude_line_shift m now) lines before (rows, put_object "claudeOffsets" offsets (ensure_object "claudeOffsets" state))).
Qed.

(** The lines a file yields in a state. *)
Definition file_lines (m : Machine) (state : Object) (file : string) : list JsonTree :=
  let view := mc_view m file in
  let offsets := object_at "claudeOffsets" (ensure_object "claudeOffsets" state) in
  match fv_size view with
  | None => []
  | Some size =>
      if match assoc file offsets ≫= as_u64 with Some prev => size <=? prev | None => false end then []
      else (read_new_lines view file offsets).1
  end.

Lemma usages_other v state : usages (object_insert "claudeOffsets" v state) = usages state.
Proof. unfold object_at. by rewrite assoc_insert. Qed.

Lemma usages_ensure state : usages (ensure_object "claudeOffsets" state) = usages state.
Proof. unfold ensure_object. by destruct (assoc _ _) as [[| | | | |]|]; rewrite ?usages_other. Qed.

Lemma claude_file_lines m now rows state file : exists state0, usages state0 = usages state /\
  claude_file m aliases pricing now (rows, state) file =
    fold_left (claude_line m aliases pricing now) (file_lines m state file) (rows, state0).
Proof.
  unfold claude_file, file_lines. destruct (fv_size _); [|by exists state].
  destruct (match _ with Some _ => _ | None => _ end); [exists (ensure_object "claudeOffsets" state); by rewrite usages_ensure|].
  destruct (read_new_lines _ _ _) as [lines offsets]. eexists. split; [|done].
  unfold put_object. by rewrite usages_other usages_ensure.
Qed.

(** The lines a run reads, each in the state it is read in. *)
Fixpoint run_reads (m : Machine) (now : f64) (files : list string) (acc : list Object * Object) : list JsonTree :=
  match files with
  | [] => []
  | file :: rest => file_lines m acc.2 file ++ run_reads m now rest (claude_file m aliases pricing now acc file)
  end.

Lemma run_reads_shift m now files : forall before acc,
  run_reads m now files (before ++ acc.1, acc.2) = run_reads m now files acc.
Proof.
  induction files as [|file rest IH]; intros before acc; [done|]. cbn [run_reads]. by rewrite claude_file_shift IH.
Qed.

(** A tick: the machine as it finds it, and the time. *)
Definition Tick : Type := Machine * f64.
Definition tick_files (t : Tick) : list string :=
  match fs_kind (mc_files t.1) dir with None => [] | Some _ => walk_files (mc_list t.1) is_jsonl WALK_LEVELS dir end.
Definition tick_reads (t : Tick) (state : Object) : list (f64 * JsonTree) :=
  map (pair t.2) (run_reads t.1 t.2 (tick_files t) ([], state)).

(** The ticks of the watcher: their rows, the state they leave, the lines they read. *)
Fixpoint claude_ticks (ticks : list Tick) (state : Object) : list Object * Object :=
  match ticks with
  | [] => ([], state)
  | t :: rest =>
      let '(rows, state) := claude_run t.1 aliases pricing t.2 dir state in
      let '(more, state) := claude_ticks rest state in (rows ++ more, state)
  end.
Fixpoint ticks_reads (ticks : list Tick) (state : Object) : list (f64 * JsonTree) :=
  match ticks with
  | [] => []
  | t :: rest => tick_reads t state ++ ticks_reads rest (claude_run t.1 aliases pricing t.2 dir state).2
  end.

Section Account.
Context (ids : list string) (Hnd : NoDup ids) (Hfew : (length ids <= USAGE_BY_ID_CAP)%nat).

Lemma files_accounted m now files : forall rs rows state,
  Forall billable (map (pair now) (run_reads m now files (rows, state))) ->
  (forall r, r ∈ omap record_of (map (pair now) (run_reads m now files (rows, state))) -> r.1 ∈ ids) ->
  accounted ids rs rows state ->
  let '(rows', state') := fold_left (claude_file m aliases pricing now) files (rows, state) in
  accounted ids (rs ++ omap record_of (map (pair now) (run_reads m now files (rows, state)))) rows' state'.
Proof.
  induction files as [|file files IH]; intros rs rows state Hb Hids Hac; [cbn; by rewrite app_nil_r|].
  cbn [run_reads fold_left snd] in *. rewrite map_app Forall_app in Hb. destruct Hb as [Hb1 Hb2].
  rewrite map_app omap_app in Hids |- *.
  destruct (claude_file_lines m now rows state file) as (state0 & Hu & He).
  assert (accounted ids rs rows state0) as Hac0 by (destruct Hac; by constructor; rewrite ?Hu).
  pose proof (lines_accounted m aliases pricing ids now (file_lines m state file) rs rows state0 Hnd) as Hlines.
  rewrite -He in Hlines. destruct (claude_file m aliases pricing now (rows, state) file) as [rows1 state1].
  rewrite app_assoc. apply IH; [done| |].
  - intros r Hr. apply Hids, elem_of_app. by right.
  - apply Hlines; [by rewrite Forall_fmap in Hb1| |done]. intros r Hr. apply Hids, elem_of_app. by left.
Qed.

Lemma accounted_few rs rows state : accounted ids rs rows state -> (length (usages state) <= USAGE_BY_ID_CAP)%nat.
Proof.
  intros [_ _ [Hk Hsub] _ _]. rewrite -(length_fmap fst). etransitivity; [|exact Hfew].
  by apply submseteq_length, NoDup_submseteq.
Qed.

Lemma run_accounted t rs before state :
  Forall billable (tick_reads t state) -> (forall r, r ∈ omap record_of (tick_reads t state) -> r.1 ∈ ids) ->
  accounted ids rs before state ->
  let '(rows, state') := claude_run t.1 aliases pricing t.2 dir state in
  accounted ids (rs ++ omap record_of (tick_reads t state)) (before ++ rows) state'.
Proof.
  intros Hb Hids Hac. unfold claude_run, tick_reads, tick_files in *. destruct (fs_kind _ dir).
  2:{ cbn. by rewrite !app_nil_r. }
  set (files := walk_files _ _ _ _) in *.
  pose proof (fold_shift _ (claude_file_shift t.1 t.2) files before ([], state)) as Hshift. cbn [fst snd] in Hshift.
  rewrite app_nil_r in Hshift.
  pose proof (files_accounted t.1 t.2 files rs before state) as Hfiles.
  pose proof (run_reads_shift t.1 t.2 files before ([], state)) as Hreads. cbn [fst snd] in Hreads.
  rewrite app_nil_r in Hreads. rewrite Hreads in Hfiles. specialize (Hfiles Hb Hids Hac). rewrite Hshift in Hfiles.
  destruct (fold_left _ files ([], state)) as [rows state1]. cbn [fst snd] in Hfiles.
  pose proof (accounted_few _ _ _ Hfiles) as Hlen. destruct Hfiles as [H1 H2 H3 H4 H5].
  assert (usages (trim_usage_by_id state1) = usages state1) as Ht.
  { unfold trim_usage_by_id, trim_entries, put_object, object_at at 1. rewrite assoc_insert. cbn.
    by replace (length (usages state1) - USAGE_BY_ID_CAP)%nat with 0%nat by lia. }
  constructor; unfold put_object; rewrite ?usages_other ?Ht //.
Qed.

Lemma ticks_accounted ticks : forall rs before state,
  Forall billable (ticks_reads ticks state) -> (forall r, r ∈ omap record_of (ticks_reads ticks state) -> r.1 ∈ ids) ->
  accounted ids rs before state ->
  let '(rows, state') := claude_ticks ticks state in
  accounted ids (rs ++ omap record_of (ticks_reads ticks state)) (before ++ rows) state'.
Proof.
  induction ticks as [|t ticks IH]; intros rs before state Hb Hids Hac; [cbn; by rewrite !app_nil_r|].
  cbn [ticks_reads claude_ticks] in *. rewrite Forall_app in Hb. destruct Hb as [Hb1 Hb2]. rewrite omap_app in Hids |- *.
  pose proof (run_accounted t rs before state Hb1 ltac:(intros r Hr; apply Hids, elem_of_app; by left) Hac) as Hrun.
  destruct (claude_run _ _ _ _ _ state) as [rows state1]. cbn [snd] in *.
  specialize (IH _ _ state1 Hb2 ltac:(intros r Hr; apply Hids, elem_of_app; by right) Hrun).
  destruct (claude_ticks ticks state1) as [more state2]. by rewrite !app_assoc in IH |- *.
Qed.
End Account.
End Ticks.
