(* ===== verification/WatchCodex.v ===== *)
(** The watcher of Codex's session logs (crates/stackhour-agent/src/watch_codex.rs):
    what a file tells about its session, the usage of a turn, and the rows of a line, a
    file and a tick. *)
From S2P Require Import Prelude.
From S2P Require Import RustStr.
From S2P Require Import Float64.
From S2P Require Import Platform.
From S2P Require Import Pricing.
From S2P Require Import JsNum.
From S2P Require Import JsonTrees.
From S2P Require Import Project.
From S2P Require Import Tail.
From S2P Require Import WatchClaude.

Local Open Scope Z_scope.

(** [payload]: what a line wraps, or the line. *)
Definition payload (line : JsonTree) : JsonTree :=
  match get "payload" line with Some v => if js_truthy v then v else line | None => line end.

(** The files of sessions. *)
Definition is_rollout (name : string) : bool := starts_with "rollout-" name && is_jsonl name.

Section Watcher.
Context (m : Machine) (aliases : list (string * string)) (pricing : option PricingTable).

(** [source_from_originator] *)
Definition source_from_originator (originator : option JsonTree) : string :=
  let o := mc_lowercase m (match originator with Some v => js_display v | None => EmptyString end) in
  if contains "desktop" o then "codex-desktop"
  else if contains "vscode" o || contains "ide" o then "codex-ide"
  else "codex-cli".

(** *** The metadata of a session *)

(** An insertion when there is something to insert. *)
Definition learn (key : string) (value : option string) (meta : Object) : Object :=
  match value with Some s => object_insert key (Json_string s) meta | None => meta end.

(** What a session header teaches. *)
Definition session_meta (body : JsonTree) (meta : Object) : Object :=
  object_insert "source" (Json_string (source_from_originator (get "originator" body)))
    (learn "cwd" (truthy_str "cwd" body) meta).

(** What the first line of the file teaches. *)
Definition head_meta (first : option JsonTree) (meta : Object) : Object :=
  match first with
  | None => meta
  | Some first =>
      let body := payload first in
      if field_is "type" "session_meta" first || bool_decide (is_Some (truthy_str "cwd" body))
      then session_meta body meta else meta
  end.

(** A line that only teaches, and the metadata after it. *)
Definition teaches (line : JsonTree) (meta : Object) : option Object :=
  let body := payload line in
  if field_is "type" "session_meta" line then Some (session_meta body meta)
  else if field_is "type" "turn_context" line then
    Some (learn "model" (truthy_str "model" body) (learn "cwd" (truthy_str "cwd" body) meta))
  else None.

(** *** Rows *)

(** [token_fields]: the usage of the turn, or the older delta form. *)
Definition turn_usage (body : JsonTree) : option JsonTree :=
  if field_is "type" "token_count" body then
    match pointer ["info"; "last_token_usage"] body with
    | Some (Json_object l) => Some (Json_object l)
    | _ => match pointer ["info"; "total_token_usage_delta"] body with Some (Json_object l) => Some (Json_object l) | _ => None end
    end
  else None.
Definition turn_charge (body : JsonTree) (meta : Object) : option Charge :=
  tu ← turn_usage body;
  let output := f64_add (number_at "output_tokens" tu) (number_at "reasoning_output_tokens" tu) in
  let cached := number_at "cached_input_tokens" tu in
  let input := number_at "input_tokens" tu in
  let model := default "gpt-5"%string (assoc "model" meta ≫= as_str) in
  Some (MkCharge input output
          (cost_of (mc_lowercase m) model (MkUsage (f64_max (f64_sub input cached) f64_zero) output cached f64_zero) pricing)).

Definition meta_cwd (meta : Object) : string := default "unknown"%string ((assoc "cwd" meta ≫= as_str) ≫= nonempty).
Definition codex_base (ts : f64) (meta : Object) : Object :=
  [("time", json_f64 ts);
   ("source", Json_string (default "codex-cli"%string (assoc "source" meta ≫= as_str)));
   ("project", Json_string (project_of m aliases (meta_cwd meta) None));
   ("category", Json_string "ai coding")]%string.

(** The files a patch event names. *)
Definition patch_changes (body : JsonTree) : option Object :=
  match get "changes" body with Some v => as_object v | None => pointer ["patch"; "changes"] body ≫= as_object end.

(** The rows of a line of work: one for each changed file, or one for the turn. *)
Definition work_rows (ts : f64) (line : JsonTree) (meta : Object) : list Object :=
  let body := payload line in
  let base := codex_base ts meta in
  match patch_changes body with
  | Some changes => map (fun e => row_with base "agent" e.1 "file" 1) changes
  | None =>
      let human := field_is "type" "event_msg" line && field_is "type" "user_message" body in
      [attach (turn_charge body meta) (row_with base (if human then "human" else "agent") (meta_cwd meta) "app" 0)]
  end.

Context {P : Platform} {J : JsonText}.
Context (now : f64).

(** One round of the loop over the lines: the rows so far and the metadata. *)
Definition codex_line (acc : list Object * Object) (line : JsonTree) : list Object * Object :=
  match teaches line acc.2 with
  | Some meta => (acc.1, meta)
  | None =>
      match line_time now line with
      | None => acc
      | Some ts =>
          if field_is "type" "response_item" line || field_is "type" "event_msg" line
          then (acc.1 ++ work_rows ts line acc.2, acc.2) else acc
      end
  end.

(** One file. The head is read when the file is new, and again on later ticks while
    directory or source are unknown. *)
Definition codex_file (acc : list Object * Object) (file : string) : list Object * Object :=
  let '(rows, state) := acc in
  let view := mc_view m file in
  match fv_size view with
  | None => acc
  | Some size =>
      let state := ensure_object "codexOffsets" state in
      let recorded := assoc file (object_at "codexOffsets" state) ≫= as_u64 in
      if match recorded with Some prev => size <=? prev | None => false end then (rows, state)
      else
        let state := ensure_object "codexMeta" state in
        let meta := default [] (assoc file (object_at "codexMeta" state) ≫= as_object) in
        let need_meta := bool_decide (recorded = None) || negb (contains_key "cwd" meta) || negb (contains_key "source" meta) in
        let meta := if need_meta && (0 <? size) then head_meta (read_first_json_line view MAX_HEAD_LINE) meta else meta in
        let '(lines, offsets) := read_new_lines view file (object_at "codexOffsets" state) in
        let state := put_object "codexOffsets" offsets state in
        let '(rows, meta) := fold_left codex_line lines (rows, meta) in
        (rows, put_object "codexMeta" (object_insert file (Json_object meta) (object_at "codexMeta" state)) state)
  end.

(** [run] *)
Definition codex_run (sessions_dir : string) (state : Object) : list Object * Object :=
  match fs_kind (mc_files m) sessions_dir with
  | None => ([], state)
  | Some _ =>
      let files := walk_files (mc_list m) is_rollout WALK_LEVELS sessions_dir in
      let '(rows, state) := fold_left codex_file files ([], state) in
      let prune key state := put_object key (prune_offsets (object_at key state) files DEFAULT_PRUNE_MAX) state in
      (rows, prune "codexMeta" (prune "codexOffsets" state))
  end.
End Watcher.
