(* ===== verification/WatchFiles.v ===== *)
(** The watcher of saved files (crates/stackhour-agent/src/watch_files.rs): the scan
    window, the walk of the project roots, the branch and the language of a file. *)
From S2P Require Import Prelude.
From S2P Require Import RustStr.
From S2P Require Import Float64.
From S2P Require Import Platform.
From S2P Require Import JsNum.
From S2P Require Import JsonTrees.
From S2P Require Import Paths.
From S2P Require Import Project.
From S2P Require Import Config.
From S2P Require Import Tail.
From S2P Require Import WatchClaude.
From Stdlib Require Import Ascii.

Local Open Scope Z_scope.

(** [LANG_BY_EXT] *)
Definition LANG_BY_EXT : list (string * string) :=
  [(".ts", "TypeScript"); (".tsx", "TypeScript"); (".js", "JavaScript"); (".jsx", "JavaScript"); (".mjs", "JavaScript");
   (".cjs", "JavaScript"); (".json", "JSON"); (".css", "CSS"); (".scss", "SCSS"); (".html", "HTML"); (".md", "Markdown");
   (".py", "Python"); (".rs", "Rust"); (".go", "Go"); (".cs", "C#"); (".sh", "Shell"); (".yml", "YAML"); (".yaml", "YAML");
   (".toml", "TOML"); (".sql", "SQL"); (".vue", "Vue"); (".svelte", "Svelte")]%string.

(** The last component of a path that does not end in a slash. *)
Definition file_name (path : string) : string :=
  match rsplit_slash path with Some (_, name) => name | None => path end.

(** [f64 as u32]: towards zero, saturating; NaN is 0. *)
Definition f64_to_u32 (f : f64) : Z := Z.max 0 (Z.min (f64_to_i64 f) (2 ^ 32 - 1)).

Section Watcher.
Context (m : Machine).

(** [language_for] *)
Definition language_for (file : string) : JsonTree :=
  match name_extension (file_name file) with
  | None => Json_null
  | Some ext =>
      match assoc ("." +:+ mc_lowercase m ext) LANG_BY_EXT with Some lang => Json_string lang | None => Json_null end
  end.

(** [walk]: an entry is skipped for its leading dot before its type is looked at, a
    directory for its name after that; [levels] directories deep. *)
Fixpoint walk (ignore_dirs : list string) (levels : nat) (dir : string) : list string :=
  match levels with
  | O => []
  | S levels' =>
      match mc_list m dir with
      | None => []
      | Some entries =>
          flat_map (fun e =>
            let full := path_join dir e.1 in
            if starts_with "." e.1 && negb (String.eqb e.1 ".env") then []
            else
              match e.2 with
              | Some Dir => if bool_decide (e.1 ∈ ignore_dirs) then [] else walk ignore_dirs levels' full
              | Some File => [full]
              | _ => []
              end) entries
      end
  end.

(** [read_to_string]: the bytes, when they are UTF-8. *)
Definition read_to_string (path : string) : option string :=
  text ← fs_read (mc_files m) path; if utf8_valid text then Some text else None.

(** [git_branch] of this file: its own reading of a pointer file. *)
Definition files_git_branch (project_dir : string) : option string :=
  let dot_git := path_join project_dir ".git" in
  kind ← fs_kind (mc_files m) dot_git;
  git_dir ←
    match kind with
    | File =>
        text ← read_to_string dot_git;
        pointer ← strip_prefix "gitdir:" (trim text);
        Some (path_join project_dir (trim pointer))
    | _ => Some dot_git
    end;
  head ← read_to_string (path_join git_dir "HEAD");
  Some (head_branch (trim head)).

(** The text of a component. *)
Definition component_text (c : Component) : string :=
  match c with RootDir => "/" | CurDir => "." | ParentDir => ".." | Normal name => name end.

(** The directory a file's activity belongs to: the first level below the root, or
    the root for a file directly in it. *)
Definition project_dir_of (root file : string) : string :=
  let base := components root in
  let rel := if path_starts_with file root then drop (length base) (components file) else components file in
  match rel with
  | top :: _ :: _ => path_join root (component_text top)
  | _ => root
  end.

Context (mtime : string -> option f64).
Context (cfg : AgentCfg) (now : f64).

(** The start of the window: the last scan, unless the clock has gone back past it. *)
Definition scan_since (state : Object) : f64 :=
  let previous := default (f64_sub now (ac_interval_seconds cfg)) (assoc "filesLastScan" state ≫= as_f64) in
  if f64_lt now previous then f64_sub now (ac_interval_seconds cfg) else previous.

(** The window of a scan: after its start, and at most a minute ahead. *)
Definition in_window (since t : f64) : bool := negb (f64_le t since || f64_lt (f64_add now (f64_of_Z 60)) t).

(** The row of a file; its branch is looked up once for a directory in a tick, which
    sees the files of the tick. *)
Definition saved_row (root file : string) (t : f64) : Object :=
  let project_dir := project_dir_of root file in
  [("time", json_f64 t);
   ("source", Json_string "editor-files");
   ("project", Json_string (resolve_project_within (mc_files m) (mc_cwd m) (mc_url_parse m) (mc_lowercase m)
                              project_dir root (ac_project_aliases cfg) None));
   ("entity", Json_string file);
   ("entity_type", Json_string "file");
   ("category", Json_string "coding");
   ("language", language_for file);
   ("branch", match files_git_branch project_dir with Some b => Json_string b | None => Json_null end);
   ("is_write", json_int 1)]%string.

(** The files of a root. *)
Definition root_files (root : string) : list string :=
  walk (ac_ignore_dirs cfg) (S (Z.to_nat (f64_to_u32 (f64_max (ac_max_scan_depth cfg) f64_zero)))) root.

(** [run] *)
Definition files_run (state : Object) : list Object * Object :=
  let since := scan_since state in
  (flat_map (fun root =>
     flat_map (fun file =>
       match mtime file with
       | Some t => if in_window since t then [saved_row root file t] else []
       | None => []
       end) (root_files root)) (ac_project_roots cfg),
   object_insert "filesLastScan" (json_f64 now) state).
End Watcher.
