(* ===== verification/WatchApps.v ===== *)
(** The watchers of presence: terminals over SSH (crates/stackhour-agent/src/watch_ssh.rs)
    and the frontmost application of a Mac (watch_mac.rs). The output of commands, the
    times of terminals and the matches of regular expressions are parameters. *)
From S2P Require Import Prelude.
From S2P Require Import RustStr.
From S2P Require Import Float64.
From S2P Require Import Platform.
From S2P Require Import JsNum.
From S2P Require Import JsonTrees.
From S2P Require Import Paths.
From S2P Require Import Project.
From S2P Require Import Config.
From S2P Require Import Tail.
From S2P Require Import WatchClaude.
From Stdlib Require Import Ascii.

Local Open Scope Z_scope.

(** *** SSH *)

(** [str::split_whitespace]: the maximal runs of characters that are no space. *)
Fixpoint words_of (cs : list string) (word : option string) : list string :=
  match cs with
  | [] => option_list word
  | c :: cs' =>
      if is_blank c then option_list word ++ words_of cs' None
      else words_of cs' (Some (default EmptyString word +:+ c))
  end.
Definition split_whitespace (s : string) : list string := words_of (split_chars s) None.

(** A line of [ps]: the process and whether it is in the foreground. *)
Definition ps_line (line : string) : option (string * bool) :=
  match split_whitespace line with
  | [] => None
  | pid :: fields => Some (pid, contains "+" (default EmptyString (head fields)))
  end.

(** [foreground_cwd]: of the output of [ps] and the link of a process's directory. The
    line feed ends a line, with a carriage return before it. *)
Definition chomp_cr (line : string) : string := default line (strip_suffix (String "013" EmptyString) line).
Definition foreground_cwd (ps : option string) (cwd_link : string -> option string) : option string :=
  out ← ps;
  let text := trim (from_utf8_lossy out) in
  let procs := omap ps_line (map chomp_cr (split_byte LF text)) in
  pick ← match List.find snd procs with Some p => Some p | None => last procs end;
  cwd_link pick.1.

(** The terminals: numeric names, in the order of their numbers. *)
Definition is_pty (name : string) : bool := negb (str_is_empty name) && all_bytes (fun a => bool_decide (is_Some (digit_value a))) name.
Definition pty_number (name : string) : Z := let n := digits_to_Z name in if n <? 2 ^ 64 then n else 2 ^ 64 - 1.
Definition pty_before (a b : string) : bool := pty_number a <? pty_number b.

Section Ssh.
Context (m : Machine) (cfg : AgentCfg) (now : f64).

(** [run]; [entries] are the names in the directory of terminals, [atime] the last read
    of one, [lookup] the directory of its foreground process. *)
Definition ssh_run (entries : option (list string)) (atime : string -> option f64) (lookup : string -> option string) : list Object :=
  match entries with
  | None => []
  | Some entries =>
      flat_map (fun name =>
        match atime name with
        | None => []
        | Some t =>
            if f64_le (ac_idle_seconds cfg) (f64_sub now t) then []
            else
              let cwd := default "unknown"%string (lookup ("pts/" +:+ name)) in
              [[("time", json_f64 now);
                ("source", Json_string "ssh");
                ("project", Json_string (project_of m (ac_project_aliases cfg) cwd None));
                ("entity", Json_string cwd);
                ("entity_type", Json_string "app");
                ("category", Json_string "coding");
                ("actor", Json_string "human");
                ("is_write", json_int 0)]]%string
        end) (sort_by pty_before (List.filter is_pty entries))
  end.

(** *** The frontmost application *)

(** [DEFAULT_TITLE_PATTERNS]: the patterns are [^([^–—]+?)\s+[–—]] for WebStorm and
    [\s+[—]\s+([^—]+)$] for Zed. *)
Definition EN_DASH : string := String "226" (String "128" (String "147" EmptyString)).
Definition EM_DASH : string := String "226" (String "128" (String "148" EmptyString)).
Definition DEFAULT_TITLE_PATTERNS : list (string * string) :=
  [("WebStorm", "^([^" +:+ EN_DASH +:+ EM_DASH +:+ "]+?)\s+[" +:+ EN_DASH +:+ EM_DASH +:+ "]");
   ("Zed", "\s+[" +:+ EM_DASH +:+ "]\s+([^" +:+ EM_DASH +:+ "]+)$")]%string.

(** [project_from_title]; [first_group] is the first group of a pattern's match, none
    when it does not compile, match or have one. *)
Definition project_from_title (first_group : string -> string -> option string) (app title : string) (app_cfg : AppCfg) : option string :=
  if str_is_empty title then None
  else
    pattern ←
      match ap_project_from_title app_cfg with
      | Some p => Some p
      | None => assoc app DEFAULT_TITLE_PATTERNS
      end;
    group ← first_group pattern title;
    nonempty (trim group).

(** A command that could not be run. *)
Definition command_failed {A} (what : string) (out : Result A) : Result A :=
  match out with Ok a => Ok a | Err e => Err (Error_msg (what +:+ " failed: " +:+ err_msg e)) end.

(** [run]: idle time first, then the application and the title of its window; either
    command can fail. *)
Definition mac_run (first_group : string -> string -> option string) (idle_out front : Result string) : Result (list Object) :=
  idle_out ← command_failed "ioreg" idle_out;
  let trimmed := trim idle_out in
  let idle := if str_is_empty trimmed then f64_zero else js_number (Json_string trimmed) in
  if f64_le (ac_idle_seconds cfg) idle then Ok []
  else
    front ← command_failed "osascript" front;
    let parts := split_byte LF front in
    let app := trim (default EmptyString (head parts)) in
    let title := trim (String.concat (String LF EmptyString) (tail parts)) in
    match assoc app (ac_apps cfg) with
    | None => Ok []
    | Some mapped =>
        let location := default (ap_source mapped) (project_from_title first_group app title mapped) in
        Ok [[("time", json_f64 now);
             ("source", Json_string (ap_source mapped));
             ("project", Json_string (project_of m (ac_project_aliases cfg) location (Some location)));
             ("entity", Json_string (if str_is_empty title then app else title));
             ("entity_type", Json_string "app");
             ("category", Json_string (ap_category mapped));
             ("actor", Json_string "human");
             ("is_write", json_int 0)]]%string
    end.
End Ssh.
