(* ===== verification/WatchZed.v ===== *)
(** The watcher of Zed's agent threads (crates/stackhour-agent/src/watch_zed.rs): the
    signature that says whether the database may have changed, the discovery of its
    table, and the difference to the threads last seen. The files' metadata and what
    SQLite answers are parameters. *)
From S2P Require Import Prelude.
From S2P Require Import RustStr.
From S2P Require Import Float64.
From S2P Require Import Platform.
From S2P Require Import JsNum.
From S2P Require Import JsonTrees.
From S2P Require Import Paths.
From S2P Require Import Project.
From S2P Require Import Tail.

Local Open Scope Z_scope.

(** [zed_db_paths] *)
Definition zed_db_paths (home : string) : list string :=
  [path_join (path_join (path_join (path_join (path_join home "Library") "Application Support") "Zed") "threads") "threads.db";
   path_join (path_join (path_join (path_join (path_join home ".local") "share") "zed") "threads") "threads.db"].

(** *** The signature *)

(** What [metadata] says of a file: its size, and seconds and nanoseconds of its two
    times. *)
Record Stat := MkStat { st_len : Z; st_mtime : Z * Z; st_ctime : Z * Z }.

Definition time_text (t : Z * Z) : string := pretty.pretty t.1 +:+ zero_padded 9 t.2.
Definition stat_text (suffix : string) (stat : option Stat) : string :=
  match stat with
  | Some s => suffix +:+ ":" +:+ pretty.pretty (st_len s) +:+ ":" +:+ time_text (st_mtime s) +:+ ":" +:+ time_text (st_ctime s)
  | None => suffix +:+ ":missing"
  end.
(** [db_signature]: of the database and its write-ahead log. *)
Definition db_signature (stat : string -> option Stat) (src : string) : string :=
  String.concat "|" (map (fun suffix => stat_text suffix (stat (src +:+ suffix))) [""; "-wal"]%string).

(** *** The database *)

(** [ValueRef] *)
Inductive SqlValue := Sql_null | Sql_integer (i : Z) | Sql_real (f : f64) | Sql_text (bytes : string) | Sql_blob (bytes : string).

(** [sql_to_string] *)
Definition sql_to_string (v : SqlValue) : string :=
  match v with
  | Sql_null => EmptyString
  | Sql_integer i => pretty.pretty i
  | Sql_real f => js_display (json_f64 f)
  | Sql_text b | Sql_blob b => from_utf8_lossy b
  end.

(** [quote_ident]: double quotes, those inside doubled. *)
Definition DQUOTE : string := String QUOTE EmptyString.
Definition quote_ident (name : string) : string := DQUOTE +:+ replace DQUOTE (DQUOTE +:+ DQUOTE) name +:+ DQUOTE.

(** What SQLite answers on an open connection: the names of the tables, the columns of
    a table when they can be listed, and the rows of a query. *)
Record Connection := MkConnection {
  cn_tables : Result (list string);
  cn_columns : string -> option (list string);
  cn_query : string -> Result (list (list SqlValue));
}.

(** The tables in the order they are tried, and the first that has the columns. *)
Definition ordered_tables (tables : list string) : list string :=
  List.filter (fun t => String.eqb t "threads") tables ++ List.filter (fun t => negb (String.eqb t "threads")) tables.
Fixpoint find_table (columns : string -> option (list string)) (tables : list string) : option (string * list string) :=
  match tables with
  | [] => None
  | t :: rest =>
      match columns t with
      | Some names =>
          if bool_decide ("id"%string ∈ names) && bool_decide ("updated_at"%string ∈ names) then Some (t, names)
          else find_table columns rest
      | None => find_table columns rest
      end
  end.
Definition thread_query (table : string) (summary : bool) : string :=
  "SELECT " +:+ String.concat ", " (map quote_ident (["id"; "updated_at"]%string ++ if summary then ["summary"%string] else []))
    +:+ " FROM " +:+ quote_ident table.

(** *** The difference *)

(** A thread: its id, when it was updated, and the name it is shown with. *)
Record Thread := MkThread { td_key : string; td_updated : string; td_entity : string }.
Definition cell (row : list SqlValue) (i : nat) : string := default EmptyString (sql_to_string <$> row !! i).
Definition thread_of (summary : bool) (row : list SqlValue) : Thread :=
  let key := cell row 0 in
  MkThread key (cell row 1)
    (match (if summary then nonempty (cell row 2) else None) with
     | Some s => take_chars 120 s
     | None => "thread " +:+ key
     end).

Section Zed.
Context (now : f64).

Definition thread_row (t : Thread) : Object :=
  [("time", json_f64 now);
   ("source", Json_string "zed-agent");
   ("project", Json_string "zed-agent");
   ("entity", Json_string (td_entity t));
   ("entity_type", Json_string "app");
   ("category", Json_string "ai coding");
   ("actor", Json_string "agent");
   ("is_write", json_int 0)]%string.

(** A thread is news when it changed since, or is new after the first run. *)
Definition is_news (previous : Object) (init_done : bool) (t : Thread) : bool :=
  match assoc (td_key t) previous with
  | Some v => negb (match as_str v with Some u => String.eqb u (td_updated t) | None => false end)
  | None => init_done
  end.

(** One round of the loop over the rows. *)
Definition thread_step (previous : Object) (init_done : bool) (acc : Object * list Object) (t : Thread) : Object * list Object :=
  (object_insert (td_key t) (Json_string (td_updated t)) acc.1,
   if is_news previous init_done t then acc.2 ++ [thread_row t] else acc.2).

(** [record_signature] *)
Definition record_signature (signature : string) (state : Object) : Object :=
  shift_remove "zedDbMtime" (object_insert "zedDbSignature" (Json_string signature) state).

(** [read_threads]: the state is written at the end, when nothing failed. *)
Definition read_failed (e : Error) : Error := Error_msg ("cannot read threads.db: " +:+ err_msg e).
Definition map_err {A} (f : Error -> Error) (r : Result A) : Result A := match r with Ok a => Ok a | Err e => Err (f e) end.
Definition read_threads (db : Connection) (signature : string) (state : Object) : Result (list Object) * Object :=
  match map_err read_failed (cn_tables db) with
  | Err e => (Err e, state)
  | Ok tables =>
      match find_table (cn_columns db) (ordered_tables tables) with
      | None => (Ok [], record_signature signature state)
      | Some (table, cols) =>
          let summary := bool_decide ("summary"%string ∈ cols) in
          let previous := object_at "zedThreads" state in
          let init_done := match assoc "zedInitDone" state with Some v => js_truthy v | None => false end in
          match map_err read_failed (cn_query db (thread_query table summary)) with
          | Err e => (Err e, state)
          | Ok rows =>
              let '(next, news) := fold_left (thread_step previous init_done) (map (thread_of summary) rows) ([], []) in
              (Ok news,
               record_signature signature
                 (object_insert "zedInitDone" (Json_bool true) (object_insert "zedThreads" (Json_object next) state)))
          end
      end
  end.

(** [run]: the first database that exists, unless its signature is the recorded one;
    [open] is the copy it takes, or the live file when it cannot. *)
Definition zed_run (stat : string -> option Stat) (open : string -> Result Connection) (candidates : list string) (state : Object) :
    Result (list Object) * Object :=
  match List.find (fun p => bool_decide (is_Some (stat p))) candidates with
  | None => (Ok [], state)
  | Some db_path =>
      let signature := db_signature stat db_path in
      if match str_field "zedDbSignature" (Json_object state) with Some s => String.eqb s signature | None => false end
      then (Ok [], state)
      else
        match open db_path with
        | Err e => (Err (Error_msg ("cannot open threads.db: " +:+ err_msg e)), state)
        | Ok db => read_threads db signature state
        end
  end.
End Zed.
