(* ===== verification/Watchers.v ===== *)
(** The watchers of the agent and their health (crates/stackhour-agent/src/lib.rs): the
    trait, the gates, the registered set, one pass over it with its bookkeeping, the
    interval between ticks and the health report. *)
From S2P Require Import Prelude.
From S2P Require Import RustStr.
From S2P Require Import Float64.
From S2P Require Import Platform.
From S2P Require Import JsNum.
From S2P Require Import JsonTrees.
From S2P Require Import Pricing.
From S2P Require Import Project.
From S2P Require Import Config.
From S2P Require Import Tail.
From S2P Require Import WatchClaude.
From S2P Require Import WatchCodex.
From S2P Require Import WatchFiles.
From S2P Require Import WatchApps.
From S2P Require Import WatchZed.
From Stdlib Require Import SpecFloat.

Local Open Scope Z_scope.

(** [Gate] *)
Inductive Gate := Run | Skipped (enabled available : bool) (reason : string).

(** [Watcher]: a run takes the state and the time, and can leave its mark on the state
    also when it fails. *)
Record Watcher := MkWatcher {
  w_name : string;
  w_gate : Gate;
  w_input_marker : Object -> option string;
  w_run : f64 -> Object -> Result (list Object) * Object;
}.

(** *** Gates *)

Definition switched (on : bool) : Gate := if on then Run else Skipped false false "disabled in config".
(** [gate] of the files watcher, and of the two that need a platform. *)
Definition files_gate (cfg : AgentCfg) : Gate :=
  let enabled := wc_files (ac_watch cfg) in
  let available := enabled && match ac_project_roots cfg with [] => false | _ => true end in
  if enabled && available then Run
  else Skipped enabled available (if enabled then "no project roots configured" else "disabled in config").
Definition platform_gate (enabled here : bool) (reason : string) : Gate :=
  let available := enabled && here in
  if available then Run else Skipped enabled available (if enabled then reason else "disabled in config").

(** *** The interval *)

(** [TIMEOUT_MAX_SECONDS], [f64::clamp] and [tick_interval], in seconds. *)
Definition TIMEOUT_MAX_SECONDS : f64 := f64_div (f64_of_Z 2147483647) (f64_of_Z 1000).
Definition f64_clamp (x lo hi : f64) : f64 := if f64_lt x lo then lo else if f64_lt hi x then hi else x.
Definition tick_interval (interval_seconds : f64) : f64 :=
  if f64_is_nan interval_seconds then f64_of_Z 1 else f64_clamp interval_seconds (f64_of_Z 1) TIMEOUT_MAX_SECONDS.

(** [round1] *)
Definition round1 (ms : f64) : f64 := f64_div (js_round_f64 (f64_mul ms (f64_of_Z 10))) (f64_of_Z 10).

(** *** Health *)

(** [health_mut], and what is done with the map it hands back. *)
Definition health_of (name : string) (state : Object) : Object := object_at name (object_at "watcherHealth" state).
Definition with_health (name : string) (f : Object -> Object) (state : Object) : Object :=
  put_object "watcherHealth" (put_object name (f (health_of name state)) (object_at "watcherHealth" state)) state.

(** Insertions in order. *)
Definition set_all (entries : Object) (map : Object) : Object := fold_left (fun m e => object_insert e.1 e.2 m) entries map.

(** How a pass went for a watcher: the readings of the clock around its run, whether
    its input moved, and its rows or its error. *)
Record Timing := MkTiming { tm_now : f64; tm_elapsed : f64; tm_finished : f64 }.

Definition count_at (key : string) (health : Object) : f64 := default f64_zero (assoc key health ≫= as_f64).
Definition one_more (key : string) (health : Object) : JsonTree := json_f64 (f64_add (count_at key health) (f64_of_Z 1)).

Definition row_time (finished : f64) (row : Object) : f64 := default finished (assoc "time" row ≫= as_f64).
Definition last_event (finished : f64) (rows : list Object) : f64 :=
  fold_left f64_max (map (row_time finished) rows) (S754_infinity true).

(** The bookkeeping of a gate that skips. *)
Definition skipped_health (enabled available : bool) (reason : string) (health : Object) : Object :=
  set_all [("enabled", Json_bool enabled); ("available", Json_bool available); ("lastCount", json_int 0);
           ("reason", Json_string reason)]%string health.
(** Before a run. *)
Definition running_health (health : Object) : Object :=
  shift_remove "reason" (set_all [("enabled", Json_bool true); ("available", Json_bool true)]%string health).
(** After a run that succeeded. *)
Definition success_health (tm : Timing) (input_changed : bool) (rows : list Object) (health : Object) : Object :=
  let finished := tm_finished tm in
  let health := set_all [("lastOk", json_f64 finished); ("lastDurationMs", json_f64 (round1 (tm_elapsed tm)));
                         ("lastCount", json_int (Z.of_nat (length rows))); ("consecutiveErrors", json_int 0);
                         ("error", Json_null)]%string health in
  let health := if input_changed then object_insert "lastInput" (json_f64 finished) health else health in
  match rows with
  | [] => if input_changed then object_insert "unmatchedInputRuns" (one_more "unmatchedInputRuns" health) health else health
  | _ => set_all [("lastEvent", json_f64 (last_event finished rows)); ("unmatchedInputRuns", json_int 0)]%string health
  end.
(** After a run that failed; the message is cut at 500 characters. *)
Definition failure_health (tm : Timing) (err : Error) (health : Object) : Object :=
  let health := set_all [("lastDurationMs", json_f64 (round1 (tm_elapsed tm))); ("lastError", json_f64 (tm_finished tm))]%string health in
  set_all [("consecutiveErrors", one_more "consecutiveErrors" health); ("error", Json_string (take_chars 500 (err_msg err)))]%string health.

(** *** The pass *)

Definition same_marker (a b : option string) : bool := bool_decide (a = b).

(** One watcher of [run_watchers]: its rows, and the state after it. *)
Definition run_one (w : Watcher) (tm : Timing) (state : Object) : list Object * Object :=
  match w_gate w with
  | Skipped enabled available reason => ([], with_health (w_name w) (skipped_health enabled available reason) state)
  | Run =>
      let state := with_health (w_name w) running_health state in
      let before := w_input_marker w state in
      let '(result, state) := w_run w (tm_now tm) state in
      match result with
      | Ok rows =>
          let input_changed := negb (same_marker before (w_input_marker w state)) || match rows with [] => false | _ => true end in
          (rows, with_health (w_name w) (success_health tm input_changed rows) state)
      | Err err => ([], with_health (w_name w) (failure_health tm err) state)
      end
  end.

(** [run_watchers]; the clock is read around each of them. *)
Fixpoint run_watchers (watchers : list (Watcher * Timing)) (state : Object) : list Object * Object :=
  match watchers with
  | [] => ([], state)
  | (w, tm) :: rest =>
      let '(rows, state) := run_one w tm state in
      let '(more, state) := run_watchers rest state in
      (rows ++ more, state)
  end.

(** *** The registered watchers *)

Section Registered.
Context {P : Platform} {J : JsonText}.

(** Everything a tick can observe. *)
Record World := MkWorld {
  wd_machine : Machine;
  wd_mtime : string -> option f64;
  wd_projects_dir : string;
  wd_sessions_dir : string;
  wd_linux : bool;
  wd_macos : bool;
  wd_ptys : option (list string);
  wd_atime : string -> option f64;
  wd_foreground : string -> option string;
  wd_first_group : string -> string -> option string;
  wd_idle : Result string;
  wd_front : Result string;
  wd_stat : string -> option Stat;
  wd_open : string -> Result Connection;
  wd_home : string;
}.
Context (wd : World) (cfg : AgentCfg) (pricing : option PricingTable).

(** The text of a map of offsets. *)
Definition offsets_marker (key : string) (state : Object) : option string :=
  Some (match assoc key state with Some (Json_object l) => tree_to_string (Json_object l) | _ => "{}"%string end).
Definition zed_marker (state : Object) : option string :=
  Some (match assoc "zedDbSignature" state ≫= as_str with
        | Some s => s
        | None => default EmptyString (assoc "zedDbMtime" state ≫= as_str)
        end).
Definition ok_rows (r : list Object * Object) : Result (list Object) * Object := (Ok r.1, r.2).

Definition files_watcher : Watcher :=
  MkWatcher "files" (files_gate cfg) (fun _ => None) (fun now state => ok_rows (files_run (wd_machine wd) (wd_mtime wd) cfg now state)).
Definition claude_watcher : Watcher :=
  MkWatcher "claude" (switched (wc_claude (ac_watch cfg))) (offsets_marker "claudeOffsets")
    (fun now state => ok_rows (claude_run (wd_machine wd) (ac_project_aliases cfg) pricing now (wd_projects_dir wd) state)).
Definition codex_watcher : Watcher :=
  MkWatcher "codex" (switched (wc_codex (ac_watch cfg))) (offsets_marker "codexOffsets")
    (fun now state => ok_rows (codex_run (wd_machine wd) (ac_project_aliases cfg) pricing now (wd_sessions_dir wd) state)).
Definition mac_watcher : Watcher :=
  MkWatcher "macApps" (platform_gate (wc_mac_apps (ac_watch cfg)) (wd_macos wd) "requires macOS") (fun _ => None)
    (fun now state => (mac_run (wd_machine wd) cfg now (wd_first_group wd) (wd_idle wd) (wd_front wd), state)).
Definition ssh_watcher : Watcher :=
  MkWatcher "ssh" (platform_gate (wc_ssh (ac_watch cfg)) (wd_linux wd) "requires Linux") (fun _ => None)
    (fun now state => ok_rows (ssh_run (wd_machine wd) cfg now (wd_ptys wd) (wd_atime wd) (wd_foreground wd), state)).
Definition zed_watcher : Watcher :=
  MkWatcher "zed" (switched (wc_zed (ac_watch cfg))) zed_marker
    (fun now state => zed_run now (wd_stat wd) (wd_open wd) (zed_db_paths (wd_home wd)) state).

(** [default_watchers] *)
Definition default_watchers : list Watcher :=
  [files_watcher; claude_watcher; codex_watcher; mac_watcher; ssh_watcher; zed_watcher].
End Registered.

(** *** The report *)

(** The report of [tick]. *)
Definition health_report (time : f64) (version build : string) (cfg : AgentCfg) (queue_depth queue_bytes : Z) (state : Object) : Object :=
  [("time", json_f64 time);
   ("machine", Json_string (ac_machine cfg));
   ("version", Json_string version);
   ("nodeVersion", Json_string build);
   ("intervalSeconds", json_f64 (ac_interval_seconds cfg));
   ("queueDepth", json_int queue_depth);
   ("queueBytes", json_int queue_bytes);
   ("watchers", default (Json_object []) (assoc "watcherHealth" state))]%string.
