(* ===== verification/WatcherFacts.v ===== *)
(** Many scans and passes of the agent's watchers one after another: the window of the
    saved files, and the health entries that carry over between passes. *)
From S2P Require Import Prelude.
From S2P Require Import RustStr.
From S2P Require Import Float64.
From S2P Require Import Platform.
From S2P Require Import JsNum.
From S2P Require Import JsonTrees.
From S2P Require Import Project.
From S2P Require Import Config.
From S2P Require Import Tail.
From S2P Require Import WatchClaude.
From S2P Require Import WatchFiles.
From S2P Require Import WatchZed.
From S2P Require Import Pricing.
From S2P Require Import WatchCodex.
From S2P Require Import WatchApps.
From S2P Require Import Watchers.

(** Facts about scans and thread reads: which scans report a saved file, and which
    threads a read of Zed's database reports. *)

Local Open Scope Z_scope.

(** *** The order of finite doubles *)

(** *** Saved files *)

(** The rows that report a file as saved at a time. *)
Definition reports (file : string) (t : f64) (row : Object) : bool :=
  match assoc "entity" row, assoc "time" row with
  | Some (Json_string e), Some (Json_number (Num_float f)) => String.eqb e file && bool_decide (f = t)
  | _, _ => false
  end.
Definition reported (file : string) (t : f64) (rows : list Object) : nat := length (List.filter (reports file t) rows).

Lemma reported_app file t rows1 rows2 : reported file t (rows1 ++ rows2) = (reported file t rows1 + reported file t rows2)%nat.
Proof. unfold reported. by rewrite List.filter_app length_app. Qed.

Section Scan.
Context (cfg : AgentCfg).

(** How often a scan comes across a file. *)
Definition listed (m : Machine) (file : string) : nat :=
  length (List.filter (String.eqb file) (flat_map (root_files m cfg) (ac_project_roots cfg))).

Lemma scan_reports m mtime now state file t : f64_is_finite t = true ->
  reported file t (files_run m mtime cfg now state).1 =
    if bool_decide (mtime file = Some t) && in_window now (scan_since cfg now state) t then listed m file else 0%nat.
Proof.
  intros Ht. unfold files_run, listed. cbn [fst]. set (since := scan_since cfg now state).
  assert (forall root files, reported file t (flat_map (fun f => match mtime f with
      | Some u => if in_window now since u then [saved_row m cfg root f u] else [] | None => [] end) files) =
    if bool_decide (mtime file = Some t) && in_window now since t then length (List.filter (String.eqb file) files) else 0%nat) as Hroot.
  { intros root files. induction files as [|f files IH]; [by destruct (_ && _)|]. cbn [flat_map List.filter]. rewrite reported_app IH. clear IH.
    assert (forall u, reports file t (saved_row m cfg root f u) = String.eqb f file && f64_is_finite u && bool_decide (u = t)) as Hrow.
    { intros u. unfold reports, saved_row. cbn. unfold json_f64. destruct (f64_is_finite u); [by rewrite andb_true_r|by rewrite andb_false_r]. }
    destruct (String.eqb_spec file f) as [<-|Hne].
    - destruct (mtime file) as [u|].
      + destruct (decide (u = t)) as [->|Hu].
        * rewrite bool_decide_eq_true_2 //. cbn [andb]. destruct (in_window _ _ t); [|done].
          unfold reported. cbn [List.filter]. by rewrite Hrow String.eqb_refl Ht bool_decide_eq_true_2.
        * rewrite bool_decide_eq_false_2; [congruence|]. cbn [andb]. destruct (in_window _ _ u); [|done].
          unfold reported. cbn [List.filter]. by rewrite Hrow (bool_decide_eq_false_2 (u = t)) // !andb_false_r.
      + by rewrite bool_decide_eq_false_2.
    - assert (reported file t (match mtime f with Some u => if in_window now since u then [saved_row m cfg root f u] else [] | None => [] end) = 0%nat) as ->; [|done].
      destruct (mtime f) as [u|]; [|done]. destruct (in_window _ _ u); [|done]. unfold reported. cbn [List.filter].
      rewrite Hrow. by rewrite (proj2 (String.eqb_neq f file)); [congruence|]. }
  induction (ac_project_roots cfg) as [|root roots IH]; [by destruct (_ && _)|]. cbn [flat_map]. rewrite reported_app Hroot IH.
  rewrite List.filter_app length_app. by destruct (_ && _).
Qed.
End Scan.

(** A scan: the machine and the times of its files as it finds them, and the clock. *)
Record ScanTick := MkScan { sn_machine : Machine; sn_mtime : string -> option f64; sn_now : f64 }.
Fixpoint scans (cfg : AgentCfg) (ticks : list ScanTick) (state : Object) : list Object * Object :=
  match ticks with
  | [] => ([], state)
  | k :: rest =>
      let '(rows, state) := files_run (sn_machine k) (sn_mtime k) cfg (sn_now k) state in
      let '(more, state) := scans cfg rest state in (rows ++ more, state)
  end.

(** The clock of a scan: a finite time that adding a minute does not take back. *)
Definition sane_clock (now : f64) : Prop := f64_is_finite now = true /\ f64_le now (f64_add now (f64_of_Z 60)) = true /\
  f64_is_nan (f64_add now (f64_of_Z 60)) = false.

(** A scan as one file saved at [t] shows in it: from [t] on it is listed once with
    that time, before it is not there with it. *)
Definition shows (cfg : AgentCfg) (file : string) (t : f64) (k : ScanTick) : Prop :=
  if f64_le t (sn_now k)
  then sn_mtime k file = Some t /\ listed cfg (sn_machine k) file = 1%nat
  else sn_mtime k file <> Some t.

(** The clock does not go back. *)
Fixpoint forward (from : f64) (ticks : list ScanTick) : Prop :=
  match ticks with [] => True | k :: rest => f64_le from (sn_now k) = true /\ sane_clock (sn_now k) /\ forward (sn_now k) rest end.

Section Scans.
Context (cfg : AgentCfg) (file : string) (t : f64) (Ht : f64_is_finite t = true).

Lemma since_last m now prev mtime state : f64_is_finite prev = true -> f64_is_finite now = true -> f64_le prev now = true ->
  assoc "filesLastScan" state = Some (json_f64 prev) ->
  scan_since cfg now state = prev /\ assoc "filesLastScan" (files_run m mtime cfg now state).2 = Some (json_f64 now).
Proof.
  intros Hp Hn Hle Hs. split; [|unfold files_run; cbn [snd]; by rewrite assoc_insert].
  unfold scan_since. rewrite Hs. unfold json_f64. rewrite Hp. cbn [mbind option_bind as_f64 number_f64 default from_option].
  rewrite f64_le_lt in Hle; [by apply finite_not_nan..|]. apply negb_true_iff in Hle.
  change (id prev) with prev. by rewrite Hle.
Qed.

Lemma window_of prev now : f64_is_finite prev = true -> sane_clock now ->
  in_window now prev t = f64_lt prev t && negb (f64_lt (f64_add now (f64_of_Z 60)) t).
Proof.
  intros Hp (Hn & _). unfold in_window. rewrite f64_le_lt; [by apply finite_not_nan..|].
  by rewrite negb_orb negb_involutive.
Qed.

Lemma window_ahead now : sane_clock now -> f64_le t now = true -> f64_lt (f64_add now (f64_of_Z 60)) t = false.
Proof.
  intros (Hn & Hle & Hnan) H. rewrite f64_le_lt in H; [by apply finite_not_nan..|]. rewrite f64_le_lt in Hle; [by apply finite_not_nan|done|].
  apply negb_true_iff in H, Hle. eapply (f64_ge_trans t now); [by apply finite_not_nan|by apply finite_not_nan|done|done|done].
Qed.

(** Once the file was reported no later scan reports it. *)
Lemma scans_after ticks : forall prev state, f64_is_finite prev = true -> forward prev ticks -> f64_le t prev = true ->
  assoc "filesLastScan" state = Some (json_f64 prev) -> reported file t (scans cfg ticks state).1 = 0%nat.
Proof.
  induction ticks as [|[m mtime now] rest IH]; intros prev state Hp Hf Htp Hs; [done|]. destruct Hf as (Hle & Hc & Hf).
  cbn [scans sn_machine sn_mtime sn_now] in *. destruct (since_last m now prev mtime state Hp (proj1 Hc) Hle Hs) as [Hsince Hs'].
  pose proof (scan_reports cfg m mtime now state file t Ht) as Hr. rewrite Hsince window_of // in Hr.
  rewrite f64_le_lt in Htp; [by apply finite_not_nan..|]. apply negb_true_iff in Htp. rewrite Htp andb_false_r in Hr.
  assert (f64_le t now = true) as Htn.
  { rewrite f64_le_lt; [by apply finite_not_nan|by apply finite_not_nan, Hc|]. apply negb_true_iff.
    rewrite f64_le_lt in Hle; [by apply finite_not_nan|by apply finite_not_nan, Hc|]. apply negb_true_iff in Hle.
    by apply (f64_ge_trans t prev now); try apply finite_not_nan; try apply Hc. }
  specialize (IH now (files_run m mtime cfg now state).2 (proj1 Hc) Hf Htn Hs').
  destruct (files_run m mtime cfg now state) as [rows state']. cbn [fst snd] in *.
  destruct (scans cfg rest state') as [more state'']. cbn [fst] in *. by rewrite reported_app Hr IH.
Qed.

Lemma scans_before ticks : forall prev state, f64_is_finite prev = true -> forward prev ticks -> f64_lt prev t = true ->
  Forall (shows cfg file t) ticks -> assoc "filesLastScan" state = Some (json_f64 prev) ->
  reported file t (scans cfg ticks state).1 = if existsb (fun k => f64_le t (sn_now k)) ticks then 1%nat else 0%nat.
Proof.
  induction ticks as [|[m mtime now] rest IH]; intros prev state Hp Hf Htp Hsh Hs; [done|]. destruct Hf as (Hle & Hc & Hf).
  apply Forall_cons in Hsh as [Hk Hsh]. unfold shows in Hk. cbn [scans existsb sn_machine sn_mtime sn_now] in *.
  destruct (since_last m now prev mtime state Hp (proj1 Hc) Hle Hs) as [Hsince Hs'].
  pose proof (scan_reports cfg m mtime now state file t Ht) as Hr. rewrite Hsince window_of // Htp in Hr.
  destruct (f64_le t now) eqn:Htn; cbn [orb].
  - destruct Hk as [Hm Hl]. rewrite window_ahead // bool_decide_eq_true_2 // Hl in Hr. cbn [andb negb] in Hr.
    pose proof (scans_after rest now _ (proj1 Hc) Hf Htn Hs') as Hrest.
    destruct (files_run m mtime cfg now state) as [rows state']. cbn [fst snd] in *.
    destruct (scans cfg rest state') as [more state'']. cbn [fst] in *. by rewrite reported_app Hr Hrest.
  - rewrite (bool_decide_eq_false_2 _ Hk) in Hr. cbn [andb] in Hr.
    rewrite f64_le_lt in Htn; [by apply finite_not_nan|by apply finite_not_nan, Hc|]. apply negb_false_iff in Htn.
    specialize (IH now _ (proj1 Hc) Hf Htn Hsh Hs'). destruct (files_run m mtime cfg now state) as [rows state'].
    cbn [fst snd] in *. destruct (scans cfg rest state') as [more state'']. cbn [fst] in *. by rewrite reported_app Hr IH.
Qed.
End Scans.

(** *** Threads *)

(** The threads a read goes through, when it gets that far. *)
Definition threads_in (db : Connection) : option (list Thread) :=
  match cn_tables db with
  | Ok tables =>
      '(table, cols) ← find_table (cn_columns db) (ordered_tables tables);
      let summary := bool_decide ("summary"%string ∈ cols) in
      match cn_query db (thread_query table summary) with Ok rows => Some (map (thread_of summary) rows) | Err _ => None end
  | Err _ => None
  end.

Lemma thread_loop now previous init_done threads : NoDup (map td_key threads) ->
  let '(next, news) := fold_left (thread_step now previous init_done) threads ([], []) in
  news = map (thread_row now) (List.filter (is_news previous init_done) threads) /\
  (forall key, assoc key next = Json_string ∘ td_updated <$> List.find (fun t => String.eqb key (td_key t)) threads).
Proof.
  induction threads as [|t threads IH] using rev_ind; intros Hnd; [done|]. rewrite map_app in Hnd.
  apply NoDup_app in Hnd as (Hnd & Hd & _). rewrite fold_left_app. cbn [fold_left]. specialize (IH Hnd).
  destruct (fold_left _ threads _) as [next news]. destruct IH as [-> Hnext]. unfold thread_step. cbn [fst snd].
  rewrite List.filter_app map_app. cbn [List.filter]. split; [destruct (is_news _ _ t); cbn; by rewrite ?app_nil_r|].
  intros key. rewrite assoc_insert Hnext. clear Hnext.
  assert (List.find (fun x => String.eqb key (td_key x)) (threads ++ [t]) =
    match List.find (fun x => String.eqb key (td_key x)) threads with
    | Some x => Some x | None => if String.eqb key (td_key t) then Some t else None end) as ->.
  { clear. induction threads as [|x threads IH]; cbn; [by destruct (String.eqb key (td_key t))|]. destruct (String.eqb key (td_key x)); [done|exact IH]. }
  destruct (List.find _ threads) as [x|] eqn:Hx; [|by destruct (String.eqb key (td_key t))].
  apply find_some in Hx as [Hin Hk%String.eqb_eq]. destruct (String.eqb_spec key (td_key t)) as [He|]; [|done].
  exfalso. apply (Hd (td_key t)); [|by apply list_elem_of_singleton]. rewrite -He Hk. by apply list_elem_of_fmap_2, list_elem_of_In.
Qed.

(** Facts about a pass over the watchers: no watcher touches the health map, each
    pass records each watcher's own outcome and nothing else, and what the counters of
    the health map count. *)

(** *** States that agree on a key *)

Definition same_at (k : string) (s s' : Object) : Prop := assoc k s' = assoc k s.

#[export] Instance same_at_preorder k : PreOrder (same_at k).
Proof. split; [done|]. intros a b c H1 H2. unfold same_at in *. congruence. Qed.

Lemma same_insert k k' v s : k' <> k -> same_at k s (object_insert k' v s).
Proof. intros H. unfold same_at. by rewrite assoc_insert (proj2 (String.eqb_neq k k')). Qed.

Lemma same_put k k' map s : k' <> k -> same_at k s (put_object k' map s).
Proof. apply same_insert. Qed.

Lemma same_ensure k k' s : k' <> k -> same_at k s (ensure_object k' s).
Proof. intros H. unfold ensure_object. by destruct (assoc k' s) as [[| | | | |]|]; try apply same_insert. Qed.

Lemma same_remove k k' s : k' <> k -> same_at k s (shift_remove k' s).
Proof. intros H. unfold same_at. by rewrite assoc_remove (proj2 (String.eqb_neq k k')). Qed.

Lemma same_fold {A B} (f : A * Object -> B -> A * Object) k l : forall acc,
  (forall acc x, same_at k acc.2 (f acc x).2) -> same_at k acc.2 (fold_left f l acc).2.
Proof. induction l as [|x l IH]; intros acc Hf; [done|]. cbn [fold_left]. etransitivity; [apply Hf|by apply IH]. Qed.

Create HintDb same_at.
#[export] Hint Resolve same_insert same_put same_ensure same_remove : same_at.

Section Kept.
Context {P : Platform} {J : JsonText}.
Context (m : Machine) (aliases : list (string * string)) (pricing : option PricingTable) (now : f64).

Lemma claude_keeps dir s : same_at "watcherHealth" s (claude_run m aliases pricing now dir s).2.
Proof.
  unfold claude_run. destruct (fs_kind _ _); [|done].
  set (files := walk_files _ _ _ _).
  assert (same_at "watcherHealth" s (fold_left (claude_file m aliases pricing now) files ([], s)).2) as Hf.
  { apply (same_fold _ _ files ([], s)). clear. intros [rows s] file. unfold claude_file. cbn [snd].
    destruct (fv_size _); [|done]. destruct (match _ with Some _ => _ | None => _ end); [by apply same_ensure|].
    destruct (read_new_lines _ _ _) as [lines offsets].
    etransitivity; [by apply (same_ensure "watcherHealth" "claudeOffsets")|].
    etransitivity; [by apply (same_put "watcherHealth" "claudeOffsets" offsets)|].
    apply (same_fold _ _ lines (rows, _)). clear. intros [rows s] line. unfold claude_line. cbn [fst snd].
    destruct (line_time now line); [|done]. unfold account.
    destruct (pointer _ line) as [[| | | | |l]|]; try done. destruct (js_display <$> _); [by apply same_put|done]. }
  destruct (fold_left _ files ([], s)) as [rows s']. cbn [snd] in *. etransitivity; [exact Hf|].
  unfold trim_usage_by_id. etransitivity; [by apply (same_put _ "claudeUsageById")|by apply same_put].
Qed.

Lemma codex_keeps dir s : same_at "watcherHealth" s (codex_run m aliases pricing now dir s).2.
Proof.
  unfold codex_run. destruct (fs_kind _ _); [|done]. set (files := walk_files _ _ _ _).
  assert (same_at "watcherHealth" s (fold_left (codex_file m aliases pricing now) files ([], s)).2) as Hf.
  { apply (same_fold _ _ files ([], s)). clear. intros [rows s] file. unfold codex_file. cbn [snd].
    destruct (fv_size _); [|done]. destruct (match _ with Some _ => _ | None => _ end); [by apply same_ensure|].
    destruct (read_new_lines _ _ _) as [lines offsets]. destruct (fold_left _ lines _) as [rows' meta].
    cbn [snd]. etransitivity; [by apply (same_ensure _ "codexOffsets")|].
    etransitivity; [by apply (same_ensure _ "codexMeta")|].
    etransitivity; [by apply (same_put _ "codexOffsets" offsets)|by apply same_put]. }
  destruct (fold_left _ files ([], s)) as [rows s']. cbn [snd] in *. etransitivity; [exact Hf|].
  etransitivity; [by apply (same_put _ "codexOffsets")|by apply same_put].
Qed.

Lemma zed_keeps stat open candidates s : same_at "watcherHealth" s (zed_run now stat open candidates s).2.
Proof.
  unfold zed_run. destruct (List.find _ _); [|done]. destruct (match str_field _ _ with Some _ => _ | None => _ end); [done|].
  destruct (open _) as [db|e]; [|done]. unfold read_threads. destruct (map_err _ (cn_tables db)); [|done].
  assert (forall sig s', same_at "watcherHealth" s s' -> same_at "watcherHealth" s (record_signature sig s')) as Hsig.
  { intros sig s' H. unfold record_signature, same_at in *. rewrite assoc_remove assoc_insert. exact H. }
  destruct (find_table _ _) as [[table cols]|]; [|by apply Hsig]. destruct (map_err _ _); [|done].
  destruct (fold_left _ _ _) as [next news]. cbn [snd]. apply Hsig.
  unfold same_at. by rewrite !assoc_insert.
Qed.
End Kept.

(** *** One pass *)

(** How a pass went for one watcher. *)
Inductive Outcome :=
  | Gated (enabled available : bool) (reason : string)
  | Succeeded (tm : Timing) (input_changed : bool) (rows : list Object)
  | Failed (tm : Timing) (err : Error).

Definition outcome_rows (o : Outcome) : list Object := match o with Succeeded _ _ rows => rows | _ => [] end.
(** What it leaves in the health entry. *)
Definition outcome_health (o : Outcome) (health : Object) : Object :=
  match o with
  | Gated enabled available reason => skipped_health enabled available reason health
  | Succeeded tm changed rows => success_health tm changed rows (running_health health)
  | Failed tm err => failure_health tm err (running_health health)
  end.

(** The state a watcher is run on: what it finds, marked as running. *)
Definition marked (w : Watcher) (state : Object) : Object := with_health (w_name w) running_health state.

(** The outcome of a watcher on the state it finds. *)
Definition outcome_of (w : Watcher) (tm : Timing) (state : Object) : Outcome :=
  match w_gate w with
  | Skipped enabled available reason => Gated enabled available reason
  | Run =>
      match w_run w (tm_now tm) (marked w state) with
      | (Ok rows, after) =>
          Succeeded tm (negb (same_marker (w_input_marker w (marked w state)) (w_input_marker w after))
                          || match rows with [] => false | _ => true end) rows
      | (Err err, _) => Failed tm err
      end
  end.

(** A watcher that leaves the health map to the pass. *)
Definition keeps_health (w : Watcher) : Prop := forall now s, same_at "watcherHealth" s (w_run w now s).2.

Lemma health_same name s s' : same_at "watcherHealth" s s' -> health_of name s' = health_of name s.
Proof. unfold same_at, health_of, object_at. by intros ->. Qed.

Lemma health_with name name' f s :
  health_of name (with_health name' f s) = if String.eqb name name' then f (health_of name s) else health_of name s.
Proof.
  unfold health_of at 1, with_health, put_object, object_at at 1 2. rewrite assoc_insert String.eqb_refl. cbn [mbind option_bind as_object default from_option].
  rewrite assoc_insert. destruct (String.eqb_spec name name') as [->|]; [done|]. unfold health_of, object_at. done.
Qed.

Lemma run_one_exact w tm s : keeps_health w ->
  (run_one w tm s).1 = outcome_rows (outcome_of w tm s) /\
  forall name, health_of name (run_one w tm s).2 =
    if String.eqb name (w_name w) then outcome_health (outcome_of w tm s) (health_of name s) else health_of name s.
Proof.
  intros Hk. unfold run_one, outcome_of. destruct (w_gate w) as [|e a r]; [|split; [done|]; intros name; apply health_with].
  fold (marked w s). specialize (Hk (tm_now tm) (marked w s)). destruct (w_run w (tm_now tm) (marked w s)) as [[rows|err] s'];
    (split; [done|]); intros name; cbn [snd]; rewrite health_with (health_same _ _ _ Hk) /marked health_with;
    by destruct (String.eqb name (w_name w)).
Qed.

(** The states the watchers find, in order. *)
Fixpoint pass_states (watchers : list (Watcher * Timing)) (state : Object) : list Object :=
  match watchers with [] => [] | (w, tm) :: rest => state :: pass_states rest (run_one w tm state).2 end.
Definition pass_outcomes (watchers : list (Watcher * Timing)) (state : Object) : list Outcome :=
  zip_with (fun e s => outcome_of e.1 e.2 s) watchers (pass_states watchers state).

Lemma pass_rows watchers : forall state, Forall (fun e => keeps_health e.1) watchers ->
  (run_watchers watchers state).1 = concat (map outcome_rows (pass_outcomes watchers state)).
Proof.
  induction watchers as [|[w tm] rest IH]; intros state Hk; [done|]. apply Forall_cons in Hk as [Hw Hk]. cbn [run_watchers].
  unfold pass_outcomes. cbn [pass_states zip_with map concat fst snd]. destruct (run_one_exact w tm state Hw) as [Hrows _].
  specialize (IH (run_one w tm state).2 Hk). destruct (run_one w tm state) as [rows s']. cbn [fst snd] in *.
  destruct (run_watchers rest s') as [more s'']. cbn [fst] in *. by rewrite Hrows IH.
Qed.

Lemma pass_health_other watchers name : forall state, Forall (fun e => keeps_health e.1) watchers ->
  name ∉ map (fun e => w_name e.1) watchers -> health_of name (run_watchers watchers state).2 = health_of name state.
Proof.
  induction watchers as [|[w tm] rest IH]; intros state Hk Hn; [done|]. apply Forall_cons in Hk as [Hw Hk]. cbn [run_watchers].
  cbn [map] in Hn. apply not_elem_of_cons in Hn as [Hne Hn]. destruct (run_one_exact w tm state Hw) as [_ Hh].
  specialize (IH (run_one w tm state).2 Hk Hn). destruct (run_one w tm state) as [rows s']. cbn [fst snd] in *.
  destruct (run_watchers rest s') as [more s'']. cbn [snd] in *. rewrite IH Hh. by rewrite (proj2 (String.eqb_neq _ _) Hne).
Qed.

Lemma pass_health watchers : forall i state w tm, Forall (fun e => keeps_health e.1) watchers ->
  NoDup (map (fun e => w_name e.1) watchers) -> watchers !! i = Some (w, tm) ->
  exists o, pass_outcomes watchers state !! i = Some o /\
    health_of (w_name w) (run_watchers watchers state).2 = outcome_health o (health_of (w_name w) state).
Proof.
  induction watchers as [|[w tm] rest IH]; intros i state w0 tm0 Hk Hnd Hi; [done|]. apply Forall_cons in Hk as [Hw Hk].
  cbn [map] in Hnd. apply NoDup_cons in Hnd as [Hn Hnd]. cbn [run_watchers]. unfold pass_outcomes.
  cbn [pass_states zip_with fst snd]. destruct (run_one_exact w tm state Hw) as [_ Hh].
  destruct i as [|i]; cbn in Hi |- *.
  - injection Hi as <- <-. eexists. split; [done|].
    pose proof (pass_health_other rest (w_name w) (run_one w tm state).2 Hk Hn) as Ho. destruct (run_one w tm state) as [rows s'].
    cbn [fst snd] in *. destruct (run_watchers rest s') as [more s'']. cbn [snd] in *. by rewrite Ho Hh String.eqb_refl.
  - destruct (IH i (run_one w tm state).2 w0 tm0 Hk Hnd Hi) as (o & Ho & He). exists o. split; [done|].
    assert (String.eqb (w_name w0) (w_name w) = false) as Hne.
    { apply String.eqb_neq. intros He'. apply Hn. rewrite -He'. apply list_elem_of_lookup. exists i.
      by rewrite list_lookup_fmap Hi. }
    destruct (run_one w tm state) as [rows s']. cbn [fst snd] in *. destruct (run_watchers rest s') as [more s''].
    cbn [snd] in *. by rewrite He Hh Hne.
Qed.

Lemma default_keep {P : Platform} {J : JsonText} wd cfg pricing : Forall keeps_health (default_watchers wd cfg pricing).
Proof.
  repeat (apply Forall_cons; split); [..|done]; intros now s; cbn [w_run files_watcher claude_watcher codex_watcher mac_watcher ssh_watcher zed_watcher ok_rows snd].
  - by apply same_insert.
  - apply claude_keeps.
  - apply codex_keeps.
  - done.
  - done.
  - apply zed_keeps.
Qed.

(** *** Counters over many passes *)

(** What came after the last element that satisfies [p]. *)
Definition since {A} (p : A -> bool) (l : list A) : list A := fold_left (fun acc x => if p x then [] else acc ++ [x]) l [].

Lemma since_snoc {A} (p : A -> bool) l x : since p (l ++ [x]) = if p x then [] else since p l ++ [x].
Proof. unfold since. by rewrite fold_left_app. Qed.

Lemma since_length {A} (p : A -> bool) l : (length (since p l) <= length l)%nat.
Proof.
  induction l as [|x l IH] using rev_ind; [done|]. rewrite since_snoc length_app. destruct (p x); cbn; [lia|].
  rewrite length_app. cbn. lia.
Qed.

Definition failed (o : Outcome) : bool := match o with Failed _ _ => true | _ => false end.
Definition succeeded (o : Outcome) : bool := match o with Succeeded _ _ _ => true | _ => false end.
Definition productive (o : Outcome) : bool := match o with Succeeded _ _ (_ :: _) => true | _ => false end.
Definition unmatched (o : Outcome) : bool := match o with Succeeded _ true [] => true | _ => false end.

(** The number of outcomes of a kind since the last of another. *)
Definition streak (kind reset : Outcome -> bool) (os : list Outcome) : Z :=
  Z.of_nat (length (List.filter kind (since reset os))).

Lemma streak_snoc kind reset os o :
  streak kind reset (os ++ [o]) =
    if reset o then 0 else streak kind reset os + (if kind o then 1 else 0).
Proof.
  unfold streak. rewrite since_snoc. destruct (reset o); [done|]. rewrite List.filter_app length_app. cbn [List.filter].
  destruct (kind o); cbn; lia.
Qed.

Lemma streak_range kind reset os : 0 <= streak kind reset os <= Z.of_nat (length os).
Proof.
  unfold streak. pose proof (since_length reset os). pose proof (List.filter_length_le kind (since reset os)). lia.
Qed.

(** What an outcome does to the two counters. *)
Definition counts (e u : Z) (health : Object) : Prop :=
  count_at "consecutiveErrors" health = f64_of_Z e /\ count_at "unmatchedInputRuns" health = f64_of_Z u.

Lemma one_more_exact key n health : 0 <= n < 2 ^ 53 - 1 -> count_at key health = f64_of_Z n ->
  one_more key health = Json_number (Num_float (f64_of_Z (n + 1))).
Proof.
  intros Hn Hc. unfold one_more, json_f64. rewrite Hc f64_add_integer; [lia..|]. by rewrite f64_integer_finite; [lia|].
Qed.

Lemma counts_step o e u health : 0 <= e < 2 ^ 53 - 1 -> 0 <= u < 2 ^ 53 - 1 -> counts e u health ->
  counts (if succeeded o then 0 else e + (if failed o then 1 else 0))
         (if productive o then 0 else u + (if unmatched o then 1 else 0)) (outcome_health o health).
Proof.
  intros He Hu [Hce Hcu].
  assert (forall k v h key, count_at key (object_insert k v h) =
    if String.eqb key k then default f64_zero (as_f64 v) else count_at key h) as Hins.
  { intros k v h key. unfold count_at. rewrite assoc_insert. by destruct (String.eqb key k). }
  assert (forall h key, key <> "reason"%string -> count_at key (shift_remove "reason" h) = count_at key h) as Hrem.
  { intros h key Hk. unfold count_at. by rewrite assoc_remove (proj2 (String.eqb_neq key "reason")). }
  assert (forall h, count_at "consecutiveErrors" (running_health h) = count_at "consecutiveErrors" h /\
                    count_at "unmatchedInputRuns" (running_health h) = count_at "unmatchedInputRuns" h) as Hrun.
  { intros h. unfold running_health, set_all. cbn [fold_left fst snd]. rewrite !Hrem // !Hins. done. }
  destruct (Hrun health) as [Hre Hru]. unfold counts. destruct o as [en av rs|tm changed rows|tm err]; cbn [outcome_health succeeded failed productive unmatched].
  - unfold skipped_health, set_all. cbn [fold_left fst snd]. rewrite !Hins. cbn. by rewrite !Z.add_0_r.
  - unfold success_health, set_all. cbn [fold_left fst snd].
    destruct rows as [|row rows], changed; cbn [fold_left fst snd app andb]; rewrite ?Hins; cbn [String.eqb Ascii.eqb Bool.eqb]; try by split.
    + split; [done|]. rewrite (one_more_exact _ u) //. rewrite !Hins. cbn [String.eqb Ascii.eqb Bool.eqb]. by rewrite Hru.
    + split; [done|]. by rewrite Z.add_0_r Hru.
  - unfold failure_health, set_all. cbn [fold_left fst snd]. rewrite !Hins. cbn [String.eqb Ascii.eqb Bool.eqb].
    rewrite (one_more_exact _ e) //; [by rewrite !Hins /= Hre|].
    split; [done|]. by rewrite Z.add_0_r Hru.
Qed.
