(* ===== verification/Schema.v ===== *)
(** The tables of the hub database as the code stores them: text columns hold
    the rendered ids, tokens, timestamps and JSON (the DDL of
    crates/stackhour-domain/src/store.rs), and the row mappers read them back. *)
From S2P Require Import Prelude.
From S2P Require Import Platform.
From S2P Require Import Ids.
From S2P Require Import Entities.
From S2P Require Import Event.
From S2P Require Import Protocol.
From S2P Require Import Wire.

(** The SQL the store issues, over tables held in rowid order: what a SELECT,
    an INSERT with a uniqueness constraint, an UPDATE and an upsert read and
    write. The statements themselves are in Store.v, one per definition. *)

(** [sql_err]: a [rusqlite::Error] as a workspace error, message verbatim. *)
Definition sql_err {P : Platform} (e : SqlError) : Error := Error_msg (sqlite_message e).

(** [conv_err]: a domain parse failure as a column-conversion error. *)
Definition conv_err (msg : string) : SqlError := FromSqlConversionFailure msg.

(** A row mapper's failure, as it comes out of the surrounding query. *)
Definition bad_row {P : Platform} {A} (msg : string) : Result A := Err (sql_err (conv_err msg)).

(** A table of a database [D]: its rows in rowid order. *)
Record Table (D R : Type) := MkTable { tbl_get : D -> list R; tbl_set : list R -> D -> D }.
Arguments MkTable {D R}.
Arguments tbl_get {D R}.
Arguments tbl_set {D R}.

Section Sql.
Context {P : Platform} {D R : Type} (t : Table D R).

(** SELECT .. WHERE p ORDER BY rowid *)
Definition sql_select (p : R -> bool) : M D (list R) := gets (fun d => List.filter p (tbl_get t d)).

(** SELECT .. WHERE p on a unique column, [query_row(..).optional()] *)
Definition query_row (p : R -> bool) : M D (option R) := gets (fun d => List.find p (tbl_get t d)).

(** INSERT of a row that clashes with an existing one on a unique column. *)
Definition sql_insert (clash : R -> bool) (column : string) (r : R) : M D unit := fun d =>
  if existsb clash (tbl_get t d) then (Err (sql_err (UniqueViolation column)), d)
  else (Ok tt, tbl_set t (tbl_get t d ++ [r]) d).

(** UPDATE .. SET f WHERE p, returning the number of changed rows. *)
Definition sql_update (p : R -> bool) (f : R -> R) : M D nat := fun d =>
  (Ok (length (List.filter p (tbl_get t d))),
   tbl_set t (map (fun r => if p r then f r else r) (tbl_get t d)) d).

(** INSERT .. ON CONFLICT DO UPDATE SET f *)
Definition sql_upsert (clash : R -> bool) (f : R -> R) (r : R) : M D unit := fun d =>
  if existsb clash (tbl_get t d)
  then (Ok tt, tbl_set t (map (fun r' => if clash r' then f r' else r') (tbl_get t d)) d)
  else (Ok tt, tbl_set t (tbl_get t d ++ [r]) d).
End Sql.

(** ** Facts about keyed rows *)
Section Keyed.
Context {R : Type} (key : R -> string).
Implicit Types (rows : list R).

Definition has_key (k : string) (r : R) : bool := String.eqb (key r) k.

Lemma find_key_none rows k : List.find (has_key k) rows = None <-> k ∉ map key rows.
Proof.
  unfold has_key. induction rows as [|r rows IH]; simpl.
  - split; [|done]. intros _ ?%elem_of_nil. done.
  - destruct (String.eqb_spec (key r) k) as [<-|Hne].
    + split; [done|]. intros H. exfalso. apply H. by apply elem_of_cons; left.
    + rewrite IH not_elem_of_cons. split; [intros ?; split; congruence|by intros []].
Qed.

Lemma find_key_some rows k r :
  List.find (has_key k) rows = Some r -> key r = k /\ r ∈ rows.
Proof.
  intros [Hin Hk]%List.find_some. apply String.eqb_eq in Hk. split; [done|].
  by apply list_elem_of_In.
Qed.

Lemma find_key_nodup rows k r :
  NoDup (map key rows) -> r ∈ rows -> key r = k -> List.find (has_key k) rows = Some r.
Proof.
  unfold has_key. induction rows as [|r' rows IH]; simpl; [by intros _ ?%elem_of_nil|].
  intros [Hnin Hnd]%NoDup_cons [->|Hin]%elem_of_cons Hk.
  - subst k. by rewrite String.eqb_refl.
  - destruct (String.eqb_spec (key r') k) as [Heq|]; [|by apply IH].
    exfalso. apply Hnin. rewrite Heq -Hk. by apply list_elem_of_fmap_2.
Qed.

Lemma existsb_key rows k : existsb (has_key k) rows = bool_decide (k ∈ map key rows).
Proof.
  unfold has_key. induction rows as [|r rows IH]; simpl; [done|].
  rewrite IH. destruct (String.eqb_spec (key r) k) as [->|Hne]; simpl.
  - symmetry. apply bool_decide_eq_true. by apply elem_of_cons; left.
  - apply bool_decide_ext. rewrite elem_of_cons. split; [by right|]. by intros [->|].
Qed.

Lemma map_update_keys rows (p : R -> bool) (f : R -> R) :
  (forall r, key (f r) = key r) -> map key (map (fun r => if p r then f r else r) rows) = map key rows.
Proof.
  intros Hf. induction rows as [|r rows IH]; simpl; [done|]. rewrite IH.
  by destruct (p r); rewrite ?Hf.
Qed.

Lemma find_app_l rows rows' k r :
  List.find (has_key k) rows = Some r -> List.find (has_key k) (rows ++ rows') = Some r.
Proof.
  induction rows as [|r0 rows IH]; simpl; [done|]. by destruct (has_key k r0).
Qed.

Lemma find_app_none rows rows' k :
  List.find (has_key k) rows = None ->
  List.find (has_key k) (rows ++ rows') = List.find (has_key k) rows'.
Proof.
  induction rows as [|r0 rows IH]; simpl; [done|]. by destruct (has_key k r0).
Qed.

Lemma find_update rows k (p : R -> bool) (f : R -> R) :
  (forall r, key (f r) = key r) ->
  List.find (has_key k) (map (fun r => if p r then f r else r) rows) =
  (fun r => if p r then f r else r) <$> List.find (has_key k) rows.
Proof.
  intros Hf. induction rows as [|r rows IH]; simpl; [done|].
  assert (has_key k (if p r then f r else r) = has_key k r) as ->.
  { unfold has_key. by destruct (p r); rewrite ?Hf. }
  by destruct (has_key k r).
Qed.

Lemma filter_key_nodup rows k :
  NoDup (map key rows) ->
  length (List.filter (has_key k) rows) =
  match List.find (has_key k) rows with Some _ => 1 | None => 0 end.
Proof.
  induction rows as [|r rows IH]; simpl; [done|]. intros [Hnin Hnd]%NoDup_cons.
  destruct (has_key k r) eqn:Hk; [|by apply IH].
  apply String.eqb_eq in Hk. subst k. simpl. rewrite IH; [done|].
  by rewrite (proj2 (find_key_none _ _) Hnin).
Qed.
End Keyed.

(** The tables of the hub database as the code stores them: text columns hold
    the rendered ids, tokens, timestamps and JSON (the DDL of
    crates/stackhour-domain/src/store.rs), and the row mappers read them back. *)

(** [fmt_time] / [parse_time] *)
Definition fmt_time {P : Platform} (dt : Time) : string := to_rfc3339_nanos dt.
Definition parse_time {P : Platform} (s : string) : Result Time :=
  match parse_from_rfc3339 s with
  | Some t => Ok t
  | None => bad_row ("bad timestamp " +:+ debug_str s +:+ ": " +:+ rfc3339_error s)
  end.

(** *** Rows *)

Record EventRow := MkEventRow {
  er_sequence : Z; er_event_id : string; er_command_id : option string; er_kind : string;
  er_task_id : string; er_run_id : option string; er_provider_session_id : option string;
  er_node_id : string; er_protocol_version : Z; er_occurred_at : string;
  er_hub_received_at : string; er_payload : string;
}.

Record ReceiptRow := MkReceiptRow {
  rr_command_id : string; rr_sequence : Z; rr_event_id : string; rr_received_at : string;
}.

Record TaskRow := MkTaskRow {
  tr_task_id : string; tr_title : string; tr_status : string; tr_created_at : string;
}.

Record RunRow := MkRunRow {
  ur_run_id : string; ur_task_id : string; ur_node_id : string; ur_engine : string;
  ur_model : option string; ur_reasoning_effort : option string;
  ur_system_prompt : option string; ur_access_policy : string;
  ur_workspace_path : option string; ur_status : string; ur_started_at : string;
}.

Record ApprovalRow := MkApprovalRow {
  ar_approval_id : string; ar_run_id : string; ar_task_id : string; ar_tool_call_id : string;
  ar_scope : string; ar_options : string; ar_expires_at : option string; ar_decision : string;
  ar_resolved_by : option string; ar_created_at : string; ar_resolved_at : option string;
}.

Record NodeRow := MkNodeRow {
  nr_node_id : string; nr_label : string; nr_status : string; nr_software_version : string;
  nr_capabilities : string; nr_last_seen_sequence : option Z;
}.

Record DispatchRow := MkDispatchRow {
  dr_command_id : string; dr_node_id : string; dr_message : string; dr_created_at : string;
  dr_acked_at : option string;
}.

Record SettingRow := MkSettingRow { sr_key : string; sr_value : string; sr_updated_at : string }.

Record WorkerRow := MkWorkerRow { wr_task_id : string; wr_channel : string; wr_created_at : string }.

Record WakeRow := MkWakeRow {
  kr_event_id : string; kr_sequence : Z; kr_channel : string; kr_task_id : string;
  kr_run_id : string; kr_kind : string; kr_created_at : string; kr_attempt_count : Z;
  kr_next_attempt_at : string; kr_last_error : option string; kr_processed_at : option string;
}.

(** The whole database behind [Hub { conn }]. *)
Record Db := MkDb {
  db_events : list EventRow;
  db_receipts : list ReceiptRow;
  db_tasks : list TaskRow;
  db_runs : list RunRow;
  db_approvals : list ApprovalRow;
  db_nodes : list NodeRow;
  db_dispatches : list DispatchRow;
  db_settings : list SettingRow;
  db_workers : list WorkerRow;
  db_wakes : list WakeRow;
}.

Definition empty_db : Db := MkDb [] [] [] [] [] [] [] [] [] [].

Definition events_t : Table Db EventRow := MkTable db_events
  (fun x d => MkDb x (db_receipts d) (db_tasks d) (db_runs d) (db_approvals d) (db_nodes d)
                (db_dispatches d) (db_settings d) (db_workers d) (db_wakes d)).
Definition receipts_t : Table Db ReceiptRow := MkTable db_receipts
  (fun x d => MkDb (db_events d) x (db_tasks d) (db_runs d) (db_approvals d) (db_nodes d)
                (db_dispatches d) (db_settings d) (db_workers d) (db_wakes d)).
Definition tasks_t : Table Db TaskRow := MkTable db_tasks
  (fun x d => MkDb (db_events d) (db_receipts d) x (db_runs d) (db_approvals d) (db_nodes d)
                (db_dispatches d) (db_settings d) (db_workers d) (db_wakes d)).
Definition runs_t : Table Db RunRow := MkTable db_runs
  (fun x d => MkDb (db_events d) (db_receipts d) (db_tasks d) x (db_approvals d) (db_nodes d)
                (db_dispatches d) (db_settings d) (db_workers d) (db_wakes d)).
Definition approvals_t : Table Db ApprovalRow := MkTable db_approvals
  (fun x d => MkDb (db_events d) (db_receipts d) (db_tasks d) (db_runs d) x (db_nodes d)
                (db_dispatches d) (db_settings d) (db_workers d) (db_wakes d)).
Definition nodes_t : Table Db NodeRow := MkTable db_nodes
  (fun x d => MkDb (db_events d) (db_receipts d) (db_tasks d) (db_runs d) (db_approvals d) x
                (db_dispatches d) (db_settings d) (db_workers d) (db_wakes d)).
Definition dispatches_t : Table Db DispatchRow := MkTable db_dispatches
  (fun x d => MkDb (db_events d) (db_receipts d) (db_tasks d) (db_runs d) (db_approvals d)
                (db_nodes d) x (db_settings d) (db_workers d) (db_wakes d)).
Definition settings_t : Table Db SettingRow := MkTable db_settings
  (fun x d => MkDb (db_events d) (db_receipts d) (db_tasks d) (db_runs d) (db_approvals d)
                (db_nodes d) (db_dispatches d) x (db_workers d) (db_wakes d)).
Definition workers_t : Table Db WorkerRow := MkTable db_workers
  (fun x d => MkDb (db_events d) (db_receipts d) (db_tasks d) (db_runs d) (db_approvals d)
                (db_nodes d) (db_dispatches d) (db_settings d) x (db_wakes d)).
Definition wakes_t : Table Db WakeRow := MkTable db_wakes
  (fun x d => MkDb (db_events d) (db_receipts d) (db_tasks d) (db_runs d) (db_approvals d)
                (db_nodes d) (db_dispatches d) (db_settings d) (db_workers d) x).

(** *** Row mappers *)
Section Mappers.
Context {P : Platform}.

(** [req_id] / [opt_id]: the id parser's message becomes a conversion error. *)
Definition req_id {k} (s : string) : Result (Id k) :=
  match id_from_str s with
  | Ok i => Ok i
  | Err e => bad_row (err_msg e)
  end.
Definition opt_id {k} (v : option string) : Result (option (Id k)) :=
  match v with
  | Some s => Some <$> req_id s
  | None => Ok None
  end.

(** [..from_db(..).map_err(conv_err)] *)
Definition token {A} (r : Result A) : Result A :=
  match r with Ok a => Ok a | Err e => bad_row (err_msg e) end.

(** [expires_at.map(|s| parse_time(&s)).transpose()] *)
Definition opt_time (v : option string) : Result (option Time) :=
  match v with
  | Some s => Some <$> parse_time s
  | None => Ok None
  end.

(** [serde_json::from_str(..).map_err(conv_err)] *)
Definition row_json (what s : string) : Result Value :=
  match json_from_str s with
  | Some v => Ok v
  | None => bad_row (what +:+ ": " +:+ json_error s)
  end.

Definition row_to_event (row : EventRow) : Result Event :=
  kind ← match from_dotted (er_kind row) with
         | Some k => Ok k
         | None => bad_row ("unknown event kind: " +:+ er_kind row)
         end;
  payload ← row_json "bad payload" (er_payload row);
  event_id ← req_id (er_event_id row);
  command_id ← opt_id (er_command_id row);
  task_id ← req_id (er_task_id row);
  run_id ← opt_id (er_run_id row);
  occurred_at ← parse_time (er_occurred_at row);
  hub_received_at ← parse_time (er_hub_received_at row);
  Ok {| e_sequence := er_sequence row; e_event_id := event_id; e_command_id := command_id;
        e_kind := kind; e_task_id := task_id; e_run_id := run_id;
        e_provider_session_id := er_provider_session_id row;
        e_node_id := MkNodeId (er_node_id row);
        e_protocol_version := er_protocol_version row; e_occurred_at := occurred_at;
        e_hub_received_at := hub_received_at; e_payload := payload |}.

Definition row_to_task (row : TaskRow) : Result Task :=
  id ← req_id (tr_task_id row);
  status ← token (TaskStatus.from_db (tr_status row));
  created_at ← parse_time (tr_created_at row);
  Ok (MkTask id (tr_title row) status created_at).

Definition row_to_run (row : RunRow) : Result Run :=
  id ← req_id (ur_run_id row);
  task_id ← req_id (ur_task_id row);
  access_policy ← token (AccessPolicy.from_db (ur_access_policy row));
  status ← token (RunStatus.from_db (ur_status row));
  started_at ← parse_time (ur_started_at row);
  Ok (MkRun id task_id (MkNodeId (ur_node_id row)) (ur_engine row) (ur_model row)
        (ur_reasoning_effort row) (ur_system_prompt row) access_policy (ur_workspace_path row)
        status started_at).

(** [serde_json::from_str::<Vec<String>>] *)
Definition strings_from_value (v : Value) : option (list string) :=
  l ← value_as_array v; mapM value_as_str l.
Definition strings_to_value (l : list string) : Value := value_array (map value_str l).

Definition row_to_approval (row : ApprovalRow) : Result Approval :=
  options ← match json_from_str (ar_options row) ≫= strings_from_value with
            | Some l => Ok l
            | None => bad_row ("bad options: " +:+ json_error (ar_options row))
            end;
  id ← req_id (ar_approval_id row);
  run_id ← req_id (ar_run_id row);
  task_id ← req_id (ar_task_id row);
  expires_at ← opt_time (ar_expires_at row);
  decision ← token (Decision.from_db (ar_decision row));
  created_at ← parse_time (ar_created_at row);
  resolved_at ← opt_time (ar_resolved_at row);
  Ok (MkApproval id run_id task_id (ar_tool_call_id row) (ar_scope row) options expires_at
        decision (ar_resolved_by row) created_at resolved_at).

Definition row_to_node (row : NodeRow) : Result Node :=
  capabilities ← row_json "bad capabilities" (nr_capabilities row);
  status ← token (ConnectionStatus.from_db (nr_status row));
  Ok (MkNode (MkNodeId (nr_node_id row)) (nr_label row) status (nr_software_version row)
        capabilities (nr_last_seen_sequence row)).
End Mappers.
