(* ===== verification/Store.v ===== *)
(** The durable store's operations: every method of [Hub] in
    crates/stackhour-domain/src/store.rs, statement by statement, over the
    tables of Schema.v. A method's clock readings and fresh ids are arguments,
    in the order it draws them. *)
From S2P Require Import Prelude.
From S2P Require Import RustStr.
From S2P Require Import Platform.
From S2P Require Import Ids.
From S2P Require Import Entities.
From S2P Require Import Event.
From S2P Require Import Protocol.
From S2P Require Import Wire.
From S2P Require Import Schema.
From stdpp Require Import sorting.

Local Open Scope Z_scope.

(** [i64::MAX] *)
Definition i64_max : Z := 2 ^ 63 - 1.

Section Store.
Context {P : Platform}.

Record AppendOutcome := MkOutcome { o_sequence : Z; o_event_id : EventId; o_created : bool }.

Inductive EntityWrite :=
| EW_None
| EW_Task (task : Task)
| EW_Run (run : Run).

Record PendingDispatch := MkPendingDispatch {
  pd_command_id : CommandId; pd_node_id : NodeId; pd_message : HubToNode; pd_created_at : Time;
}.

Record AssistantWake := MkAssistantWake {
  aw_event_id : EventId; aw_sequence : Z; aw_channel : string; aw_task_id : TaskId;
  aw_run_id : RunId; aw_kind : EventKind; aw_attempt_count : Z;
}.

(** *** The event log *)

(** SELECT COALESCE(MAX(sequence), 0) FROM events *)
Definition max_sequence (d : Db) : Z :=
  match map er_sequence (db_events d) with
  | [] => 0
  | s :: l => foldr Z.max s l
  end.

(** [next_sequence]: past [i64::MAX] SQLite yields a REAL, which is not an [i64]. *)
Definition next_sequence : M Db Z :=
  m ← gets max_sequence;
  if m + 1 <=? i64_max then mret (m + 1) else fail (sql_err InvalidColumnType).

(** A row of [events], rendered. *)
Definition event_row (sequence : Z) (event_id : EventId) (command_id : option CommandId)
    (draft : EventDraft) (received_at : Time) : EventRow :=
  {| er_sequence := sequence;
     er_event_id := id_to_string event_id;
     er_command_id := id_to_string <$> command_id;
     er_kind := kind_as_str (d_kind draft);
     er_task_id := id_to_string (d_task_id draft);
     er_run_id := id_to_string <$> d_run_id draft;
     er_provider_session_id := d_provider_session_id draft;
     er_node_id := node_as_str (d_node_id draft);
     er_protocol_version := d_protocol_version draft;
     er_occurred_at := fmt_time (d_occurred_at draft);
     er_hub_received_at := fmt_time received_at;
     er_payload := json_to_string (d_payload draft) |}.

(** [events] is stored in the order of its INTEGER PRIMARY KEY. *)
Fixpoint insert_by_sequence (r : EventRow) (rows : list EventRow) : list EventRow :=
  match rows with
  | [] => [r]
  | r' :: rows' =>
      if er_sequence r' <? er_sequence r then r' :: insert_by_sequence r rows' else r :: rows
  end.

(** [insert_event]: PRIMARY KEY on sequence, UNIQUE on event_id. *)
Definition insert_event (sequence : Z) (event_id : EventId) (command_id : option CommandId)
    (draft : EventDraft) (received_at : Time) : M Db unit := fun d =>
  let row := event_row sequence event_id command_id draft received_at in
  if existsb (fun r => er_sequence r =? er_sequence row) (db_events d)
  then (Err (sql_err (UniqueViolation "events.sequence")), d)
  else if existsb (fun r => String.eqb (er_event_id r) (er_event_id row)) (db_events d)
  then (Err (sql_err (UniqueViolation "events.event_id")), d)
  else (Ok tt, tbl_set events_t (insert_by_sequence row (db_events d)) d).

(** *** Entities *)

(** [insert_task_row] *)
Definition task_row (task : Task) : TaskRow :=
  MkTaskRow (id_to_string (t_id task)) (t_title task) (TaskStatus.as_str (t_status task))
    (fmt_time (t_created_at task)).
Definition insert_task_row (task : Task) : M Db unit :=
  sql_insert tasks_t (has_key tr_task_id (id_to_string (t_id task))) "tasks.task_id" (task_row task).

(** [insert_run_row] *)
Definition run_row (run : Run) : RunRow :=
  MkRunRow (id_to_string (r_id run)) (id_to_string (r_task_id run)) (node_as_str (r_node_id run))
    (r_engine run) (r_model run) (r_reasoning_effort run) (r_system_prompt run)
    (AccessPolicy.as_str (r_access_policy run)) (r_workspace_path run)
    (RunStatus.as_str (r_status run)) (fmt_time (r_started_at run)).
Definition insert_run_row (run : Run) : M Db unit :=
  sql_insert runs_t (has_key ur_run_id (id_to_string (r_id run))) "runs.run_id" (run_row run).

Definition set_task_row_status (s : string) (r : TaskRow) : TaskRow :=
  MkTaskRow (tr_task_id r) (tr_title r) s (tr_created_at r).
Definition set_run_row_status (s : string) (r : RunRow) : RunRow :=
  MkRunRow (ur_run_id r) (ur_task_id r) (ur_node_id r) (ur_engine r) (ur_model r)
    (ur_reasoning_effort r) (ur_system_prompt r) (ur_access_policy r) (ur_workspace_path r)
    s (ur_started_at r).

(** UPDATE tasks SET status = ?1 WHERE task_id = ?2, and the same for runs. *)
Definition update_task_status (s : TaskStatus.t) (task_id : TaskId) : M Db nat :=
  sql_update tasks_t (has_key tr_task_id (id_to_string task_id))
    (set_task_row_status (TaskStatus.as_str s)).
Definition update_run_status (s : RunStatus.t) (run_id : RunId) : M Db nat :=
  sql_update runs_t (has_key ur_run_id (id_to_string run_id))
    (set_run_row_status (RunStatus.as_str s)).

(** *** Appending *)

(** The read both [append_command_bundle] and [command_outcome] make. *)
Definition find_receipt (command_id : CommandId) : M Db (option ReceiptRow) :=
  query_row receipts_t (has_key rr_command_id (id_to_string command_id)).

(** [match &entity { .. }] of [append_command_bundle] *)
Definition write_entity (entity : EntityWrite) : M Db unit :=
  match entity with
  | EW_None => mret tt
  | EW_Task task => insert_task_row task
  | EW_Run run =>
      insert_run_row run ≫= fun _ =>
      update_task_status TaskStatus.Running (r_task_id run) ≫= fun _ => mret tt
  end.

Definition dispatch_row (command_id : CommandId) (node_id : NodeId) (message : HubToNode)
    (received_at : Time) : DispatchRow :=
  MkDispatchRow (id_to_string command_id) (node_as_str node_id)
    (json_to_string (hub_to_node_to_value message)) (fmt_time received_at) None.

(** [if let Some((node_id, message)) = dispatch { .. }] *)
Definition write_dispatch (command_id : CommandId) (received_at : Time)
    (dispatch : option (NodeId * HubToNode)) : M Db unit :=
  match dispatch with
  | None => mret tt
  | Some (node_id, message) =>
      sql_insert dispatches_t (has_key dr_command_id (id_to_string command_id))
        "pending_dispatches.command_id" (dispatch_row command_id node_id message received_at)
  end.

(** [Hub::append_command_bundle] *)
Definition append_command_bundle (received_at : Time) (fresh : EventId) (command_id : CommandId)
    (draft : EventDraft) (entity : EntityWrite) (dispatch : option (NodeId * HubToNode))
    : M Db AppendOutcome :=
  transaction (
    existing ← find_receipt command_id;
    match existing with
    | Some r =>
        event_id ← lift (id_from_str (rr_event_id r));
        mret (MkOutcome (rr_sequence r) event_id false)
    | None =>
        sequence ← next_sequence;
        insert_event sequence fresh (Some command_id) draft received_at ≫= fun _ =>
        sql_insert receipts_t (has_key rr_command_id (id_to_string command_id))
          "command_receipts.command_id"
          (MkReceiptRow (id_to_string command_id) sequence (id_to_string fresh) (fmt_time received_at))
          ≫= fun _ =>
        write_entity entity ≫= fun _ =>
        write_dispatch command_id received_at dispatch ≫= fun _ =>
        mret (MkOutcome sequence fresh true)
    end).

(** [Hub::append_command_with] / [Hub::append_command] *)
Definition append_command_with (received_at : Time) (fresh : EventId) (command_id : CommandId)
    (draft : EventDraft) (entity : EntityWrite) : M Db AppendOutcome :=
  append_command_bundle received_at fresh command_id draft entity None.
Definition append_command (received_at : Time) (fresh : EventId) (command_id : CommandId)
    (draft : EventDraft) : M Db AppendOutcome :=
  append_command_with received_at fresh command_id draft EW_None.

(** [Hub::command_outcome] *)
Definition command_outcome (command_id : CommandId) : M Db (option AppendOutcome) :=
  existing ← find_receipt command_id;
  match existing with
  | None => mret None
  | Some r =>
      event_id ← lift (req_id (rr_event_id r));
      mret (Some (MkOutcome (rr_sequence r) event_id false))
  end.

(** What a terminal event does to the run and task, and whether it wakes the
    assistant. *)
Definition terminal_effect (k : EventKind) : option (RunStatus.t * TaskStatus.t * bool) :=
  match k with
  | RunCompleted => Some (RunStatus.Completed, TaskStatus.Completed, true)
  | RunFailed => Some (RunStatus.Failed, TaskStatus.Failed, true)
  | RunInterrupted => Some (RunStatus.Interrupted, TaskStatus.Interrupted, false)
  | _ => None
  end.

(** [apply_terminal_lifecycle_and_wake] *)
Definition apply_terminal_lifecycle_and_wake (event_id : EventId) (sequence : Z)
    (draft : EventDraft) (received_at : Time) : M Db unit :=
  match terminal_effect (d_kind draft), d_run_id draft with
  | None, _ => mret tt
  | Some _, None => mret tt
  | Some (run_status, task_status, wakes_assistant), Some run_id =>
      update_run_status run_status run_id ≫= fun _ =>
      update_task_status task_status (d_task_id draft) ≫= fun _ =>
      if negb wakes_assistant then mret tt
      else
        worker ← query_row workers_t (has_key wr_task_id (id_to_string (d_task_id draft)));
        match worker with
        | None => mret tt
        | Some w =>
            sql_insert wakes_t
              (fun r => String.eqb (kr_event_id r) (id_to_string event_id) || (kr_sequence r =? sequence))
              "assistant_wakes.event_id"
              (MkWakeRow (id_to_string event_id) sequence (wr_channel w)
                 (id_to_string (d_task_id draft)) (id_to_string run_id)
                 (kind_as_str (d_kind draft)) (fmt_time received_at) 0 (fmt_time received_at)
                 None None)
        end
  end.

(** [Hub::append_node_event] *)
Definition append_node_event (received_at : Time) (event_id : EventId) (draft : EventDraft)
    : M Db AppendOutcome :=
  transaction (
    existing ← query_row events_t (has_key er_event_id (id_to_string event_id));
    match existing with
    | Some r => mret (MkOutcome (er_sequence r) event_id false)
    | None =>
        sequence ← next_sequence;
        insert_event sequence event_id None draft received_at ≫= fun _ =>
        apply_terminal_lifecycle_and_wake event_id sequence draft received_at ≫= fun _ =>
        mret (MkOutcome sequence event_id true)
    end).

(** *** Dispatches *)

Definition row_to_dispatch (row : DispatchRow) : Result PendingDispatch :=
  command_id ← req_id (dr_command_id row);
  message ← match json_from_str (dr_message row) ≫= hub_to_node_from_value with
            | Some m => Ok m
            | None => bad_row ("bad pending dispatch: " +:+ json_error (dr_message row))
            end;
  created_at ← parse_time (dr_created_at row);
  Ok (MkPendingDispatch command_id (MkNodeId (dr_node_id row)) message created_at).

Definition is_none {A} (o : option A) : bool := match o with None => true | Some _ => false end.

(** [Hub::pending_dispatches] *)
Definition pending_dispatches (node_id : NodeId) : M Db (list PendingDispatch) :=
  rows ← sql_select dispatches_t
           (fun r => String.eqb (dr_node_id r) (node_as_str node_id) && is_none (dr_acked_at r));
  lift (collect row_to_dispatch rows).

Definition set_acked (now : Time) (r : DispatchRow) : DispatchRow :=
  MkDispatchRow (dr_command_id r) (dr_node_id r) (dr_message r) (dr_created_at r)
    (Some (fmt_time now)).

(** [Hub::acknowledge_dispatch] *)
Definition acknowledge_dispatch (now : Time) (command_id : CommandId) : M Db bool :=
  changed ← sql_update dispatches_t
    (fun r => has_key dr_command_id (id_to_string command_id) r && is_none (dr_acked_at r))
    (set_acked now);
  mret (Nat.eqb changed 1).

(** [Hub::acknowledge_dispatch_from] *)
Definition acknowledge_dispatch_from (now : Time) (command_id : CommandId) (node_id : NodeId)
    : M Db bool :=
  changed ← sql_update dispatches_t
    (fun r => has_key dr_command_id (id_to_string command_id) r
              && String.eqb (dr_node_id r) (node_as_str node_id) && is_none (dr_acked_at r))
    (set_acked now);
  mret (Nat.eqb changed 1).

(** *** Reading the log *)

(** [Hub::head_sequence] *)
Definition head_sequence : M Db Z := gets max_sequence.

(** [Hub::events_after] *)
Definition events_after (after : Z) : M Db (list Event) :=
  rows ← sql_select events_t (fun r => after <? er_sequence r);
  lift (collect row_to_event rows).

(** [ORDER BY sequence DESC LIMIT n], then [events.reverse()]. *)
Definition last_n (limit : nat) (rows : list EventRow) : list EventRow := take limit (reverse rows).

(** [Hub::recent_events] *)
Definition recent_events (limit : nat) : M Db (list Event) :=
  rows ← gets db_events;
  events ← lift (collect row_to_event (last_n limit rows));
  mret (reverse events).

(** [Hub::task_events_tail] *)
Definition task_events_tail (task_id : TaskId) (limit : nat) : M Db (list Event) :=
  rows ← sql_select events_t (has_key er_task_id (id_to_string task_id));
  events ← lift (collect row_to_event (last_n limit rows));
  mret (reverse events).

(** *** Tasks and runs *)

(** [Hub::insert_task], [Hub::insert_run] *)
Definition insert_task (task : Task) : M Db unit := insert_task_row task.
Definition insert_run (run : Run) : M Db unit := insert_run_row run.

(** [Hub::create_task] *)
Definition create_task (fresh : TaskId) (now : Time) (title : string) : M Db Task :=
  let task := MkTask fresh title TaskStatus.Open now in
  insert_task task ≫= fun _ => mret task.

(** [Hub::start_run] *)
Definition start_run (fresh : RunId) (now : Time) (task_id : TaskId) (node_id : NodeId)
    (engine : string) (access_policy : AccessPolicy.t) : M Db Run :=
  let run := MkRun fresh task_id node_id engine None None None access_policy None
               RunStatus.Started now in
  insert_run run ≫= fun _ => mret run.

(** [query_row(.., row_to_x).optional()] *)
Definition map_row {R A} (f : R -> Result A) (o : option R) : M Db (option A) :=
  match o with
  | None => mret None
  | Some r => a ← lift (f r); mret (Some a)
  end.

(** [Hub::get_task] *)
Definition get_task (id : TaskId) : M Db (option Task) :=
  row ← query_row tasks_t (has_key tr_task_id (id_to_string id));
  map_row row_to_task row.

(** [Hub::get_run] *)
Definition get_run (id : RunId) : M Db (option Run) :=
  row ← query_row runs_t (has_key ur_run_id (id_to_string id));
  map_row row_to_run row.

(** *** Settings *)

(** [Hub::get_setting] *)
Definition get_setting (key : string) : M Db (option Value) :=
  encoded ← query_row settings_t (has_key sr_key key);
  match encoded with
  | None => mret None
  | Some r =>
      match json_from_str (sr_value r) with
      | Some v => mret (Some v)
      | None => fail (Error_msg ("bad control setting " +:+ debug_str key +:+ ": "
                                 +:+ json_error (sr_value r)))
      end
  end.

(** [Hub::put_setting] *)
Definition put_setting (now : Time) (key : string) (value : Value) : M Db unit :=
  let row := MkSettingRow key (json_to_string value) (fmt_time now) in
  sql_upsert settings_t (has_key sr_key key) (fun _ => row) row.

(** *** Assistant workers and wakes *)

(** [Hub::register_assistant_worker] *)
Definition register_assistant_worker (now : Time) (channel : string) (task_id : TaskId) : M Db unit :=
  sql_upsert workers_t (has_key wr_task_id (id_to_string task_id))
    (fun r => MkWorkerRow (wr_task_id r) channel (wr_created_at r))
    (MkWorkerRow (id_to_string task_id) channel (fmt_time now)).

Definition row_to_wake (row : WakeRow) : Result AssistantWake :=
  kind ← match from_dotted (kr_kind row) with
         | Some k => Ok k
         | None => bad_row "bad assistant wake kind"
         end;
  event_id ← req_id (kr_event_id row);
  task_id ← req_id (kr_task_id row);
  run_id ← req_id (kr_run_id row);
  Ok (MkAssistantWake event_id (kr_sequence row) (kr_channel row) task_id run_id kind
        (kr_attempt_count row)).

(** ORDER BY sequence ASC *)
Definition wake_before (a b : WakeRow) : Prop := kr_sequence a <= kr_sequence b.
#[export] Instance wake_before_dec : RelDecision wake_before.
Proof. intros a b. unfold wake_before. apply _. Defined.

(** [Hub::pending_assistant_wakes] *)
Definition wake_due (channel : string) (now : Time) (r : WakeRow) : bool :=
  String.eqb (kr_channel r) channel && is_none (kr_processed_at r)
  && String.leb (kr_next_attempt_at r) (fmt_time now).
Definition pending_assistant_wakes (now : Time) (channel : string) : M Db (list AssistantWake) :=
  rows ← sql_select wakes_t (wake_due channel now);
  lift (collect row_to_wake (merge_sort wake_before rows)).

Definition set_wake_processed (now : Time) (r : WakeRow) : WakeRow :=
  MkWakeRow (kr_event_id r) (kr_sequence r) (kr_channel r) (kr_task_id r) (kr_run_id r)
    (kr_kind r) (kr_created_at r) (kr_attempt_count r) (kr_next_attempt_at r) (kr_last_error r)
    (Some (fmt_time now)).

Definition wake_open (event_id : EventId) (r : WakeRow) : bool :=
  has_key kr_event_id (id_to_string event_id) r && is_none (kr_processed_at r).

(** [Hub::complete_assistant_wake] *)
Definition complete_assistant_wake (now : Time) (event_id : EventId) : M Db bool :=
  changed ← sql_update wakes_t (wake_open event_id) (set_wake_processed now);
  mret (Nat.eqb changed 1).

Definition set_wake_retry (attempts : Z) (next_at last_error : string) (r : WakeRow) : WakeRow :=
  MkWakeRow (kr_event_id r) (kr_sequence r) (kr_channel r) (kr_task_id r) (kr_run_id r)
    (kr_kind r) (kr_created_at r) attempts next_at (Some last_error) (kr_processed_at r).

(** The delay before attempt [next_attempt]:
    [5_i64 * 2_i64.pow((next_attempt - 1).clamp(0, 8) as u32)]. *)
Definition wake_delay_seconds (next_attempt : Z) : Z :=
  5 * 2 ^ (Z.min 8 (Z.max 0 (next_attempt - 1))).

Definition nanos_per_second : Z := 1000000000.

(** [Hub::defer_assistant_wake] *)
Definition defer_assistant_wake (now : Time) (event_id : EventId) (error : string) : M Db bool :=
  attempts ← query_row wakes_t (wake_open event_id);
  match attempts with
  | None => mret false
  | Some r =>
      let next_attempt := kr_attempt_count r + 1 in
      let next_at := now + wake_delay_seconds next_attempt * nanos_per_second in
      sql_update wakes_t (wake_open event_id)
        (set_wake_retry next_attempt (fmt_time next_at) (take_chars 500 error)) ≫= fun _ =>
      mret true
  end.

(** *** Approvals *)

Definition approval_row (a : Approval) : ApprovalRow :=
  {| ar_approval_id := id_to_string (a_id a); ar_run_id := id_to_string (a_run_id a);
     ar_task_id := id_to_string (a_task_id a); ar_tool_call_id := a_tool_call_id a;
     ar_scope := a_scope a; ar_options := json_to_string (strings_to_value (a_options a));
     ar_expires_at := fmt_time <$> a_expires_at a; ar_decision := Decision.as_str (a_decision a);
     ar_resolved_by := None; ar_created_at := fmt_time (a_created_at a); ar_resolved_at := None |}.

(** [Hub::request_approval] *)
Definition request_approval (fresh : ApprovalId) (now : Time) (run_id : RunId) (task_id : TaskId)
    (tool_call_id scope : string) (options : list string) (expires_at : option Time) : M Db Approval :=
  let approval := MkApproval fresh run_id task_id tool_call_id scope options expires_at
                    Decision.Pending None now None in
  sql_insert approvals_t (has_key ar_approval_id (id_to_string fresh)) "approvals.approval_id"
    (approval_row approval) ≫= fun _ =>
  mret approval.

Definition set_resolved (decision : Decision.t) (actor : string) (now : Time) (r : ApprovalRow)
    : ApprovalRow :=
  {| ar_approval_id := ar_approval_id r; ar_run_id := ar_run_id r; ar_task_id := ar_task_id r;
     ar_tool_call_id := ar_tool_call_id r; ar_scope := ar_scope r; ar_options := ar_options r;
     ar_expires_at := ar_expires_at r; ar_decision := Decision.as_str decision;
     ar_resolved_by := Some actor; ar_created_at := ar_created_at r;
     ar_resolved_at := Some (fmt_time now) |}.

(** [Hub::get_approval] *)
Definition get_approval (id : ApprovalId) : M Db (option Approval) :=
  row ← query_row approvals_t (has_key ar_approval_id (id_to_string id));
  map_row row_to_approval row.

(** [Hub::resolve_approval] *)
Definition resolve_approval (approval_id : ApprovalId) (decision : Decision.t) (actor : string)
    (now : Time) : M Db Approval :=
  if bool_decide (decision = Decision.Pending)
  then fail (Error_msg "cannot resolve an approval to pending")
  else transaction (
    found ← get_approval approval_id;
    current ← lift (ok_or found (Error_msg ("unknown approval: " +:+ id_to_string approval_id)));
    if negb (is_pending current) then mret current
    else
      sql_update approvals_t (has_key ar_approval_id (id_to_string approval_id))
        (set_resolved decision actor now) ≫= fun _ =>
      mret (MkApproval (a_id current) (a_run_id current) (a_task_id current)
              (a_tool_call_id current) (a_scope current) (a_options current)
              (a_expires_at current) decision (Some actor) (a_created_at current) (Some now))).

(** *** Nodes *)

Definition node_row (node : Node) : NodeRow :=
  MkNodeRow (node_as_str (n_id node)) (n_label node) (ConnectionStatus.as_str (n_status node))
    (n_software_version node) (json_to_string (n_capabilities node)) (n_last_seen_sequence node).

(** [Hub::upsert_node] *)
Definition upsert_node (node : Node) : M Db unit :=
  sql_upsert nodes_t (has_key nr_node_id (node_as_str (n_id node)))
    (fun r => MkNodeRow (nr_node_id r) (n_label node) (ConnectionStatus.as_str (n_status node))
                (n_software_version node) (json_to_string (n_capabilities node))
                (n_last_seen_sequence node))
    (node_row node).

(** [Hub::get_node] *)
Definition get_node (id : NodeId) : M Db (option Node) :=
  row ← query_row nodes_t (has_key nr_node_id (node_as_str id));
  map_row row_to_node row.

(** ORDER BY node_id *)
Definition node_before (a b : NodeRow) : Prop := String.leb (nr_node_id a) (nr_node_id b) = true.
#[export] Instance node_before_dec : RelDecision node_before.
Proof. intros a b. unfold node_before. apply _. Defined.

(** [Hub::list_nodes] *)
Definition list_nodes : M Db (list Node) :=
  rows ← gets db_nodes;
  lift (collect row_to_node (merge_sort node_before rows)).
End Store.
