(* ===== verification/StoreInv.v ===== *)
(** What every operation of the store preserves: the gapless event log, the
    correspondence of receipts and command events, the keys of every table, and
    the wake receipts' backing events. *)
From S2P Require Import Prelude.
From S2P Require Import RustStr.
From S2P Require Import Platform.
From S2P Require Import Ids.
From S2P Require Import Entities.
From S2P Require Import Event.
From S2P Require Import Protocol.
From S2P Require Import Wire.
From S2P Require Import Schema.
From S2P Require Import Store.
From stdpp Require Import sorting.

Local Open Scope Z_scope.

(** Run a store method on an explicit state. *)
Ltac db_simpl :=
  cbn [db_events db_receipts db_tasks db_runs db_approvals db_nodes db_dispatches db_settings
       db_workers db_wakes fst snd].
Ltac run_m :=
  cbv beta iota zeta delta [mbind mret M_bind M_ret gets modify fail lift transaction result_bind
       result_ret tbl_get tbl_set events_t receipts_t tasks_t runs_t approvals_t nodes_t
       dispatches_t settings_t workers_t wakes_t];
  db_simpl.

(** ** The invariant *)
Section Invariant.
Context {P : Platform}.

(** The textual kinds of the events that leave a wake behind. *)
Definition waking_kind (k : string) : Prop :=
  k = kind_as_str RunCompleted \/ k = kind_as_str RunFailed.

(** A receipt names the event of the same command. *)
Definition receipt_matches (r : ReceiptRow) (e : EventRow) : Prop :=
  er_command_id e = Some (rr_command_id r) /\ er_sequence e = rr_sequence r /\
  er_event_id e = rr_event_id r.

Record db_wf (d : Db) : Prop := {
  wf_sequences : map er_sequence (db_events d) = seqZ 1 (zlen (db_events d));
  wf_event_ids : NoDup (map er_event_id (db_events d));
  wf_event_text e : e ∈ db_events d -> exists i : EventId, er_event_id e = id_to_string i;
  wf_receipt_ids : NoDup (map rr_command_id (db_receipts d));
  wf_receipt_text r : r ∈ db_receipts d -> exists c : CommandId, rr_command_id r = id_to_string c;
  wf_receipts r : r ∈ db_receipts d -> exists e, e ∈ db_events d /\ receipt_matches r e;
  wf_commands e c : e ∈ db_events d -> er_command_id e = Some c ->
    exists r, r ∈ db_receipts d /\ rr_command_id r = c /\ receipt_matches r e;
  wf_dispatch_ids : NoDup (map dr_command_id (db_dispatches d));
  wf_dispatches x : x ∈ db_dispatches d -> dr_command_id x ∈ map rr_command_id (db_receipts d);
  wf_task_ids : NoDup (map tr_task_id (db_tasks d));
  wf_run_ids : NoDup (map ur_run_id (db_runs d));
  wf_approval_ids : NoDup (map ar_approval_id (db_approvals d));
  wf_node_ids : NoDup (map nr_node_id (db_nodes d));
  wf_setting_keys : NoDup (map sr_key (db_settings d));
  wf_worker_ids : NoDup (map wr_task_id (db_workers d));
  wf_wake_ids : NoDup (map kr_event_id (db_wakes d));
  wf_wakes w : w ∈ db_wakes d -> exists e, e ∈ db_events d /\
    er_event_id e = kr_event_id w /\ er_sequence e = kr_sequence w /\
    er_kind e = kr_kind w /\ waking_kind (kr_kind w);
}.

Lemma empty_db_wf : db_wf empty_db.
Proof. split; simpl; try constructor; intros * ?%elem_of_nil; done. Qed.
End Invariant.

(** ** Generic facts the preservation proofs share *)
Section ListFacts.
Lemma NoDup_snoc {A} (l : list A) x : NoDup l -> x ∉ l -> NoDup (l ++ [x]).
Proof.
  intros Hl Hx. apply NoDup_app. split; [done|]. split; [|apply NoDup_singleton].
  intros y Hy ->%list_elem_of_singleton. done.
Qed.

Lemma elem_of_map {A B} (f : A -> B) (l : list A) y : y ∈ map f l <-> exists x, x ∈ l /\ f x = y.
Proof. rewrite list_elem_of_fmap. split; intros (x & ? & ?); eauto. Qed.

Lemma elem_of_snoc {A} (l : list A) x y : y ∈ l ++ [x] <-> y ∈ l \/ y = x.
Proof. rewrite elem_of_app list_elem_of_singleton. done. Qed.

Lemma upsert_keys {R} (key : R -> string) k (f : R -> R) (r : R) rows :
  (forall r', key r' = k -> key (f r') = k) -> key r = k ->
  NoDup (map key rows) ->
  NoDup (map key (if existsb (has_key key k) rows
                  then map (fun r' => if has_key key k r' then f r' else r') rows
                  else rows ++ [r])).
Proof.
  intros Hf Hr Hnd. rewrite existsb_key. case_bool_decide as Hin.
  - rewrite (_ : map key (map _ rows) = map key rows); [|done].
    clear Hnd Hin. induction rows as [|r' rows IH]; simpl; [done|]. rewrite IH. f_equal.
    destruct (has_key key k r') eqn:Hk; [|done]. apply String.eqb_eq in Hk.
    rewrite Hf; congruence.
  - rewrite map_app /= Hr. by apply NoDup_snoc.
Qed.
End ListFacts.

(** ** The log under the invariant *)
Section Log.
Context {P : Platform} {PL : PlatformLaws P}.

Lemma foldr_max_seqZ (n : nat) (m : Z) : (0 < n)%nat ->
  match seqZ m (Z.of_nat n) with [] => 0 | s :: l => foldr Z.max s l end = m + Z.of_nat n - 1.
Proof.
  destruct n as [|n]; [lia|]. intros _. rewrite seqZ_cons; [lia|].
  rewrite (_ : Z.pred (Z.of_nat (S n)) = Z.of_nat n); [lia|].
  assert (forall k s, s < k -> foldr Z.max s (seqZ k (Z.of_nat n)) =
            if decide (n = 0)%nat then s else k + Z.of_nat n - 1) as H.
  { clear. induction n as [|n IH]; intros k s Hk; [done|].
    rewrite seqZ_cons; [lia|]. cbn [foldr]. rewrite (_ : Z.pred (Z.of_nat (S n)) = Z.of_nat n); [lia|].
    rewrite IH; [lia|]. repeat case_decide; lia. }
  rewrite H; [lia|]. case_decide; lia.
Qed.

Lemma max_sequence_wf d : db_wf d -> max_sequence d = zlen (db_events d).
Proof.
  intros Hwf. unfold max_sequence. rewrite (wf_sequences d Hwf).
  destruct (db_events d) as [|e l]; [done|]. rewrite foldr_max_seqZ; simpl; lia.
Qed.

Lemma next_sequence_wf d : db_wf d ->
  next_sequence d =
    (if zlen (db_events d) + 1 <=? i64_max
     then Ok (zlen (db_events d) + 1) else Err (sql_err InvalidColumnType), d).
Proof.
  intros Hwf. unfold next_sequence. run_m. rewrite max_sequence_wf; [done|]. by destruct (Z.leb _ _).
Qed.

Lemma event_sequence_range d e : db_wf d -> e ∈ db_events d ->
  1 <= er_sequence e <= zlen (db_events d).
Proof.
  intros Hwf Hin. assert (er_sequence e ∈ map er_sequence (db_events d)) as H.
  { apply elem_of_map. eauto. }
  rewrite (wf_sequences d Hwf) in H. apply elem_of_seqZ in H. lia.
Qed.

Lemma insert_by_sequence_last rows r :
  (forall r', r' ∈ rows -> er_sequence r' < er_sequence r) -> insert_by_sequence r rows = rows ++ [r].
Proof.
  induction rows as [|r' rows IH]; intros H; simpl; [done|].
  rewrite (proj2 (Z.ltb_lt _ _)); [apply H; by left|]. f_equal. apply IH.
  intros r'' Hr''. apply H. by right.
Qed.

(** Inserting at the next sequence appends, unless the event id is taken. *)
Lemma insert_event_next d (event_id : EventId) cid draft now :
  db_wf d ->
  let n := zlen (db_events d) + 1 in
  insert_event n event_id cid draft now d =
    if decide (id_to_string event_id ∈ map er_event_id (db_events d))
    then (Err (sql_err (UniqueViolation "events.event_id")), d)
    else (Ok tt, tbl_set events_t (db_events d ++ [event_row n event_id cid draft now]) d).
Proof.
  intros Hwf n. unfold insert_event. cbn [er_sequence er_event_id event_row].
  assert (existsb (fun r => er_sequence r =? n) (db_events d) = false) as ->.
  { apply not_true_iff_false. rewrite List.existsb_exists. intros (r & Hr & Heq).
    apply list_elem_of_In in Hr. apply (event_sequence_range d _ Hwf) in Hr. lia. }
  change (fun r => String.eqb (er_event_id r) ?x) with (has_key er_event_id x).
  rewrite existsb_key. rewrite -decide_bool_decide. case_decide; [done|].
  rewrite insert_by_sequence_last; [|done].
  intros r' Hr'. apply (event_sequence_range d _ Hwf) in Hr'. simpl. lia.
Qed.

Lemma seqZ_snoc (n : nat) :
  seqZ 1 (Z.of_nat (n + 1)) = seqZ 1 (Z.of_nat n) ++ [Z.of_nat n + 1].
Proof. rewrite Nat2Z.inj_add seqZ_app; [lia|lia|]. f_equal. change (Z.of_nat 1) with 1.
  rewrite seqZ_cons; [lia|]. rewrite (_ : 1 + Z.of_nat n = Z.of_nat n + 1); [lia|]. done. Qed.

Lemma find_has_key_id {R} (key : R -> string) (rows : list R) {k} (i : Id k) :
  List.find (has_key key (id_to_string i)) rows = None <-> id_to_string i ∉ map key rows.
Proof. apply find_key_none. Qed.
End Log.

(** The two append paths of the store, branch by branch: the idempotent replay,
    the atomic commit of event, receipt, entity and dispatch, and the refusals
    that leave the database as it was. *)

Section Append.
Context {P : Platform} {PL : PlatformLaws P}.

(** *** The state a created command commits *)

Definition entity_fresh (e : EntityWrite) (d : Db) : Prop :=
  match e with
  | EW_None => True
  | EW_Task t => id_to_string (t_id t) ∉ map tr_task_id (db_tasks d)
  | EW_Run r => id_to_string (r_id r) ∉ map ur_run_id (db_runs d)
  end.
#[export] Instance entity_fresh_dec e d : Decision (entity_fresh e d).
Proof. destruct e; simpl; apply _. Defined.

Definition set_task_status (s : TaskStatus.t) (i : TaskId) (rows : list TaskRow) : list TaskRow :=
  map (fun r => if has_key tr_task_id (id_to_string i) r
                then set_task_row_status (TaskStatus.as_str s) r else r) rows.
Definition set_run_status (s : RunStatus.t) (i : RunId) (rows : list RunRow) : list RunRow :=
  map (fun r => if has_key ur_run_id (id_to_string i) r
                then set_run_row_status (RunStatus.as_str s) r else r) rows.

Definition apply_entity (e : EntityWrite) (d : Db) : Db :=
  match e with
  | EW_None => d
  | EW_Task t => tbl_set tasks_t (db_tasks d ++ [task_row t]) d
  | EW_Run r =>
      tbl_set tasks_t (set_task_status TaskStatus.Running (r_task_id r) (db_tasks d))
        (tbl_set runs_t (db_runs d ++ [run_row r]) d)
  end.

Definition apply_dispatch (cid : CommandId) (now : Time) (x : option (NodeId * HubToNode)) (d : Db) : Db :=
  match x with
  | None => d
  | Some (n, m) => tbl_set dispatches_t (db_dispatches d ++ [dispatch_row cid n m now]) d
  end.

Definition apply_event (now : Time) (event_id : EventId) (cid : option CommandId)
    (draft : EventDraft) (d : Db) : Db :=
  tbl_set events_t (db_events d ++ [event_row (zlen (db_events d) + 1) event_id cid draft now]) d.

Definition apply_receipt (now : Time) (cid : CommandId) (seq : Z) (event_id : EventId) (d : Db) : Db :=
  tbl_set receipts_t
    (db_receipts d ++ [MkReceiptRow (id_to_string cid) seq (id_to_string event_id) (fmt_time now)]) d.

Definition commit_command (now : Time) (fresh : EventId) (cid : CommandId) (draft : EventDraft)
    (entity : EntityWrite) (dispatch : option (NodeId * HubToNode)) (d : Db) : Db :=
  apply_dispatch cid now dispatch
    (apply_entity entity
      (apply_receipt now cid (zlen (db_events d) + 1) fresh
        (apply_event now fresh (Some cid) draft d))).

(** *** Pieces *)

Lemma write_entity_spec e d :
  if decide (entity_fresh e d) then (write_entity e d = (Ok tt, apply_entity e d))
  else exists err, fst (write_entity e d) = Err err.
Proof.
  destruct e as [|t|r]; simpl.
  - done.
  - unfold insert_task_row, sql_insert. run_m. rewrite existsb_key.
    case_decide as H; [by rewrite bool_decide_eq_false_2|].
    rewrite bool_decide_eq_true_2; [done|]. by eexists.
  - unfold insert_run_row, sql_insert, update_task_status, sql_update. run_m. rewrite existsb_key.
    case_decide as H; [by rewrite bool_decide_eq_false_2|].
    rewrite bool_decide_eq_true_2; [done|]. by eexists.
Qed.

Lemma write_dispatch_spec cid now x d :
  id_to_string cid ∉ map dr_command_id (db_dispatches d) ->
  write_dispatch cid now x d = (Ok tt, apply_dispatch cid now x d).
Proof.
  intros H. destruct x as [[n m]|]; [|done]. unfold write_dispatch, sql_insert. run_m.
  by rewrite existsb_key bool_decide_eq_false_2.
Qed.

Lemma find_receipt_eq cid d :
  find_receipt cid d = (Ok (List.find (has_key rr_command_id (id_to_string cid)) (db_receipts d)), d).
Proof. done. Qed.

Lemma no_receipt_no_dispatch d k : db_wf d ->
  k ∉ map rr_command_id (db_receipts d) -> k ∉ map dr_command_id (db_dispatches d).
Proof.
  intros Hwf Hk Hin. apply elem_of_map in Hin as (x & Hx & <-).
  by apply Hk, (wf_dispatches d Hwf).
Qed.

Lemma entity_dispatches e d : db_dispatches (apply_entity e d) = db_dispatches d.
Proof. by destruct e. Qed.

Lemma receipt_event_id d r : db_wf d -> r ∈ db_receipts d ->
  exists i : EventId, rr_event_id r = id_to_string i.
Proof.
  intros Hwf Hr. destruct (wf_receipts d Hwf r Hr) as (e & He & _ & _ & Hid).
  rewrite -Hid. by apply (wf_event_text d Hwf).
Qed.

(** *** [append_command_bundle], every branch *)

(** The command has a receipt: its stored outcome, and nothing written. *)
Lemma append_command_replay d now fresh cid draft entity dispatch r (i : EventId) :
  List.find (has_key rr_command_id (id_to_string cid)) (db_receipts d) = Some r ->
  rr_event_id r = id_to_string i ->
  append_command_bundle now fresh cid draft entity dispatch d =
    (Ok (MkOutcome (rr_sequence r) i false), d).
Proof.
  intros Hf Hi. unfold append_command_bundle. run_m. rewrite find_receipt_eq Hf.
  rewrite Hi id_from_to_string. done.
Qed.

(** The command has no receipt: everything commits together, or nothing does. *)
Definition admissible (fresh : EventId) (entity : EntityWrite) (d : Db) : Prop :=
  zlen (db_events d) + 1 <= i64_max /\
  (id_to_string fresh ∉ map er_event_id (db_events d)) /\ entity_fresh entity d.
#[export] Instance admissible_dec fresh entity d : Decision (admissible fresh entity d).
Proof. unfold admissible. apply _. Defined.

Lemma append_command_new d now fresh cid draft entity dispatch :
  db_wf d ->
  List.find (has_key rr_command_id (id_to_string cid)) (db_receipts d) = None ->
  if decide (admissible fresh entity d)
  then (append_command_bundle now fresh cid draft entity dispatch d =
         (Ok (MkOutcome (zlen (db_events d) + 1) fresh true),
          commit_command now fresh cid draft entity dispatch d))
  else exists err, append_command_bundle now fresh cid draft entity dispatch d = (Err err, d).
Proof.
  intros Hwf Hf. pose proof (proj1 (find_key_none _ _ _) Hf) as Hnin.
  unfold append_command_bundle, admissible. run_m. rewrite find_receipt_eq Hf next_sequence_wf; [done|].
  destruct (Z.leb_spec (zlen (db_events d) + 1) i64_max) as [Hle|Hgt]; cycle 1.
  { rewrite decide_False; [by intros []; lia|]. by eexists. }
  rewrite insert_event_next; [done|].
  destruct (decide (id_to_string fresh ∈ map er_event_id (db_events d))) as [Hin|Hnew].
  { rewrite decide_False; [by intros (_ & H & _)|]. by eexists. }
  unfold sql_insert. run_m. rewrite existsb_key bool_decide_eq_false_2; [done|].
  set (d1 := MkDb _ _ _ _ _ _ _ _ _ _).
  pose proof (write_entity_spec entity d1) as Hent.
  assert (entity_fresh entity d1 <-> entity_fresh entity d) as Hiff by by destruct entity.
  destruct (decide (entity_fresh entity d1)) as [He|He].
  - rewrite decide_True; [tauto|]. rewrite Hent.
    rewrite write_dispatch_spec; [rewrite entity_dispatches; by apply (no_receipt_no_dispatch d)|done].
  - rewrite decide_False; [tauto|]. destruct Hent as [err Herr].
    destruct (write_entity entity d1) as [[[]|e] d2]; [done|]. by eexists.
Qed.

(** *** [append_node_event], every branch *)

Lemma append_node_replay d now (event_id : EventId) draft r :
  List.find (has_key er_event_id (id_to_string event_id)) (db_events d) = Some r ->
  append_node_event now event_id draft d = (Ok (MkOutcome (er_sequence r) event_id false), d).
Proof. intros Hf. unfold append_node_event, query_row. run_m. by rewrite Hf. Qed.

(** What a fresh node event does besides entering the log. *)
Definition wake_row (event_id : EventId) (seq : Z) (draft : EventDraft) (run_id : RunId)
    (now : Time) (w : WorkerRow) : WakeRow :=
  MkWakeRow (id_to_string event_id) seq (wr_channel w) (id_to_string (d_task_id draft))
    (id_to_string run_id) (kind_as_str (d_kind draft)) (fmt_time now) 0 (fmt_time now) None None.

Definition apply_terminal (event_id : EventId) (seq : Z) (draft : EventDraft) (now : Time) (d : Db) : Db :=
  match terminal_effect (d_kind draft), d_run_id draft with
  | Some (rs, ts, wakes), Some run_id =>
      let d' := tbl_set tasks_t (set_task_status ts (d_task_id draft) (db_tasks d))
                  (tbl_set runs_t (set_run_status rs run_id (db_runs d)) d) in
      match List.find (has_key wr_task_id (id_to_string (d_task_id draft))) (db_workers d) with
      | Some w =>
          if wakes then tbl_set wakes_t (db_wakes d ++ [wake_row event_id seq draft run_id now w]) d'
          else d'
      | None => d'
      end
  | _, _ => d
  end.

Definition commit_node_event (now : Time) (event_id : EventId) (draft : EventDraft) (d : Db) : Db :=
  apply_terminal event_id (zlen (db_events d) + 1) draft now (apply_event now event_id None draft d).

Lemma wake_clash d (event_id : EventId) :
  db_wf d -> id_to_string event_id ∉ map er_event_id (db_events d) ->
  existsb (fun r => String.eqb (kr_event_id r) (id_to_string event_id)
                    || (kr_sequence r =? zlen (db_events d) + 1)) (db_wakes d) = false.
Proof.
  intros Hwf Hnew. apply not_true_iff_false. rewrite List.existsb_exists.
  intros (w & Hw%list_elem_of_In & Hc).
  destruct (wf_wakes d Hwf w Hw) as (e & He & Hid & Hseq & _).
  pose proof (event_sequence_range d e Hwf He).
  apply orb_true_iff in Hc as [Hc%String.eqb_eq|Hc]; [|lia].
  apply Hnew, elem_of_map. exists e. by rewrite Hid Hc.
Qed.

Lemma apply_terminal_spec d now (event_id : EventId) seq draft :
  existsb (fun r => String.eqb (kr_event_id r) (id_to_string event_id)
                    || (kr_sequence r =? seq)) (db_wakes d) = false ->
  apply_terminal_lifecycle_and_wake event_id seq draft now d =
    (Ok tt, apply_terminal event_id seq draft now d).
Proof.
  intros Hc. unfold apply_terminal_lifecycle_and_wake, apply_terminal.
  destruct (terminal_effect (d_kind draft)) as [[[rs ts] wakes]|]; [|done].
  destruct (d_run_id draft) as [run_id|]; [|done].
  unfold update_run_status, update_task_status, sql_update, query_row, sql_insert. run_m.
  destruct wakes; cbn [negb]; cycle 1; [by destruct (List.find _ (db_workers d))|].
  db_simpl. destruct (List.find _ (db_workers d)) as [w|]; run_m; [|done]. by rewrite Hc.
Qed.

Lemma append_node_new d now (event_id : EventId) draft :
  db_wf d ->
  List.find (has_key er_event_id (id_to_string event_id)) (db_events d) = None ->
  append_node_event now event_id draft d =
    if decide (zlen (db_events d) + 1 <= i64_max)
    then (Ok (MkOutcome (zlen (db_events d) + 1) event_id true),
          commit_node_event now event_id draft d)
    else (Err (sql_err InvalidColumnType), d).
Proof.
  intros Hwf Hf. pose proof (proj1 (find_key_none _ _ _) Hf) as Hnew.
  unfold append_node_event, query_row. run_m. rewrite Hf next_sequence_wf; [done|].
  destruct (Z.leb_spec (zlen (db_events d) + 1) i64_max) as [Hle|Hgt].
  - rewrite insert_event_next; [done|]. rewrite decide_False; [done|].
    rewrite apply_terminal_spec; [by apply (wake_clash d)|].
    rewrite decide_True; [lia|]. done.
  - rewrite decide_False; [lia|]. done.
Qed.
End Append.
