(* ===== verification/StoreStep.v ===== *)
(** The store as a transition system: every method of [Hub] that writes is a
    step, every step preserves the invariant of StoreInv.v, and the event log
    and the receipts only ever grow. *)
From S2P Require Import Prelude.
From S2P Require Import RustStr.
From S2P Require Import Platform.
From S2P Require Import Ids.
From S2P Require Import Entities.
From S2P Require Import Event.
From S2P Require Import Protocol.
From S2P Require Import Wire.
From S2P Require Import Schema.
From S2P Require Import Store.
From S2P Require Import StoreInv.
From stdpp Require Import sorting.

Local Open Scope Z_scope.

Section Preserve.
Context {P : Platform} {PL : PlatformLaws P}.
Implicit Types d : Db.

(** *** Tables no other table refers to *)

Lemma set_tasks_wf d rows :
  db_wf d -> NoDup (map tr_task_id rows) -> db_wf (tbl_set tasks_t rows d).
Proof. intros [] ?. by constructor. Qed.
Lemma set_runs_wf d rows :
  db_wf d -> NoDup (map ur_run_id rows) -> db_wf (tbl_set runs_t rows d).
Proof. intros [] ?. by constructor. Qed.
Lemma set_approvals_wf d rows :
  db_wf d -> NoDup (map ar_approval_id rows) -> db_wf (tbl_set approvals_t rows d).
Proof. intros [] ?. by constructor. Qed.
Lemma set_nodes_wf d rows :
  db_wf d -> NoDup (map nr_node_id rows) -> db_wf (tbl_set nodes_t rows d).
Proof. intros [] ?. by constructor. Qed.
Lemma set_settings_wf d rows :
  db_wf d -> NoDup (map sr_key rows) -> db_wf (tbl_set settings_t rows d).
Proof. intros [] ?. by constructor. Qed.
Lemma set_workers_wf d rows :
  db_wf d -> NoDup (map wr_task_id rows) -> db_wf (tbl_set workers_t rows d).
Proof. intros [] ?. by constructor. Qed.

(** *** Tables that refer to the log or the receipts *)

Lemma set_dispatches_wf d rows :
  db_wf d -> NoDup (map dr_command_id rows) ->
  (forall x, x ∈ rows -> dr_command_id x ∈ map rr_command_id (db_receipts d)) ->
  db_wf (tbl_set dispatches_t rows d).
Proof. intros [] ??. by constructor. Qed.

Lemma set_wakes_wf d rows :
  db_wf d -> NoDup (map kr_event_id rows) ->
  (forall w, w ∈ rows -> exists w', w' ∈ db_wakes d /\ kr_event_id w = kr_event_id w' /\
     kr_sequence w = kr_sequence w' /\ kr_kind w = kr_kind w') ->
  db_wf (tbl_set wakes_t rows d).
Proof.
  intros Hwf Hnd H. pose proof (wf_wakes d Hwf) as Hold. destruct Hwf. constructor; try done.
  intros w Hw. destruct (H w Hw) as (w' & Hw' & -> & -> & ->). by apply Hold.
Qed.

(** Updating rows in place leaves what the rows are keyed by. *)
Lemma update_dispatches_wf d (p : DispatchRow -> bool) f :
  (forall r, dr_command_id (f r) = dr_command_id r) -> db_wf d ->
  db_wf (tbl_set dispatches_t (map (fun r => if p r then f r else r) (db_dispatches d)) d).
Proof.
  intros Hf Hwf. apply set_dispatches_wf; [done|by rewrite map_update_keys ?wf_dispatch_ids; destruct Hwf|].
  intros x (r & Hr & <-)%elem_of_map. rewrite (_ : dr_command_id _ = dr_command_id r).
  - by destruct (p r).
  - by apply (wf_dispatches d Hwf).
Qed.

Lemma update_wakes_wf d (p : WakeRow -> bool) f :
  (forall r, kr_event_id (f r) = kr_event_id r /\ kr_sequence (f r) = kr_sequence r /\
             kr_kind (f r) = kr_kind r) -> db_wf d ->
  db_wf (tbl_set wakes_t (map (fun r => if p r then f r else r) (db_wakes d)) d).
Proof.
  intros Hf Hwf. apply set_wakes_wf; [done|rewrite map_update_keys; [by apply Hf|by destruct Hwf]|].
  intros w (r & Hr & <-)%elem_of_map. exists r. split; [done|]. by destruct (p r).
Qed.

Lemma set_task_status_keys s i rows : map tr_task_id (set_task_status s i rows) = map tr_task_id rows.
Proof. by apply map_update_keys. Qed.
Lemma set_run_status_keys s i rows : map ur_run_id (set_run_status s i rows) = map ur_run_id rows.
Proof. by apply map_update_keys. Qed.

(** *** The append commits *)

Lemma append_sequences d r :
  db_wf d -> er_sequence r = zlen (db_events d) + 1 ->
  map er_sequence (db_events d ++ [r]) = seqZ 1 (zlen (db_events d ++ [r])).
Proof.
  intros Hwf Hr. rewrite map_app (wf_sequences d Hwf) length_app seqZ_snoc /= Hr. done.
Qed.

(** A new event that is nobody's command leaves the receipts as they are. *)
Lemma apply_event_wf d now (i : EventId) draft :
  db_wf d -> id_to_string i ∉ map er_event_id (db_events d) -> db_wf (apply_event now i None draft d).
Proof.
  intros Hwf Hnew. pose proof (append_sequences d (event_row (zlen (db_events d) + 1) i None draft now)
    Hwf eq_refl) as Hseq. pose proof Hwf as []. unfold apply_event. constructor; db_simpl; try done.
  - rewrite map_app. by apply NoDup_snoc.
  - intros e [He| ->]%elem_of_snoc; [by eauto|]. by exists i.
  - intros r Hr. destruct (wf_receipts r Hr) as (e & He & ?). exists e.
    by rewrite elem_of_snoc; eauto.
  - intros e c [He| ->]%elem_of_snoc; [by eauto|done].
  - intros w Hw. destruct (wf_wakes w Hw) as (e & He & ?). exists e.
    by rewrite elem_of_snoc; eauto.
Qed.

(** A command's event and receipt go in together. *)
Lemma apply_event_receipt_wf d now (i : EventId) (c : CommandId) draft :
  db_wf d -> id_to_string i ∉ map er_event_id (db_events d) ->
  id_to_string c ∉ map rr_command_id (db_receipts d) ->
  db_wf (apply_receipt now c (zlen (db_events d) + 1) i (apply_event now i (Some c) draft d)).
Proof.
  intros Hwf Hnew Hc. pose proof (append_sequences d (event_row (zlen (db_events d) + 1) i (Some c)
    draft now) Hwf eq_refl) as Hseq.
  pose proof Hwf as []. unfold apply_receipt, apply_event. constructor; db_simpl; try done.
  - rewrite map_app. by apply NoDup_snoc.
  - intros e [He| ->]%elem_of_snoc; [by eauto|]. by exists i.
  - rewrite map_app. by apply NoDup_snoc.
  - intros r [Hr| ->]%elem_of_snoc; [by eauto|]. by exists c.
  - intros r [Hr| ->]%elem_of_snoc.
    + destruct (wf_receipts r Hr) as (e & He & ?). exists e. by rewrite elem_of_snoc; eauto.
    + eexists. rewrite elem_of_snoc. split; [by right|]. done.
  - intros e c' [He| ->]%elem_of_snoc Hec.
    + destruct (wf_commands e c' He Hec) as (r & Hr & ?). exists r. by rewrite elem_of_snoc; eauto.
    + eexists. rewrite elem_of_snoc. split; [by right|]. simpl in Hec. simplify_eq. done.
  - intros x Hx. rewrite map_app. apply elem_of_app. eauto.
  - intros w Hw. destruct (wf_wakes w Hw) as (e & He & ?). exists e.
    by rewrite elem_of_snoc; eauto.
Qed.

Lemma apply_entity_wf d e : db_wf d -> entity_fresh e d -> db_wf (apply_entity e d).
Proof.
  intros Hwf. destruct e as [|t|r]; simpl; [done| |]; intros Hfresh.
  - apply set_tasks_wf; [done|]. rewrite map_app. apply NoDup_snoc; [by destruct Hwf|done].
  - apply (set_tasks_wf (tbl_set runs_t _ d)).
    + apply set_runs_wf; [done|]. rewrite map_app. apply NoDup_snoc; [by destruct Hwf|done].
    + rewrite set_task_status_keys. by destruct Hwf.
Qed.

Lemma commit_command_wf d now fresh cid draft entity dispatch :
  db_wf d -> admissible fresh entity d -> id_to_string cid ∉ map rr_command_id (db_receipts d) ->
  db_wf (commit_command now fresh cid draft entity dispatch d).
Proof.
  intros Hwf (_ & Hnew & Hfresh) Hc. unfold commit_command.
  pose proof (no_receipt_no_dispatch d _ Hwf Hc) as Hd.
  pose proof (apply_event_receipt_wf d now fresh cid draft Hwf Hnew Hc) as H1.
  set (d1 := apply_receipt _ _ _ _ _) in *.
  assert (entity_fresh entity d1) as Hf1 by by destruct entity.
  pose proof (apply_entity_wf d1 entity H1 Hf1) as H2.
  destruct dispatch as [[n m]|]; [|done]. unfold apply_dispatch.
  apply set_dispatches_wf; [done| |].
  - rewrite map_app entity_dispatches. apply NoDup_snoc; [|done]. by destruct H1.
  - intros x [Hx| ->]%elem_of_snoc; [by apply (wf_dispatches _ H2)|].
    assert (db_receipts (apply_entity entity d1) = db_receipts d1) as -> by by destruct entity.
    simpl. rewrite map_app. apply elem_of_app. right. by apply list_elem_of_singleton.
Qed.

Lemma terminal_waking k rs ts : terminal_effect k = Some (rs, ts, true) -> waking_kind (kind_as_str k).
Proof. unfold waking_kind. destruct k; simpl; intros; simplify_eq; eauto. Qed.

Lemma commit_node_event_wf d now (i : EventId) draft :
  db_wf d -> id_to_string i ∉ map er_event_id (db_events d) ->
  db_wf (commit_node_event now i draft d).
Proof.
  intros Hwf Hnew. pose proof (apply_event_wf d now i draft Hwf Hnew) as H1.
  unfold commit_node_event, apply_terminal.
  destruct (terminal_effect (d_kind draft)) as [[[rs ts] wakes]|] eqn:Hk; [|done].
  destruct (d_run_id draft) as [run|]; [|done].
  set (d1 := apply_event _ _ _ _ _) in *.
  assert (db_wf (tbl_set tasks_t (set_task_status ts (d_task_id draft) (db_tasks d1))
                  (tbl_set runs_t (set_run_status rs run (db_runs d1)) d1))) as H2.
  { apply (set_tasks_wf (tbl_set runs_t _ d1)).
    - apply set_runs_wf; [done|]. rewrite set_run_status_keys. by destruct H1.
    - rewrite set_task_status_keys. by destruct H1. }
  destruct (List.find _ _) as [w|]; [|done]. destruct wakes; [|done].
  pose proof (terminal_waking _ _ _ Hk) as Hw.
  pose proof (wf_wakes d Hwf) as Hwakes.
  pose proof H2 as []. constructor; try done.
  - cbn. rewrite map_app. apply NoDup_snoc; [done|]. intros (w' & Hw' & Heq)%elem_of_map.
    destruct (Hwakes w' Hw') as (e & He & Hid & _). apply Hnew, elem_of_map.
    exists e. by rewrite Hid Heq.
  - cbn. intros w' [Hw'| ->]%elem_of_snoc; [by apply wf_wakes|].
    eexists. rewrite elem_of_snoc. split; [by right|]. done.
Qed.
End Preserve.

(** ** Growth: rows are only appended, or evolve in place *)
Section Grows.
Context {A : Type}.

Definition grows (R : relation A) (l l' : list A) : Prop :=
  exists pre tail, l' = pre ++ tail /\ Forall2 R l pre.

#[export] Instance grows_refl R : Reflexive R -> Reflexive (grows R).
Proof.
  intros HR l. exists l, []. split; [by rewrite app_nil_r|]. by induction l; constructor.
Qed.

#[export] Instance grows_trans R : Transitive R -> Transitive (grows R).
Proof.
  intros HR l1 l2 l3 (p1 & t1 & -> & H1) (p2 & t2 & -> & H2).
  apply Forall2_app_inv_l in H2 as (p & t & Hp & Ht & ->). exists p, (t ++ t2).
  split; [by rewrite app_assoc|]. by eapply (transitivity (R := Forall2 R)).
Qed.

Lemma grows_snoc R `{!Reflexive R} l x : grows R l (l ++ [x]).
Proof. exists l, [x]. split; [done|]. by induction l; constructor. Qed.

Lemma grows_map R (f : A -> A) l : (forall x, x ∈ l -> R x (f x)) -> grows R l (map f l).
Proof.
  intros Hf. exists (map f l), []. split; [by rewrite app_nil_r|].
  apply Forall2_fmap_r. apply Forall_Forall2_diag, Forall_forall. done.
Qed.

Lemma grows_update R `{!Reflexive R} (p : A -> bool) (f : A -> A) l :
  (forall x, x ∈ l -> p x = true -> R x (f x)) ->
  grows R l (map (fun x => if p x then f x else x) l).
Proof.
  intros Hf. apply grows_map. intros x Hx. destruct (p x) eqn:Hp; [by apply Hf|done].
Qed.

Lemma grows_elem R l l' x : grows R l l' -> x ∈ l -> exists x', x' ∈ l' /\ R x x'.
Proof.
  intros (p & t & -> & HF) (i & Hi)%list_elem_of_lookup.
  destruct (Forall2_lookup_l _ _ _ _ _ HF Hi) as (x' & Hx' & HR).
  exists x'. split; [|done]. apply elem_of_app. left. by eapply list_elem_of_lookup_2.
Qed.

Lemma grows_eq_prefix l l' : grows eq l l' <-> l `prefix_of` l'.
Proof.
  split.
  - intros (p & t & -> & ->%list_eq_Forall2). by exists t.
  - intros (t & ->). exists l, t. split; [done|]. by apply list_eq_Forall2.
Qed.

Lemma grows_weaken (R R' : relation A) l l' :
  (forall x y, R x y -> R' x y) -> grows R l l' -> grows R' l l'.
Proof. intros H (p & t & -> & HF). exists p, t. split; [done|]. by eapply Forall2_impl. Qed.
End Grows.

(** ** How a row may change after it was written *)

(** A dispatch: nothing changes but the acknowledgement, once. *)
Definition dispatch_evolves (x y : DispatchRow) : Prop :=
  dr_command_id y = dr_command_id x /\ dr_node_id y = dr_node_id x /\
  dr_message y = dr_message x /\ dr_created_at y = dr_created_at x /\
  (dr_acked_at x <> None -> dr_acked_at y = dr_acked_at x).

(** A task and a run: nothing changes but the status. *)
Definition task_evolves (x y : TaskRow) : Prop := set_task_row_status (tr_status y) x = y.
Definition run_evolves (x y : RunRow) : Prop := set_run_row_status (ur_status y) x = y.

(** An approval: once decided, never again. *)
Definition approval_evolves (x y : ApprovalRow) : Prop :=
  ar_approval_id y = ar_approval_id x /\ ar_run_id y = ar_run_id x /\
  ar_task_id y = ar_task_id x /\
  (ar_decision x <> Decision.as_str Decision.Pending -> y = x).

(** A wake: attempts only count up, and a processed wake is final. *)
Definition wake_evolves (x y : WakeRow) : Prop :=
  kr_event_id y = kr_event_id x /\ kr_sequence y = kr_sequence x /\
  kr_channel y = kr_channel x /\ kr_task_id y = kr_task_id x /\ kr_run_id y = kr_run_id x /\
  kr_kind y = kr_kind x /\ kr_attempt_count x <= kr_attempt_count y /\
  (kr_processed_at x <> None -> y = x).

#[export] Instance dispatch_evolves_preorder : PreOrder dispatch_evolves.
Proof.
  split; [by intros x|]. intros x y z (H1 & H2 & H3 & H4 & H5) (K1 & K2 & K3 & K4 & K5).
  split_and!; try congruence. intros H. rewrite K5; [rewrite H5; done|by apply H5].
Qed.
#[export] Instance task_evolves_preorder : PreOrder task_evolves.
Proof. split; [by intros []|]. intros [] [] []. unfold task_evolves. unfold set_task_row_status, set_run_row_status. cbn. congruence. Qed.
#[export] Instance run_evolves_preorder : PreOrder run_evolves.
Proof. split; [by intros []|]. intros [] [] []. unfold run_evolves. unfold set_task_row_status, set_run_row_status. cbn. congruence. Qed.
#[export] Instance approval_evolves_preorder : PreOrder approval_evolves.
Proof.
  split; [by intros x|]. intros x y z (H1 & H2 & H3 & H4) (K1 & K2 & K3 & K4).
  split_and!; try congruence. intros H. rewrite K4; [rewrite H4; done|by apply H4].
Qed.
#[export] Instance wake_evolves_preorder : PreOrder wake_evolves.
Proof.
  split; [intros x; unfold wake_evolves; split_and!; try done; lia|].
  intros x y z (H1 & H2 & H3 & H4 & H5 & H6 & H7 & H8) (K1 & K2 & K3 & K4 & K5 & K6 & K7 & K8).
  split_and!; try congruence; [lia|]. intros H. rewrite K8; [rewrite H8; done|by apply H8].
Qed.

(** ** The writes of the store *)
Section Steps.
Context {P : Platform} {PL : PlatformLaws P}.

(** One call of a writing method, with the clock readings and fresh ids it
    draws. [create_task] and [start_run] are [insert_task] and [insert_run]
    of a fresh entity. *)
Inductive StoreCall :=
| SC_append_command (now : Time) (fresh : EventId) (cid : CommandId) (draft : EventDraft)
    (entity : EntityWrite) (dispatch : option (NodeId * HubToNode))
| SC_append_node_event (now : Time) (event_id : EventId) (draft : EventDraft)
| SC_acknowledge (now : Time) (cid : CommandId)
| SC_acknowledge_from (now : Time) (cid : CommandId) (node : NodeId)
| SC_insert_task (task : Task)
| SC_insert_run (run : Run)
| SC_put_setting (now : Time) (key : string) (value : Value)
| SC_register_worker (now : Time) (channel : string) (task_id : TaskId)
| SC_complete_wake (now : Time) (event_id : EventId)
| SC_defer_wake (now : Time) (event_id : EventId) (error : string)
| SC_request_approval (fresh : ApprovalId) (now : Time) (run_id : RunId) (task_id : TaskId)
    (tool_call_id scope : string) (options : list string) (expires_at : option Time)
| SC_resolve_approval (approval_id : ApprovalId) (decision : Decision.t) (actor : string) (now : Time)
| SC_upsert_node (node : Node).

Definition store_call (c : StoreCall) (d : Db) : Db :=
  match c with
  | SC_append_command now fresh cid draft entity dispatch =>
      snd (append_command_bundle now fresh cid draft entity dispatch d)
  | SC_append_node_event now event_id draft => snd (append_node_event now event_id draft d)
  | SC_acknowledge now cid => snd (acknowledge_dispatch now cid d)
  | SC_acknowledge_from now cid node => snd (acknowledge_dispatch_from now cid node d)
  | SC_insert_task task => snd (insert_task task d)
  | SC_insert_run run => snd (insert_run run d)
  | SC_put_setting now key value => snd (put_setting now key value d)
  | SC_register_worker now channel task_id => snd (register_assistant_worker now channel task_id d)
  | SC_complete_wake now event_id => snd (complete_assistant_wake now event_id d)
  | SC_defer_wake now event_id error => snd (defer_assistant_wake now event_id error d)
  | SC_request_approval fresh now run_id task_id tool_call_id scope options expires_at =>
      snd (request_approval fresh now run_id task_id tool_call_id scope options expires_at d)
  | SC_resolve_approval approval_id decision actor now =>
      snd (resolve_approval approval_id decision actor now d)
  | SC_upsert_node node => snd (upsert_node node d)
  end.

Definition store_step (d d' : Db) : Prop := exists c, d' = store_call c d.
Definition store_steps : relation Db := rtc store_step.

(** The states a store reaches from the freshly migrated database. *)
Definition reachable (d : Db) : Prop := store_steps empty_db d.

(** What the tables of one state owe to those of a later one. *)
Record extends (d d' : Db) : Prop := {
  ext_events : grows eq (db_events d) (db_events d');
  ext_receipts : grows eq (db_receipts d) (db_receipts d');
  ext_tasks : grows task_evolves (db_tasks d) (db_tasks d');
  ext_runs : grows run_evolves (db_runs d) (db_runs d');
  ext_approvals : grows approval_evolves (db_approvals d) (db_approvals d');
  ext_dispatches : grows dispatch_evolves (db_dispatches d) (db_dispatches d');
  ext_wakes : grows wake_evolves (db_wakes d) (db_wakes d');
}.

#[export] Instance extends_preorder : PreOrder extends.
Proof.
  split.
  - intros d. by constructor.
  - intros d1 d2 d3 [] []. constructor; by etrans.
Qed.

(** *** One lemma per table touched *)

Lemma sql_insert_snd {R} (t : Table Db R) clash col r d :
  snd (sql_insert t clash col r d) = d \/
  (existsb clash (tbl_get t d) = false /\ snd (sql_insert t clash col r d) = tbl_set t (tbl_get t d ++ [r]) d).
Proof. unfold sql_insert. destruct (existsb _ _); [by left|by right]. Qed.

(** [let r = m?; Ok(f(r))] writes what [m] writes. *)
Lemma snd_bind_ret {S A B} (m : M S A) (f : A -> B) (s : S) :
  snd ((m ≫= fun a => mret (f a)) s) = snd (m s).
Proof. cbv [mbind M_bind mret M_ret]. by destruct (m s) as [[a|e] s']. Qed.

Lemma sql_upsert_snd {R} (t : Table Db R) clash f r d :
  snd (sql_upsert t clash f r d) =
    tbl_set t (if existsb clash (tbl_get t d)
               then map (fun r' => if clash r' then f r' else r') (tbl_get t d)
               else tbl_get t d ++ [r]) d.
Proof. unfold sql_upsert. by destruct (existsb _ _). Qed.

Lemma insert_task_step task d : db_wf d ->
  let d' := snd (insert_task task d) in db_wf d' /\ extends d d'.
Proof.
  intros Hwf. cbv zeta. unfold insert_task, insert_task_row.
  edestruct (sql_insert_snd tasks_t) as [-> |[Hnew ->]]; [done|].
  rewrite existsb_key in Hnew. apply bool_decide_eq_false in Hnew. split.
  - apply set_tasks_wf; [done|]. rewrite map_app. apply NoDup_snoc; [by destruct Hwf|done].
  - constructor; try done. apply grows_snoc, _.
Qed.

Lemma insert_run_step run d : db_wf d ->
  let d' := snd (insert_run run d) in db_wf d' /\ extends d d'.
Proof.
  intros Hwf. cbv zeta. unfold insert_run, insert_run_row.
  edestruct (sql_insert_snd runs_t) as [-> |[Hnew ->]]; [done|].
  rewrite existsb_key in Hnew. apply bool_decide_eq_false in Hnew. split.
  - apply set_runs_wf; [done|]. rewrite map_app. apply NoDup_snoc; [by destruct Hwf|done].
  - constructor; try done. apply grows_snoc, _.
Qed.

Lemma request_approval_step fresh now run_id task_id tool scope options exp d : db_wf d ->
  let d' := snd (request_approval fresh now run_id task_id tool scope options exp d) in
  db_wf d' /\ extends d d'.
Proof.
  intros Hwf. cbv zeta. unfold request_approval. rewrite snd_bind_ret.
  edestruct (sql_insert_snd approvals_t) as [-> |[Hnew ->]]; [done|].
  rewrite existsb_key in Hnew. apply bool_decide_eq_false in Hnew. split.
  - apply set_approvals_wf; [done|]. rewrite map_app. apply NoDup_snoc; [by destruct Hwf|done].
  - constructor; try done. apply grows_snoc, _.
Qed.

Lemma acknowledge_step_gen (p : DispatchRow -> bool) now d : db_wf d ->
  (forall r, p r = true -> is_none (dr_acked_at r) = true) ->
  let d' := snd (sql_update dispatches_t p (set_acked now) d) in db_wf d' /\ extends d d'.
Proof.
  intros Hwf Hp. cbv zeta. cbn [sql_update snd]. split; [by apply update_dispatches_wf|].
  constructor; try done. apply grows_update; [apply _|].
  intros x _ Hx%Hp. unfold dispatch_evolves. simpl. split_and!; try done.
  by destruct (dr_acked_at x).
Qed.

Lemma acknowledge_step now cid d : db_wf d ->
  let d' := snd (acknowledge_dispatch now cid d) in db_wf d' /\ extends d d'.
Proof.
  intros Hwf. cbv zeta. unfold acknowledge_dispatch. rewrite snd_bind_ret.
  apply acknowledge_step_gen; [done|]. intros r. by rewrite andb_true_iff => -[].
Qed.

Lemma acknowledge_from_step now cid node d : db_wf d ->
  let d' := snd (acknowledge_dispatch_from now cid node d) in db_wf d' /\ extends d d'.
Proof.
  intros Hwf. cbv zeta. unfold acknowledge_dispatch_from. rewrite snd_bind_ret.
  apply acknowledge_step_gen; [done|]. intros r. by rewrite !andb_true_iff => -[].
Qed.

Lemma put_setting_step now key value d : db_wf d ->
  let d' := snd (put_setting now key value d) in db_wf d' /\ extends d d'.
Proof.
  intros Hwf. cbv zeta. unfold put_setting. rewrite sql_upsert_snd. split.
  - apply set_settings_wf; [done|]. apply upsert_keys; [done|done|by destruct Hwf].
  - by constructor.
Qed.

Lemma register_worker_step now channel task_id d : db_wf d ->
  let d' := snd (register_assistant_worker now channel task_id d) in db_wf d' /\ extends d d'.
Proof.
  intros Hwf. cbv zeta. unfold register_assistant_worker. rewrite sql_upsert_snd. split.
  - apply set_workers_wf; [done|]. apply upsert_keys; [done|done|by destruct Hwf].
  - by constructor.
Qed.

Lemma upsert_node_step node d : db_wf d ->
  let d' := snd (upsert_node node d) in db_wf d' /\ extends d d'.
Proof.
  intros Hwf. cbv zeta. unfold upsert_node. rewrite sql_upsert_snd. split.
  - apply set_nodes_wf; [done|]. apply upsert_keys; [done|done|by destruct Hwf].
  - by constructor.
Qed.

Lemma complete_wake_step now event_id d : db_wf d ->
  let d' := snd (complete_assistant_wake now event_id d) in db_wf d' /\ extends d d'.
Proof.
  intros Hwf. cbv zeta. unfold complete_assistant_wake. rewrite snd_bind_ret. cbn [sql_update snd].
  split; [by apply update_wakes_wf|]. constructor; try done. apply grows_update; [apply _|].
  intros w _ [_ Hw]%andb_prop. unfold wake_evolves. simpl. split_and!; try done.
  by destruct (kr_processed_at w).
Qed.

Lemma defer_wake_step now event_id error d : db_wf d ->
  let d' := snd (defer_assistant_wake now event_id error d) in db_wf d' /\ extends d d'.
Proof.
  intros Hwf. cbv zeta. unfold defer_assistant_wake, query_row. run_m.
  destruct (List.find _ _) as [w0|] eqn:Hf; [|done]. cbn [sql_update snd].
  split; [by apply update_wakes_wf|]. constructor; try done. apply grows_update; [apply _|].
  intros w Hw Hopen. unfold wake_evolves. simpl. apply List.find_some in Hf as [Hin Hopen0].
  apply andb_prop in Hopen as [Hk Hp], Hopen0 as [Hk0 _].
  apply String.eqb_eq in Hk, Hk0.
  assert (w = w0) as <-.
  { pose proof (wf_wake_ids d Hwf) as Hnd. apply list_elem_of_In in Hin.
    pose proof (find_key_nodup kr_event_id _ _ w Hnd Hw Hk) as H1.
    pose proof (find_key_nodup kr_event_id _ _ w0 Hnd Hin Hk0) as H2. congruence. }
  split_and!; try done; [lia|]. by destruct (kr_processed_at w).
Qed.

(** *** Approvals *)

Definition resolved (decision : Decision.t) (actor : string) (now : Time) (a : Approval) : Approval :=
  MkApproval (a_id a) (a_run_id a) (a_task_id a) (a_tool_call_id a) (a_scope a) (a_options a)
    (a_expires_at a) decision (Some actor) (a_created_at a) (Some now).

(** [resolve_approval] on every branch. *)
Lemma resolve_approval_spec i decision actor now d :
  resolve_approval i decision actor now d =
    if decide (decision = Decision.Pending)
    then (Err (Error_msg "cannot resolve an approval to pending"), d)
    else match List.find (has_key ar_approval_id (id_to_string i)) (db_approvals d) with
         | None => (Err (Error_msg ("unknown approval: " +:+ id_to_string i)), d)
         | Some r =>
             match row_to_approval r with
             | Err e => (Err e, d)
             | Ok a =>
                 if is_pending a
                 then (Ok (resolved decision actor now a),
                       tbl_set approvals_t
                         (map (fun r' => if has_key ar_approval_id (id_to_string i) r'
                                         then set_resolved decision actor now r' else r')
                            (db_approvals d)) d)
                 else (Ok a, d)
             end
         end.
Proof.
  unfold resolve_approval. rewrite -decide_bool_decide. destruct (decide _) as [|_]; [done|].
  unfold get_approval, query_row, sql_update. run_m.
  destruct (List.find _ _) as [r|]; [|done]. unfold map_row. run_m.
  destruct (row_to_approval r) as [a|e]; run_m; [|done]. cbn [ok_or]. by destruct (is_pending a).
Qed.

Lemma decision_from_db_sound s x : Decision.from_db s = Ok x -> s = Decision.as_str x.
Proof.
  unfold Decision.from_db. repeat (case_match; simplify_eq/=).
  all: repeat match goal with H : String.eqb _ _ = true |- _ => apply String.eqb_eq in H end.
  all: by intros; simplify_eq.
Qed.

Lemma row_to_approval_decision r a :
  row_to_approval r = Ok a -> ar_decision r = Decision.as_str (a_decision a).
Proof.
  unfold row_to_approval, token, mbind, result_bind.
  repeat (case_match; simplify_eq/=); try done. intros. simplify_eq/=.
  by apply decision_from_db_sound.
Qed.

Lemma resolve_approval_step i decision actor now d : db_wf d ->
  let d' := snd (resolve_approval i decision actor now d) in db_wf d' /\ extends d d'.
Proof.
  intros Hwf. cbv zeta. rewrite resolve_approval_spec.
  destruct (decide _); [done|]. destruct (List.find _ _) as [r|] eqn:Hf; [|done].
  destruct (row_to_approval r) as [a|e] eqn:Hr; [|done].
  destruct (is_pending a) eqn:Hp; [|done]. cbn [snd]. split.
  - apply set_approvals_wf; [done|]. rewrite map_update_keys; [done|by destruct Hwf].
  - constructor; try done. apply grows_update; [apply _|].
    intros x Hx Hk%String.eqb_eq. unfold approval_evolves. simpl. split_and!; try done.
    intros Hnp. exfalso. apply Hnp. pose proof (wf_approval_ids d Hwf) as Hnd.
    pose proof (find_key_nodup ar_approval_id _ _ x Hnd Hx Hk) as H1.
    rewrite Hf in H1. simplify_eq. rewrite (row_to_approval_decision _ _ Hr).
    by apply bool_decide_eq_true in Hp as ->.
Qed.

(** *** The appends *)

Lemma extends_apply_event now i c draft d : extends d (apply_event now i c draft d).
Proof. constructor; try done. apply grows_snoc, _. Qed.

Lemma set_task_status_grows s i rows : grows task_evolves rows (set_task_status s i rows).
Proof. apply grows_update; [apply _|]. by intros []. Qed.
Lemma set_run_status_grows s i rows : grows run_evolves rows (set_run_status s i rows).
Proof. apply grows_update; [apply _|]. by intros []. Qed.

Lemma extends_entity e d : extends d (apply_entity e d).
Proof.
  destruct e as [|t|r]; simpl; [done| |].
  - constructor; try done. apply grows_snoc, _.
  - constructor; try done; [apply set_task_status_grows|apply grows_snoc, _].
Qed.

Lemma extends_commit_command now fresh cid draft entity dispatch d :
  extends d (commit_command now fresh cid draft entity dispatch d).
Proof.
  unfold commit_command. etrans; [apply (extends_apply_event now fresh (Some cid) draft)|].
  set (d1 := apply_event _ _ _ _ _). set (d2 := apply_receipt _ _ _ _ _).
  trans d2; [constructor; try done; apply grows_snoc, _|].
  trans (apply_entity entity d2); [apply extends_entity|].
  destruct dispatch as [[n m]|]; [|done]. constructor; try done. apply grows_snoc, _.
Qed.

Lemma extends_commit_node_event now i draft d : extends d (commit_node_event now i draft d).
Proof.
  unfold commit_node_event. etrans; [apply (extends_apply_event now i None draft)|].
  unfold apply_terminal. destruct (terminal_effect _) as [[[rs ts] wakes]|]; [|done].
  destruct (d_run_id draft); [|done].
  destruct (List.find _ _); [destruct wakes|];
    (constructor; try done; try apply set_task_status_grows; try apply set_run_status_grows).
  apply grows_snoc, _.
Qed.

Lemma append_command_step now fresh cid draft entity dispatch d : db_wf d ->
  let d' := snd (append_command_bundle now fresh cid draft entity dispatch d) in
  db_wf d' /\ extends d d'.
Proof.
  intros Hwf. cbv zeta.
  destruct (List.find (has_key rr_command_id (id_to_string cid)) (db_receipts d)) as [r|] eqn:Hf.
  - destruct (find_key_some _ _ _ _ Hf) as [_ Hr].
    destruct (receipt_event_id d r Hwf Hr) as [i Hi].
    by erewrite append_command_replay.
  - pose proof (append_command_new d now fresh cid draft entity dispatch Hwf Hf) as H.
    destruct (decide _) as [Hadm|]; [|by destruct H as [err ->]]. rewrite H. cbn [snd]. split.
    + apply commit_command_wf; [done|done|]. by apply find_key_none.
    + apply extends_commit_command.
Qed.

Lemma append_node_step now i draft d : db_wf d ->
  let d' := snd (append_node_event now i draft d) in db_wf d' /\ extends d d'.
Proof.
  intros Hwf. cbv zeta.
  destruct (List.find (has_key er_event_id (id_to_string i)) (db_events d)) as [r|] eqn:Hf.
  - by erewrite append_node_replay.
  - rewrite append_node_new; [done|done|]. destruct (decide _); [|done]. cbn [snd]. split.
    + apply commit_node_event_wf; [done|]. by apply find_key_none.
    + apply extends_commit_node_event.
Qed.

(** ** Every write preserves the invariant and only extends *)

Lemma store_call_step c d : db_wf d -> db_wf (store_call c d) /\ extends d (store_call c d).
Proof.
  destruct c; simpl; intros.
  - by apply append_command_step.
  - by apply append_node_step.
  - by apply acknowledge_step.
  - by apply acknowledge_from_step.
  - by apply insert_task_step.
  - by apply insert_run_step.
  - by apply put_setting_step.
  - by apply register_worker_step.
  - by apply complete_wake_step.
  - by apply defer_wake_step.
  - by apply request_approval_step.
  - by apply resolve_approval_step.
  - by apply upsert_node_step.
Qed.

Lemma store_steps_wf d d' : db_wf d -> store_steps d d' -> db_wf d' /\ extends d d'.
Proof.
  intros Hwf. induction 1 as [|d d1 d2 [c ->] _ IH]; [done|].
  destruct (store_call_step c d Hwf) as [H1 H2]. destruct (IH H1). split; [done|by etrans].
Qed.

Lemma reachable_wf d : reachable d -> db_wf d.
Proof. apply store_steps_wf, empty_db_wf. Qed.

Lemma store_step_call c d : store_steps d (store_call c d).
Proof. apply rtc_once. by exists c. Qed.
End Steps.
