(* ===== verification/StoreLog.v ===== *)
(** The abstract log the store promises, and the refinement: a list of typed
    events in sequence order, with the deduplication rules of the two append
    paths stated on that list alone. The text tables of Schema.v implement it. *)
From S2P Require Import Prelude.
From S2P Require Import RustStr.
From S2P Require Import Platform.
From S2P Require Import Ids.
From S2P Require Import Entities.
From S2P Require Import Event.
From S2P Require Import Protocol.
From S2P Require Import Wire.
From S2P Require Import Schema.
From S2P Require Import Store.
From S2P Require Import StoreInv.
From S2P Require Import StoreStep.
From stdpp Require Import sorting.

Local Open Scope Z_scope.

(** ** The specification *)
Section Spec.
Context {P : Platform}.
Implicit Types l : list Event.

(** A command enters the log once: a later copy answers with the first. *)
Definition spec_append_command (now : Time) (fresh : EventId) (cid : CommandId) (draft : EventDraft)
    l : AppendOutcome * list Event :=
  match List.find (fun e => bool_decide (e_command_id e = Some cid)) l with
  | Some e => (MkOutcome (e_sequence e) (e_event_id e) false, l)
  | None => (MkOutcome (zlen l + 1) fresh true, l ++ [stamp (zlen l + 1) fresh (Some cid) draft now])
  end.

(** A node event enters the log once per event id. *)
Definition spec_append_node_event (now : Time) (i : EventId) (draft : EventDraft) l
    : AppendOutcome * list Event :=
  match List.find (fun e => bool_decide (e_event_id e = i)) l with
  | Some e => (MkOutcome (e_sequence e) i false, l)
  | None => (MkOutcome (zlen l + 1) i true, l ++ [stamp (zlen l + 1) i None draft now])
  end.

Definition spec_events_after (after : Z) l : list Event := drop (Z.to_nat after) l.
Definition last_events {A} (n : nat) (l : list A) : list A := drop (length l - n) l.
End Spec.

Section Refinement.
Context {P : Platform} {PL : PlatformLaws P}.

(** *** Rows and events *)

(** The text row an event is stored as. *)
Definition render (e : Event) : EventRow :=
  {| er_sequence := e_sequence e; er_event_id := id_to_string (e_event_id e);
     er_command_id := id_to_string <$> e_command_id e; er_kind := kind_as_str (e_kind e);
     er_task_id := id_to_string (e_task_id e); er_run_id := id_to_string <$> e_run_id e;
     er_provider_session_id := e_provider_session_id e; er_node_id := node_as_str (e_node_id e);
     er_protocol_version := e_protocol_version e; er_occurred_at := fmt_time (e_occurred_at e);
     er_hub_received_at := fmt_time (e_hub_received_at e);
     er_payload := json_to_string (e_payload e) |}.

Lemma event_row_render seq i c draft now :
  event_row seq i c draft now = render (stamp seq i c draft now).
Proof. done. Qed.

Lemma req_id_text {k} (i : Id k) : req_id (id_to_string i) = Ok i.
Proof. unfold req_id. by rewrite id_from_to_string. Qed.

Lemma opt_id_text {k} (o : option (Id k)) : opt_id (id_to_string <$> o) = Ok o.
Proof. destruct o as [i|]; cbn; [|done]. by rewrite req_id_text. Qed.

Lemma parse_fmt_time t : time_ok t -> parse_time (fmt_time t) = Ok t.
Proof. intros H. unfold parse_time, fmt_time. by rewrite rfc3339_roundtrip. Qed.

Lemma row_json_text what v : row_json what (json_to_string v) = Ok v.
Proof. unfold row_json. by rewrite json_roundtrip. Qed.

Lemma row_to_event_render e : event_times_ok e -> row_to_event (render e) = Ok e.
Proof.
  intros [H1 H2]. destruct e as [sq ei ci k ti ri si [ni] vi oi hi pay]. unfold row_to_event, render.
  cbn [er_sequence er_event_id er_command_id er_kind er_task_id er_run_id er_provider_session_id
       er_node_id er_protocol_version er_occurred_at er_hub_received_at er_payload e_sequence
       e_event_id e_command_id e_kind e_task_id e_run_id e_provider_session_id e_node_id
       e_protocol_version e_occurred_at e_hub_received_at e_payload] in *.
  rewrite kind_roundtrip row_json_text /= !req_id_text !opt_id_text /=.
  rewrite !parse_fmt_time /=; [done|done|]. done.
Qed.

Lemma render_inj e1 e2 : event_times_ok e1 -> event_times_ok e2 -> render e1 = render e2 -> e1 = e2.
Proof.
  intros H1%row_to_event_render H2%row_to_event_render H. rewrite H H2 in H1. congruence.
Qed.

(** *** The abstraction relation *)

Definition represents (d : Db) (l : list Event) : Prop :=
  db_events d = render <$> l /\ Forall event_times_ok l.

Lemma represents_empty : represents empty_db [].
Proof. done. Qed.

Lemma represents_length d l : represents d l -> zlen (db_events d) = zlen l.
Proof. intros [-> _]. by rewrite length_fmap. Qed.

Lemma represents_unique d l l' : represents d l -> represents d l' -> l = l'.
Proof.
  intros [H1 Hl] [H2 Hl']. rewrite H1 in H2. clear H1. revert l' Hl' H2.
  induction Hl as [|e l He Hl IH]; intros [|e' l'] Hl' H2; try done.
  apply Forall_cons in Hl' as [He' Hl']. cbn in H2. injection H2. intros.
  f_equal; [|by apply IH]. apply render_inj; try done. unfold render. by f_equal.
Qed.

Lemma represents_sequences d l : db_wf d -> represents d l -> e_sequence <$> l = seqZ 1 (zlen l).
Proof.
  intros Hwf Hrep. rewrite -(represents_length d l Hrep) -(wf_sequences d Hwf).
  destruct Hrep as [-> _]. clear. induction l; csimpl; congruence.
Qed.

(** Reading any selection of rows gives back the events they were. *)
Lemma collect_render (l : list Event) :
  Forall event_times_ok l -> collect row_to_event (render <$> l) = Ok l.
Proof.
  intros H. rewrite collect_fmap (collect_ok _ id); [|by rewrite list_fmap_id].
  eapply Forall_impl; [exact H|]. intros e. apply row_to_event_render.
Qed.

Lemma filter_render (p : EventRow -> bool) l :
  List.filter p (render <$> l) = render <$> List.filter (fun e => p (render e)) l.
Proof. induction l as [|e l IH]; csimpl; [done|]. rewrite IH. by destruct (p (render e)). Qed.

Lemma Forall_list_filter {A} (Q : A -> Prop) (p : A -> bool) l : Forall Q l -> Forall Q (List.filter p l).
Proof. induction 1; simpl; [done|]. destruct (p _); by try constructor. Qed.

Lemma find_render (p : EventRow -> bool) l :
  List.find p (render <$> l) = render <$> List.find (fun e => p (render e)) l.
Proof. induction l as [|e l IH]; csimpl; [done|]. by destruct (p (render e)). Qed.

Lemma find_ext {A} (p q : A -> bool) l : (forall x, p x = q x) -> List.find p l = List.find q l.
Proof. intros H. induction l as [|x l IH]; simpl; [done|]. by rewrite H IH. Qed.

(** *** Reading *)

Lemma filter_after (l : list Event) (m a : Z) :
  e_sequence <$> l = seqZ m (zlen l) ->
  List.filter (fun e => a <? e_sequence e) l = drop (Z.to_nat (a - m + 1)) l.
Proof.
  revert m. induction l as [|e l IH]; intros m H; [by rewrite drop_nil|].
  cbn [fmap list_fmap length] in H. rewrite seqZ_cons in H; [lia|].
  rewrite (_ : Z.pred (Z.of_nat (S (length l))) = zlen l) in H; [lia|].
  injection H as Hm H. simpl. rewrite (IH _ H) Hm.
  destruct (Z.ltb_spec a m).
  - rewrite (_ : Z.to_nat (a - m + 1) = 0%nat); [lia|]. rewrite (_ : Z.to_nat _ = 0%nat); [lia|]. done.
  - rewrite (_ : Z.to_nat (a - m + 1) = S (Z.to_nat (a - Z.succ m + 1))); [lia|]. done.
Qed.

Lemma events_after_represents d l a : db_wf d -> represents d l ->
  events_after a d = (Ok (spec_events_after a l), d).
Proof.
  intros Hwf Hrep. unfold events_after, sql_select. run_m.
  pose proof Hrep as [Heq Hok]. rewrite Heq filter_render collect_render.
  { by apply Forall_list_filter. }
  rewrite (filter_after l 1); [by apply (represents_sequences d)|].
  unfold spec_events_after. by rewrite (_ : a - 1 + 1 = a); [lia|].
Qed.

Lemma head_sequence_represents d l : db_wf d -> represents d l ->
  head_sequence d = (Ok (zlen l), d).
Proof.
  intros Hwf Hrep. unfold head_sequence. run_m. rewrite max_sequence_wf; [done|].
  by rewrite (represents_length d l).
Qed.

Lemma reverse_last_n n (l : list Event) : reverse (take n (reverse l)) = last_events n l.
Proof. unfold last_events. by rewrite reverse_take reverse_involutive length_reverse. Qed.

Lemma last_n_render n l : last_n n (render <$> l) = render <$> take n (reverse l).
Proof. unfold last_n. by rewrite -fmap_reverse fmap_take. Qed.

Lemma recent_events_represents d l n : represents d l ->
  recent_events n d = (Ok (last_events n l), d).
Proof.
  intros [Heq Hok]. unfold recent_events. run_m. rewrite Heq last_n_render collect_render.
  { by apply Forall_take, Forall_reverse. }
  by rewrite reverse_last_n.
Qed.

Lemma task_events_tail_represents d l i n : represents d l ->
  task_events_tail i n d =
    (Ok (last_events n (List.filter (fun e => bool_decide (e_task_id e = i)) l)), d).
Proof.
  intros [Heq Hok]. unfold task_events_tail, sql_select. run_m.
  rewrite Heq filter_render last_n_render collect_render.
  { by apply Forall_take, Forall_reverse, Forall_list_filter. }
  rewrite reverse_last_n. rewrite (List.filter_ext _ (fun e => bool_decide (e_task_id e = i))); [|done].
  intros e. unfold has_key. cbn. apply id_eqb.
Qed.

(** *** Appending *)

Lemma represents_elem d l r : represents d l -> r ∈ db_events d -> exists e, e ∈ l /\ r = render e.
Proof. intros [-> _] (e & -> & He)%list_elem_of_fmap. eauto. Qed.

Lemma represents_in d l e : represents d l -> e ∈ l -> render e ∈ db_events d.
Proof. intros [-> _] ?. by apply list_elem_of_fmap_2. Qed.

(** The receipts table is the log, indexed by command. *)
Lemma find_receipt_log d l (c : CommandId) : db_wf d -> represents d l ->
  match List.find (fun e => bool_decide (e_command_id e = Some c)) l with
  | Some e => exists r, List.find (has_key rr_command_id (id_to_string c)) (db_receipts d) = Some r /\
      rr_sequence r = e_sequence e /\ rr_event_id r = id_to_string (e_event_id e)
  | None => List.find (has_key rr_command_id (id_to_string c)) (db_receipts d) = None
  end.
Proof.
  intros Hwf Hrep. destruct (List.find _ l) as [e|] eqn:Hf.
  - apply List.find_some in Hf as [He%list_elem_of_In Hc%bool_decide_eq_true].
    destruct (wf_commands d Hwf (render e) (id_to_string c)) as (r & Hr & Hk & _ & Hs & Hi).
    + by apply (represents_in d l).
    + cbn. by rewrite Hc.
    + exists r. split; [|done]. apply (find_key_nodup rr_command_id); [by destruct Hwf|done|done].
  - apply (find_key_none rr_command_id). intros (r & Hr & Hk)%elem_of_map.
    destruct (wf_receipts d Hwf r Hr) as (row & Hrow & Hc & _).
    destruct (represents_elem d l row Hrep Hrow) as (e & He & ->). cbn in Hc.
    rewrite Hk in Hc. apply fmap_Some in Hc as (c' & Hc' & <-%id_to_string_inj).
    eapply List.find_none in Hf; [|by apply list_elem_of_In].
    by apply bool_decide_eq_false in Hf.
Qed.

Lemma find_event_log d l (i : EventId) : db_wf d -> represents d l ->
  List.find (has_key er_event_id (id_to_string i)) (db_events d) =
    render <$> List.find (fun e => bool_decide (e_event_id e = i)) l.
Proof.
  intros Hwf [-> _]. rewrite find_render. f_equal. apply find_ext. intros e.
  unfold has_key. cbn. apply id_eqb.
Qed.

Lemma represents_snoc d l seq i c draft now :
  represents d l -> seq = zlen l + 1 -> time_ok now -> time_ok (d_occurred_at draft) ->
  db_events d ++ [event_row seq i c draft now] = render <$> (l ++ [stamp seq i c draft now]) /\
  Forall event_times_ok (l ++ [stamp seq i c draft now]).
Proof.
  intros [-> Hok] _ Hn Ho. rewrite fmap_app. split; [done|]. apply Forall_app. split; [done|].
  by apply Forall_singleton.
Qed.

Lemma commit_command_events now fresh cid draft entity dispatch d :
  db_events (commit_command now fresh cid draft entity dispatch d) =
    db_events d ++ [event_row (zlen (db_events d) + 1) fresh (Some cid) draft now].
Proof. unfold commit_command. by destruct dispatch as [[n m]|], entity. Qed.

Lemma commit_node_event_events now i draft d :
  db_events (commit_node_event now i draft d) =
    db_events d ++ [event_row (zlen (db_events d) + 1) i None draft now].
Proof.
  unfold commit_node_event, apply_terminal.
  destruct (terminal_effect _) as [[[rs ts] wakes]|]; [|done].
  destruct (d_run_id draft); [|done]. by destruct (List.find _ _); [destruct wakes|].
Qed.

(** Appending a command does what the specification says, or fails and
    writes nothing. *)
Lemma append_command_refines d l now fresh cid draft entity dispatch :
  db_wf d -> represents d l -> time_ok now -> time_ok (d_occurred_at draft) ->
  let '(o, l') := spec_append_command now fresh cid draft l in
  (exists d', append_command_bundle now fresh cid draft entity dispatch d = (Ok o, d') /\
     represents d' l' /\ (o_created o = false -> d' = d)) \/
  (o_created o = true /\ (~ admissible fresh entity d) /\
   exists err, append_command_bundle now fresh cid draft entity dispatch d = (Err err, d)).
Proof.
  intros Hwf Hrep Hn Ho. unfold spec_append_command.
  pose proof (find_receipt_log d l cid Hwf Hrep) as Hlog.
  destruct (List.find _ l) as [e|].
  - destruct Hlog as (r & Hr & Hs & Hi). left. exists d.
    rewrite (append_command_replay _ _ _ _ _ _ _ r (e_event_id e)); [done|done|].
    by rewrite Hs.
  - pose proof (append_command_new d now fresh cid draft entity dispatch Hwf Hlog) as H.
    destruct (decide _) as [Hadm|Hadm]; [left|by right].
    rewrite H (represents_length d l Hrep). eexists. split; [done|]. split; [|done].
    unfold represents. rewrite commit_command_events (represents_length d l Hrep).
    by apply represents_snoc.
Qed.

Lemma append_node_event_refines d l now i draft :
  db_wf d -> represents d l -> time_ok now -> time_ok (d_occurred_at draft) ->
  let '(o, l') := spec_append_node_event now i draft l in
  (exists d', append_node_event now i draft d = (Ok o, d') /\
     represents d' l' /\ (o_created o = false -> d' = d)) \/
  (o_created o = true /\ i64_max < zlen l + 1 /\
   append_node_event now i draft d = (Err (sql_err InvalidColumnType), d)).
Proof.
  intros Hwf Hrep Hn Ho. unfold spec_append_node_event.
  pose proof (find_event_log d l i Hwf Hrep) as Hlog.
  destruct (List.find _ l) as [e|].
  - left. exists d. by rewrite (append_node_replay _ _ _ _ (render e)).
  - rewrite append_node_new; [done|done|]. rewrite (represents_length d l Hrep).
    destruct (decide _) as [Hle|Hgt]; [left|right; split; [done|]; split; [lia|done]].
    eexists. split; [done|]. split; [|done].
    unfold represents. rewrite commit_node_event_events (represents_length d l Hrep).
    by apply represents_snoc.
Qed.

(** *** Growth of the log *)

Lemma extends_represents d d' l l' :
  extends d d' -> represents d l -> represents d' l' -> l `prefix_of` l'.
Proof.
  intros Hext Hrep Hrep'. pose proof (ext_events _ _ Hext) as Hg.
  apply grows_eq_prefix in Hg as [t Ht]. pose proof Hrep' as [Heq' Hok'].
  rewrite Ht in Heq'. symmetry in Heq'. apply fmap_app_inv in Heq' as (l1 & l2 & H1 & H2 & ->).
  exists l2. f_equal. apply (represents_unique d); [|done].
  apply Forall_app in Hok' as [Hok1 _]. done.
Qed.

(** A later read from an earlier head is exactly what was appended since. *)
Lemma events_since d d' l l' :
  db_wf d' -> extends d d' -> represents d l -> represents d' l' ->
  exists missed, l' = l ++ missed /\ events_after (zlen l) d' = (Ok missed, d').
Proof.
  intros Hwf' Hext Hrep Hrep'.
  destruct (extends_represents d d' l l' Hext Hrep Hrep') as [t ->].
  exists t. split; [done|]. rewrite (events_after_represents d' (l ++ t)); [done|done|].
  unfold spec_events_after. by rewrite Nat2Z.id drop_app_length.
Qed.

(** *** Replays, for ever *)

Lemma receipt_persists d d' c r :
  db_wf d' -> extends d d' ->
  List.find (has_key rr_command_id c) (db_receipts d) = Some r ->
  List.find (has_key rr_command_id c) (db_receipts d') = Some r.
Proof.
  intros Hwf' Hext Hf. apply find_key_some in Hf as [Hk Hr].
  destruct (grows_elem _ _ _ _ (ext_receipts _ _ Hext) Hr) as (r' & Hr' & <-).
  apply (find_key_nodup rr_command_id); [by destruct Hwf'|done|done].
Qed.

Lemma event_persists d d' i r :
  db_wf d' -> extends d d' ->
  List.find (has_key er_event_id i) (db_events d) = Some r ->
  List.find (has_key er_event_id i) (db_events d') = Some r.
Proof.
  intros Hwf' Hext Hf. apply find_key_some in Hf as [Hk Hr].
  destruct (grows_elem _ _ _ _ (ext_events _ _ Hext) Hr) as (r' & Hr' & <-).
  apply (find_key_nodup er_event_id); [by destruct Hwf'|done|done].
Qed.

(** An accepted command leaves the receipt its outcome was read from. *)
Lemma append_command_receipt d d' now fresh cid draft entity dispatch o :
  db_wf d -> append_command_bundle now fresh cid draft entity dispatch d = (Ok o, d') ->
  exists r, List.find (has_key rr_command_id (id_to_string cid)) (db_receipts d') = Some r /\
    rr_sequence r = o_sequence o /\ rr_event_id r = id_to_string (o_event_id o).
Proof.
  intros Hwf Happ.
  destruct (List.find (has_key rr_command_id (id_to_string cid)) (db_receipts d)) as [r|] eqn:Hf.
  - destruct (find_key_some _ _ _ _ Hf) as [_ Hr].
    destruct (receipt_event_id d r Hwf Hr) as [i Hi].
    rewrite (append_command_replay _ _ _ _ _ _ _ r i) in Happ; [done|done|].
    simplify_eq. eauto.
  - pose proof (append_command_new d now fresh cid draft entity dispatch Hwf Hf) as H.
    destruct (decide _) as [Hadm|]; [|by destruct H as [err H]; rewrite H in Happ].
    rewrite H in Happ. simplify_eq. eexists. split.
    { unfold commit_command.
      assert (forall x, db_receipts (apply_dispatch cid now dispatch (apply_entity entity x)) = db_receipts x)
        as -> by (intros x; by destruct dispatch as [[]|], entity).
      cbn. rewrite find_app_none; [done|]. cbn. unfold has_key. cbn. by rewrite String.eqb_refl. }
    done.
Qed.

Lemma command_replay_later d d1 d2 now fresh cid draft entity dispatch o now' fresh' draft' entity' dispatch' :
  db_wf d -> append_command_bundle now fresh cid draft entity dispatch d = (Ok o, d1) ->
  store_steps d1 d2 ->
  append_command_bundle now' fresh' cid draft' entity' dispatch' d2 =
    (Ok (MkOutcome (o_sequence o) (o_event_id o) false), d2).
Proof.
  intros Hwf Happ Hsteps.
  destruct (append_command_receipt _ _ _ _ _ _ _ _ _ Hwf Happ) as (r & Hf & Hs & Hi).
  destruct (append_command_step now fresh cid draft entity dispatch d Hwf) as [Hwf1 _].
  rewrite Happ in Hwf1. destruct (store_steps_wf _ _ Hwf1 Hsteps) as [Hwf2 Hext].
  rewrite (append_command_replay _ _ _ _ _ _ _ r (o_event_id o)); [|done|].
  - by apply (receipt_persists d1).
  - by rewrite Hs.
Qed.

Lemma node_event_replay_later d d1 d2 now i draft o now' draft' :
  db_wf d -> append_node_event now i draft d = (Ok o, d1) -> store_steps d1 d2 ->
  append_node_event now' i draft' d2 = (Ok (MkOutcome (o_sequence o) i false), d2).
Proof.
  intros Hwf Happ Hsteps.
  destruct (append_node_step now i draft d Hwf) as [Hwf1 _]. rewrite Happ in Hwf1.
  destruct (store_steps_wf _ _ Hwf1 Hsteps) as [Hwf2 Hext].
  assert (exists r, List.find (has_key er_event_id (id_to_string i)) (db_events d1) = Some r /\
    er_sequence r = o_sequence o) as (r & Hr & Hs).
  { destruct (List.find (has_key er_event_id (id_to_string i)) (db_events d)) as [r|] eqn:Hf.
    - erewrite append_node_replay in Happ; [|done]. simplify_eq. eauto.
    - rewrite append_node_new in Happ; [done|done|]. destruct (decide _); [|done]. simplify_eq.
      rewrite commit_node_event_events. eexists. rewrite find_app_none; [done|].
      cbn. unfold has_key. cbn. by rewrite String.eqb_refl. }
  rewrite (append_node_replay _ _ _ _ r); [by apply (event_persists d1)|]. by rewrite Hs.
Qed.
End Refinement.
