(* ===== verification/StoreTyped.v ===== *)
(** Type safety of the store: as long as the clock and the callers hand over
    representable instants, every stored row reads back, so no read of a
    reachable database fails; and what is read back is what was written. *)
From S2P Require Import Prelude.
From S2P Require Import RustStr.
From S2P Require Import Platform.
From S2P Require Import Ids.
From S2P Require Import Entities.
From S2P Require Import Event.
From S2P Require Import Protocol.
From S2P Require Import Wire.
From S2P Require Import Schema.
From S2P Require Import Store.
From S2P Require Import StoreInv.
From S2P Require Import StoreStep.
From S2P Require Import StoreLog.
From stdpp Require Import sorting.

Local Open Scope Z_scope.

Section Total.
Context {A B : Type}.

Definition parses (f : A -> Result B) (x : A) : Prop := exists y, f x = Ok y.

Lemma collect_total (f : A -> Result B) xs :
  Forall (parses f) xs -> exists ys, collect f xs = Ok ys /\ Forall2 (fun x y => f x = Ok y) xs ys.
Proof.
  induction 1 as [|x xs [y Hy] _ (ys & IH & HF)]; [by exists []|].
  exists (y :: ys). simpl. rewrite Hy. cbn. rewrite IH. split; [done|by constructor].
Qed.

Lemma collect_spec (f : A -> Result B) xs ys :
  collect f xs = Ok ys <-> Forall2 (fun x y => f x = Ok y) xs ys.
Proof.
  split.
  - revert ys. induction xs as [|x xs IH]; intros ys; simpl; [intros; simplify_eq; constructor|].
    destruct (f x) as [y|e] eqn:Hf; cbn; [|done].
    destruct (collect f xs) as [ys'|e]; cbn; [|done]. intros. simplify_eq. constructor; eauto.
  - induction 1 as [|x y xs ys Hf _ IH]; simpl; [done|]. rewrite Hf. cbn. by rewrite IH.
Qed.
End Total.

Section RoundTrip.
Context {P : Platform} {PL : PlatformLaws P}.

(** *** What is written reads back *)

Lemma row_to_task_row t : time_ok (t_created_at t) -> row_to_task (task_row t) = Ok t.
Proof.
  intros H. destruct t as [i title s c]. unfold row_to_task, task_row, token.
  cbn [tr_task_id tr_title tr_status tr_created_at t_id t_title t_status t_created_at] in *.
  by rewrite req_id_text TaskStatus_roundtrip /= parse_fmt_time.
Qed.

Lemma row_to_run_row r : time_ok (r_started_at r) -> row_to_run (run_row r) = Ok r.
Proof.
  intros H. destruct r as [i t [n] e m re sp ap w s st]. unfold row_to_run, run_row, token.
  cbn [ur_run_id ur_task_id ur_node_id ur_engine ur_model ur_reasoning_effort ur_system_prompt
       ur_access_policy ur_workspace_path ur_status ur_started_at r_id r_task_id r_node_id r_engine
       r_model r_reasoning_effort r_system_prompt r_access_policy r_workspace_path r_status
       r_started_at node_as_str] in *.
  by rewrite !req_id_text AccessPolicy_roundtrip RunStatus_roundtrip /= parse_fmt_time.
Qed.

Lemma row_to_node_row n : row_to_node (node_row n) = Ok n.
Proof.
  destruct n as [[i] l s v c q]. unfold row_to_node, node_row, token. cbn.
  by rewrite row_json_text ConnectionStatus_roundtrip.
Qed.

Lemma strings_roundtrip l : strings_from_value (strings_to_value l) = Some l.
Proof.
  unfold strings_from_value, strings_to_value. rewrite as_array_array. cbn.
  induction l as [|s l IH]; cbn; [done|]. rewrite as_str_str. cbn. by rewrite IH.
Qed.

Lemma opt_time_text o : (forall t, o = Some t -> time_ok t) -> opt_time (fmt_time <$> o) = Ok o.
Proof. destruct o as [t|]; intros H; cbn; [|done]. by rewrite parse_fmt_time; [apply H|]. Qed.

(** The approval a request stores. *)
Lemma row_to_approval_row a :
  a_decision a = Decision.Pending -> a_resolved_by a = None -> a_resolved_at a = None ->
  time_ok (a_created_at a) -> (forall t, a_expires_at a = Some t -> time_ok t) ->
  row_to_approval (approval_row a) = Ok a.
Proof.
  intros Hd Hb Ha Hc He. destruct a as [i r t tool sc o ex d rb c ra].
  cbn [a_decision a_resolved_by a_resolved_at a_created_at a_expires_at] in *. subst.
  unfold row_to_approval, approval_row, token.
  cbn [ar_options ar_approval_id ar_run_id ar_task_id ar_expires_at ar_decision ar_created_at
       ar_resolved_at ar_tool_call_id ar_scope ar_resolved_by a_id a_run_id a_task_id a_options
       a_expires_at a_decision a_created_at a_resolved_by a_resolved_at a_tool_call_id a_scope].
  rewrite json_roundtrip /= strings_roundtrip /= !req_id_text opt_time_text /=; [done|].
  by rewrite parse_fmt_time.
Qed.

(** Resolving the row resolves what it parses to. *)
Lemma row_to_approval_resolved r a dec actor now :
  time_ok now -> row_to_approval r = Ok a ->
  row_to_approval (set_resolved dec actor now r) = Ok (resolved dec actor now a).
Proof.
  intros Hn H. unfold row_to_approval in *. inv_bind H. simplify_eq. unfold set_resolved.
  cbn [ar_options ar_approval_id ar_run_id ar_task_id ar_expires_at ar_decision ar_created_at
       ar_resolved_at ar_tool_call_id ar_scope ar_resolved_by].
  rewrite Hv Hv0 Hv1 Hv2 Hv3 Hv5 /= Decision_roundtrip /= parse_fmt_time; done.
Qed.

Lemma row_to_dispatch_row c n m now :
  time_ok now -> hub_to_node_times_ok m ->
  row_to_dispatch (dispatch_row c n m now) = Ok (MkPendingDispatch c n m now).
Proof.
  intros Hn Hm. unfold row_to_dispatch, dispatch_row.
  cbn [dr_command_id dr_node_id dr_message dr_created_at].
  rewrite req_id_text json_roundtrip /= hub_to_node_roundtrip; [done|]. cbn.
  rewrite parse_fmt_time; [done|]. by destruct n.
Qed.

Lemma row_to_wake_row i seq draft run now w :
  row_to_wake (wake_row i seq draft run now w) =
    Ok (MkAssistantWake i seq (wr_channel w) (d_task_id draft) run (d_kind draft) 0).
Proof.
  unfold row_to_wake, wake_row.
  cbn [kr_kind kr_event_id kr_task_id kr_run_id kr_sequence kr_channel kr_attempt_count].
  by rewrite kind_roundtrip /= !req_id_text.
Qed.

(** *** The typed invariant *)

Record db_typed (d : Db) : Prop := {
  ty_events : exists l, represents d l;
  ty_tasks : Forall (parses row_to_task) (db_tasks d);
  ty_runs : Forall (parses row_to_run) (db_runs d);
  ty_approvals : Forall (parses row_to_approval) (db_approvals d);
  ty_nodes : Forall (parses row_to_node) (db_nodes d);
  ty_dispatches : Forall (parses row_to_dispatch) (db_dispatches d);
  ty_settings : Forall (fun r => exists v, json_from_str (sr_value r) = Some v) (db_settings d);
  ty_wakes : Forall (parses row_to_wake) (db_wakes d);
}.

Lemma empty_db_typed : db_typed empty_db.
Proof. constructor; try constructor. exists []. apply represents_empty. Qed.

Definition entity_times_ok (e : EntityWrite) : Prop :=
  match e with
  | EW_None => True
  | EW_Task t => time_ok (t_created_at t)
  | EW_Run r => time_ok (r_started_at r)
  end.
Definition dispatch_times_ok (x : option (NodeId * HubToNode)) : Prop :=
  match x with Some (_, m) => hub_to_node_times_ok m | None => True end.

(** The instants a call hands to the store are representable. *)
Definition call_times_ok (c : StoreCall) : Prop :=
  match c with
  | SC_append_command now _ _ draft entity dispatch =>
      time_ok now /\ draft_times_ok draft /\ entity_times_ok entity /\ dispatch_times_ok dispatch
  | SC_append_node_event now _ draft => time_ok now /\ draft_times_ok draft
  | SC_insert_task task => time_ok (t_created_at task)
  | SC_insert_run run => time_ok (r_started_at run)
  | SC_request_approval _ now _ _ _ _ _ expires_at =>
      time_ok now /\ (forall t, expires_at = Some t -> time_ok t)
  | SC_resolve_approval _ _ _ now => time_ok now
  | _ => True
  end.

Lemma Forall_snoc {A} (Q : A -> Prop) l x : Forall Q (l ++ [x]) <-> Forall Q l /\ Q x.
Proof. by rewrite Forall_app Forall_singleton. Qed.

Lemma Forall_update {A} (Q : A -> Prop) (p : A -> bool) (f : A -> A) l :
  Forall Q l -> (forall x, Q x -> Q (f x)) -> Forall Q (map (fun x => if p x then f x else x) l).
Proof. intros H Hf. apply Forall_fmap. eapply Forall_impl; [exact H|]. intros x. cbn. destruct (p x); auto. Qed.

Lemma set_task_status_parses s r : parses row_to_task r ->
  parses row_to_task (set_task_row_status (TaskStatus.as_str s) r).
Proof.
  intros [t H]. unfold parses, row_to_task in *. inv_bind H. cbn. rewrite Hv. cbn.
  rewrite TaskStatus_roundtrip. cbn. rewrite Hv1. eauto.
Qed.

Lemma set_run_status_parses s r : parses row_to_run r ->
  parses row_to_run (set_run_row_status (RunStatus.as_str s) r).
Proof.
  intros [t H]. unfold parses, row_to_run in *. inv_bind H. cbn. rewrite Hv. cbn. rewrite Hv0. cbn.
  rewrite Hv1. cbn. rewrite RunStatus_roundtrip. cbn. rewrite Hv3. eauto.
Qed.

Lemma Forall_if_snoc {A} (Q : A -> Prop) (b : bool) (l l' : list A) :
  Forall Q l -> Forall Q l' -> Forall Q (if b then l else l').
Proof. by destruct b. Qed.

(** *** Every call preserves it *)

Lemma commit_command_typed now fresh cid draft entity dispatch d :
  db_typed d -> time_ok now -> draft_times_ok draft -> entity_times_ok entity ->
  dispatch_times_ok dispatch -> db_typed (commit_command now fresh cid draft entity dispatch d).
Proof.
  intros Hd Hn Hdr He Hx. pose proof (ty_events d Hd) as [l Hl].
  assert (exists l', represents (commit_command now fresh cid draft entity dispatch d) l') as Hlog.
  { eexists. unfold represents. rewrite commit_command_events (represents_length d l Hl).
    by apply represents_snoc. }
  destruct Hd. unfold commit_command in *.
  destruct dispatch as [[n m]|], entity as [|t|r]; cbn in He, Hx;
    (constructor; try done; try (by apply Forall_update; [|intros; apply set_task_status_parses]));
    apply Forall_snoc; (split; [done|]);
    eauto using row_to_task_row, row_to_run_row, row_to_dispatch_row;
    eexists; eauto using row_to_task_row, row_to_run_row, row_to_dispatch_row.
Qed.

Lemma commit_node_event_typed now i draft d :
  db_typed d -> time_ok now -> draft_times_ok draft -> db_typed (commit_node_event now i draft d).
Proof.
  intros Hd Hn Hdr. pose proof (ty_events d Hd) as [l Hl].
  assert (exists l', represents (commit_node_event now i draft d) l') as Hlog.
  { eexists. unfold represents. rewrite commit_node_event_events (represents_length d l Hl).
    by apply represents_snoc. }
  unfold commit_node_event, apply_terminal in *. destruct Hd.
  destruct (terminal_effect _) as [[[rs ts] wakes]|]; [|by constructor].
  destruct (d_run_id draft) as [run|]; [|by constructor].
  assert (Forall (parses row_to_task) (set_task_status ts (d_task_id draft) (db_tasks d))).
  { apply Forall_update; [done|]. intros x. apply set_task_status_parses. }
  assert (Forall (parses row_to_run) (set_run_status rs run (db_runs d))).
  { apply Forall_update; [done|]. intros x. apply set_run_status_parses. }
  destruct (List.find _ _) as [w|]; [|by constructor]. destruct wakes; [|by constructor].
  constructor; try done. apply Forall_snoc. split; [done|].
  eexists. apply row_to_wake_row.
Qed.

Lemma store_call_typed c d :
  db_wf d -> db_typed d -> call_times_ok c -> db_typed (store_call c d).
Proof.
  intros Hwf Hd Hc. pose proof Hd as [].
  destruct c; cbn [store_call call_times_ok] in *.
  - destruct Hc as (Hn & Hdr & He & Hx).
    destruct (List.find (has_key rr_command_id (id_to_string cid)) (db_receipts d)) as [r|] eqn:Hf.
    + destruct (find_key_some _ _ _ _ Hf) as [_ Hr].
      destruct (receipt_event_id d r Hwf Hr) as [i Hi]. by erewrite append_command_replay.
    + pose proof (append_command_new d now fresh cid draft entity dispatch Hwf Hf) as H.
      destruct (decide _) as [Hadm|]; [|by destruct H as [err ->]]. rewrite H.
      by apply commit_command_typed.
  - destruct Hc as [Hn Hdr].
    destruct (List.find (has_key er_event_id (id_to_string event_id)) (db_events d)) as [r|] eqn:Hf.
    + by erewrite append_node_replay.
    + rewrite append_node_new; [done|done|]. destruct (decide _); [|done].
      by apply commit_node_event_typed.
  - unfold acknowledge_dispatch. rewrite snd_bind_ret. constructor; try done.
    by apply Forall_update.
  - unfold acknowledge_dispatch_from. rewrite snd_bind_ret. constructor; try done.
    by apply Forall_update.
  - unfold insert_task, insert_task_row. edestruct (sql_insert_snd tasks_t) as [-> |[_ ->]]; [done|].
    constructor; try done. apply Forall_snoc. split; [done|]. eexists. by apply row_to_task_row.
  - unfold insert_run, insert_run_row. edestruct (sql_insert_snd runs_t) as [-> |[_ ->]]; [done|].
    constructor; try done. apply Forall_snoc. split; [done|]. eexists. by apply row_to_run_row.
  - unfold put_setting. rewrite sql_upsert_snd. constructor; try done. cbn.
    assert (exists v, json_from_str (json_to_string value) = Some v) by (rewrite json_roundtrip; eauto).
    destruct (existsb _ _); [by apply Forall_update|by apply Forall_snoc].
  - unfold register_assistant_worker. rewrite sql_upsert_snd. by constructor.
  - unfold complete_assistant_wake. rewrite snd_bind_ret. constructor; try done.
    by apply Forall_update.
  - unfold defer_assistant_wake, query_row. run_m. destruct (List.find _ _); [|done].
    constructor; try done. apply Forall_update; [done|]. intros x [y Hx].
    unfold parses, row_to_wake in *. inv_bind Hx. cbn. rewrite Hv. cbn. rewrite Hv0. cbn.
    rewrite Hv1. cbn. rewrite Hv2. eauto.
  - unfold request_approval. rewrite snd_bind_ret.
    edestruct (sql_insert_snd approvals_t) as [-> |[_ ->]]; [done|].
    constructor; try done. apply Forall_snoc. split; [done|]. eexists.
    destruct Hc. by apply row_to_approval_row.
  - rewrite resolve_approval_spec. destruct (decide _); [done|]. destruct (List.find _ _); [|done].
    destruct (row_to_approval _); [|done]. destruct (is_pending _); [|done].
    constructor; try done. apply Forall_update; [done|]. intros x [y Hx]. eexists.
    by apply row_to_approval_resolved.
  - unfold upsert_node. rewrite sql_upsert_snd. constructor; try done. cbn.
    destruct (existsb _ _).
    + apply Forall_update; [done|]. intros x _. destruct node as [[i] lb st v cap q].
      eexists. apply (row_to_node_row (MkNode (MkNodeId (nr_node_id x)) lb st v cap q)).
    + apply Forall_snoc. split; [done|]. eexists. apply row_to_node_row.
Qed.

Definition timed_step (d d' : Db) : Prop := exists c, call_times_ok c /\ d' = store_call c d.
Definition timed_steps : relation Db := rtc timed_step.

Lemma timed_steps_store d d' : timed_steps d d' -> store_steps d d'.
Proof. intros H. eapply rtc_subrel; [|exact H]. intros x y (c & _ & Hc). by exists c. Qed.

Lemma timed_steps_typed d d' : db_wf d -> db_typed d -> timed_steps d d' -> db_typed d'.
Proof.
  intros Hwf Hd. induction 1 as [|d d1 d2 (c & Hc & ->) _ IH]; [done|].
  apply IH; [by apply store_call_step|by apply store_call_typed].
Qed.

(** No read of a typed database fails. *)
Definition reads_ok (d : Db) : Prop :=
  (forall a, is_ok (fst (events_after a d)) = true) /\
  (forall n, is_ok (fst (recent_events n d)) = true) /\
  (forall i n, is_ok (fst (task_events_tail i n d)) = true) /\
  (forall i, is_ok (fst (get_task i d)) = true) /\
  (forall i, is_ok (fst (get_run i d)) = true) /\
  (forall i, is_ok (fst (get_approval i d)) = true) /\
  (forall i, is_ok (fst (get_node i d)) = true) /\
  (is_ok (fst (list_nodes d)) = true) /\
  (forall n, is_ok (fst (pending_dispatches n d)) = true) /\
  (forall k, is_ok (fst (get_setting k d)) = true) /\
  (forall now c, is_ok (fst (pending_assistant_wakes now c d)) = true) /\
  (forall c, is_ok (fst (command_outcome c d)) = true).

Lemma collect_is_ok {A B} (f : A -> Result B) xs : Forall (parses f) xs -> is_ok (collect f xs) = true.
Proof. intros (ys & -> & _)%collect_total. done. Qed.

Lemma map_row_is_ok {R A} (f : R -> Result A) (t : list R) p (d : Db) :
  Forall (parses f) t -> is_ok (fst (map_row f (List.find p t) d)) = true.
Proof.
  intros H. destruct (List.find p t) as [r|] eqn:Hf; [|done].
  apply List.find_some in Hf as [Hr%list_elem_of_In _].
  rewrite Forall_forall in H. destruct (H r Hr) as [y Hy]. unfold map_row. run_m. by rewrite Hy.
Qed.

Lemma typed_reads_ok d : db_wf d -> db_typed d -> reads_ok d.
Proof.
  intros Hwf Hd. pose proof Hd as [[l Hl]].
  split_and!; intros.
  - by rewrite (events_after_represents d l).
  - by rewrite (recent_events_represents d l).
  - by rewrite (task_events_tail_represents d l).
  - by apply map_row_is_ok.
  - by apply map_row_is_ok.
  - by apply map_row_is_ok.
  - by apply map_row_is_ok.
  - cbn. apply collect_is_ok. by rewrite merge_sort_Permutation.
  - cbn. by apply collect_is_ok, Forall_list_filter.
  - unfold get_setting, query_row. run_m. destruct (List.find _ _) as [r|] eqn:Hf; [|done].
    apply List.find_some in Hf as [Hr%list_elem_of_In _].
    rewrite Forall_forall in ty_settings0. destruct (ty_settings0 r Hr) as [v Hv]. by rewrite Hv.
  - cbn. apply collect_is_ok. rewrite merge_sort_Permutation. by apply Forall_list_filter.
  - unfold command_outcome. run_m. rewrite find_receipt_eq. destruct (List.find _ _) as [r|] eqn:Hf; [|done].
    apply find_key_some in Hf as [_ Hr]. destruct (receipt_event_id d r Hwf Hr) as [i Hi].
    by rewrite Hi req_id_text.
Qed.
End RoundTrip.
