(* ===== verification/StoreFlows.v ===== *)
(** The three work lists the store keeps for other parts of the hub: pending
    node dispatches, assistant wakes and approvals. Each is followed from the
    write that opens an item to the write that closes it. *)
From S2P Require Import Prelude.
From S2P Require Import RustStr.
From S2P Require Import Platform.
From S2P Require Import Ids.
From S2P Require Import Entities.
From S2P Require Import Event.
From S2P Require Import Protocol.
From S2P Require Import Wire.
From S2P Require Import Schema.
From S2P Require Import Store.
From S2P Require Import StoreInv.
From S2P Require Import StoreStep.
From S2P Require Import StoreLog.
From S2P Require Import StoreTyped.
From stdpp Require Import sorting.

Local Open Scope Z_scope.

Section UpdateFacts.
Context {R : Type} (key : R -> string).

(** With unique keys at most one row is updated. *)
Lemma filter_key_and k (q : R -> bool) rows :
  NoDup (map key rows) ->
  length (List.filter (fun r => has_key key k r && q r) rows) =
    match List.find (has_key key k) rows with Some r => if q r then 1%nat else 0%nat | None => 0%nat end.
Proof.
  induction rows as [|r rows IH]; simpl; [done|]. intros [Hnin Hnd]%NoDup_cons.
  destruct (has_key key k r) eqn:Hk; simpl; [|by apply IH].
  assert (List.find (has_key key k) rows = None) as Hnone.
  { apply find_key_none. apply String.eqb_eq in Hk. by subst k. }
  rewrite Hnone in IH. destruct (q r); simpl; by rewrite IH.
Qed.

Lemma map_update_none (p : R -> bool) (f : R -> R) rows :
  List.filter p rows = [] -> map (fun r => if p r then f r else r) rows = rows.
Proof.
  induction rows as [|r rows IH]; simpl; [done|]. destruct (p r) eqn:Hp; [done|]. intros. f_equal. auto.
Qed.
End UpdateFacts.

Section Dispatches.
Context {P : Platform} {PL : PlatformLaws P}.

(** The row of a command's dispatch. *)
Definition dispatch_of (c : CommandId) (d : Db) : option DispatchRow :=
  List.find (has_key dr_command_id (id_to_string c)) (db_dispatches d).

Definition undelivered (n : NodeId) (r : DispatchRow) : bool :=
  String.eqb (dr_node_id r) (node_as_str n) && is_none (dr_acked_at r).

Lemma pending_dispatches_eq n d :
  pending_dispatches n d = (collect row_to_dispatch (List.filter (undelivered n) (db_dispatches d)), d).
Proof. done. Qed.

(** Acknowledging succeeds for the owner of an open dispatch, once. *)
Lemma acknowledge_from_spec now c n d : db_wf d ->
  acknowledge_dispatch_from now c n d =
    match dispatch_of c d with
    | Some r =>
        if undelivered n r
        then (Ok true, tbl_set dispatches_t
                (map (fun r => if has_key dr_command_id (id_to_string c) r && undelivered n r
                               then set_acked now r else r) (db_dispatches d)) d)
        else (Ok false, d)
    | None => (Ok false, d)
    end.
Proof.
  intros Hwf. unfold acknowledge_dispatch_from, dispatch_of, sql_update. run_m.
  rewrite (List.filter_ext _ (fun r => has_key dr_command_id (id_to_string c) r && undelivered n r));
    [intros r; unfold undelivered; by rewrite andb_assoc|].
  rewrite (map_ext _ (fun r => if has_key dr_command_id (id_to_string c) r && undelivered n r
                               then set_acked now r else r));
    [intros r; unfold undelivered; by rewrite andb_assoc|].
  pose proof (filter_key_and dr_command_id (id_to_string c) (undelivered n) (db_dispatches d)
    (wf_dispatch_ids d Hwf)) as Hlen.
  destruct (List.find _ _) as [r|]; [destruct (undelivered n r)|]; rewrite Hlen; [done| |];
    apply nil_length_inv in Hlen; (rewrite map_update_none; [done|by destruct d]).
Qed.

Lemma dispatch_of_later c d d' r : db_wf d' -> extends d d' -> dispatch_of c d = Some r ->
  exists r', dispatch_of c d' = Some r' /\ dispatch_evolves r r'.
Proof.
  intros Hwf' Hext (Hk & Hr)%find_key_some.
  destruct (grows_elem _ _ _ _ (ext_dispatches _ _ Hext) Hr) as (r' & Hr' & Hev).
  exists r'. split; [|done]. apply find_key_nodup; [by destruct Hwf'|done|]. destruct Hev. congruence.
Qed.

(** An open dispatch is in its node's pending list. *)
Lemma undelivered_pending c n m now d r :
  db_typed d -> dispatch_of c d = Some r -> undelivered n r = true ->
  row_to_dispatch r = Ok (MkPendingDispatch c n m now) ->
  exists ps, pending_dispatches n d = (Ok ps, d) /\ MkPendingDispatch c n m now ∈ ps.
Proof.
  intros Hty (Hk & Hr)%find_key_some Hopen Hrow. rewrite pending_dispatches_eq.
  destruct (collect_total row_to_dispatch (List.filter (undelivered n) (db_dispatches d)))
    as (ps & -> & HF); [apply Forall_list_filter; by destruct Hty|].
  exists ps. split; [done|].
  assert (r ∈ List.filter (undelivered n) (db_dispatches d)) as Hin.
  { apply list_elem_of_In, List.filter_In. split; [by apply list_elem_of_In|done]. }
  apply list_elem_of_lookup in Hin as [i Hi].
  destruct (Forall2_lookup_l _ _ _ _ _ HF Hi) as (p & Hp & Hpr).
  rewrite Hrow in Hpr. simplify_eq. by eapply list_elem_of_lookup_2.
Qed.

(** A closed dispatch is in nobody's. *)
Lemma closed_not_pending c n d r ps :
  db_wf d -> dispatch_of c d = Some r -> dr_acked_at r <> None ->
  pending_dispatches n d = (Ok ps, d) -> c ∉ pd_command_id <$> ps.
Proof.
  intros Hwf Hf Hacked Hps (p & -> & Hp)%list_elem_of_fmap.
  rewrite pending_dispatches_eq in Hps. injection Hps as Hps. apply collect_spec in Hps.
  apply list_elem_of_lookup in Hp as [i Hi].
  destruct (Forall2_lookup_r _ _ _ _ _ Hps Hi) as (x & Hx & Hxp).
  apply list_elem_of_lookup_2, list_elem_of_In, List.filter_In in Hx as [Hx%list_elem_of_In Hopen].
  assert (dr_command_id x = id_to_string (pd_command_id p)) as Hkx.
  { pose proof (wf_dispatches d Hwf x Hx) as (rc & Hrc & Heq)%elem_of_map.
    destruct (wf_receipt_text d Hwf rc Hrc) as [c' Hc']. rewrite Hc' in Heq.
    unfold row_to_dispatch in Hxp. inv_bind Hxp. simplify_eq. cbn.
    rewrite -Heq req_id_text in Hv. by simplify_eq. }
  assert (x = r) as ->.
  { pose proof (find_key_nodup dr_command_id _ _ x (wf_dispatch_ids d Hwf) Hx Hkx) as Hfx.
    unfold dispatch_of in Hf. rewrite Hf in Hfx. by simplify_eq. }
  unfold undelivered in Hopen. by destruct (dr_acked_at r); [rewrite andb_false_r in Hopen|].
Qed.
End Dispatches.

Section DispatchOpened.
Context {P : Platform} {PL : PlatformLaws P}.

(** A newly created command leaves its dispatch open. *)
Lemma append_command_opens d d1 now fresh cid draft entity n m o :
  db_wf d -> append_command_bundle now fresh cid draft entity (Some (n, m)) d = (Ok o, d1) ->
  o_created o = true -> dispatch_of cid d1 = Some (dispatch_row cid n m now).
Proof.
  intros Hwf Happ Hc.
  destruct (List.find (has_key rr_command_id (id_to_string cid)) (db_receipts d)) as [r|] eqn:Hf.
  - destruct (find_key_some _ _ _ _ Hf) as [_ Hr].
    destruct (receipt_event_id d r Hwf Hr) as [i Hi].
    erewrite append_command_replay in Happ; [|done|done]. by simplify_eq.
  - pose proof (append_command_new d now fresh cid draft entity (Some (n, m)) Hwf Hf) as H.
    destruct (decide _) as [Hadm|]; [|by destruct H as [err H]; rewrite H in Happ].
    rewrite H in Happ. simplify_eq. unfold commit_command, dispatch_of, apply_dispatch.
    cbn [tbl_set dispatches_t db_dispatches]. rewrite entity_dispatches. cbn.
    rewrite find_app_none.
    + apply find_key_none. apply (no_receipt_no_dispatch d); [done|]. by apply find_key_none.
    + cbn. unfold has_key. cbn. by rewrite String.eqb_refl.
Qed.

Lemma undelivered_evolves n r r' :
  dispatch_evolves r r' -> undelivered n r = true -> dr_acked_at r' = None -> undelivered n r' = true.
Proof.
  intros (_ & Hn & _) Hu Ha. unfold undelivered in *. rewrite Hn Ha. by apply andb_prop in Hu as [-> _].
Qed.

Lemma row_to_dispatch_evolves r r' p :
  dispatch_evolves r r' -> row_to_dispatch r = Ok p -> row_to_dispatch r' = Ok p.
Proof. intros (H1 & H2 & H3 & H4 & _). unfold row_to_dispatch. by rewrite H1 H2 H3 H4. Qed.
End DispatchOpened.

Section Approvals.
Context {P : Platform} {PL : PlatformLaws P}.

Definition approval_of (i : ApprovalId) (d : Db) : option ApprovalRow :=
  List.find (has_key ar_approval_id (id_to_string i)) (db_approvals d).

Lemma decided_approval_stays i d d' r :
  db_wf d' -> extends d d' -> approval_of i d = Some r ->
  ar_decision r <> Decision.as_str Decision.Pending -> approval_of i d' = Some r.
Proof.
  intros Hwf' Hext (Hk & Hr)%find_key_some Hdec.
  destruct (grows_elem _ _ _ _ (ext_approvals _ _ Hext) Hr) as (r' & Hr' & (_ & _ & _ & Heq)).
  rewrite Heq in Hr'; [done|]. apply find_key_nodup; [by destruct Hwf'|done|done].
Qed.

(** A successful resolution leaves a decided row that reads as its result. *)
Lemma resolve_approval_row i dec actor now d a d1 :
  db_wf d -> time_ok now -> resolve_approval i dec actor now d = (Ok a, d1) ->
  exists r, approval_of i d1 = Some r /\ row_to_approval r = Ok a /\ is_pending a = false.
Proof.
  intros Hwf Hn. rewrite resolve_approval_spec. destruct (decide _) as [|Hdec]; [done|].
  destruct (List.find _ _) as [r|] eqn:Hf; [|done].
  destruct (row_to_approval r) as [a0|e] eqn:Hr; [|done].
  destruct (is_pending a0) eqn:Hp; intros; simplify_eq.
  - exists (set_resolved dec actor now r). split_and!.
    + unfold approval_of. cbn [tbl_set approvals_t db_approvals]. rewrite find_update; [done|].
      rewrite Hf /=. apply List.find_some in Hf as [_ Hk]. by rewrite Hk.
    + by apply row_to_approval_resolved.
    + by apply bool_decide_eq_false.
  - by exists r.
Qed.

Lemma resolve_decided i dec actor now d r a :
  dec <> Decision.Pending -> approval_of i d = Some r -> row_to_approval r = Ok a ->
  is_pending a = false -> resolve_approval i dec actor now d = (Ok a, d).
Proof.
  intros Hdec Hf Hr Hp. rewrite resolve_approval_spec. rewrite decide_False; [done|].
  unfold approval_of in Hf. by rewrite Hf Hr Hp.
Qed.

Lemma is_pending_row r a : row_to_approval r = Ok a -> is_pending a = false ->
  ar_decision r <> Decision.as_str Decision.Pending.
Proof.
  intros Hr Hp. rewrite (row_to_approval_decision r a Hr).
  apply bool_decide_eq_false in Hp. by destruct (a_decision a).
Qed.

Lemma resolve_approval_later i dec actor now d a d1 d2 dec' actor' now' :
  db_wf d -> time_ok now -> resolve_approval i dec actor now d = (Ok a, d1) -> store_steps d1 d2 ->
  dec' <> Decision.Pending -> resolve_approval i dec' actor' now' d2 = (Ok a, d2).
Proof.
  intros Hwf Hn Hres Hsteps Hdec'.
  destruct (resolve_approval_row _ _ _ _ _ _ _ Hwf Hn Hres) as (r & Hf & Hr & Hp).
  destruct (resolve_approval_step i dec actor now d Hwf) as [Hwf1 _]. rewrite Hres in Hwf1.
  destruct (store_steps_wf _ _ Hwf1 Hsteps) as [Hwf2 Hext].
  apply (resolve_decided _ _ _ _ _ r); try done.
  apply (decided_approval_stays i d1); try done. by eapply is_pending_row.
Qed.
End Approvals.

Section Wakes.
Context {P : Platform} {PL : PlatformLaws P}.

Definition wake_of (i : EventId) (d : Db) : option WakeRow :=
  List.find (has_key kr_event_id (id_to_string i)) (db_wakes d).

(** A terminal event of a tracked worker's run opens a wake. *)
Lemma terminal_opens_wake d d1 now i draft run w rs ts o :
  db_wf d -> append_node_event now i draft d = (Ok o, d1) -> o_created o = true ->
  terminal_effect (d_kind draft) = Some (rs, ts, true) -> d_run_id draft = Some run ->
  List.find (has_key wr_task_id (id_to_string (d_task_id draft))) (db_workers d) = Some w ->
  wake_of i d1 = Some (wake_row i (o_sequence o) draft run now w).
Proof.
  intros Hwf Happ Hc Hk Hrun Hw.
  destruct (List.find (has_key er_event_id (id_to_string i)) (db_events d)) as [r|] eqn:Hf.
  { erewrite append_node_replay in Happ; [|done]. by simplify_eq. }
  rewrite append_node_new in Happ; [done|done|]. destruct (decide _); [|done]. simplify_eq.
  unfold commit_node_event, apply_terminal. rewrite Hk Hrun. cbn. rewrite Hw. unfold wake_of. cbn.
  rewrite find_app_none.
  - apply find_key_none. intros (x & Hx & Hkey)%elem_of_map.
    destruct (wf_wakes d Hwf x Hx) as (e & He & Hid & _).
    apply (proj1 (find_key_none er_event_id _ _) Hf), elem_of_map. exists e. by rewrite Hid.
  - cbn. unfold has_key. cbn. by rewrite String.eqb_refl.
Qed.

Lemma wake_of_later i d d' r : db_wf d' -> extends d d' -> wake_of i d = Some r ->
  exists r', wake_of i d' = Some r' /\ wake_evolves r r'.
Proof.
  intros Hwf' Hext (Hk & Hr)%find_key_some.
  destruct (grows_elem _ _ _ _ (ext_wakes _ _ Hext) Hr) as (r' & Hr' & Hev).
  exists r'. split; [|done]. apply find_key_nodup; [by destruct Hwf'|done|]. destruct Hev. congruence.
Qed.

Lemma pending_wakes_eq now c d :
  pending_assistant_wakes now c d =
    (collect row_to_wake (merge_sort wake_before (List.filter (wake_due c now) (db_wakes d))), d).
Proof. done. Qed.

(** A due wake is in its channel's list, and the list is in sequence order. *)
Lemma due_wake_pending now c i d r :
  db_typed d -> wake_of i d = Some r -> wake_due c now r = true ->
  exists ws w, pending_assistant_wakes now c d = (Ok ws, d) /\ w ∈ ws /\ row_to_wake r = Ok w.
Proof.
  intros Hty (Hk & Hr)%find_key_some Hdue. rewrite pending_wakes_eq.
  set (rows := merge_sort _ _).
  assert (Forall (parses row_to_wake) rows) as Hall.
  { unfold rows. rewrite merge_sort_Permutation. apply Forall_list_filter. by destruct Hty. }
  destruct (collect_total row_to_wake rows Hall) as (ws & -> & HF).
  assert (r ∈ rows) as [k Hi]%list_elem_of_lookup.
  { unfold rows. rewrite merge_sort_Permutation. apply list_elem_of_In, List.filter_In.
    split; [by apply list_elem_of_In|done]. }
  destruct (Forall2_lookup_l _ _ _ _ _ HF Hi) as (w & Hw & Hrow).
  exists ws, w. split_and!; [done|by eapply list_elem_of_lookup_2|done].
Qed.

Lemma wake_sequence r w : row_to_wake r = Ok w -> aw_sequence w = kr_sequence r.
Proof. unfold row_to_wake. intros H. inv_bind H. by simplify_eq. Qed.

#[export] Instance wake_before_total : Total wake_before.
Proof. intros x y. unfold wake_before. lia. Qed.
#[export] Instance wake_before_trans : Transitive wake_before.
Proof. intros x y z. unfold wake_before. lia. Qed.

Lemma pending_wakes_sorted now c d ws d' :
  pending_assistant_wakes now c d = (Ok ws, d') -> Sorted Z.le (aw_sequence <$> ws).
Proof.
  rewrite pending_wakes_eq. intros H. injection H as H _. apply collect_spec in H.
  pose proof (Sorted_merge_sort wake_before (List.filter (wake_due c now) (db_wakes d))) as Hs.
  revert Hs. induction H as [|r w rows ws Hrw HF IH]; intros Hs; [constructor|].
  apply Sorted_inv in Hs as [Hs Hhd]. constructor; [by apply IH|].
  destruct HF as [|r2 w2 rows2 ws2 Hrw2 _]; constructor.
  apply HdRel_inv in Hhd. unfold wake_before in Hhd.
  by rewrite (wake_sequence r w Hrw) (wake_sequence r2 w2 Hrw2).
Qed.

(** *** Completing and deferring *)

Lemma complete_wake_spec now i d : db_wf d ->
  complete_assistant_wake now i d =
    (Ok (match wake_of i d with Some r => is_none (kr_processed_at r) | None => false end),
     tbl_set wakes_t (map (fun r => if wake_open i r then set_wake_processed now r else r) (db_wakes d)) d).
Proof.
  intros Hwf. unfold complete_assistant_wake, sql_update, wake_open. run_m.
  rewrite (filter_key_and kr_event_id _ (fun r => is_none (kr_processed_at r))); [by destruct Hwf|].
  unfold wake_of. by destruct (List.find _ _) as [r|]; [destruct (is_none _)|].
Qed.

Lemma processed_not_pending now c i d r ws :
  db_wf d -> wake_of i d = Some r -> kr_processed_at r <> None ->
  pending_assistant_wakes now c d = (Ok ws, d) -> i ∉ aw_event_id <$> ws.
Proof.
  intros Hwf Hf Hp Hws (w & -> & Hw)%list_elem_of_fmap.
  rewrite pending_wakes_eq in Hws. injection Hws as Hws. apply collect_spec in Hws.
  apply list_elem_of_lookup in Hw as [k Hi].
  destruct (Forall2_lookup_r _ _ _ _ _ Hws Hi) as (x & Hx & Hxw).
  apply list_elem_of_lookup_2 in Hx. rewrite merge_sort_Permutation in Hx.
  apply list_elem_of_In, List.filter_In in Hx as [Hx%list_elem_of_In Hdue].
  assert (kr_event_id x = id_to_string (aw_event_id w)) as Hkx.
  { destruct (wf_wakes d Hwf x Hx) as (e & He & Hid & _).
    destruct (wf_event_text d Hwf e He) as [j Hj].
    unfold row_to_wake in Hxw. inv_bind Hxw. simplify_eq. cbn.
    rewrite -Hid Hj req_id_text in Hv0. simplify_eq. congruence. }
  assert (x = r) as ->.
  { pose proof (find_key_nodup kr_event_id _ _ x (wf_wake_ids d Hwf) Hx Hkx) as Hfx.
    unfold wake_of in Hf. rewrite Hf in Hfx. by simplify_eq. }
  unfold wake_due in Hdue. destruct (kr_processed_at r); [|done].
  by rewrite andb_false_r in Hdue.
Qed.

Lemma wake_delay_bounds k : 1 <= k -> 5 <= wake_delay_seconds k <= 1280.
Proof.
  intros Hk. unfold wake_delay_seconds.
  assert (0 <= Z.min 8 (Z.max 0 (k - 1)) <= 8) as H by lia.
  pose proof (Z.pow_le_mono_r 2 0 (Z.min 8 (Z.max 0 (k - 1)))).
  pose proof (Z.pow_le_mono_r 2 (Z.min 8 (Z.max 0 (k - 1))) 8). lia.
Qed.

Lemma wake_delay_doubles k : 1 <= k < 9 -> wake_delay_seconds (k + 1) = 2 * wake_delay_seconds k.
Proof.
  intros Hk. unfold wake_delay_seconds.
  rewrite !Z.max_r; [lia|lia|]. rewrite !Z.min_r; [lia|lia|].
  rewrite (_ : k + 1 - 1 = Z.succ (k - 1)); [lia|]. rewrite Z.pow_succ_r; lia.
Qed.

(** The row a deferral leaves. *)
Lemma defer_wake_spec now i err d r :
  wake_of i d = Some r -> kr_processed_at r = None ->
  defer_assistant_wake now i err d =
    (Ok true,
     tbl_set wakes_t
       (map (fun r' => if wake_open i r' then
          set_wake_retry (kr_attempt_count r + 1)
            (fmt_time (now + wake_delay_seconds (kr_attempt_count r + 1) * nanos_per_second))
            (take_chars 500 err) r' else r') (db_wakes d)) d).
Proof.
  intros Hf Hp. unfold defer_assistant_wake, query_row. run_m.
  assert (List.find (wake_open i) (db_wakes d) = Some r) as ->; [|done].
  unfold wake_of in Hf. revert Hf. induction (db_wakes d) as [|x xs IH]; simpl; [done|].
  unfold wake_open. destruct (has_key kr_event_id (id_to_string i) x); simpl; [|exact IH].
  intros. simplify_eq. by rewrite Hp.
Qed.

Lemma wake_of_update (f : WakeRow -> WakeRow) i d r :
  (forall r, kr_event_id (f r) = kr_event_id r) ->
  wake_of i d = Some r -> kr_processed_at r = None ->
  wake_of i (tbl_set wakes_t (map (fun r => if wake_open i r then f r else r) (db_wakes d)) d)
    = Some (f r).
Proof.
  intros Hk Hf Hp. unfold wake_of in *. cbn [tbl_set wakes_t db_wakes].
  rewrite find_update; [done|]. rewrite Hf. cbn. unfold wake_open.
  apply List.find_some in Hf as [_ Hkey]. by rewrite Hkey Hp.
Qed.
End Wakes.

Section WriteThenRead.
Context {P : Platform} {PL : PlatformLaws P}.

(** A table reads what was set. *)
Definition table_law {R} (t : Table Db R) : Prop := forall x d, tbl_get t (tbl_set t x d) = x.

Lemma insert_then_find {R} (t : Table Db R) (key : R -> string) k col row d d' u :
  table_law t -> key row = k -> sql_insert t (has_key key k) col row d = (Ok u, d') ->
  List.find (has_key key k) (tbl_get t d') = Some row.
Proof.
  intros Ht Hk. unfold sql_insert. destruct (existsb _ _) eqn:Hex; [done|].
  intros H. simplify_eq. rewrite Ht find_app_none.
  - rewrite existsb_key in Hex. apply bool_decide_eq_false in Hex. by apply find_key_none.
  - cbn. unfold has_key. by rewrite String.eqb_refl.
Qed.

Lemma upsert_then_find {R} (t : Table Db R) (key : R -> string) k f row d :
  table_law t -> key row = k -> (forall r, key r = k -> f r = row) ->
  List.find (has_key key k) (tbl_get t (snd (sql_upsert t (has_key key k) f row d))) = Some row.
Proof.
  intros Ht Hk Hf. rewrite sql_upsert_snd Ht. destruct (existsb _ _) eqn:Hex.
  - induction (tbl_get t d) as [|r rows IH]; cbn in *; [done|].
    destruct (has_key key k r) eqn:Hr; cbn.
    + apply String.eqb_eq in Hr. rewrite (Hf r Hr). unfold has_key. by rewrite Hk String.eqb_refl.
    + rewrite Hr. by apply IH.
  - rewrite find_app_none; [|by cbn; unfold has_key; rewrite Hk String.eqb_refl].
    rewrite existsb_key in Hex. apply bool_decide_eq_false in Hex. by apply find_key_none.
Qed.
End WriteThenRead.

#[export] Instance node_before_total : Total node_before.
Proof. intros x y. apply String.leb_total. Qed.
