(* ===== verification/Migrations.v ===== *)
(** The schema migrations of crates/stackhour-domain/src/store.rs: the DDL as
    statements on a catalog of tables, and the migrator that replays the ones a
    database has not seen. *)
From S2P Require Import Prelude.
From S2P Require Import Platform.
From S2P Require Import Schema.
From S2P Require Import Store.

Local Open Scope Z_scope.

(** A column: its name and its declaration. *)
Record Column := MkColumn { col_name : string; col_decl : string }.

#[export] Instance Column_eq_dec : EqDecision Column.
Proof. solve_decision. Defined.

Inductive Stmt :=
| CREATE_TABLE (if_not_exists : bool) (name : string) (cols : list Column)
| CREATE_INDEX (if_not_exists : bool) (name on : string)
| ALTER_ADD_COLUMN (table : string) (col : Column).

(** [Connection]: the tables, the indexes, and the rows of
    stackhour_hub_schema_migrations (version, name, applied_at). *)
Record Catalog := MkCatalog {
  cat_tables : list (string * list Column);
  cat_indexes : list string;
  cat_history : list (Z * string * string);
}.

Definition empty_catalog : Catalog := MkCatalog [] [] [].

Local Notation "c ::= d" := (MkColumn c d) (at level 30).

Definition SCHEMA : list Stmt := [
  CREATE_TABLE true "events" [
    "sequence" ::= "INTEGER PRIMARY KEY"; "event_id" ::= "TEXT NOT NULL UNIQUE";
    "command_id" ::= "TEXT"; "kind" ::= "TEXT NOT NULL"; "task_id" ::= "TEXT NOT NULL";
    "run_id" ::= "TEXT"; "provider_session_id" ::= "TEXT"; "node_id" ::= "TEXT NOT NULL";
    "protocol_version" ::= "INTEGER NOT NULL"; "occurred_at" ::= "TEXT NOT NULL";
    "hub_received_at" ::= "TEXT NOT NULL"; "payload" ::= "TEXT NOT NULL"];
  CREATE_INDEX true "events_task" "events";
  CREATE_TABLE true "command_receipts" [
    "command_id" ::= "TEXT PRIMARY KEY"; "sequence" ::= "INTEGER NOT NULL";
    "event_id" ::= "TEXT NOT NULL"; "received_at" ::= "TEXT NOT NULL"];
  CREATE_TABLE true "tasks" [
    "task_id" ::= "TEXT PRIMARY KEY"; "title" ::= "TEXT NOT NULL"; "status" ::= "TEXT NOT NULL";
    "created_at" ::= "TEXT NOT NULL"];
  CREATE_TABLE true "runs" [
    "run_id" ::= "TEXT PRIMARY KEY"; "task_id" ::= "TEXT NOT NULL"; "node_id" ::= "TEXT NOT NULL";
    "engine" ::= "TEXT NOT NULL"; "access_policy" ::= "TEXT NOT NULL"; "workspace_path" ::= "TEXT";
    "status" ::= "TEXT NOT NULL"; "started_at" ::= "TEXT NOT NULL"];
  CREATE_TABLE true "approvals" [
    "approval_id" ::= "TEXT PRIMARY KEY"; "run_id" ::= "TEXT NOT NULL"; "task_id" ::= "TEXT NOT NULL";
    "tool_call_id" ::= "TEXT NOT NULL"; "scope" ::= "TEXT NOT NULL"; "options" ::= "TEXT NOT NULL";
    "expires_at" ::= "TEXT"; "decision" ::= "TEXT NOT NULL"; "resolved_by" ::= "TEXT";
    "created_at" ::= "TEXT NOT NULL"; "resolved_at" ::= "TEXT"];
  CREATE_TABLE true "nodes" [
    "node_id" ::= "TEXT PRIMARY KEY"; "label" ::= "TEXT NOT NULL"; "status" ::= "TEXT NOT NULL";
    "software_version" ::= "TEXT NOT NULL"; "capabilities" ::= "TEXT NOT NULL";
    "last_seen_sequence" ::= "INTEGER"];
  CREATE_TABLE true "pending_dispatches" [
    "command_id" ::= "TEXT PRIMARY KEY"; "node_id" ::= "TEXT NOT NULL"; "message" ::= "TEXT NOT NULL";
    "created_at" ::= "TEXT NOT NULL"; "acked_at" ::= "TEXT"];
  CREATE_INDEX true "pending_dispatches_node" "pending_dispatches"].

Definition RUN_CONFIGURATION_AND_SETTINGS : list Stmt := [
  ALTER_ADD_COLUMN "runs" ("model" ::= "TEXT");
  ALTER_ADD_COLUMN "runs" ("reasoning_effort" ::= "TEXT");
  ALTER_ADD_COLUMN "runs" ("system_prompt" ::= "TEXT");
  CREATE_TABLE false "control_settings" [
    "key" ::= "TEXT PRIMARY KEY"; "value" ::= "TEXT NOT NULL"; "updated_at" ::= "TEXT NOT NULL"]].

Definition ASSISTANT_WORKER_WAKEUPS : list Stmt := [
  CREATE_TABLE false "assistant_workers" [
    "task_id" ::= "TEXT PRIMARY KEY"; "channel" ::= "TEXT NOT NULL"; "created_at" ::= "TEXT NOT NULL"];
  CREATE_TABLE false "assistant_wakes" [
    "event_id" ::= "TEXT PRIMARY KEY"; "sequence" ::= "INTEGER NOT NULL UNIQUE";
    "channel" ::= "TEXT NOT NULL"; "task_id" ::= "TEXT NOT NULL"; "run_id" ::= "TEXT NOT NULL";
    "kind" ::= "TEXT NOT NULL"; "created_at" ::= "TEXT NOT NULL";
    "attempt_count" ::= "INTEGER NOT NULL DEFAULT 0"; "next_attempt_at" ::= "TEXT NOT NULL";
    "last_error" ::= "TEXT"; "processed_at" ::= "TEXT"];
  CREATE_INDEX false "assistant_wakes_pending" "assistant_wakes"].

Definition LATEST_HUB_SCHEMA_VERSION : Z := 3.

Definition MIGRATIONS_TABLE : string := "stackhour_hub_schema_migrations".
Definition MIGRATIONS_DDL : list Stmt := [
  CREATE_TABLE true MIGRATIONS_TABLE [
    "version" ::= "INTEGER PRIMARY KEY"; "name" ::= "TEXT NOT NULL"; "applied_at" ::= "TEXT NOT NULL"]].

Definition MIGRATIONS : list (Z * string * list Stmt) := [
  (1, "create control-plane schema", SCHEMA);
  (2, "add run model configuration and control settings", RUN_CONFIGURATION_AND_SETTINGS);
  (3, "add durable assistant worker wakeups", ASSISTANT_WORKER_WAKEUPS)].

Section Migrate.
Context {P : Platform}.

Definition set_tables (x : list (string * list Column)) (c : Catalog) : Catalog :=
  MkCatalog x (cat_indexes c) (cat_history c).

Definition sql_failure {A} (msg : string) : M Catalog A := fail (sql_err (SqliteFailure msg)).

(** One DDL statement, as SQLite executes it. *)
Definition exec_stmt (s : Stmt) : M Catalog unit := fun c =>
  match s with
  | CREATE_TABLE ine name cols =>
      match assoc name (cat_tables c) with
      | Some _ =>
          if ine then (Ok tt, c) else sql_failure ("table " +:+ name +:+ " already exists") c
      | None => (Ok tt, set_tables (cat_tables c ++ [(name, cols)]) c)
      end
  | CREATE_INDEX ine name on =>
      if bool_decide (name ∈ cat_indexes c) then
        if ine then (Ok tt, c) else sql_failure ("index " +:+ name +:+ " already exists") c
      else
        match assoc on (cat_tables c) with
        | Some _ => (Ok tt, MkCatalog (cat_tables c) (cat_indexes c ++ [name]) (cat_history c))
        | None => sql_failure ("no such table: " +:+ on) c
        end
  | ALTER_ADD_COLUMN table col =>
      match assoc table (cat_tables c) with
      | None => sql_failure ("no such table: " +:+ table) c
      | Some cols =>
          if existsb (fun k => String.eqb (col_name k) (col_name col)) cols
          then sql_failure ("duplicate column name: " +:+ col_name col) c
          else (Ok tt, set_tables (map (fun '(n, k) => (n, if String.eqb n table then k ++ [col] else k))
                                     (cat_tables c)) c)
      end
  end.

(** [conn.execute_batch] *)
Definition execute_batch (sql : list Stmt) : M Catalog unit := for_each exec_stmt sql.

Definition version_of (r : Z * string * string) : Z := r.1.1.

(** [applied_migrations]: SELECT version, name .. ORDER BY version; the version
    is the table's integer key, so its rows are held in that order. *)
Definition applied_migrations : M Catalog (list (Z * string)) := gets (fun c => (cat_history c).*1).

Definition newer_error (version : Z) : Error :=
  Error_msg ("control-plane database schema version " +:+ pretty version
    +:+ " is newer than supported version " +:+ pretty LATEST_HUB_SCHEMA_VERSION).
Definition history_error (version : Z) (name : string) (expected : Z * string) : Error :=
  Error_msg ("invalid control-plane migration history at version " +:+ pretty version
    +:+ ": expected " +:+ pretty expected.1 +:+ " (" +:+ debug_str expected.2
    +:+ "), found " +:+ pretty version +:+ " (" +:+ debug_str name +:+ ")").

(** The check of the applied history against [MIGRATIONS], from [index] on. *)
Fixpoint check_history (index : nat) (applied : list (Z * string)) : Result unit :=
  match applied with
  | [] => Ok tt
  | (version, name) :: rest =>
      match MIGRATIONS !! index with
      | None => Err (newer_error version)
      | Some (v, n, _) =>
          if negb (version =? v) || negb (String.eqb name n)
          then Err (history_error version name (v, n))
          else check_history (S index) rest
      end
  end.

Fixpoint insert_by_version (r : Z * string * string) (rows : list (Z * string * string)) :=
  match rows with
  | [] => [r]
  | r' :: rows' =>
      if version_of r' <? version_of r then r' :: insert_by_version r rows' else r :: rows
  end.

(** INSERT INTO stackhour_hub_schema_migrations *)
Definition insert_history (version : Z) (name : string) (now : Time) : M Catalog unit := fun c =>
  if existsb (fun r => version_of r =? version) (cat_history c)
  then (Err (sql_err (UniqueViolation "stackhour_hub_schema_migrations.version")), c)
  else (Ok tt, MkCatalog (cat_tables c) (cat_indexes c)
                 (insert_by_version (version, name, fmt_time now) (cat_history c))).

(** One migration in its own transaction; [clock v] is the reading taken for
    migration [v]. *)
Definition run_migration (clock : Z -> Time) (m : Z * string * list Stmt) : M Catalog unit := fun c =>
  let '(version, name, sql) := m in
  match transaction (execute_batch sql ≫= fun _ => insert_history version name (clock version)) c with
  | (Ok _, c') => (Ok tt, c')
  | (Err e, c') =>
      (Err (Error_msg ("control-plane database migration " +:+ pretty version +:+ " (" +:+ name
                       +:+ ") failed: " +:+ err_msg e)), c')
  end.

(** [run_migrations] *)
Definition run_migrations (clock : Z -> Time) : M Catalog unit :=
  execute_batch MIGRATIONS_DDL ≫= fun _ =>
  applied ← applied_migrations;
  lift (check_history 0 applied) ≫= fun _ =>
  for_each (run_migration clock) (drop (length applied) MIGRATIONS).

(** [Hub::open_in_memory] *)
Definition open_in_memory (clock : Z -> Time) : Result Catalog :=
  match run_migrations clock empty_catalog with
  | (Ok _, c) => Ok c
  | (Err e, _) => Err e
  end.

(** [Hub::schema_version] *)
Definition schema_version : M Catalog Z :=
  gets (fun c => match map version_of (cat_history c) with [] => 0 | s :: l => foldr Z.max s l end).

(** The column names of a table. *)
Definition columns_of (name : string) (c : Catalog) : option (list string) :=
  map col_name <$> assoc name (cat_tables c).
End Migrate.

(** ** What the migrator guarantees *)
Section MigrateFacts.
Context {P : Platform}.
Implicit Types c : Catalog.

(** The history a fully migrated database has. *)
Definition expected_history : list (Z * string) := MIGRATIONS.*1.

Lemma drop_expected i m : MIGRATIONS !! i = Some m ->
  drop i expected_history = m.1 :: drop (S i) expected_history.
Proof.
  intros H. unfold expected_history. rewrite -!(fmap_drop fst). by rewrite (drop_S _ _ _ H).
Qed.

Lemma check_history_ok i applied :
  check_history i applied = Ok tt <-> (exists tail, drop i expected_history = applied ++ tail).
Proof.
  revert i. induction applied as [|[v n] applied IH]; intros i; [by cbn; split; eauto|].
  cbn [check_history]. destruct (MIGRATIONS !! i) as [[[v' n'] sql]|] eqn:Hm.
  - rewrite (drop_expected _ _ Hm). cbn [fst app].
    destruct (Z.eqb_spec v v') as [->|Hv], (String.eqb_spec n n') as [->|Hn]; cbn [negb orb];
      [|split; [done|intros [t Ht]; simplify_eq]..].
    rewrite IH. split; intros [t Ht]; exists t; [by rewrite Ht|by simplify_eq].
  - split; [done|]. intros [t Ht]. apply lookup_ge_None_1 in Hm.
    rewrite drop_ge in Ht; [|done]. unfold expected_history. by rewrite length_fmap.
Qed.

(** DDL never touches the history. *)
Lemma exec_stmt_history s c : cat_history (snd (exec_stmt s c)) = cat_history c.
Proof. destruct s; cbn; repeat case_match; done. Qed.

Lemma execute_batch_history sql c : cat_history (snd (execute_batch sql c)) = cat_history c.
Proof.
  unfold execute_batch. revert c. induction sql as [|s sql IH]; intros c; [done|].
  cbn [for_each]. unfold mbind, M_bind. pose proof (exec_stmt_history s c) as H.
  destruct (exec_stmt s c) as [[[]|e] c1]; cbn in H; [by rewrite IH|done].
Qed.

(** A migration either takes effect whole, or not at all. *)
Lemma run_migration_cases clock v n sql c :
  match run_migration clock (v, n, sql) c with
  | (Ok _, c') => exists c1, execute_batch sql c = (Ok tt, c1) /\
      cat_tables c' = cat_tables c1 /\ cat_indexes c' = cat_indexes c1 /\
      cat_history c' = insert_by_version (v, n, fmt_time (clock v)) (cat_history c)
  | (Err _, c') => c' = c
  end.
Proof.
  unfold run_migration, transaction, mbind, M_bind, insert_history.
  pose proof (execute_batch_history sql c) as H.
  destruct (execute_batch sql c) as [[[]|e] c1]; cbn in H; [|done].
  destruct (existsb _ _); [done|]. exists c1. rewrite H. done.
Qed.

Lemma insert_last (h : list (Z * string * string)) v n t :
  (forall r, r ∈ h -> version_of r < v) -> insert_by_version (v, n, t) h = h ++ [(v, n, t)].
Proof.
  induction h as [|r h IH]; intros H; cbn; [done|]. rewrite (proj2 (Z.ltb_lt _ _)).
  - apply H. by left.
  - f_equal. apply IH. intros. apply H. by right.
Qed.

(** Running the migrations that are left extends the history by those that
    succeeded, and stops at the first that fails. *)
Lemma run_rest clock (done_ms rest : list (Z * string * list Stmt)) c :
  MIGRATIONS = done_ms ++ rest -> (cat_history c).*1 = done_ms.*1 ->
  match for_each (run_migration clock) rest c with
  | (Ok _, c') => (cat_history c').*1 = expected_history
  | (Err _, c') => exists j, (j < length rest)%nat /\
      for_each (run_migration clock) (take j rest) c = (Ok tt, c') /\
      (cat_history c').*1 = (done_ms ++ take j rest).*1
  end.
Proof.
  revert done_ms c. induction rest as [|[[v n] sql] rest IH]; intros done_ms c Hm Hh.
  - cbn [for_each mret M_ret]. rewrite app_nil_r in Hm. unfold expected_history. by rewrite Hm.
  - cbn [for_each]. unfold mbind at 1, M_bind at 1.
    pose proof (run_migration_cases clock v n sql c) as Hc.
    destruct (run_migration clock (v, n, sql) c) as [[[]|e] c1] eqn:Hr.
    + destruct Hc as (c2 & _ & _ & _ & Hh1).
      assert ((cat_history c1).*1 = (done_ms ++ [(v, n, sql)]).*1) as Hh2.
      { rewrite Hh1 insert_last; [|by rewrite !fmap_app Hh].
        intros r Hr'. assert (r.1 ∈ done_ms.*1) as Hin by (rewrite -Hh; by apply list_elem_of_fmap_2).
        apply list_elem_of_fmap in Hin as (m & Hm1 & Hm2). unfold version_of. rewrite Hm1.
        destruct done_ms as [|m1 [|m2 [|m3 [|]]]]; unfold MIGRATIONS in Hm; cbn in Hm; simplify_eq;
          repeat (apply elem_of_cons in Hm2 as [->|Hm2]);
          first [by apply elem_of_nil in Hm2 | cbn; lia]. }
      specialize (IH (done_ms ++ [(v, n, sql)]) c1).
      rewrite -app_assoc in IH. specialize (IH Hm Hh2).
      destruct (for_each (run_migration clock) rest c1) as [[[]|e] c3]; [done|].
      destruct IH as (j & Hj & Hrun & Hhist). exists (S j). cbn. split; [lia|].
      unfold mbind, M_bind. rewrite Hr Hrun. split; [done|]. by rewrite Hhist -app_assoc.
    + exists 0%nat. cbn. split; [lia|]. split; [by subst|]. by rewrite app_nil_r Hc.
Qed.

Lemma ddl_runs c : exists c0, execute_batch MIGRATIONS_DDL c = (Ok tt, c0) /\
  cat_history c0 = cat_history c /\ cat_indexes c0 = cat_indexes c /\
  (forall name, name <> MIGRATIONS_TABLE -> assoc name (cat_tables c0) = assoc name (cat_tables c)).
Proof.
  unfold execute_batch, MIGRATIONS_DDL. cbn [for_each]. unfold mbind, M_bind. cbn [exec_stmt].
  destruct (assoc MIGRATIONS_TABLE (cat_tables c)) eqn:Ha; (eexists; split; [reflexivity|]; split_and!; try done).
  intros name Hname. cbn [set_tables cat_tables].
  induction (cat_tables c) as [|[k v] l IH]; cbn [assoc app] in *.
  - by rewrite (proj2 (String.eqb_neq _ _) Hname).
  - destruct (String.eqb MIGRATIONS_TABLE k); [done|]. destruct (String.eqb name k); [done|]. by apply IH.
Qed.

Lemma run_migrations_eq clock c c0 :
  execute_batch MIGRATIONS_DDL c = (Ok tt, c0) ->
  run_migrations clock c =
    match check_history 0 (cat_history c0).*1 with
    | Ok _ => for_each (run_migration clock) (drop (length (cat_history c0).*1) MIGRATIONS) c0
    | Err e => (Err e, c0)
    end.
Proof.
  intros H. unfold run_migrations. unfold mbind at 1, M_bind at 1. rewrite H.
  unfold applied_migrations, gets, lift, mbind, M_bind. by destruct (check_history _ _) as [[]|].
Qed.

(** Once a table exists it stays. *)
Lemma assoc_app {V} k (l l' : list (string * V)) : is_Some (assoc k l) -> is_Some (assoc k (l ++ l')).
Proof. induction l as [|[k' v] l IH]; cbn; [by intros []|]. by destruct (String.eqb k k'). Qed.

Lemma exec_stmt_assoc name s c :
  is_Some (assoc name (cat_tables c)) -> is_Some (assoc name (cat_tables (snd (exec_stmt s c)))).
Proof.
  intros H. destruct s as [ine n cols|ine n on|t col]; cbn; repeat case_match; try done; cbn.
  - by apply assoc_app.
  - clear -H. induction (cat_tables c) as [|[k v] l IH]; cbn in *; [done|].
    destruct (String.eqb name k); [by eexists|]. by apply IH.
Qed.

Lemma for_each_inv {S A} (I : S -> Prop) (f : A -> M S unit) xs s :
  (forall x s, I s -> I (snd (f x s))) -> I s -> I (snd (for_each f xs s)).
Proof.
  intros Hf. revert s. induction xs as [|x xs IH]; intros s Hs; [done|]. cbn [for_each].
  unfold mbind, M_bind. specialize (Hf x s Hs). destruct (f x s) as [[[]|e] s']; [by apply IH|done].
Qed.

Lemma run_migration_assoc name clock m c :
  is_Some (assoc name (cat_tables c)) -> is_Some (assoc name (cat_tables (snd (run_migration clock m c)))).
Proof.
  intros H. destruct m as [[v n] sql]. pose proof (run_migration_cases clock v n sql c) as Hc.
  destruct (run_migration clock (v, n, sql) c) as [[[]|e] c']; cbn; [|by subst].
  destruct Hc as (c1 & Hrun & -> & _).
  pose proof (for_each_inv (fun c => is_Some (assoc name (cat_tables c))) exec_stmt sql c
    (fun s c => exec_stmt_assoc name s c) H) as Hall.
  unfold execute_batch in Hrun. by rewrite Hrun in Hall.
Qed.

Lemma ddl_idle c : is_Some (assoc MIGRATIONS_TABLE (cat_tables c)) -> execute_batch MIGRATIONS_DDL c = (Ok tt, c).
Proof.
  intros [cols H]. unfold execute_batch, MIGRATIONS_DDL. cbn [for_each]. unfold mbind, M_bind.
  cbn [exec_stmt]. by rewrite H.
Qed.

Lemma ddl_table c c0 : execute_batch MIGRATIONS_DDL c = (Ok tt, c0) ->
  is_Some (assoc MIGRATIONS_TABLE (cat_tables c0)).
Proof.
  unfold execute_batch, MIGRATIONS_DDL. cbn [for_each]. unfold mbind, M_bind. cbn [exec_stmt].
  destruct (assoc MIGRATIONS_TABLE (cat_tables c)) as [cols|] eqn:Ha; intros [= <-]; [by exists cols|].
  cbn [set_tables cat_tables]. clear -Ha. induction (cat_tables c) as [|[k v] l IH]; [by eexists|].
  cbn [assoc app] in *. destruct (String.eqb MIGRATIONS_TABLE k); [done|]. by apply IH.
Qed.

(** A database that has the whole history is left alone. *)
Lemma run_migrations_idle clock c :
  is_Some (assoc MIGRATIONS_TABLE (cat_tables c)) -> (cat_history c).*1 = expected_history ->
  run_migrations clock c = (Ok tt, c).
Proof.
  intros Ht Hh. rewrite (run_migrations_eq clock c c (ddl_idle c Ht)) Hh.
  assert (check_history 0 expected_history = Ok tt) as ->.
  { apply check_history_ok. exists []. by rewrite app_nil_r. }
  by rewrite drop_ge.
Qed.

Lemma schema_version_history c : (cat_history c).*1 = expected_history -> schema_version c = (Ok 3, c).
Proof.
  intros Hh. unfold schema_version, gets.
  assert (map version_of (cat_history c) = fst <$> (cat_history c).*1) as ->
    by (by rewrite -list_fmap_compose).
  by rewrite Hh.
Qed.
End MigrateFacts.
