(* ===== verification/Settings.v ===== *)
(** Configuration that enters the hub from outside and what it is checked
    against: the assistant and update settings, the run configuration, node
    eligibility, the installer's arguments and the bearer token
    (crates/stackhour-hub/src/lib.rs). A [Result<(), String>] is a [Result]
    whose error carries that string as its message. *)
From S2P Require Import Prelude.
From S2P Require Import RustStr.
From S2P Require Import Platform.
From S2P Require Import Ids.
From S2P Require Import Entities.
From S2P Require Import Event.
From S2P Require Import Protocol.
From S2P Require Import Wire.

Local Open Scope Z_scope.

Definition HUB_NODE_NAME : string := "hub".
Definition ASSISTANT_SETTINGS_KEY : string := "assistant.settings".
Definition UPDATE_SETTINGS_KEY : string := "update.settings".
Definition CLAIRE_PERSONALITY : string :=
  "You are Claire, Nikita's personal operations assistant. " +:+
  "You are warm, composed, candid, lightly witty, and economical with words. You remember context, " +:+
  "take ownership of follow-through, and distinguish clearly between what you know, what you inferred, " +:+
  "and what you changed. You coordinate Stackhour tasks and coding agents; do not pretend work happened " +:+
  "until a durable Stackhour event confirms it.".

Record AssistantSettings := MkAssistantSettings {
  as_name : string; as_personality : string; as_engine : string;
  as_claude_model : option string; as_codex_model : option string;
  as_reasoning_effort : string; as_workspace : option string;
  as_memory_enabled : bool; as_memory_command : option string; as_memory_dir : option string;
}.

Record UpdateSettings := MkUpdateSettings {
  us_automatic : bool; us_interval_hours : Z; us_include_nodes : bool;
}.

(** [Default] *)
Definition UpdateSettings_default : UpdateSettings := MkUpdateSettings false 24 true.
Definition AssistantSettings_default : AssistantSettings :=
  MkAssistantSettings "Claire" CLAIRE_PERSONALITY "claude" None None "high" None false None None.

(** *** Validation *)

(** [UpdateSettings::validate] *)
Definition validate_update (s : UpdateSettings) : Result unit :=
  if negb ((1 <=? us_interval_hours s) && (us_interval_hours s <=? 168))
  then Err (Error_msg "interval_hours must be between 1 and 168") else Ok tt.

Definition validate_text (label value : string) (max : N) : Result unit :=
  if is_blank value then Err (Error_msg (label +:+ " must not be blank"))
  else if (max <? N.of_nat (length (chars value)))%N || existsb is_control (chars value)
  then Err (Error_msg (label +:+ " is invalid or longer than " +:+ pretty max +:+ " characters"))
  else Ok tt.

Definition validate_identifier (label value : string) : Result unit :=
  validate_text label value 200 ≫= fun _ =>
  if existsb (fun ch => negb (is_ascii_alphanumeric ch || one_of "._-/:" ch)) (chars value)
  then Err (Error_msg (label +:+ " contains unsupported characters")) else Ok tt.

(** [for (label, value) in [..] { if let Some(value) = value { check(label, value)?; } }] *)
Fixpoint check_each (check : string -> string -> Result unit) (xs : list (string * option string))
    : Result unit :=
  match xs with
  | [] => Ok tt
  | (_, None) :: xs' => check_each check xs'
  | (label, Some value) :: xs' => check label value ≫= fun _ => check_each check xs'
  end.

Definition is_effort (s : string) : bool :=
  String.eqb s "low" || String.eqb s "medium" || String.eqb s "high".

Definition check_path (label value : string) : Result unit :=
  validate_text label value 1024 ≫= fun _ =>
  if negb (path_is_absolute value) then Err (Error_msg (label +:+ " must be an absolute path"))
  else Ok tt.

(** [AssistantSettings::validate] *)
Definition validate_assistant (s : AssistantSettings) : Result unit :=
  validate_text "name" (as_name s) 40 ≫= fun _ =>
  validate_text "personality" (as_personality s) 16000 ≫= fun _ =>
  if negb (String.eqb (as_engine s) "claude" || String.eqb (as_engine s) "codex")
  then Err (Error_msg "engine must be claude or codex")
  else if negb (is_effort (as_reasoning_effort s))
  then Err (Error_msg "reasoning_effort must be low, medium, or high")
  else
    check_each validate_identifier
      [("claude_model", as_claude_model s); ("codex_model", as_codex_model s)]%string ≫= fun _ =>
    check_each check_path
      [("workspace", as_workspace s); ("memory_command", as_memory_command s);
       ("memory_dir", as_memory_dir s)]%string ≫= fun _ =>
    if as_memory_enabled s && bool_decide (as_memory_command s = None)
    then Err (Error_msg "memory_command is required when OptMem is enabled") else Ok tt.

(** [AssistantSettings::model] *)
Definition assistant_model (s : AssistantSettings) : option string :=
  if String.eqb (as_engine s) "claude" then as_claude_model s
  else if String.eqb (as_engine s) "codex" then as_codex_model s else None.

Definition has_nul (s : string) : bool := existsb (N.eqb 0) (chars s).

(** [validate_run_configuration] *)
Definition validate_run_configuration (engine : string)
    (model reasoning_effort system_prompt workspace_path : option string) : Result unit :=
  validate_identifier "engine" engine ≫= fun _ =>
  match model with Some m => validate_identifier "model" m | None => Ok tt end ≫= fun _ =>
  match reasoning_effort with
  | Some e => if negb (is_effort e) then Err (Error_msg "reasoning_effort must be low, medium, or high") else Ok tt
  | None => Ok tt
  end ≫= fun _ =>
  match system_prompt with
  | Some p =>
      if str_is_empty p || (128 * 1024 <? str_len p)%N || has_nul p
      then Err (Error_msg "system_prompt is empty, too large, or contains NUL") else Ok tt
  | None => Ok tt
  end ≫= fun _ =>
  match workspace_path with
  | Some p =>
      if negb (path_is_absolute p) || has_nul p
      then Err (Error_msg "workspace_path must be an absolute path") else Ok tt
  | None => Ok tt
  end.

(** *** The installer's arguments *)

Inductive InstallMode := Local | Ssh.

Record InstallRequest := MkInstallRequest {
  in_mode : InstallMode; in_node_id : string; in_hub_url : string; in_workspace : option string;
  in_claude_bin : option string; in_codex_bin : option string; in_host : option string;
  in_user : option string; in_port : option Z; in_identity : option string;
}.

(** The double quote, which a Rocq string literal cannot spell. *)
Definition DQUOTE : N := 34.

Definition unsafe_char (ch : N) : bool :=
  is_control ch || one_of "'`$;|&" ch || (ch =? DQUOTE)%N.

(** [safe_identifier] *)
Definition safe_identifier (label value : string) : Result unit :=
  if is_blank value || (200 <? str_len value)%N || existsb unsafe_char (chars value)
  then Err (Error_msg (label +:+ " contains unsafe characters")) else Ok tt.

(** [push_option] *)
Definition push_option (args : list string) (name : string) (value : option string) : list string :=
  match value with
  | Some v => if is_blank v then args else args ++ ["--" +:+ name +:+ "=" +:+ v]
  | None => args
  end.

(** [install_args] *)
Definition install_args (r : InstallRequest) : Result (list string) :=
  safe_identifier "node id" (in_node_id r) ≫= fun _ =>
  if negb (starts_with "ws://" (in_hub_url r)) && negb (starts_with "wss://" (in_hub_url r))
  then Err (Error_msg "hub URL must use ws or wss")
  else
    let args := ["control"; "install"; match in_mode r with Local => "node" | Ssh => "ssh" end;
                 "--hub-url=" +:+ in_hub_url r; "--id=" +:+ in_node_id r]%string in
    let args := push_option args "workspace" (in_workspace r) in
    let args := push_option args "claude-bin" (in_claude_bin r) in
    let args := push_option args "codex-bin" (in_codex_bin r) in
    match in_mode r with
    | Local => Ok args
    | Ssh =>
        host ← ok_or (in_host r) (Error_msg "SSH host is required");
        safe_identifier "SSH host" host ≫= fun _ =>
        let args := args ++ ["--host=" +:+ host] in
        args ← match in_user r with
               | Some user =>
                   safe_identifier "SSH user" user ≫= fun _ => Ok (args ++ ["--user=" +:+ user])
               | None => Ok args
               end;
        args ← match in_port r with
               | Some port =>
                   if port =? 0 then Err (Error_msg "SSH port must be between 1 and 65535")
                   else Ok (args ++ ["--port=" +:+ pretty port])
               | None => Ok args
               end;
        Ok (push_option args "identity" (in_identity r))
    end.

(** [bearer]: [header] is the Authorization header, when it is visible ASCII. *)
Definition bearer (header : option string) : option string :=
  match header ≫= strip_prefix "Bearer " with
  | Some token => if str_is_empty token then None else Some token
  | None => None
  end.

(** The version check of [schedule_local_update]. *)
Definition update_version_ok (version : string) : bool :=
  negb (str_is_empty version || (80 <? str_len version)%N
        || existsb (fun ch => negb (is_ascii_alphanumeric ch || one_of ".-+" ch)) (chars version)).

Section Settings.
Context {P : Platform}.

(** The [NodeId] of hub-originated events, and the sentinel task. *)
Definition hub_node : NodeId := MkNodeId HUB_NODE_NAME.
Definition system_task : TaskId :=
  match id_from_str "00000000-0000-0000-0000-000000000000" with
  | Ok i => i
  | Err _ => MkId uuid_nil
  end.

Record AssistantSession := MkAssistantSession {
  ss_task_id : TaskId; ss_run_id : option RunId; ss_engine : string;
  ss_provider_session_id : option string; ss_pending_wake_event_id : option EventId;
  ss_pending_follow_up : option string; ss_action_follow_up_in_progress : bool;
}.

(** [node_accepts_engine] *)
Definition node_accepts_engine (capabilities : Value) (engine : string) : bool :=
  if bool_decide ((value_get capabilities "accepts_tasks" ≫= value_as_bool) = Some false) then false
  else
    match value_get capabilities "engines" ≫= value_as_array with
    | Some engines => existsb (fun v => bool_decide (value_as_str v = Some engine)) engines
    | None => false
    end
    || bool_decide ((value_get capabilities engine ≫= value_as_bool) = Some true).

(** *** JSON *)

Definition assistant_to_value (s : AssistantSettings) : Value := object_of
  [("name", Some (value_str (as_name s)));
   ("personality", Some (value_str (as_personality s)));
   ("engine", Some (value_str (as_engine s)));
   ("claude_model", Some (nullable value_str (as_claude_model s)));
   ("codex_model", Some (nullable value_str (as_codex_model s)));
   ("reasoning_effort", Some (value_str (as_reasoning_effort s)));
   ("workspace", Some (nullable value_str (as_workspace s)));
   ("memory_enabled", Some (value_bool (as_memory_enabled s)));
   ("memory_command", Some (nullable value_str (as_memory_command s)));
   ("memory_dir", Some (nullable value_str (as_memory_dir s)))]%string.

Definition assistant_from_value (v : Value) : option AssistantSettings :=
  name ← req value_as_str v "name";
  personality ← req value_as_str v "personality";
  engine ← req value_as_str v "engine";
  claude_model ← opt value_as_str v "claude_model";
  codex_model ← opt value_as_str v "codex_model";
  reasoning_effort ← req value_as_str v "reasoning_effort";
  workspace ← opt value_as_str v "workspace";
  memory_enabled ← req value_as_bool v "memory_enabled";
  memory_command ← opt value_as_str v "memory_command";
  memory_dir ← opt value_as_str v "memory_dir";
  Some (MkAssistantSettings name personality engine claude_model codex_model reasoning_effort
          workspace memory_enabled memory_command memory_dir).

(** A [u16] *)
Definition value_as_u16 (v : Value) : option Z :=
  z ← value_as_i64 v; if (0 <=? z) && (z <=? 65535) then Some z else None.

Definition update_to_value (s : UpdateSettings) : Value := object_of
  [("automatic", Some (value_bool (us_automatic s)));
   ("interval_hours", Some (value_i64 (us_interval_hours s)));
   ("include_nodes", Some (value_bool (us_include_nodes s)))]%string.

Definition update_from_value (v : Value) : option UpdateSettings :=
  automatic ← req value_as_bool v "automatic";
  interval_hours ← req value_as_u16 v "interval_hours";
  include_nodes ← req value_as_bool v "include_nodes";
  Some (MkUpdateSettings automatic interval_hours include_nodes).

Definition session_to_value (s : AssistantSession) : Value := object_of
  [("task_id", Some (id_to_value (ss_task_id s)));
   ("run_id", Some (nullable id_to_value (ss_run_id s)));
   ("engine", Some (value_str (ss_engine s)));
   ("provider_session_id", value_str <$> ss_provider_session_id s);
   ("pending_wake_event_id", id_to_value <$> ss_pending_wake_event_id s);
   ("pending_follow_up", value_str <$> ss_pending_follow_up s);
   ("action_follow_up_in_progress", Some (value_bool (ss_action_follow_up_in_progress s)))]%string.

(** [#[serde(default)]] of a [bool]: absent is [false]. *)
Definition default_bool (v : Value) (k : string) : option bool :=
  match value_get v k with None => Some false | Some w => value_as_bool w end.

Definition session_from_value (v : Value) : option AssistantSession :=
  task_id ← req id_from_value v "task_id";
  run_id ← opt id_from_value v "run_id";
  engine ← req value_as_str v "engine";
  provider_session_id ← opt value_as_str v "provider_session_id";
  pending_wake_event_id ← opt id_from_value v "pending_wake_event_id";
  pending_follow_up ← opt value_as_str v "pending_follow_up";
  action ← default_bool v "action_follow_up_in_progress";
  Some (MkAssistantSession task_id run_id engine provider_session_id pending_wake_event_id
          pending_follow_up action).
End Settings.

Section SettingsLaws.
Context {P : Platform} {PL : PlatformLaws P}.

Lemma assistant_roundtrip s : assistant_from_value (assistant_to_value s) = Some s.
Proof. unfold assistant_from_value, assistant_to_value. wire_solve. by destruct s. Qed.

Lemma update_roundtrip s : 0 <= us_interval_hours s <= 65535 ->
  update_from_value (update_to_value s) = Some s.
Proof.
  intros [H1 H2]. unfold update_from_value, update_to_value, value_as_u16. wire_solve.
  destruct s as [a i n]. cbn in *. by rewrite (proj2 (Z.leb_le _ _) H1) (proj2 (Z.leb_le _ _) H2).
Qed.

Lemma session_roundtrip s : session_from_value (session_to_value s) = Some s.
Proof.
  unfold session_from_value, session_to_value, default_bool. wire_solve.
  by destruct s.
Qed.
End SettingsLaws.

(** *** The installer's arguments *)
Section InstallFacts.
Lemma safe_identifier_ok label v : safe_identifier label v = Ok tt -> existsb unsafe_char (chars v) = false.
Proof. unfold safe_identifier. by destruct (is_blank v), (_ <? _)%N, (existsb unsafe_char _). Qed.

Definition dashed (a : string) : Prop := starts_with "--" a = true.

(** A call of the installer: its three words, then options only. *)
Definition installer_call (mode : string) (args : list string) : Prop :=
  exists rest, args = ("control" :: "install" :: mode :: rest)%string /\ Forall dashed rest.

Lemma installer_call_snoc mode args a :
  installer_call mode args -> dashed a -> installer_call mode (args ++ [a]).
Proof.
  intros (rest & -> & H) Ha. exists (rest ++ [a]). split; [done|].
  apply Forall_app. split; [done|]. by apply Forall_singleton.
Qed.

Lemma installer_call_push mode args name v :
  installer_call mode args -> installer_call mode (push_option args name v).
Proof.
  intros H. destruct v as [v|]; cbn; [|done]. destruct (is_blank v); [done|].
  by apply installer_call_snoc.
Qed.

Lemma install_args_safe (r : InstallRequest) args :
  install_args r = Ok args ->
  (exists mode rest, args = "control" :: "install" :: mode :: rest /\ Forall dashed rest)%string /\
  (existsb unsafe_char (chars (in_node_id r)) = false) /\
  (in_mode r = Ssh -> exists host, in_host r = Some host /\
     existsb unsafe_char (chars host) = false /\
     (forall user, in_user r = Some user -> existsb unsafe_char (chars user) = false) /\
     in_port r <> Some 0).
Proof.
  unfold install_args. intros H. apply bind_ok in H as ([] & Hid & H).
  apply safe_identifier_ok in Hid. destruct (_ && _); [done|]. cbv zeta in H.
  remember (push_option _ "codex-bin" _) as args0 eqn:Hargs0.
  assert (installer_call (match in_mode r with Local => "node" | Ssh => "ssh" end)%string args0) as Hc.
  { subst args0. do 3 apply installer_call_push. eexists. split; [reflexivity|]. by repeat constructor. }
  clear Hargs0. destruct (in_mode r).
  { injection H as <-. destruct Hc as (rest & -> & Hr). split_and!; [by eexists _, rest|done|done]. }
  apply bind_ok in H as (host & Hhost & H). apply bind_ok in H as ([] & Hh & H).
  apply bind_ok in H as (a1 & Hu & H). apply bind_ok in H as (a2 & Hp & H).
  apply safe_identifier_ok in Hh. injection H as <-.
  assert (installer_call "ssh" a1) as H1.
  { apply (installer_call_snoc _ _ ("--host=" +:+ host)) in Hc; [|done]. destruct (in_user r) as [u|].
    - apply bind_ok in Hu as ([] & _ & [= <-]). by apply installer_call_snoc.
    - by injection Hu as <-. }
  assert (installer_call "ssh" a2) as H2.
  { destruct (in_port r) as [p|]; [destruct (p =? 0); [done|]|]; injection Hp as <-; [|done].
    by apply installer_call_snoc. }
  apply (installer_call_push _ _ "identity" (in_identity r)) in H2 as (rest & -> & Hr).
  split_and!; [by eexists _, rest|done|]. intros _. exists host. split_and!.
  - destruct (in_host r); cbn in Hhost; congruence.
  - done.
  - intros u Huser. rewrite Huser in Hu. apply bind_ok in Hu as ([] & Hs & _).
    by apply safe_identifier_ok in Hs.
  - intros Hport. by rewrite Hport in Hp.
Qed.
End InstallFacts.
