(* ===== verification/HubState.v ===== *)
(** The hub's shared state and the methods on it that are not client commands
    (crates/stackhour-hub/src/lib.rs): the guarded store, the live-event bus,
    the connected-node registry, the routing cache, the node lifecycle events
    and the settings. Each definition is one critical section of the code, run
    atomically. *)
From S2P Require Import Prelude.
From S2P Require Import RustStr.
From S2P Require Import Platform.
From S2P Require Import Ids.
From S2P Require Import Entities.
From S2P Require Import Event.
From S2P Require Import Protocol.
From S2P Require Import Wire.
From S2P Require Import Schema.
From S2P Require Import Store.
From S2P Require Import Settings.

Local Open Scope Z_scope.

Section Hub.
Context {P : Platform}.

(** What a run of the hub draws from its environment: the n-th clock reading
    and the n-th random UUID; and the derived [Debug] text of a rejection. *)
Class Env := {
  env_now : nat -> Time;
  env_uuid : nat -> Uuid;
  env_debug_error : option ProtocolError -> string;
}.

(** [NodeConnection]; the sender half of a channel is the channel's index. *)
Record NodeConnection := MkConnection { nc_id : Z; nc_sender : nat }.

(** An unbounded mpsc channel: whether its receiver still exists, and the
    messages sent and not yet received. *)
Record Channel := MkChannel { ch_open : bool; ch_queue : list HubToNode }.

Record HubState := MkHubState {
  hs_hub : Db;
  hs_node_secret : string;
  hs_client_secret : string;
  hs_events : list Event;                      (* every event sent on the bus, in order *)
  hs_nodes : gmap NodeId NodeConnection;
  hs_next_node_connection_id : Z;
  hs_run : gmap RunId (NodeId * TaskId);       (* [Routing::run] *)
  hs_task : gmap TaskId NodeId;                (* [Routing::task] *)
  hs_channels : list Channel;
  hs_ticks : nat;                              (* clock readings made *)
  hs_draws : nat;                              (* UUIDs drawn *)
}.

(** [HubState::from_hub] *)
Definition from_hub (hub : Db) (node_secret client_secret : string) : HubState :=
  MkHubState hub node_secret client_secret [] ∅ 1 ∅ ∅ [] 0 0.

(** [HubState::in_memory], [HubState::in_memory_secured] *)
Definition in_memory (node_secret : string) : HubState := from_hub empty_db node_secret "".
Definition in_memory_secured (node_secret client_secret : string) : HubState :=
  from_hub empty_db node_secret client_secret.

Definition set_hub (x : Db) (s : HubState) : HubState :=
  MkHubState x (hs_node_secret s) (hs_client_secret s) (hs_events s) (hs_nodes s)
    (hs_next_node_connection_id s) (hs_run s) (hs_task s) (hs_channels s) (hs_ticks s) (hs_draws s).
Definition set_events (x : list Event) (s : HubState) : HubState :=
  MkHubState (hs_hub s) (hs_node_secret s) (hs_client_secret s) x (hs_nodes s)
    (hs_next_node_connection_id s) (hs_run s) (hs_task s) (hs_channels s) (hs_ticks s) (hs_draws s).
Definition set_nodes (x : gmap NodeId NodeConnection) (s : HubState) : HubState :=
  MkHubState (hs_hub s) (hs_node_secret s) (hs_client_secret s) (hs_events s) x
    (hs_next_node_connection_id s) (hs_run s) (hs_task s) (hs_channels s) (hs_ticks s) (hs_draws s).
Definition set_next_id (x : Z) (s : HubState) : HubState :=
  MkHubState (hs_hub s) (hs_node_secret s) (hs_client_secret s) (hs_events s) (hs_nodes s)
    x (hs_run s) (hs_task s) (hs_channels s) (hs_ticks s) (hs_draws s).
Definition set_routing (r : gmap RunId (NodeId * TaskId)) (t : gmap TaskId NodeId) (s : HubState) : HubState :=
  MkHubState (hs_hub s) (hs_node_secret s) (hs_client_secret s) (hs_events s) (hs_nodes s)
    (hs_next_node_connection_id s) r t (hs_channels s) (hs_ticks s) (hs_draws s).
Definition set_channels (x : list Channel) (s : HubState) : HubState :=
  MkHubState (hs_hub s) (hs_node_secret s) (hs_client_secret s) (hs_events s) (hs_nodes s)
    (hs_next_node_connection_id s) (hs_run s) (hs_task s) x (hs_ticks s) (hs_draws s).
Definition set_draws (ticks draws : nat) (s : HubState) : HubState :=
  MkHubState (hs_hub s) (hs_node_secret s) (hs_client_secret s) (hs_events s) (hs_nodes s)
    (hs_next_node_connection_id s) (hs_run s) (hs_task s) (hs_channels s) ticks draws.

Context {E : Env}.

(** [Utc::now()], [$Id::new()] *)
Definition utc_now : M HubState Time := fun s =>
  (Ok (env_now (hs_ticks s)), set_draws (S (hs_ticks s)) (hs_draws s) s).
Definition fresh_id {k} : M HubState (Id k) := fun s =>
  (Ok (id_new (env_uuid (hs_draws s))), set_draws (hs_ticks s) (S (hs_draws s)) s).

(** [HubState::with_hub]: a closure against the single guarded store. *)
Definition with_hub {A} (f : M Db A) : M HubState A := fun s =>
  let '(r, d) := f (hs_hub s) in (r, set_hub d s).

(** [events.send(event)]: no receiver is not an error here. *)
Definition bus_send (e : Event) : M HubState unit := modify (fun s => set_events (hs_events s ++ [e]) s).

(** *** Append and broadcast *)

(** [fetch_event] *)
Definition fetch_event (sequence : Z) : M Db (option Event) :=
  events ← events_after (sequence - 1);
  mret (List.find (fun e => e_sequence e =? sequence) events).

(** [if outcome.created { if let Some(event) = fetch_event(..)? { send(event) } }] *)
Definition broadcast_created (outcome : AppendOutcome) : M HubState AppendOutcome :=
  if o_created outcome then
    event ← with_hub (fetch_event (o_sequence outcome));
    match event with
    | Some e => bus_send e
    | None => mret tt
    end ≫= fun _ => mret outcome
  else mret outcome.

(** [HubState::append_and_broadcast_command] *)
Definition append_and_broadcast_command (command_id : CommandId) (draft : EventDraft)
    (entity : EntityWrite) (dispatch : option (NodeId * HubToNode)) : M HubState AppendOutcome :=
  received_at ← utc_now;
  fresh ← fresh_id;
  outcome ← with_hub (append_command_bundle received_at fresh command_id draft entity dispatch);
  broadcast_created outcome.

(** [HubState::append_and_broadcast_node_event] *)
Definition append_and_broadcast_node_event (event_id : EventId) (draft : EventDraft)
    : M HubState AppendOutcome :=
  received_at ← utc_now;
  outcome ← with_hub (append_node_event received_at event_id draft);
  broadcast_created outcome.

(** [HubState::read_events_after], [read_recent_events], [task_events] *)
Definition read_events_after (after : Z) : M HubState (list Event) := with_hub (events_after after).
Definition read_recent_events (limit : nat) : M HubState (list Event) := with_hub (recent_events limit).
Definition task_events (task_id : TaskId) : M HubState (list Event) :=
  with_hub (task_events_tail task_id 200).

(** [HubState::snapshot] *)
Definition snapshot (after : Z) : M HubState (Z * list Event) :=
  all ← with_hub (events_after 0);
  let head := default 0 (e_sequence <$> last all) in
  mret (head, List.filter (fun e => after <? e_sequence e) all).

(** *** Credentials *)

(** [HubState::negotiate_node] *)
Definition negotiate_node (hello : NodeHello) (s : HubState) : HubWelcome :=
  if negb (String.eqb (h_token hello) (hs_node_secret s)) then welcome_reject Unauthenticated
  else negotiate (h_protocol_version hello).

(** [HubState::accepts_client] *)
Definition accepts_client (token : option string) (s : HubState) : bool :=
  str_is_empty (hs_client_secret s)
  || match token with
     | Some candidate => String.eqb candidate (hs_client_secret s)
     | None => false
     end.

(** *** The node registry *)

(** [mpsc::unbounded_channel()]: a new channel, by its index. *)
Definition unbounded_channel : M HubState nat := fun s =>
  (Ok (length (hs_channels s)), set_channels (hs_channels s ++ [MkChannel true []]) s).

(** The receiver is dropped: later sends fail. *)
Definition drop_receiver (c : nat) : M HubState unit := modify (fun s =>
  set_channels (alter (fun ch => MkChannel false (ch_queue ch)) c (hs_channels s)) s).

(** [sender.send(msg).is_ok()] *)
Definition channel_send (c : nat) (msg : HubToNode) : M HubState bool := fun s =>
  match hs_channels s !! c with
  | Some ch =>
      if ch_open ch
      then (Ok true, set_channels (<[c := MkChannel true (ch_queue ch ++ [msg])]> (hs_channels s)) s)
      else (Ok false, s)
  | None => (Ok false, s)
  end.

(** [HubState::register_node]; the id counter is an [AtomicU64]. *)
Definition register_node (node_id : NodeId) (tx : nat) : M HubState Z := fun s =>
  let connection_id := hs_next_node_connection_id s in
  (Ok connection_id,
   set_nodes (<[node_id := MkConnection connection_id tx]> (hs_nodes s))
     (set_next_id ((connection_id + 1) mod 2 ^ 64) s)).

(** [HubState::unregister_node] *)
Definition unregister_node (node_id : NodeId) (connection_id : Z) : M HubState bool := fun s =>
  match hs_nodes s !! node_id with
  | Some current =>
      if nc_id current =? connection_id then (Ok true, set_nodes (delete node_id (hs_nodes s)) s)
      else (Ok false, s)
  | None => (Ok false, s)
  end.

(** [HubState::route_to_node] *)
Definition route_to_node (node_id : NodeId) (msg : HubToNode) : M HubState bool := fun s =>
  match hs_nodes s !! node_id with
  | Some connection => channel_send (nc_sender connection) msg s
  | None => (Ok false, s)
  end.

(** [HubState::replay_pending] *)
Definition replay_pending (node_id : NodeId) : M HubState unit :=
  pending ← try (with_hub (pending_dispatches node_id));
  for_each (fun item => route_to_node node_id (pd_message item) ≫= fun _ => mret tt)
    (default [] (res_ok pending)).

(** [HubState::acknowledge_dispatch_from] *)
Definition hub_acknowledge_dispatch_from (node_id : NodeId) (command_id : CommandId) : M HubState unit :=
  now ← utc_now;
  try (with_hub (acknowledge_dispatch_from now command_id node_id)) ≫= fun _ => mret tt.

(** *** Routing *)

(** [HubState::remember_run] *)
Definition remember_run (run_id : RunId) (node_id : NodeId) (task_id : TaskId) : M HubState unit :=
  modify (fun s => set_routing (<[run_id := (node_id, task_id)]> (hs_run s))
                     (<[task_id := node_id]> (hs_task s)) s).

(** [HubState::run_binding_checked] *)
Definition run_binding_checked (run_id : RunId) : M HubState (option (NodeId * TaskId)) :=
  cached ← gets (fun s => hs_run s !! run_id);
  match cached with
  | Some b => mret (Some b)
  | None =>
      found ← with_hub (get_run run_id);
      match found with
      | None => mret None
      | Some run =>
          remember_run (r_id run) (r_node_id run) (r_task_id run) ≫= fun _ =>
          mret (Some (r_node_id run, r_task_id run))
      end
  end.

(** [HubState::run_binding]: [.ok().flatten()] *)
Definition run_binding (run_id : RunId) : M HubState (option (NodeId * TaskId)) :=
  r ← try (run_binding_checked run_id);
  mret (mjoin (res_ok r)).

(** [HubState::node_for_run], [HubState::node_for_task] *)
Definition node_for_run (run_id : RunId) : M HubState (option NodeId) :=
  b ← run_binding run_id; mret (fst <$> b).
Definition node_for_task (task_id : TaskId) : M HubState (option NodeId) :=
  gets (fun s => hs_task s !! task_id).

(** [HubState::accepts_node_event] *)
Definition accepts_node_event (authenticated_node : NodeId) (draft : EventDraft) : M HubState bool :=
  if negb (bool_decide (d_node_id draft = authenticated_node)) then mret false
  else match d_run_id draft with
       | None => mret false
       | Some run_id =>
           binding ← run_binding_checked run_id;
           mret (match binding with
                 | Some (node_id, task_id) =>
                     bool_decide (node_id = authenticated_node) && bool_decide (task_id = d_task_id draft)
                 | None => false
                 end)
       end.

(** *** Node lifecycle events *)

(** [HubState::on_node_connected] *)
Definition on_node_connected (hello : NodeHello) : M HubState unit :=
  let node := MkNode (h_node_id hello) (node_as_str (h_node_id hello)) ConnectionStatus.Connected
                (h_software_version hello) (h_capabilities hello) (h_resume_after_sequence hello) in
  try (with_hub (upsert_node node)) ≫= fun _ =>
  now ← utc_now;
  let draft := with_payload
    (value_object [("software_version", value_str (h_software_version hello));
                   ("capabilities", h_capabilities hello)]%string)
    (draft_new now NodeConnected system_task (h_node_id hello)) in
  event_id ← fresh_id;
  try (append_and_broadcast_node_event event_id draft) ≫= fun _ => mret tt.

(** [HubState::on_node_disconnected] *)
Definition on_node_disconnected (node_id : NodeId) : M HubState unit :=
  try (with_hub (
    found ← get_node node_id;
    match found with
    | Some node =>
        upsert_node (MkNode (n_id node) (n_label node) ConnectionStatus.Disconnected
                       (n_software_version node) (n_capabilities node) (n_last_seen_sequence node))
    | None => mret tt
    end)) ≫= fun _ =>
  now ← utc_now;
  event_id ← fresh_id;
  try (append_and_broadcast_node_event event_id
         (draft_new now NodeDisconnected system_task node_id)) ≫= fun _ => mret tt.

(** *** Listing and scheduling nodes *)

Record NodeView := MkNodeView {
  nv_id : string; nv_label : string; nv_status : string; nv_software_version : string;
  nv_capabilities : Value; nv_last_seen_sequence : option Z;
}.

Definition node_view (connected : gmap NodeId NodeConnection) (node : Node) : NodeView :=
  MkNodeView (node_as_str (n_id node)) (n_label node)
    (if bool_decide (is_Some (connected !! n_id node)) then "connected" else "disconnected")
    (n_software_version node) (n_capabilities node) (n_last_seen_sequence node).

(** [HubState::list_nodes] *)
Definition hub_list_nodes : M HubState (list NodeView) :=
  connected ← gets hs_nodes;
  nodes ← with_hub list_nodes;
  mret (node_view connected <$> nodes).

Definition eligible (connected : gmap NodeId NodeConnection) (engine : string)
    (preferred : option NodeId) (node : Node) : bool :=
  match preferred with Some wanted => bool_decide (wanted = n_id node) | None => true end
  && bool_decide (is_Some (connected !! n_id node))
  && node_accepts_engine (n_capabilities node) engine.

(** [HubState::eligible_execution_node] *)
Definition eligible_execution_node (engine : string) (preferred : option NodeId)
    : M HubState (NodeId + ProtocolError) :=
  connected ← gets hs_nodes;
  nodes ← try (with_hub list_nodes);
  mret (match nodes with
        | Err _ => inr (InvalidRequest "cannot read execution-node registry")
        | Ok nodes =>
            match List.find (eligible connected engine preferred) nodes with
            | Some node => inl (n_id node)
            | None => inr (NoEligibleNode engine preferred)
            end
        end).

(** [HubState::schedule_execution_node] *)
Definition schedule_execution_node (engine : string) (preferred : option NodeId) : M HubState NodeId :=
  r ← eligible_execution_node engine preferred;
  match r with
  | inl n => mret n
  | inr e => fail (Error_msg (protocol_error_display e))
  end.

(** [HubState::dispatch_update_to_nodes]; the registry is a hash map, so its
    iteration order is unspecified: one order is fixed here. *)
Definition UPDATE_EXPIRY : Z := 10 * 60 * nanos_per_second.
Fixpoint send_updates (version : string) (expires_at : Time) (cs : list NodeConnection)
    : M HubState nat :=
  match cs with
  | [] => mret 0%nat
  | c :: cs' =>
      command_id ← fresh_id;
      sent ← channel_send (nc_sender c)
               (HN_DispatchCommand command_id (Some expires_at) (NW_Update version));
      n ← send_updates version expires_at cs';
      mret (if (sent : bool) then S n else n)
  end.
Definition dispatch_update_to_nodes (version : string) : M HubState nat :=
  now ← utc_now;
  connections ← gets (fun s => snd <$> map_to_list (hs_nodes s));
  send_updates version (now + UPDATE_EXPIRY) connections.
End Hub.

Arguments Env P : clear implicits.
