(* ===== verification/HubCommands.v ===== *)
(** Client commands and the assistant's operations on the hub's state
    (crates/stackhour-hub/src/lib.rs): [apply_command] arm by arm, what it
    appends, what it dispatches and which receipt it answers with; the worker
    scheduler; the hub-local assistant; the durable settings. *)
From S2P Require Import Prelude.
From S2P Require Import RustStr.
From S2P Require Import Platform.
From S2P Require Import Ids.
From S2P Require Import Entities.
From S2P Require Import Event.
From S2P Require Import Protocol.
From S2P Require Import Wire.
From S2P Require Import Schema.
From S2P Require Import Store.
From S2P Require Import Settings.
From S2P Require Import HubState.

Local Open Scope Z_scope.

Section Commands.
Context {P : Platform} {E : Env P}.

(** [CommandEffect] *)
Record CommandEffect := MkEffect { ef_receipt : HubToClient; ef_dispatch : option (NodeId * HubToNode) }.

Definition rejected (command_id : CommandId) (e : ProtocolError) : CommandEffect :=
  MkEffect (rejected_receipt command_id e) None.

(** [HubState::finish_with_entity] *)
Definition finish_with_entity (command_id : CommandId) (draft : EventDraft)
    (dispatch : option (NodeId * HubToNode)) (entity : EntityWrite) : M HubState CommandEffect :=
  r ← try (append_and_broadcast_command command_id draft entity dispatch);
  mret (match r with
        | Ok outcome =>
            MkEffect (accepted_receipt command_id (o_sequence outcome) (o_event_id outcome))
              (if o_created outcome then dispatch else None)
        | Err _ => MkEffect (HC_CommandReceipt command_id false None None None) None
        end).

(** [HubState::finish] *)
Definition finish (command_id : CommandId) (draft : EventDraft)
    (dispatch : option (NodeId * HubToNode)) : M HubState CommandEffect :=
  finish_with_entity command_id draft dispatch EW_None.

Definition dispatch_command (command_id : CommandId) (work : NodeWork) : HubToNode :=
  HN_DispatchCommand command_id None work.

(** [ClientCommand::CreateTask] *)
Definition apply_create_task (command_id : CommandId) (title : string) : M HubState CommandEffect :=
  task_id ← fresh_id;
  created_at ← utc_now;
  now ← utc_now;
  let task := MkTask task_id title TaskStatus.Open created_at in
  let draft := with_payload (value_object [("title"%string, value_str title)])
                 (draft_new now TaskCreated task_id hub_node) in
  finish_with_entity command_id draft None (EW_Task task).

(** [ClientCommand::SendUserMessage] *)
Definition hub_local_message : string :=
  "hub-local assistant messages must be submitted by their owning supervisor".
Definition apply_send_user_message (command_id : CommandId) (task_id : TaskId) (run_id : option RunId)
    (text client_message_id : string) : M HubState CommandEffect :=
  of_run ← match run_id with Some r => node_for_run r | None => mret None end;
  node ← match of_run with Some n => mret (Some n) | None => node_for_task task_id end;
  if bool_decide (node = Some hub_node)
  then mret (rejected command_id (InvalidRequest hub_local_message))
  else
    let dispatch :=
      match node, run_id with
      | Some n, Some r =>
          Some (n, dispatch_command command_id (NW_SendPrompt task_id r text client_message_id))
      | _, _ => None
      end in
    now ← utc_now;
    let draft := set_run_id run_id
      (with_payload (value_object [("text", value_str text);
                                   ("client_message_id", value_str client_message_id)]%string)
        (draft_new now MessageUser task_id (default hub_node node))) in
    finish command_id draft dispatch.

Definition run_payload (engine : string) (model reasoning_effort : option string)
    (access_policy : AccessPolicy.t) (workspace_path : option string) : list (string * Value) :=
  [("engine", value_str engine); ("model", nullable value_str model);
   ("reasoning_effort", nullable value_str reasoning_effort);
   ("access_policy", policy_to_value access_policy);
   ("workspace_path", nullable value_str workspace_path)]%string.

(** [ClientCommand::StartRun], once its target node is chosen. *)
Definition start_run_on (node_id : NodeId) (command_id : CommandId) (task_id : TaskId)
    (engine : string) (model reasoning_effort system_prompt : option string)
    (access_policy : AccessPolicy.t) (workspace_path : option string) : M HubState CommandEffect :=
  run_id ← fresh_id;
  started_at ← utc_now;
  let run := MkRun run_id task_id node_id engine model reasoning_effort system_prompt access_policy
               workspace_path RunStatus.Started started_at in
  let dispatch := Some (node_id, dispatch_command command_id
    (NW_StartRun run_id task_id engine model reasoning_effort system_prompt access_policy
       workspace_path)) in
  now ← utc_now;
  let draft := with_payload
    (value_object (run_payload engine model reasoning_effort access_policy workspace_path))
    (with_run run_id (draft_new now RunStarted task_id node_id)) in
  effect ← finish_with_entity command_id draft dispatch (EW_Run run);
  match ef_dispatch effect with
  | Some _ => remember_run run_id node_id task_id
  | None => mret tt
  end ≫= fun _ =>
  mret effect.

(** [ClientCommand::StartRun] *)
Definition apply_start_run (reserved_node : option NodeId) (command_id : CommandId) (task_id : TaskId)
    (node_id : option NodeId) (engine : string) (model reasoning_effort system_prompt : option string)
    (access_policy : AccessPolicy.t) (workspace_path : option string) : M HubState CommandEffect :=
  match validate_run_configuration engine model reasoning_effort system_prompt workspace_path with
  | Err e => mret (rejected command_id (InvalidRequest (err_msg e)))
  | Ok _ =>
      target ← match reserved_node with
               | Some n => mret (inl n)
               | None => eligible_execution_node engine node_id
               end;
      match target with
      | inr error => mret (rejected command_id error)
      | inl n => start_run_on n command_id task_id engine model reasoning_effort system_prompt
                   access_policy workspace_path
      end
  end.

(** [ClientCommand::InterruptRun] *)
Definition hub_local_interrupt : string :=
  "hub-local assistant runs must be stopped by their owning supervisor".
Definition apply_interrupt_run (command_id : CommandId) (run_id : RunId) : M HubState CommandEffect :=
  binding ← run_binding run_id;
  if bool_decide ((fst <$> binding) = Some hub_node)
  then mret (rejected command_id (InvalidRequest hub_local_interrupt))
  else
    let node := fst <$> binding in
    let task_id := default system_task (snd <$> binding) in
    let dispatch := (fun n => (n, dispatch_command command_id (NW_InterruptRun run_id))) <$> node in
    now ← utc_now;
    let draft := with_run run_id (draft_new now RunInterrupted task_id (default hub_node node)) in
    finish command_id draft dispatch.

(** [ClientCommand::ResolveApproval] *)
Definition apply_resolve_approval (command_id : CommandId) (approval_id : ApprovalId)
    (decision : Decision.t) (actor : string) : M HubState CommandEffect :=
  now ← utc_now;
  r ← try (with_hub (resolve_approval approval_id decision actor now));
  match r with
  | Ok approval =>
      now' ← utc_now;
      let draft := set_run_id (Some (a_run_id approval))
        (with_payload (value_object [("approval_id", id_to_value approval_id);
                                     ("decision", decision_to_value (a_decision approval));
                                     ("actor", nullable value_str (a_resolved_by approval))]%string)
          (draft_new now' ApprovalResolved (a_task_id approval) hub_node)) in
      finish command_id draft None
  | Err _ => mret (rejected command_id (UnknownApproval approval_id))
  end.

(** The [match cmd] of [apply_command_inner]. *)
Definition apply_arm (cmd : ClientCommand) (reserved_node : option NodeId) : M HubState CommandEffect :=
  match cmd with
  | CC_CreateTask cid title => apply_create_task cid title
  | CC_SendUserMessage cid task_id run_id text cmid => apply_send_user_message cid task_id run_id text cmid
  | CC_StartRun cid task_id node_id engine model effort prompt policy workspace =>
      apply_start_run reserved_node cid task_id node_id engine model effort prompt policy workspace
  | CC_InterruptRun cid run_id => apply_interrupt_run cid run_id
  | CC_ResolveApproval cid approval_id decision actor => apply_resolve_approval cid approval_id decision actor
  end.

(** [HubState::apply_command_inner] *)
Definition apply_command_inner (cmd : ClientCommand) (reserved_node : option NodeId)
    : M HubState CommandEffect :=
  replay ← try (with_hub (command_outcome (command_id cmd)));
  match replay with
  | Ok (Some outcome) =>
      mret (MkEffect (accepted_receipt (command_id cmd) (o_sequence outcome) (o_event_id outcome)) None)
  | _ => apply_arm cmd reserved_node
  end.

(** [HubState::apply_command]: the execution gate only orders concurrent calls. *)
Definition apply_command (cmd : ClientCommand) : M HubState CommandEffect := apply_command_inner cmd None.

Definition route_dispatch (effect : CommandEffect) : M HubState unit :=
  match ef_dispatch effect with
  | Some (node_id, work) => route_to_node node_id work ≫= fun _ => mret tt
  | None => mret tt
  end.

(** [HubState::submit_command] *)
Definition submit_command (cmd : ClientCommand) : M HubState HubToClient :=
  effect ← apply_command cmd;
  route_dispatch effect ≫= fun _ => mret (ef_receipt effect).

(** *** Workers *)

Definition receipt_sequence (receipt : HubToClient) : M HubState Z :=
  match receipt with
  | HC_CommandReceipt _ true (Some sequence) _ _ => mret sequence
  | HC_CommandReceipt _ _ _ _ error =>
      fail (Error_msg ("hub rejected command: " +:+ env_debug_error error))
  | _ => fail (Error_msg "hub returned an invalid command receipt")
  end.

(** [HubState::route_effect] *)
Definition route_effect (effect : CommandEffect) : M HubState Z :=
  route_dispatch effect ≫= fun _ => receipt_sequence (ef_receipt effect).

Definition event_at (sequence : Z) : M HubState Event :=
  events ← read_events_after (sequence - 1);
  lift (ok_or (List.find (fun e => e_sequence e =? sequence) events)
          (Error_msg "accepted command event is missing")).

(** [HubState::event_from_effect] *)
Definition event_from_effect (effect : CommandEffect) : M HubState Event :=
  sequence ← route_effect effect; event_at sequence.

(** [HubState::event_from_effect_without_routing] *)
Definition event_from_effect_without_routing (effect : CommandEffect) : M HubState Event :=
  sequence ← receipt_sequence (ef_receipt effect); event_at sequence.

(** [HubState::create_worker_task] *)
Definition create_worker_task (title prompt : string) (assistant_channel : option string)
    (preferred_node : option NodeId) (engine : string)
    (model reasoning_effort workspace_path : option string) : M HubState (TaskId * RunId) :=
  lift (validate_run_configuration engine model reasoning_effort None workspace_path) ≫= fun _ =>
  target ← eligible_execution_node engine preferred_node;
  match target with
  | inr error => fail (Error_msg (protocol_error_display error))
  | inl node_id =>
      create_id ← fresh_id;
      created ← apply_command_inner (CC_CreateTask create_id title) None;
      task_event ← event_from_effect created;
      let task_id := e_task_id task_event in
      match assistant_channel with
      | Some channel => now ← utc_now; with_hub (register_assistant_worker now channel task_id)
      | None => mret tt
      end ≫= fun _ =>
      start_id ← fresh_id;
      started ← apply_command_inner
        (CC_StartRun start_id task_id (Some node_id) engine model reasoning_effort None
           AccessPolicy.Supervised workspace_path) (Some node_id);
      run_event ← event_from_effect_without_routing started;
      run_id ← lift (ok_or (e_run_id run_event) (Error_msg "hub did not assign a worker run"));
      route_effect started ≫= fun _ =>
      prompt_id ← fresh_id;
      client_message_id ← fresh_id;
      prompted ← apply_command_inner
        (CC_SendUserMessage prompt_id task_id (Some run_id) prompt
           (id_to_string (client_message_id : CommandId))) None;
      route_effect prompted ≫= fun _ =>
      mret (task_id, run_id)
  end.

(** [HubState::track_assistant_worker] *)
Definition track_assistant_worker (channel : string) (task_id : TaskId) (run_id : RunId) : M HubState unit :=
  binding ← run_binding run_id;
  match binding with
  | None => fail (Error_msg "cannot track an unknown worker run")
  | Some (node_id, bound_task) =>
      if negb (bool_decide (bound_task = task_id)) || bool_decide (node_id = hub_node)
      then fail (Error_msg "assistant worker must be a node-owned run for this task")
      else now ← utc_now; with_hub (register_assistant_worker now channel task_id)
  end.

(** *** The hub-local assistant *)

(** [HubState::start_hub_assistant_run] *)
Definition start_hub_assistant_run (task_id : TaskId) (engine : string)
    (model reasoning_effort : option string) (system_prompt : string)
    (workspace_path : option string) : M HubState RunId :=
  lift (validate_run_configuration engine model reasoning_effort (Some system_prompt) workspace_path)
    ≫= fun _ =>
  run_id ← fresh_id;
  started_at ← utc_now;
  let run := MkRun run_id task_id hub_node engine model reasoning_effort (Some system_prompt)
               AccessPolicy.Supervised workspace_path RunStatus.Started started_at in
  now ← utc_now;
  let draft := with_payload
    (value_object (run_payload engine model reasoning_effort AccessPolicy.Supervised workspace_path
                   ++ [("hub_local_assistant"%string, value_bool true)]))
    (with_run run_id (draft_new now RunStarted task_id hub_node)) in
  command_id ← fresh_id;
  append_and_broadcast_command command_id draft (EW_Run run) None ≫= fun _ =>
  mret run_id.

(** [HubState::append_hub_assistant_message] *)
Definition append_hub_assistant_message (task_id : TaskId) (run_id : RunId) (text : string)
    : M HubState unit :=
  now ← utc_now;
  client_message_id ← fresh_id;
  let draft := set_run_id (Some run_id)
    (with_payload (value_object [("text", value_str text);
                                 ("client_message_id", id_to_value (client_message_id : CommandId))]%string)
      (draft_new now MessageUser task_id hub_node)) in
  command_id ← fresh_id;
  append_and_broadcast_command command_id draft EW_None None ≫= fun _ => mret tt.

Definition hub_assistant_kind (kind : EventKind) : bool :=
  match kind with
  | MessageAssistantCompleted | RunCompleted | RunFailed | RunInterrupted => true
  | _ => false
  end.

(** [HubState::append_hub_assistant_event] *)
Definition append_hub_assistant_event (kind : EventKind) (task_id : TaskId) (run_id : RunId)
    (provider_session_id : option string) (payload : Value) : M HubState unit :=
  if negb (hub_assistant_kind kind) then fail (Error_msg "unsupported hub-assistant event kind")
  else
    now ← utc_now;
    let draft := set_session provider_session_id
      (with_payload payload (with_run run_id (draft_new now kind task_id hub_node))) in
    event_id ← fresh_id;
    append_and_broadcast_node_event event_id draft ≫= fun _ => mret tt.

(** *** Durable settings *)

Definition hub_put_setting (key : string) (value : Value) : M HubState unit :=
  now ← utc_now; with_hub (put_setting now key value).

(** [HubState::assistant_settings] *)
Definition assistant_settings : M HubState AssistantSettings :=
  found ← with_hub (get_setting ASSISTANT_SETTINGS_KEY);
  match found with
  | Some value =>
      match assistant_from_value value with
      | None => fail (Error_msg ("bad assistant settings: " +:+ value_error value))
      | Some settings => lift (validate_assistant settings) ≫= fun _ => mret settings
      end
  | None => mret AssistantSettings_default
  end.

(** [HubState::save_assistant_settings] *)
Definition save_assistant_settings (settings : AssistantSettings) : M HubState unit :=
  lift (validate_assistant settings) ≫= fun _ =>
  hub_put_setting ASSISTANT_SETTINGS_KEY (assistant_to_value settings).

(** [HubState::initialize_assistant_settings] *)
Definition initialize_assistant_settings (settings : AssistantSettings) : M HubState unit :=
  lift (validate_assistant settings) ≫= fun _ =>
  found ← with_hub (get_setting ASSISTANT_SETTINGS_KEY);
  match found with
  | None => hub_put_setting ASSISTANT_SETTINGS_KEY (assistant_to_value settings)
  | Some _ => mret tt
  end.

(** [HubState::update_settings] *)
Definition update_settings : M HubState UpdateSettings :=
  found ← with_hub (get_setting UPDATE_SETTINGS_KEY);
  match found with
  | Some value =>
      match update_from_value value with
      | None => fail (Error_msg ("bad update settings: " +:+ value_error value))
      | Some settings => lift (validate_update settings) ≫= fun _ => mret settings
      end
  | None => mret UpdateSettings_default
  end.

(** [HubState::save_update_settings] *)
Definition save_update_settings (settings : UpdateSettings) : M HubState unit :=
  lift (validate_update settings) ≫= fun _ =>
  hub_put_setting UPDATE_SETTINGS_KEY (update_to_value settings).

Definition session_key (channel : string) : string := "assistant.session." +:+ channel.

(** [HubState::assistant_session] *)
Definition assistant_session (channel : string) : M HubState (option AssistantSession) :=
  found ← with_hub (get_setting (session_key channel));
  match found with
  | Some value =>
      if value_is_null value then mret None
      else match session_from_value value with
           | Some s => mret (Some s)
           | None => fail (Error_msg ("bad assistant session: " +:+ value_error value))
           end
  | None => mret None
  end.

(** [HubState::save_assistant_session], [clear_assistant_session] *)
Definition save_assistant_session (channel : string) (session : AssistantSession) : M HubState unit :=
  hub_put_setting (session_key channel) (session_to_value session).
Definition clear_assistant_session (channel : string) : M HubState unit :=
  hub_put_setting (session_key channel) value_null.

(** [HubState::active_assistant_channel] *)
Definition ACTIVE_CHANNEL_KEY : string := "assistant.active_channel".
Definition active_assistant_channel : M HubState (option string) :=
  found ← with_hub (get_setting ACTIVE_CHANNEL_KEY);
  mret (match found ≫= value_as_str with
        | Some channel => if is_blank channel then None else Some channel
        | None => None
        end).

(** [HubState::set_active_assistant_channel] *)
Definition set_active_assistant_channel (channel : string) : M HubState unit :=
  lift (validate_identifier "assistant channel" channel) ≫= fun _ =>
  hub_put_setting ACTIVE_CHANNEL_KEY (value_str channel).

(** [HubState::pending_assistant_wakes], [complete_assistant_wake], [defer_assistant_wake] *)
Definition hub_pending_assistant_wakes (channel : string) : M HubState (list AssistantWake) :=
  now ← utc_now; with_hub (pending_assistant_wakes now channel).
Definition hub_complete_assistant_wake (event_id : EventId) : M HubState bool :=
  now ← utc_now; with_hub (complete_assistant_wake now event_id).
Definition hub_defer_assistant_wake (event_id : EventId) (error : string) : M HubState bool :=
  now ← utc_now; with_hub (defer_assistant_wake now event_id error).
End Commands.
