(* ===== verification/HubInv.v ===== *)
(** What every method of the hub's state preserves: the store moves only by the
    store's own steps, and the bus carries exactly the events appended since the
    hub started, in sequence order. A small logic of state relations carries the
    proof through the methods. *)
From S2P Require Import Prelude.
From S2P Require Import RustStr.
From S2P Require Import Platform.
From S2P Require Import Ids.
From S2P Require Import Entities.
From S2P Require Import Event.
From S2P Require Import Protocol.
From S2P Require Import Wire.
From S2P Require Import Schema.
From S2P Require Import Store.
From S2P Require Import StoreInv.
From S2P Require Import StoreStep.
From S2P Require Import StoreLog.
From S2P Require Import StoreTyped.
From S2P Require Import Settings.
From S2P Require Import HubState.
From S2P Require Import HubCommands.
From S2P Require Import StoreFlows.

Local Open Scope Z_scope.

(** ** Methods that move the state along a preorder *)
Section Preserves.
Context {S : Type} (R : relation S) `{!PreOrder R}.

Definition preserves {A} (m : M S A) : Prop := forall s, R s (snd (m s)).

Lemma preserves_ret {A} (a : A) : preserves (mret a).
Proof. intros s. cbn. reflexivity. Qed.

Lemma preserves_bind {A B} (m : M S A) (f : A -> M S B) :
  preserves m -> (forall a, preserves (f a)) -> preserves (m ≫= f).
Proof.
  intros Hm Hf s. unfold mbind, M_bind. specialize (Hm s). destruct (m s) as [[a|e] s']; cbn in *; [|done].
  etrans; [exact Hm|apply Hf].
Qed.

Lemma preserves_try {A} (m : M S A) : preserves m -> preserves (try m).
Proof. intros Hm s. unfold try. specialize (Hm s). by destruct (m s). Qed.

Lemma preserves_gets {A} (f : S -> A) : preserves (gets f).
Proof. intros s. cbn. reflexivity. Qed.
Lemma preserves_fail {A} (e : Error) : preserves (fail e : M S A).
Proof. intros s. cbn. reflexivity. Qed.
Lemma preserves_lift {A} (r : Result A) : preserves (lift r).
Proof. intros s. cbn. reflexivity. Qed.
Lemma preserves_modify f : (forall s, R s (f s)) -> preserves (modify f).
Proof. intros H s. apply H. Qed.

Lemma preserves_for_each {A} (f : A -> M S unit) xs :
  (forall x, x ∈ xs -> preserves (f x)) -> preserves (for_each f xs).
Proof.
  induction xs as [|x xs IH]; intros H; [apply preserves_ret|]. cbn [for_each].
  apply preserves_bind; [apply H; by left|]. intros _. apply IH. intros. apply H. by right.
Qed.
End Preserves.

(** ** Methods that always return, with a result satisfying [Q] *)
Section Returns.
Context {S : Type}.

Definition returns {A} (Q : A -> Prop) (m : M S A) : Prop :=
  forall s, exists a s', m s = (Ok a, s') /\ Q a.

Lemma returns_ret {A} (Q : A -> Prop) a : Q a -> returns Q (mret a).
Proof. intros H s. by exists a, s. Qed.

Lemma returns_bind {A B} (Q : A -> Prop) (Q' : B -> Prop) (m : M S A) (f : A -> M S B) :
  returns Q m -> (forall a, Q a -> returns Q' (f a)) -> returns Q' (m ≫= f).
Proof.
  intros Hm Hf s. destruct (Hm s) as (a & s' & Ha & HQ). destruct (Hf a HQ s') as (b & s'' & Hb & HQ').
  exists b, s''. split; [|done]. unfold mbind, M_bind. by rewrite Ha.
Qed.

Lemma returns_gets {A} (f : S -> A) : returns (fun _ => True) (gets f).
Proof. intros s. by exists (f s), s. Qed.

Lemma returns_modify f : returns (fun _ => True) (modify f : M S unit).
Proof. intros s. by exists tt, (f s). Qed.

Lemma returns_try {A} (m : M S A) : returns (fun _ => True) (try m).
Proof. intros s. unfold try. destruct (m s) as [r s']. by exists r, s'. Qed.

Lemma returns_weaken {A} (Q Q' : A -> Prop) m :
  (forall a, Q a -> Q' a) -> returns Q m -> returns Q' m.
Proof. intros H Hm s. destruct (Hm s) as (a & s' & ? & ?). exists a, s'. auto. Qed.

Lemma returns_for_each {A} (f : A -> M S unit) xs :
  (forall x, returns (fun _ => True) (f x)) -> returns (fun _ => True) (for_each f xs).
Proof.
  intros Hf. induction xs as [|x xs IH]; [by apply returns_ret|]. cbn [for_each].
  eapply returns_bind; [apply Hf|]. by intros _ _.
Qed.
End Returns.

Create HintDb hub.
#[export] Hint Resolve preserves_ret preserves_try preserves_gets preserves_fail preserves_lift : hub.

(** Walk through a method, one bind, branch or known call at a time. *)
Ltac walk1 :=
  match goal with
  | |- preserves _ (match ?x with _ => _ end) => destruct x eqn:?
  | |- preserves _ (let '(_, _) := ?x in _) => destruct x eqn:?
  | |- preserves _ (_ ≫= _) => apply preserves_bind; [apply _| |intros ?]
  | |- preserves _ (try _) => apply preserves_try
  | |- preserves _ (for_each _ _) => apply preserves_for_each; [apply _|intros]
  | |- preserves _ _ => solve [eauto with hub]
  end.
Ltac walk := repeat walk1.

(** ** The relation *)
Section Evolves.
Context {P : Platform} {PL : PlatformLaws P} {E : Env P}.

(** The clock reads representable instants. *)
Class EnvOk : Prop := env_now_ok n : time_ok (env_now n).

(** [base] is the log the hub was opened on. *)
Record good (base : list Event) (s : HubState) : Prop := {
  good_wf : db_wf (hs_hub s);
  good_typed : db_typed (hs_hub s);
  good_log : represents (hs_hub s) (base ++ hs_events s);
}.

Record evolves (s s' : HubState) : Prop := {
  ev_store : timed_steps (hs_hub s) (hs_hub s');
  ev_good base : good base s -> good base s';
  ev_node_secret : hs_node_secret s' = hs_node_secret s;
  ev_client_secret : hs_client_secret s' = hs_client_secret s;
}.

#[export] Instance evolves_preorder : PreOrder evolves.
Proof.
  split.
  - intros s. by constructor.
  - intros s1 s2 s3 [H1 H2 H3 H4] [K1 K2 K3 K4]. constructor; try congruence; [|by eauto].
    unfold timed_steps in *. by etrans.
Qed.

(** Updates that leave the store and the bus alone. *)
Lemma evolves_quiet s s' :
  hs_hub s' = hs_hub s -> hs_events s' = hs_events s -> hs_node_secret s' = hs_node_secret s ->
  hs_client_secret s' = hs_client_secret s -> evolves s s'.
Proof.
  intros H1 H2 H3 H4. constructor; try done.
  - by rewrite H1.
  - intros base []. constructor; by rewrite ?H1 ?H2.
Qed.

Lemma preserves_now : preserves evolves utc_now.
Proof. intros s. by apply evolves_quiet. Qed.
Lemma preserves_fresh {k} : preserves evolves (fresh_id (k := k)).
Proof. intros s. by apply evolves_quiet. Qed.

Lemma preserves_now_bind `{!EnvOk} {A} (f : Time -> M HubState A) :
  (forall t, time_ok t -> preserves evolves (f t)) -> preserves evolves (utc_now ≫= f).
Proof.
  intros Hf s. unfold mbind, M_bind. cbn. etrans; [|apply Hf, env_now_ok]. by apply evolves_quiet.
Qed.

Lemma preserves_send c m : preserves evolves (channel_send c m).
Proof.
  intros s. unfold channel_send. destruct (hs_channels s !! c) as [ch|]; [|done].
  destruct (ch_open ch); [by apply evolves_quiet|done].
Qed.
Lemma preserves_route n m : preserves evolves (route_to_node n m).
Proof. intros s. unfold route_to_node. destruct (hs_nodes s !! n); [apply preserves_send|done]. Qed.
Lemma preserves_register n c : preserves evolves (register_node n c).
Proof. intros s. by apply evolves_quiet. Qed.
Lemma preserves_unregister n c : preserves evolves (unregister_node n c).
Proof.
  intros s. unfold unregister_node. destruct (hs_nodes s !! n) as [x|]; [|done].
  destruct (nc_id x =? c); [by apply evolves_quiet|done].
Qed.
Lemma preserves_channel : preserves evolves unbounded_channel.
Proof. intros s. by apply evolves_quiet. Qed.
Lemma preserves_drop c : preserves evolves (drop_receiver c).
Proof. intros s. by apply evolves_quiet. Qed.
Lemma preserves_remember r n t : preserves evolves (remember_run r n t).
Proof. intros s. by apply evolves_quiet. Qed.

(** *** Store calls that do not append *)

Lemma with_hub_snd {A} (f : M Db A) s : snd (with_hub f s) = set_hub (snd (f (hs_hub s))) s.
Proof. unfold with_hub. by destruct (f (hs_hub s)). Qed.

Lemma preserves_read {A} (f : M Db A) : (forall d, snd (f d) = d) -> preserves evolves (with_hub f).
Proof. intros Hf s. rewrite with_hub_snd Hf. by apply evolves_quiet. Qed.

Lemma preserves_call {A} (f : M Db A) c :
  (forall d, snd (f d) = store_call c d) -> call_times_ok c ->
  (forall d, db_events (store_call c d) = db_events d) -> preserves evolves (with_hub f).
Proof.
  intros Hf Hc He s. rewrite with_hub_snd Hf. constructor; try done.
  - apply rtc_once. by exists c.
  - intros base []. constructor.
    + by apply store_call_step.
    + by apply store_call_typed.
    + destruct good_log0 as [Hl Hok]. split; [|done]. cbn. by rewrite He.
Qed.

Lemma read_map_row {R A} (f : R -> Result A) (o : option R) d : snd (map_row f o d) = d.
Proof. unfold map_row. destruct o as [r|]; [|done]. run_m. by destruct (f r). Qed.

Lemma read_events_after_eq a d : snd (events_after a d) = d.
Proof. done. Qed.
Lemma read_get_run i d : snd (get_run i d) = d.
Proof. apply read_map_row. Qed.
Lemma read_get_node i d : snd (get_node i d) = d.
Proof. apply read_map_row. Qed.
Lemma read_list_nodes d : snd (list_nodes d) = d.
Proof. done. Qed.
Lemma read_pending n d : snd (pending_dispatches n d) = d.
Proof. done. Qed.
Lemma read_outcome c d : snd (command_outcome c d) = d.
Proof.
  unfold command_outcome. run_m. rewrite find_receipt_eq. destruct (List.find _ _) as [r|]; [|done].
  by destruct (req_id _).
Qed.
Lemma read_setting k d : snd (get_setting k d) = d.
Proof.
  unfold get_setting, query_row. run_m. destruct (List.find _ _) as [r|]; [|done].
  by destruct (json_from_str _).
Qed.
Lemma read_wakes now c d : snd (pending_assistant_wakes now c d) = d.
Proof. done. Qed.
Lemma read_recent n d : snd (recent_events n d) = d.
Proof. unfold recent_events. run_m. by destruct (collect _ _). Qed.
Lemma read_tail i n d : snd (task_events_tail i n d) = d.
Proof. unfold task_events_tail, sql_select. run_m. by destruct (collect _ _). Qed.
Lemma read_fetch q d : snd (fetch_event q d) = d.
Proof. unfold fetch_event, events_after, sql_select. run_m. by destruct (collect _ _). Qed.

Lemma preserves_events_after a : preserves evolves (with_hub (events_after a)).
Proof. apply preserves_read, read_events_after_eq. Qed.
Lemma preserves_get_run i : preserves evolves (with_hub (get_run i)).
Proof. apply preserves_read, read_get_run. Qed.
Lemma preserves_list_nodes : preserves evolves (with_hub list_nodes).
Proof. apply preserves_read, read_list_nodes. Qed.
Lemma preserves_pending n : preserves evolves (with_hub (pending_dispatches n)).
Proof. apply preserves_read, read_pending. Qed.
Lemma preserves_outcome c : preserves evolves (with_hub (command_outcome c)).
Proof. apply preserves_read, read_outcome. Qed.
Lemma preserves_setting k : preserves evolves (with_hub (get_setting k)).
Proof. apply preserves_read, read_setting. Qed.
Lemma preserves_wakes now c : preserves evolves (with_hub (pending_assistant_wakes now c)).
Proof. apply preserves_read, read_wakes. Qed.
Lemma preserves_recent n : preserves evolves (with_hub (recent_events n)).
Proof. apply preserves_read, read_recent. Qed.
Lemma preserves_tail i n : preserves evolves (with_hub (task_events_tail i n)).
Proof. apply preserves_read, read_tail. Qed.

Lemma preserves_put now k v : preserves evolves (with_hub (put_setting now k v)).
Proof.
  apply (preserves_call _ (SC_put_setting now k v)); [done|done|]. intros d. cbn.
  unfold put_setting. by rewrite sql_upsert_snd.
Qed.
Lemma preserves_worker now c t : preserves evolves (with_hub (register_assistant_worker now c t)).
Proof.
  apply (preserves_call _ (SC_register_worker now c t)); [done|done|]. intros d. cbn.
  unfold register_assistant_worker. by rewrite sql_upsert_snd.
Qed.
Lemma preserves_complete now i : preserves evolves (with_hub (complete_assistant_wake now i)).
Proof. by apply (preserves_call _ (SC_complete_wake now i)). Qed.
Lemma preserves_defer now i e : preserves evolves (with_hub (defer_assistant_wake now i e)).
Proof.
  apply (preserves_call _ (SC_defer_wake now i e)); [done|done|]. intros d. cbn.
  unfold defer_assistant_wake, query_row. run_m. by destruct (List.find _ _).
Qed.
Lemma preserves_ack now c n : preserves evolves (with_hub (acknowledge_dispatch_from now c n)).
Proof. by apply (preserves_call _ (SC_acknowledge_from now c n)). Qed.
Lemma preserves_upsert_node node : preserves evolves (with_hub (upsert_node node)).
Proof.
  apply (preserves_call _ (SC_upsert_node node)); [done|done|]. intros d. cbn.
  unfold upsert_node. by rewrite sql_upsert_snd.
Qed.
Lemma preserves_resolve now i dec actor : time_ok now ->
  preserves evolves (with_hub (resolve_approval i dec actor now)).
Proof.
  intros Hn. apply (preserves_call _ (SC_resolve_approval i dec actor now)); [done|done|]. intros d. cbn.
  rewrite resolve_approval_spec. repeat case_match; done.
Qed.
End Evolves.

#[export] Hint Resolve preserves_now preserves_fresh preserves_send preserves_route preserves_register
  preserves_unregister preserves_channel preserves_drop preserves_remember preserves_events_after
  preserves_get_run preserves_list_nodes preserves_pending preserves_outcome preserves_setting
  preserves_wakes preserves_recent preserves_tail preserves_put preserves_worker preserves_complete
  preserves_defer preserves_ack preserves_upsert_node preserves_resolve evolves_preorder : hub.

(** ** Appending with a broadcast *)
Section Broadcast.
Context {P : Platform} {PL : PlatformLaws P} {E : Env P} {EO : EnvOk}.

Lemma fetch_created d l e : db_wf d -> represents d (l ++ [e]) ->
  fetch_event (zlen l + 1) d = (Ok (Some e), d).
Proof.
  intros Hwf Hrep. pose proof (represents_sequences d _ Hwf Hrep) as Hs.
  rewrite fmap_app length_app seqZ_snoc in Hs. cbn in Hs.
  apply app_inj_2 in Hs as [_ Hs]; [|done]. injection Hs as Hs.
  unfold fetch_event, mbind, M_bind.
  rewrite (events_after_represents d (l ++ [e])); [done|done|].
  unfold spec_events_after. rewrite (_ : Z.to_nat (zlen l + 1 - 1) = length l); [lia|].
  rewrite drop_app_length. cbn. by rewrite (proj2 (Z.eqb_eq _ _) Hs).
Qed.

(** What an append must answer for its broadcast to keep the bus and the log
    together. *)
Definition appends (m : M Db AppendOutcome) (d : Db) (l : list Event) : Prop :=
  match m d with
  | (Ok o, d') =>
      if o_created o then exists e, represents d' (l ++ [e]) /\ o_sequence o = zlen l + 1
      else d' = d
  | (Err _, d') => d' = d
  end.

Lemma preserves_broadcast (m : M Db AppendOutcome) c :
  (forall d, snd (m d) = store_call c d) -> call_times_ok c ->
  (forall d l, db_wf d -> represents d l -> appends m d l) ->
  preserves evolves (with_hub m ≫= broadcast_created).
Proof.
  intros Hm Hc Happ s. unfold mbind at 1, M_bind at 1.
  pose proof (with_hub_snd m s) as Hsnd. rewrite Hm in Hsnd.
  destruct (with_hub m s) as [[o|e] s1] eqn:Hw; cbn in Hsnd; subst s1.
  - unfold with_hub in Hw. destruct (m (hs_hub s)) as [r d'] eqn:Hd. injection Hw as -> Hd'.
    assert (d' = store_call c (hs_hub s)) as -> by (by rewrite -Hm Hd).
    unfold broadcast_created. set (d' := store_call c (hs_hub s)) in *.
    assert (timed_steps (hs_hub s) d') as Hstep by (apply rtc_once; by exists c).
    assert (forall base, good base s -> if o_created o
      then exists e, represents d' ((base ++ hs_events s) ++ [e]) /\
        fetch_event (o_sequence o) d' = (Ok (Some e), d')
      else d' = hs_hub s) as Hlog.
    { intros base [Hwf Hty Hrep]. specialize (Happ _ _ Hwf Hrep). unfold appends in Happ.
      rewrite Hd in Happ. destruct (o_created o); [|done]. destruct Happ as (e & He & ->).
      exists e. split; [done|]. apply fetch_created; [by apply store_call_step|done]. }
    assert (forall base, good base s -> db_wf d' /\ db_typed d') as Hgood.
    { intros base []. split; [by apply store_call_step|by apply store_call_typed]. }
    destruct (o_created o).
    + unfold mbind, M_bind. pose proof (with_hub_snd (fetch_event (o_sequence o)) (set_hub d' s)) as Hf.
      rewrite read_fetch in Hf. cbn [hs_hub set_hub] in Hf.
      destruct (with_hub _ (set_hub d' s)) as [[[e|]|err] s2] eqn:Hw2; cbn in Hf; subst s2;
        unfold with_hub in Hw2; cbn [hs_hub set_hub] in Hw2;
        (constructor; [exact Hstep| |done|done]);
        intros base Hb; destruct (Hgood base Hb) as [Hwf' Hty'];
        destruct (Hlog base Hb) as (e' & Hrep' & Hfe); rewrite Hfe in Hw2; simplify_eq.
      constructor; [done|done|]. cbn. by rewrite app_assoc.
    + constructor; [exact Hstep| |done|done]. intros base Hb.
      destruct (Hgood base Hb). destruct Hb. cbn. rewrite (Hlog base); [by constructor|].
      by constructor.
  - constructor; [apply rtc_once; by exists c| |done|done]. intros base Hb. destruct Hb as [Hwf Hty Hrep].
    specialize (Happ _ _ Hwf Hrep). unfold appends in Happ.
    unfold with_hub in Hw. destruct (m (hs_hub s)) as [r d'] eqn:Hd. injection Hw as -> Hd'.
    constructor; [by apply store_call_step|by apply store_call_typed|]. cbn.
    rewrite -Hm Hd. cbn. by rewrite Happ.
Qed.

Lemma preserves_append_command c draft entity dispatch :
  draft_times_ok draft -> entity_times_ok entity -> dispatch_times_ok dispatch ->
  preserves evolves (append_and_broadcast_command c draft entity dispatch).
Proof.
  intros Hdr He Hx. unfold append_and_broadcast_command.
  apply preserves_now_bind; intros now Hn. apply preserves_bind; [apply _|apply preserves_fresh|].
  intros fresh. apply (preserves_broadcast _ (SC_append_command now fresh c draft entity dispatch)).
  - done.
  - done.
  - intros d l Hwf Hrep. unfold appends.
    pose proof (append_command_refines d l now fresh c draft entity dispatch Hwf Hrep Hn Hdr) as H.
    unfold spec_append_command in H. destruct (List.find _ l) as [e|];
      (destruct H as [(d' & -> & Hrep' & Hsame)|(Hcr & _ & err & ->)]; cbn in *; [|done]).
    + by apply Hsame.
    + eauto.
Qed.

Lemma preserves_append_node_event i draft :
  draft_times_ok draft -> preserves evolves (append_and_broadcast_node_event i draft).
Proof.
  intros Hdr. unfold append_and_broadcast_node_event.
  apply preserves_now_bind; intros now Hn.
  apply (preserves_broadcast _ (SC_append_node_event now i draft)).
  - done.
  - done.
  - intros d l Hwf Hrep. unfold appends.
    pose proof (append_node_event_refines d l now i draft Hwf Hrep Hn Hdr) as H.
    unfold spec_append_node_event in H. destruct (List.find _ l) as [e|];
      (destruct H as [(d' & -> & Hrep' & Hsame)|(Hcr & _ & ->)]; cbn in *; [|done]).
    + by apply Hsame.
    + eauto.
Qed.
End Broadcast.

#[export] Hint Resolve preserves_append_command preserves_append_node_event : hub.

#[export] Hint Extern 1 (draft_times_ok _) => assumption : hub.
#[export] Hint Extern 1 (entity_times_ok _) => first [exact I | assumption] : hub.
#[export] Hint Extern 1 (dispatch_times_ok _) => exact I : hub.

(** Every method of the hub's state moves it along [evolves]; the hub as a
    transition system over its methods, and its reachable states. *)

Section Ops.
Context {P : Platform} {PL : PlatformLaws P} {E : Env P} {EO : EnvOk}.

Lemma preserves_run_binding_checked r : preserves evolves (run_binding_checked r).
Proof. unfold run_binding_checked. walk. Qed.
Hint Resolve preserves_run_binding_checked : hub.

Lemma preserves_run_binding r : preserves evolves (run_binding r).
Proof. unfold run_binding. walk. Qed.
Hint Resolve preserves_run_binding : hub.

Lemma preserves_node_for_run r : preserves evolves (node_for_run r).
Proof. unfold node_for_run. walk. Qed.
Lemma preserves_node_for_task t : preserves evolves (node_for_task t).
Proof. unfold node_for_task. walk. Qed.
Hint Resolve preserves_node_for_run preserves_node_for_task : hub.

Lemma preserves_accepts n d : preserves evolves (accepts_node_event n d).
Proof. unfold accepts_node_event. walk. Qed.
Lemma preserves_replay n : preserves evolves (replay_pending n).
Proof. unfold replay_pending. walk. Qed.
Lemma preserves_hub_ack n c : preserves evolves (hub_acknowledge_dispatch_from n c).
Proof. unfold hub_acknowledge_dispatch_from. walk. Qed.

Lemma preserves_connected h : preserves evolves (on_node_connected h).
Proof.
  unfold on_node_connected. apply preserves_bind; [apply _|walk|intros _].
  apply preserves_now_bind; intros now Hn. walk.
Qed.

Lemma preserves_disconnected n : preserves evolves (on_node_disconnected n).
Proof.
  unfold on_node_disconnected. apply preserves_bind; [apply _| |intros _].
  - apply preserves_try. intros s. rewrite with_hub_snd.
    set (f := (found ← get_node n; _)).
    assert (snd (f (hs_hub s)) = hs_hub s \/
            exists node, snd (f (hs_hub s)) = snd (upsert_node node (hs_hub s))) as Hf.
    { subst f. unfold mbind, M_bind. pose proof (read_get_node n (hs_hub s)) as Hr.
      destruct (get_node n (hs_hub s)) as [[[node|]|e] d]; cbn in Hr; subst d; eauto. }
    destruct Hf as [-> |[node ->]]; [by apply evolves_quiet|].
    pose proof (preserves_upsert_node node s) as H. by rewrite with_hub_snd in H.
  - apply preserves_now_bind; intros now Hn. walk.
Qed.
Hint Resolve preserves_accepts preserves_replay preserves_hub_ack preserves_connected
  preserves_disconnected : hub.

Lemma preserves_eligible e p : preserves evolves (eligible_execution_node e p).
Proof. unfold eligible_execution_node. walk. Qed.
Hint Resolve preserves_eligible : hub.

Lemma preserves_finish_entity c draft x entity :
  draft_times_ok draft -> entity_times_ok entity -> dispatch_times_ok x ->
  preserves evolves (finish_with_entity c draft x entity).
Proof. intros. unfold finish_with_entity. walk. Qed.
Lemma preserves_finish c draft x :
  draft_times_ok draft -> dispatch_times_ok x -> preserves evolves (finish c draft x).
Proof. intros. by apply preserves_finish_entity. Qed.

Lemma dispatch_command_times c w : hub_to_node_times_ok (dispatch_command c w).
Proof. done. Qed.

Lemma preserves_create_task c title : preserves evolves (apply_create_task c title).
Proof.
  unfold apply_create_task. walk1; [walk|]. apply preserves_now_bind; intros created Hc.
  apply preserves_now_bind; intros now Hn. by apply preserves_finish_entity.
Qed.

Lemma preserves_message c t r text m : preserves evolves (apply_send_user_message c t r text m).
Proof.
  unfold apply_send_user_message. walk1; [walk|]. walk1; [walk|]. walk1; [walk|].
  apply preserves_now_bind; intros now Hn. apply preserves_finish; [done|].
  by repeat (case_match; simplify_eq/=).
Qed.

Lemma preserves_start_run_on n c t e m re sp ap w :
  preserves evolves (start_run_on n c t e m re sp ap w).
Proof.
  unfold start_run_on. walk1; [walk|]. apply preserves_now_bind; intros started Hs.
  apply preserves_now_bind; intros now Hn. walk1; [by apply preserves_finish_entity|]. walk.
Qed.
Hint Resolve preserves_start_run_on : hub.

Lemma preserves_start_run res c t n e m re sp ap w :
  preserves evolves (apply_start_run res c t n e m re sp ap w).
Proof. unfold apply_start_run. walk. Qed.

Lemma preserves_interrupt c r : preserves evolves (apply_interrupt_run c r).
Proof.
  unfold apply_interrupt_run. walk1; [walk|]. walk1; [walk|].
  apply preserves_now_bind; intros now Hn. apply preserves_finish; [done|].
  by match goal with |- dispatch_times_ok (_ <$> ?o) => destruct o end.
Qed.

Lemma preserves_resolve_approval c i dec actor :
  preserves evolves (apply_resolve_approval c i dec actor).
Proof.
  unfold apply_resolve_approval. apply preserves_now_bind; intros now Hn. walk1; [walk|]. walk1; [|walk].
  apply preserves_now_bind; intros now' Hn'. by apply preserves_finish.
Qed.
Hint Resolve preserves_create_task preserves_message preserves_start_run preserves_interrupt
  preserves_resolve_approval : hub.

Lemma preserves_arm cmd res : preserves evolves (apply_arm cmd res).
Proof. unfold apply_arm. walk. Qed.
Hint Resolve preserves_arm : hub.

Lemma preserves_apply_inner cmd res : preserves evolves (apply_command_inner cmd res).
Proof. unfold apply_command_inner. walk. Qed.
Hint Resolve preserves_apply_inner : hub.

Lemma preserves_apply cmd : preserves evolves (apply_command cmd).
Proof. apply preserves_apply_inner. Qed.
Lemma preserves_route_dispatch e : preserves evolves (route_dispatch e).
Proof. unfold route_dispatch. walk. Qed.
Hint Resolve preserves_apply preserves_route_dispatch : hub.

Lemma preserves_submit cmd : preserves evolves (submit_command cmd).
Proof. unfold submit_command. walk. Qed.

Lemma preserves_receipt_sequence r : preserves evolves (receipt_sequence r).
Proof. unfold receipt_sequence. walk. Qed.
Lemma preserves_read_after a : preserves evolves (read_events_after a).
Proof. apply preserves_events_after. Qed.
Hint Resolve preserves_receipt_sequence preserves_read_after : hub.
Lemma preserves_event_at q : preserves evolves (event_at q).
Proof. unfold event_at. walk. Qed.
Hint Resolve preserves_event_at : hub.
Lemma preserves_route_effect e : preserves evolves (route_effect e).
Proof. unfold route_effect. walk. Qed.
Hint Resolve preserves_route_effect : hub.
Lemma preserves_event_from e : preserves evolves (event_from_effect e).
Proof. unfold event_from_effect. walk. Qed.
Lemma preserves_event_from' e : preserves evolves (event_from_effect_without_routing e).
Proof. unfold event_from_effect_without_routing. walk. Qed.
Hint Resolve preserves_event_from preserves_event_from' : hub.

Lemma preserves_worker_task ti pr ch pn e m re w :
  preserves evolves (create_worker_task ti pr ch pn e m re w).
Proof. unfold create_worker_task. walk. Qed.

Lemma preserves_track ch t r : preserves evolves (track_assistant_worker ch t r).
Proof. unfold track_assistant_worker. walk. Qed.

Lemma preserves_hub_run t e m re sp w : preserves evolves (start_hub_assistant_run t e m re sp w).
Proof.
  unfold start_hub_assistant_run. do 2 (walk1; [walk|]).
  apply preserves_now_bind; intros started Hs. apply preserves_now_bind; intros now Hn. walk.
Qed.

Lemma preserves_hub_message t r x : preserves evolves (append_hub_assistant_message t r x).
Proof.
  unfold append_hub_assistant_message. apply preserves_now_bind; intros now Hn. walk.
Qed.

Lemma preserves_hub_event k t r ps pl : preserves evolves (append_hub_assistant_event k t r ps pl).
Proof.
  unfold append_hub_assistant_event. walk1; [walk|].
  apply preserves_now_bind; intros now Hn. walk.
Qed.

Lemma preserves_hub_put k v : preserves evolves (hub_put_setting k v).
Proof. unfold hub_put_setting. walk. Qed.
End Ops.

(** Receipts: every command is answered, with a receipt of its own id; what a
    receipt says and what goes out with it. *)

Create HintDb returns.

(** Walk through a method that cannot fail. *)
Ltac return1 :=
  match goal with
  | |- returns _ (match ?x with _ => _ end) => destruct x eqn:?
  | |- returns _ (if ?x then _ else _) => destruct x eqn:?
  | |- returns _ (mret _) => apply returns_ret
  | |- returns _ (_ ≫= _) => eapply returns_bind; [solve [eauto with returns]|intros ? ?]
  | |- returns _ _ => solve [eauto with returns]
  end.
Ltac return_walk := repeat return1.

Section Receipts.
Context {P : Platform} {PL : PlatformLaws P} {E : Env P}.

Definition trivial {A} (a : A) : Prop := True.

Lemma returns_now : returns trivial utc_now.
Proof. intros s. by eexists _, _. Qed.
Lemma returns_fresh {k} : returns trivial (fresh_id (k := k)).
Proof. intros s. by eexists _, _. Qed.
Lemma returns_trivial_try {A} (m : M HubState A) : returns trivial (try m).
Proof. apply returns_try. Qed.
Lemma returns_trivial_gets {A} (f : HubState -> A) : returns trivial (gets f).
Proof. apply returns_gets. Qed.
Lemma returns_remember r n t : returns trivial (remember_run r n t).
Proof. apply returns_modify. Qed.
Lemma returns_unit_ret : returns trivial (mret tt : M HubState unit).
Proof. by apply returns_ret. Qed.
Lemma returns_send c m : returns trivial (channel_send c m).
Proof. intros s. unfold channel_send. repeat case_match; by eexists _, _. Qed.
Lemma returns_route n m : returns trivial (route_to_node n m).
Proof. intros s. unfold route_to_node. case_match; [apply returns_send|by eexists _, _]. Qed.
Hint Resolve returns_now returns_fresh returns_trivial_try returns_trivial_gets returns_remember
  returns_unit_ret returns_send returns_route : returns.

Lemma returns_run_binding r : returns trivial (run_binding r).
Proof. unfold run_binding. return_walk. done. Qed.
Hint Resolve returns_run_binding : returns.
Lemma returns_node_for_run r : returns trivial (node_for_run r).
Proof. unfold node_for_run. return_walk. done. Qed.
Lemma returns_node_for_task t : returns trivial (node_for_task t).
Proof. apply returns_gets. Qed.
Lemma returns_eligible e p : returns trivial (eligible_execution_node e p).
Proof. unfold eligible_execution_node. return_walk. done. Qed.
Hint Resolve returns_node_for_run returns_node_for_task returns_eligible : returns.

(** The receipt is the command's, and a dispatch goes out only with an
    accepted one. *)
Definition answers (c : CommandId) (ef : CommandEffect) : Prop :=
  exists acc seq eid err, ef_receipt ef = HC_CommandReceipt c acc seq eid err /\
    (acc = true <-> is_Some seq) /\ (acc = true <-> is_Some eid) /\
    (acc = true -> err = None) /\ (is_Some (ef_dispatch ef) -> acc = true).

Lemma answers_rejected c e : answers c (rejected c e).
Proof. eexists false, None, None, _. split; [done|]. split_and!; try done; by intros []. Qed.

Lemma answers_accepted c seq eid x : answers c (MkEffect (accepted_receipt c seq eid) x).
Proof. eexists true, _, _, _. split; [done|]. split_and!; try done; eauto. Qed.

Lemma returns_finish_entity c draft x entity : returns (answers c) (finish_with_entity c draft x entity).
Proof.
  unfold finish_with_entity. eapply returns_bind; [apply returns_trivial_try|]. intros [o|e] _.
  - apply returns_ret, answers_accepted.
  - apply returns_ret. eexists false, None, None, None. split; [done|]. split_and!; try done; by intros [].
Qed.
Lemma returns_finish c draft x : returns (answers c) (finish c draft x).
Proof. apply returns_finish_entity. Qed.
Hint Resolve returns_finish_entity returns_finish answers_rejected answers_accepted : returns.

Lemma returns_create_task c title : returns (answers c) (apply_create_task c title).
Proof. unfold apply_create_task. return_walk. Qed.

Lemma returns_message c t r text m : returns (answers c) (apply_send_user_message c t r text m).
Proof.
  unfold apply_send_user_message. eapply (returns_bind trivial).
  { destruct r; [apply returns_node_for_run|by apply returns_ret]. }
  intros o _. eapply (returns_bind trivial).
  { destruct o; [by apply returns_ret|apply returns_node_for_task]. }
  intros n _. return1; [apply returns_ret, answers_rejected|].
  eapply returns_bind; [apply returns_now|]. intros; apply returns_finish.
Qed.

Lemma returns_start_run_on n c t e m re sp ap w :
  returns (answers c) (start_run_on n c t e m re sp ap w).
Proof.
  unfold start_run_on. do 3 return1. return1. eapply (returns_bind trivial).
  { destruct (ef_dispatch _); [apply returns_remember|by apply returns_ret]. }
  intros; by apply returns_ret.
Qed.
Hint Resolve returns_start_run_on : returns.

Lemma returns_start_run res c t n e m re sp ap w :
  returns (answers c) (apply_start_run res c t n e m re sp ap w).
Proof.
  unfold apply_start_run. return1; [|apply returns_ret, answers_rejected].
  eapply (returns_bind trivial).
  { destruct res; [by apply returns_ret|apply returns_eligible]. }
  intros [n'|err] _; [apply returns_start_run_on|apply returns_ret, answers_rejected].
Qed.

Lemma returns_interrupt c r : returns (answers c) (apply_interrupt_run c r).
Proof.
  unfold apply_interrupt_run. return1. return1; [apply returns_ret, answers_rejected|].
  return1. apply returns_finish.
Qed.

Lemma returns_resolve c i dec actor : returns (answers c) (apply_resolve_approval c i dec actor).
Proof.
  unfold apply_resolve_approval. do 2 return1. return1; [|apply returns_ret, answers_rejected].
  return1. apply returns_finish.
Qed.
Hint Resolve returns_create_task returns_message returns_start_run returns_interrupt returns_resolve
  : returns.

Lemma returns_arm cmd res : returns (answers (command_id cmd)) (apply_arm cmd res).
Proof. destruct cmd; simpl; eauto with returns. Qed.

Lemma returns_apply_inner cmd res : returns (answers (command_id cmd)) (apply_command_inner cmd res).
Proof.
  unfold apply_command_inner. return1.
  destruct a as [[o|]|e]; [apply returns_ret, answers_accepted|apply returns_arm..].
Qed.

Lemma apply_command_receipt cmd s ef s' : apply_command cmd s = (Ok ef, s') ->
  exists acc seq eid err, ef_receipt ef = HC_CommandReceipt (command_id cmd) acc seq eid err.
Proof.
  intros H. destruct (returns_apply_inner cmd None s) as (ef' & s'' & H' & Hans).
  unfold apply_command in H. rewrite H in H'. simplify_eq.
  destruct Hans as (acc & seq & eid & err & Hr & _). eauto.
Qed.
End Receipts.
