(* ===== verification/Links.v ===== *)
(** The two WebSocket loops of the hub (crates/stackhour-hub/src/lib.rs),
    [handle_client] and [handle_node], cut at their await points: one definition
    per arm of the [select!] loop, each run atomically on the shared state. A
    socket write that fails ends its link; the frames a definition returns are
    the ones handed to the sink. Instants are nanoseconds of a monotonic clock. *)
From S2P Require Import Prelude.
From S2P Require Import RustStr.
From S2P Require Import Platform.
From S2P Require Import Ids.
From S2P Require Import Entities.
From S2P Require Import Event.
From S2P Require Import Protocol.
From S2P Require Import Wire.
From S2P Require Import Schema.
From S2P Require Import Store.
From S2P Require Import Settings.
From S2P Require Import HubState.
From S2P Require Import HubCommands.

Local Open Scope Z_scope.

Definition HEARTBEAT_INTERVAL : Z := 15 * nanos_per_second.
Definition LIVENESS_TIMEOUT : Z := 45 * nanos_per_second.
Definition EVENT_BUS_CAPACITY : nat := 1024.

(** [axum::extract::ws::Message] *)
Inductive Message := Msg_Text (t : string) | Msg_Binary | Msg_Ping | Msg_Pong | Msg_Close.

Section Links.
Context {P : Platform} {E : Env P}.

(** [parse_text] *)
Definition parse_text {A} (from_value : Value -> option A) (m : Message) : option A :=
  match m with
  | Msg_Text t => json_from_str t ≫= from_value
  | _ => None
  end.

(** [to_frame] *)
Definition to_frame (v : Value) : Message := Msg_Text (json_to_string v).

(** [recv_json], on the frames of the stream in order: the parsed opening frame
    and what is left, or nothing when the handshake fails. *)
Fixpoint recv_json {A} (from_value : Value -> option A) (stream : list Message)
    : option (A * list Message) :=
  match stream with
  | Msg_Text t :: rest => a ← json_from_str t ≫= from_value; Some (a, rest)
  | (Msg_Ping | Msg_Pong) :: rest => recv_json from_value rest
  | _ => None
  end.

(** *** The node link *)

Record NodeLink := MkNodeLink {
  nl_node : NodeId; nl_connection : Z; nl_rx : nat; nl_last_seen : Z;
}.

Definition nl_seen (now : Z) (nl : NodeLink) : NodeLink :=
  MkNodeLink (nl_node nl) (nl_connection nl) (nl_rx nl) now.

(** The handshake and the registration, up to the loop. *)
Definition node_open (hello : NodeHello) (welcome_sent : bool) (now : Z)
    : M HubState (HubWelcome * option NodeLink) :=
  welcome ← gets (negotiate_node hello);
  if negb welcome_sent || negb (w_accepted welcome) then mret (welcome, None)
  else
    rx ← unbounded_channel;
    connection_id ← register_node (h_node_id hello) rx;
    on_node_connected hello ≫= fun _ =>
    replay_pending (h_node_id hello) ≫= fun _ =>
    mret (welcome, Some (MkNodeLink (h_node_id hello) connection_id rx now)).

(** [match from_node { .. }] *)
Definition node_message (node_id : NodeId) (from_node : NodeToHub) : M HubState unit :=
  match from_node with
  | NH_NodeEvent event_id draft =>
      verdict ← try (accepts_node_event node_id draft);
      match verdict with
      | Ok false => route_to_node node_id (HN_EventAck event_id) ≫= fun _ => mret tt
      | Ok true =>
          r ← try (append_and_broadcast_node_event event_id draft);
          if is_ok r then route_to_node node_id (HN_EventAck event_id) ≫= fun _ => mret tt
          else mret tt
      | Err _ => mret tt
      end
  | NH_CommandAck command_id => hub_acknowledge_dispatch_from node_id command_id
  | NH_Heartbeat => mret tt
  end.

(** [incoming = stream.next()]: [None] leaves the loop. *)
Definition node_incoming (nl : NodeLink) (now : Z) (incoming : option Message)
    : M HubState (option NodeLink) :=
  match incoming with
  | None | Some Msg_Close => mret None
  | Some msg =>
      match parse_text node_to_hub_from_value msg with
      | Some from_node => node_message (nl_node nl) from_node
      | None => mret tt
      end ≫= fun _ => mret (Some (nl_seen now nl))
  end.

(** A channel has a sender while the registry holds it. *)
Definition has_sender (rx : nat) (nodes : gmap NodeId NodeConnection) : bool :=
  existsb (fun p => Nat.eqb (nc_sender p.2) rx) (map_to_list nodes).

(** [outbound = node_rx.recv()]: the message handed to the socket, and the link
    if the loop goes on. An empty channel with a sender left is not ready. *)
Definition node_outbound (nl : NodeLink) (sent : bool) : M HubState (option HubToNode * option NodeLink) :=
  fun s =>
    match hs_channels s !! nl_rx nl with
    | Some (MkChannel o (work :: queue)) =>
        (Ok (Some work, if sent then Some nl else None),
         set_channels (<[nl_rx nl := MkChannel o queue]> (hs_channels s)) s)
    | _ => (Ok (None, if has_sender (nl_rx nl) (hs_nodes s) then Some nl else None), s)
    end.

(** [_ = ticker.tick()]: whether a heartbeat goes out, and the link. *)
Definition node_tick (nl : NodeLink) (now : Z) (sent : bool) : option HubToNode * option NodeLink :=
  if LIVENESS_TIMEOUT <? now - nl_last_seen nl then (None, None)
  else (Some HN_Heartbeat, if sent then Some nl else None).

(** After the loop: unregister, and report the departure of the current link only. *)
Definition node_close (nl : NodeLink) : M HubState unit :=
  owns_slot ← unregister_node (nl_node nl) (nl_connection nl);
  (if owns_slot : bool then on_node_disconnected (nl_node nl) else mret tt) ≫= fun _ =>
  drop_receiver (nl_rx nl).

(** *** The client link *)

Record ClientLink := MkClientLink {
  cl_position : nat;            (* the receiver's place on the bus *)
  cl_last_delivered : Z;
  cl_lagged : bool;             (* the receiver just reported [Lagged] *)
  cl_last_seen : Z;
}.

(** [state.events.subscribe()] *)
Definition client_attach : M HubState nat := gets (fun s => length (hs_events s)).

Definition delivery (e : Event) : HubToClient := HC_EventDelivery e.

(** The frames of one arm, handed to the sink in order: the first [sent] writes
    succeed; a write that fails ends the link. *)
Definition write_frames (sent : nat) (out : list HubToClient) (cl : ClientLink)
    : list HubToClient * option ClientLink :=
  (take sent out, if Nat.leb (length out) sent then Some cl else None).

(** From the Subscribe frame to the end of the catch-up. *)
Definition client_subscribe (position : nat) (subscribe : Subscribe) (now : Z) (sent : nat)
    : M HubState (list HubToClient * option ClientLink) :=
  accepted ← gets (accepts_client (sub_token subscribe));
  if negb accepted then mret ([], None)
  else
    let after := default 0 (sub_after_sequence subscribe) in
    r ← try (snapshot after);
    mret (match r with
          | Err _ => ([], None)
          | Ok (head, catch_up) =>
              write_frames sent (HC_SubscribeAck (sub_after_sequence subscribe) head :: map delivery catch_up)
                (MkClientLink position head false now)
          end).

(** [incoming = stream.next()]: the receipt is written before the work is routed. *)
Definition client_incoming (cl : ClientLink) (now : Z) (incoming : option Message) (sent : nat)
    : M HubState (list HubToClient * option ClientLink) :=
  let seen := MkClientLink (cl_position cl) (cl_last_delivered cl) (cl_lagged cl) now in
  match incoming with
  | None | Some Msg_Close => mret ([], None)
  | Some msg =>
      match parse_text client_command_from_value msg with
      | Some cmd =>
          effect ← apply_command cmd;
          let written := write_frames sent [ef_receipt effect] seen in
          match snd written with
          | Some _ => route_dispatch effect
          | None => mret tt
          end ≫= fun _ => mret written
      | None => mret ([], Some seen)
      end
  end.

(** [event = live.recv()]: the next event, or a report that the bounded bus has
    dropped events this receiver had not read. *)
Definition client_recv (cl : ClientLink) (sent : nat)
    : M HubState (list HubToClient * option ClientLink) := fun s =>
  let len := length (hs_events s) in
  if Nat.ltb (cl_position cl) (len - EVENT_BUS_CAPACITY) then
    (Ok ([], Some (MkClientLink (len - EVENT_BUS_CAPACITY) (cl_last_delivered cl) true (cl_last_seen cl))), s)
  else
    match hs_events s !! cl_position cl with
    | None => (Ok ([], Some cl), s)
    | Some event =>
        (Ok (if cl_last_delivered cl <? e_sequence event
             then write_frames sent [delivery event]
                    (MkClientLink (S (cl_position cl)) (e_sequence event) (cl_lagged cl) (cl_last_seen cl))
             else ([], Some (MkClientLink (S (cl_position cl)) (cl_last_delivered cl) (cl_lagged cl)
                               (cl_last_seen cl)))), s)
    end.

(** [for event in missed { .. }] *)
Fixpoint deliver_missed (last_delivered : Z) (missed : list Event) : list HubToClient * Z :=
  match missed with
  | [] => ([], last_delivered)
  | event :: missed' =>
      if e_sequence event <=? last_delivered then deliver_missed last_delivered missed'
      else
        let '(out, last) := deliver_missed (e_sequence event) missed' in
        (delivery event :: out, last)
  end.

(** The [Lagged] arm: resynchronize from the durable log. *)
Definition client_resync (cl : ClientLink) (sent : nat) : M HubState (list HubToClient * option ClientLink) :=
  r ← try (read_events_after (cl_last_delivered cl));
  mret (match r with
        | Ok missed =>
            let '(out, last) := deliver_missed (cl_last_delivered cl) missed in
            write_frames sent out (MkClientLink (cl_position cl) last false (cl_last_seen cl))
        | Err _ => ([], None)
        end).

(** [_ = ticker.tick()] *)
Definition client_tick (cl : ClientLink) (now : Z) (sent : nat) : list HubToClient * option ClientLink :=
  if LIVENESS_TIMEOUT <? now - cl_last_seen cl then ([], None)
  else write_frames sent [HC_Heartbeat] cl.
End Links.
