(* ===== verification/ClientDelivery.v ===== *)
(** The client link delivers the log: catch-up, live delivery and
    resynchronization after lagging compose to the durable event sequence, with
    no gap and no duplicate, whatever else the hub does in between. *)
From S2P Require Import Prelude.
From S2P Require Import RustStr.
From S2P Require Import Platform.
From S2P Require Import Ids.
From S2P Require Import Entities.
From S2P Require Import Event.
From S2P Require Import Protocol.
From S2P Require Import Wire.
From S2P Require Import Schema.
From S2P Require Import Store.
From S2P Require Import StoreInv.
From S2P Require Import StoreStep.
From S2P Require Import StoreLog.
From S2P Require Import StoreTyped.
From S2P Require Import Settings.
From S2P Require Import HubState.
From S2P Require Import HubCommands.
From S2P Require Import HubInv.
From S2P Require Import Links.

Local Open Scope Z_scope.

Section Delivery.
Context {P : Platform} {PL : PlatformLaws P} {E : Env P} {EO : EnvOk}.

(** The events among the frames handed to the client. *)
Definition delivered_events (out : list HubToClient) : list Event :=
  omap (fun m => match m with HC_EventDelivery e => Some e | _ => None end) out.

Lemma delivered_map l : delivered_events (map delivery l) = l.
Proof. induction l as [|e l IH]; cbn; [done|]. f_equal. exact IH. Qed.

Lemma delivered_ack a h out : delivered_events (HC_SubscribeAck a h :: out) = delivered_events out.
Proof. done. Qed.

(** A client link, the hub around it, and what the client has been sent. *)
Record ClientRun := MkClientRun { cr_hub : HubState; cr_link : ClientLink; cr_delivered : list Event }.

(** One step: anything else the hub does, or one arm of the client's loop. *)
Inductive client_step : ClientRun -> ClientRun -> Prop :=
| client_step_hub s s' cl ev :
    evolves s s' -> client_step (MkClientRun s cl ev) (MkClientRun s' cl ev)
| client_step_recv s s' cl cl' sent out ev :
    cl_lagged cl = false -> client_recv cl sent s = (Ok (out, Some cl'), s') ->
    client_step (MkClientRun s cl ev) (MkClientRun s' cl' (ev ++ delivered_events out))
| client_step_resync s s' cl cl' sent out ev :
    cl_lagged cl = true -> client_resync cl sent s = (Ok (out, Some cl'), s') ->
    client_step (MkClientRun s cl ev) (MkClientRun s' cl' (ev ++ delivered_events out))
| client_step_incoming s s' cl cl' sent out now m ev :
    client_incoming cl now m sent s = (Ok (out, Some cl'), s') ->
    client_step (MkClientRun s cl ev) (MkClientRun s' cl' (ev ++ delivered_events out))
| client_step_tick s cl cl' sent out now ev :
    client_tick cl now sent = (out, Some cl') ->
    client_step (MkClientRun s cl ev) (MkClientRun s cl' (ev ++ delivered_events out)).

Lemma write_frames_live sent out cl o c :
  write_frames sent out cl = (o, Some c) -> o = out /\ c = cl.
Proof.
  unfold write_frames. intros [= <- H]. destruct (Nat.leb_spec (length out) sent); simplify_eq.
  by rewrite take_ge.
Qed.

(** What has been delivered is the log between where the client started and
    its cursor, and its place on the bus is not past the cursor (unless it has just
    lagged, and is about to read the log). *)
Record client_inv (base : list Event) (start : nat) (c : ClientRun) : Prop := {
  ci_good : good base (cr_hub c);
  ci_start : Z.of_nat start <= cl_last_delivered (cr_link c);
  ci_bus : (cl_position (cr_link c) <= length (hs_events (cr_hub c)))%nat;
  ci_position : cl_lagged (cr_link c) = false ->
    zlen base + Z.of_nat (cl_position (cr_link c)) <= cl_last_delivered (cr_link c);
  ci_cursor : cl_last_delivered (cr_link c) <= zlen (base ++ hs_events (cr_hub c));
  ci_delivered : cr_delivered c =
    drop start (take (Z.to_nat (cl_last_delivered (cr_link c))) (base ++ hs_events (cr_hub c)));
}.

Lemma represents_lookup d l (i : nat) e :
  db_wf d -> represents d l -> l !! i = Some e -> e_sequence e = Z.of_nat i + 1.
Proof.
  intros Hwf Hrep Hi. pose proof (represents_sequences d l Hwf Hrep) as Hs.
  assert ((e_sequence <$> l) !! i = Some (e_sequence e)) as Hl by by rewrite list_lookup_fmap Hi.
  rewrite Hs in Hl. apply lookup_seqZ in Hl as [-> _]. lia.
Qed.

Lemma evolves_bus base s s' :
  good base s -> evolves s s' -> exists t, hs_events s' = hs_events s ++ t.
Proof.
  intros Hg Hev. pose proof (ev_good _ _ Hev base Hg) as Hg'.
  destruct Hg as [Hwf Hty Hrep]. destruct Hg' as [_ _ Hrep'].
  destruct (store_steps_wf _ _ Hwf (timed_steps_store _ _ (ev_store _ _ Hev))) as [_ Hext].
  destruct (extends_represents _ _ _ _ Hext Hrep Hrep') as [t Ht].
  rewrite -app_assoc in Ht. apply app_inv_head in Ht. by exists t.
Qed.

Lemma client_inv_hub base start s s' cl ev :
  client_inv base start (MkClientRun s cl ev) -> evolves s s' ->
  client_inv base start (MkClientRun s' cl ev).
Proof.
  intros [Hg Hst Hbus Hpos Hcur Hdel] Hev. cbn in *.
  destruct (evolves_bus base s s' Hg Hev) as [t Ht].
  constructor; cbn; [by apply (ev_good _ _ Hev)|done| |done| |].
  - rewrite Ht length_app. lia.
  - rewrite Ht app_assoc length_app. lia.
  - rewrite Ht app_assoc take_app_le; [lia|]. done.
Qed.

(** *** The arms *)

Lemma client_inv_recv base start s s' cl cl' sent out ev :
  client_inv base start (MkClientRun s cl ev) -> cl_lagged cl = false ->
  client_recv cl sent s = (Ok (out, Some cl'), s') ->
  client_inv base start (MkClientRun s' cl' (ev ++ delivered_events out)).
Proof.
  intros [Hg Hst Hbus Hpos Hcur Hdel] Hlagged. cbn in *. specialize (Hpos Hlagged). unfold client_recv.
  destruct (Nat.ltb_spec (cl_position cl) (length (hs_events s) - EVENT_BUS_CAPACITY)) as [Hlag|Hnl].
  { (* the bus dropped what this receiver had not read: the cursor stays *)
    intros H. simplify_eq. cbn. rewrite app_nil_r. constructor; cbn; try done. lia. }
  destruct (hs_events s !! cl_position cl) as [e|] eqn:Hl; intros [= H0 <-]; cbn;
    [|simplify_eq; rewrite app_nil_r; by constructor].
  pose proof Hg as [Hwf _ Hrep].
  pose proof (lookup_lt_Some _ _ _ Hl) as Hlt.
  assert ((base ++ hs_events s) !! (length base + cl_position cl)%nat = Some e) as Hle.
  { rewrite lookup_app_r; [lia|]. by rewrite (_ : (length base + _ - length base)%nat = cl_position cl); [lia|]. }
  pose proof (represents_lookup _ _ _ _ Hwf Hrep Hle) as Hseq.
  rewrite length_app in Hcur. subst ev.
  destruct (Z.ltb_spec (cl_last_delivered cl) (e_sequence e)) as [Hnew|Hold];
    [apply write_frames_live in H0 as [-> ->]|simplify_eq]; cbn.
  - assert (Z.to_nat (e_sequence e) = S (Z.to_nat (cl_last_delivered cl))) as Heq by lia.
    assert (Z.to_nat (cl_last_delivered cl) = (length base + cl_position cl)%nat) as Hat by lia.
    constructor; cbn; [done|lia|lia|lia|rewrite length_app; lia|].
    rewrite Heq (take_S_r _ _ e); [by rewrite Hat|].
    rewrite drop_app_le; [rewrite length_take length_app; lia|done].
  - rewrite app_nil_r. constructor; cbn; try done; rewrite ?length_app; lia.
Qed.

Lemma deliver_missed_all last missed :
  e_sequence <$> missed = seqZ (last + 1) (zlen missed) ->
  deliver_missed last missed = (map delivery missed, last + zlen missed).
Proof.
  revert last. induction missed as [|e missed IH]; intros last H; cbn [deliver_missed].
  { by rewrite Z.add_0_r. }
  cbn [fmap list_fmap length] in H. rewrite seqZ_cons in H; [lia|].
  rewrite (_ : Z.pred (Z.of_nat (S (length missed))) = zlen missed) in H; [lia|].
  injection H as He H. rewrite (proj2 (Z.leb_gt _ _)); [lia|].
  rewrite IH; [by rewrite H; f_equal; lia|]. cbn [length map]. f_equal. lia.
Qed.

Lemma seqZ_drop_from (l : list Event) k :
  e_sequence <$> l = seqZ 1 (zlen l) -> 0 <= k <= zlen l ->
  e_sequence <$> drop (Z.to_nat k) l = seqZ (k + 1) (zlen (drop (Z.to_nat k) l)).
Proof.
  intros H Hk. rewrite fmap_drop H length_drop. apply list_eq. intros i.
  rewrite lookup_drop. destruct (decide (Z.to_nat k + i < length l)%nat).
  - rewrite (proj2 (lookup_seqZ _ _ _ (1 + Z.of_nat (Z.to_nat k + i)))); [split; lia|].
    symmetry. apply lookup_seqZ. split; lia.
  - rewrite (proj2 (lookup_ge_None _ _)); [rewrite length_seqZ; lia|].
    symmetry. apply lookup_ge_None. rewrite length_seqZ. lia.
Qed.

Lemma client_inv_resync base start s s' cl cl' sent out ev :
  client_inv base start (MkClientRun s cl ev) -> client_resync cl sent s = (Ok (out, Some cl'), s') ->
  client_inv base start (MkClientRun s' cl' (ev ++ delivered_events out)).
Proof.
  intros [Hg Hst Hbus Hpos Hcur Hdel]. cbn in *. pose proof Hg as [Hwf _ Hrep].
  unfold client_resync, try, read_events_after, with_hub, mbind, M_bind.
  rewrite (events_after_represents _ _ _ Hwf Hrep). unfold spec_events_after. cbn.
  set (l := base ++ hs_events s) in *. set (ld := cl_last_delivered cl) in *.
  pose proof (seqZ_drop_from l ld (represents_sequences _ _ Hwf Hrep)) as Hs.
  rewrite deliver_missed_all; [apply Hs; lia|].
  intros [H ->]%m_ret_ok. symmetry in H. apply write_frames_live in H as [-> ->].
  rewrite delivered_map. subst ev. rewrite length_drop.
  assert (set_hub (hs_hub s) s = s) as -> by by destruct s.
  assert (ld + Z.of_nat (length l - Z.to_nat ld) = zlen l) as -> by (clear -Hst Hcur; lia).
  constructor; cbn; [done|clear -Hst Hcur; lia|done| | |]; rewrite -/l.
  - intros _. unfold l. rewrite length_app. lia.
  - done.
  - rewrite Nat2Z.id (take_ge l (length l)); [done|].
    rewrite -{3}(take_drop (Z.to_nat ld) l).
    rewrite drop_app_le; [rewrite length_take; clear -Hst Hcur; lia|done].
Qed.

(** A client's own commands deliver nothing and move the hub like any other. *)
Lemma client_incoming_events cl now m sent s out cl' s' :
  client_incoming cl now m sent s = (Ok (out, Some cl'), s') ->
  evolves s s' /\ delivered_events out = [] /\ cl_position cl' = cl_position cl /\
  cl_last_delivered cl' = cl_last_delivered cl /\ cl_lagged cl' = cl_lagged cl.
Proof.
  unfold client_incoming. destruct m as [m|]; [|done].
  destruct m; cbn [parse_text];
    [|intros H; cbv [mret M_ret] in H; simplify_eq; try (split; [reflexivity|done])..].
  destruct (json_from_str t ≫= client_command_from_value) as [cmd|];
    [|intros H; cbv [mret M_ret] in H; simplify_eq; split; [reflexivity|done]].
  unfold mbind, M_bind. pose proof (preserves_apply cmd s) as H1.
  destruct (returns_apply_inner cmd None s) as (ef' & s1' & Ha' & ac & sq & ei & er & Hrec & _).
  unfold apply_command in *. rewrite Ha' in H1 |- *. cbn in H1.
  destruct (write_frames _ _ _) as [o [c|]] eqn:Hw; cbn [snd]; [|done].
  apply write_frames_live in Hw as [-> ->].
  pose proof (preserves_route_dispatch ef' s1') as H2.
  destruct (route_dispatch ef' s1') as [[[]|e] s2]; cbn in H2; [|done].
  intros [[= -> ->] ->]%m_ret_ok. split; [by etrans|]. split; [by rewrite Hrec|done].
Qed.

Lemma client_step_inv base start c c' :
  client_inv base start c -> client_step c c' -> client_inv base start c'.
Proof.
  intros Hi Hs. destruct Hs as [s s' cl ev Hev|s s' cl cl' sent out ev Hl Hr|s s' cl cl' sent out ev Hl Hr
    |s s' cl cl' sent out now m ev Hr|s cl cl' sent out now ev Ht].
  - by eapply client_inv_hub.
  - by eapply client_inv_recv.
  - by eapply client_inv_resync.
  - destruct (client_incoming_events _ _ _ _ _ _ _ _ Hr) as (Hev & -> & H1 & H2 & H3).
    rewrite app_nil_r. pose proof (client_inv_hub _ _ _ _ _ _ Hi Hev) as [].
    constructor; cbn in *; rewrite ?H1 ?H2 ?H3; done.
  - unfold client_tick in Ht. destruct (_ <? _); [done|].
    apply write_frames_live in Ht as [-> ->]. by rewrite app_nil_r.
Qed.

Lemma client_steps_inv base start c c' :
  client_inv base start c -> rtc client_step c c' -> client_inv base start c'.
Proof. intros Hi. induction 1; [done|]. eauto using client_step_inv. Qed.

(** The cursor only advances. *)
Lemma deliver_missed_mono last missed : last <= snd (deliver_missed last missed).
Proof.
  revert last. induction missed as [|e missed IH]; intros last; cbn; [lia|].
  destruct (Z.leb_spec (e_sequence e) last); [apply IH|].
  specialize (IH (e_sequence e)). destruct (deliver_missed _ _) as [out k]. cbn in *. lia.
Qed.

Lemma client_step_cursor c c' :
  client_step c c' -> cl_last_delivered (cr_link c) <= cl_last_delivered (cr_link c').
Proof.
  intros Hs. destruct Hs as [s s' cl ev Hev|s s' cl cl' sent out ev Hl Hr|s s' cl cl' sent out ev Hl Hr
    |s s' cl cl' sent out now m ev Hr|s cl cl' sent out now ev Ht]; cbn; [done| | | |].
  - unfold client_recv in Hr. destruct (Nat.ltb _ _); [by simplify_eq|].
    destruct (hs_events s !! _) as [e|]; [|by simplify_eq]. injection Hr as Hr _.
    destruct (Z.ltb_spec (cl_last_delivered cl) (e_sequence e)); [|simplify_eq; cbn; lia].
    apply write_frames_live in Hr as [_ ->]. cbn. lia.
  - unfold client_resync in Hr. apply m_bind_ok in Hr as (r & s1 & _ & [Hr _]%m_ret_ok).
    destruct r as [missed|e]; [|done]. pose proof (deliver_missed_mono (cl_last_delivered cl) missed).
    destruct (deliver_missed _ missed) as [o k]. symmetry in Hr. by apply write_frames_live in Hr as [_ ->].
  - by destruct (client_incoming_events _ _ _ _ _ _ _ _ Hr) as (_ & _ & _ & -> & _).
  - unfold client_tick in Ht. destruct (_ <? _); [done|]. by apply write_frames_live in Ht as [_ ->].
Qed.

Lemma client_steps_cursor c c' :
  rtc client_step c c' -> cl_last_delivered (cr_link c) <= cl_last_delivered (cr_link c').
Proof. induction 1 as [|c1 c2 c3 Hs _ IH]; [done|]. apply client_step_cursor in Hs. lia. Qed.

(** *** The opening: attach to the bus, then acknowledge and catch up. *)

Lemma last_sequence d l : db_wf d -> represents d l ->
  default 0 (e_sequence <$> last l) = zlen l.
Proof.
  intros Hwf Hrep. destruct l as [|e l _] using rev_ind; [done|].
  rewrite last_snoc. cbn.
  assert ((l ++ [e]) !! length l = Some e) as Hl by (by rewrite list_lookup_middle).
  rewrite (represents_lookup _ _ _ _ Hwf Hrep Hl) length_app /=. lia.
Qed.

Lemma snapshot_good base s after : good base s ->
  let l := base ++ hs_events s in
  snapshot after s = (Ok (zlen l, drop (Z.to_nat after) l), s).
Proof.
  intros Hg l. pose proof Hg as [Hwf _ Hrep]. unfold snapshot, with_hub, mbind, M_bind.
  rewrite (events_after_represents _ _ _ Hwf Hrep). cbn.
  rewrite (last_sequence _ _ Hwf Hrep) (filter_after _ 1); [by apply (represents_sequences (hs_hub s))|].
  rewrite (_ : after - 1 + 1 = after); [lia|]. by destruct s.
Qed.

(** The place in the log the client starts from: its cursor, or the head
    when the cursor is past it. *)
Definition start_of (sub : Subscribe) (head : Z) : nat :=
  Z.to_nat (Z.min (default 0 (sub_after_sequence sub)) head).

Lemma client_subscribe_inv base s0 s position sub now sent out cl s' :
  good base s0 -> client_attach s0 = (Ok position, s0) -> evolves s0 s ->
  client_subscribe position sub now sent s = (Ok (out, Some cl), s') ->
  let head := zlen (base ++ hs_events s) in
  s' = s /\ cl_last_delivered cl = head /\
  out = HC_SubscribeAck (sub_after_sequence sub) head :: map delivery (delivered_events out) /\
  client_inv base (start_of sub head) (MkClientRun s' cl (delivered_events out)).
Proof.
  intros Hg0 Hatt Hev. injection Hatt as Hpos.
  pose proof (ev_good _ _ Hev base Hg0) as Hg. destruct (evolves_bus base s0 s Hg0 Hev) as [t Ht].
  unfold client_subscribe, try, mbind, M_bind. cbn [gets]. unfold gets.
  destruct (accepts_client _ s); cbn [negb]; [|done].
  rewrite (snapshot_good base s _ Hg). cbn. set (l := base ++ hs_events s).
  intros [H ->]%m_ret_ok. symmetry in H. apply write_frames_live in H as [-> ->].
  rewrite delivered_ack delivered_map.
  split; [done|]. split; [done|]. split; [done|].
  constructor; cbn; rewrite -/l; [done| | | |done|].
  - unfold start_of. lia.
  - rewrite Ht length_app. lia.
  - intros _. unfold l. rewrite Ht !length_app. lia.
  - rewrite Nat2Z.id take_ge; [done|]. unfold start_of.
    destruct (Z.min_spec (default 0 (sub_after_sequence sub)) (zlen l)) as [[_ ->]|[Hle ->]]; [done|].
    rewrite Nat2Z.id. rewrite !drop_ge; [lia|done|done].
Qed.
End Delivery.
