(* ===== verification/HubSystem.v ===== *)
(** The hub as a whole: its calls as the transitions of one system, the states
    it reaches, and the facts about single calls that the properties of
    HubTheorems.v rest on: what a command leaves in the store, which node a
    dispatch goes to, whose events enter the log, which link a close speaks for. *)
From S2P Require Import Prelude.
From S2P Require Import RustStr.
From S2P Require Import Platform.
From S2P Require Import Ids.
From S2P Require Import Entities.
From S2P Require Import Event.
From S2P Require Import Protocol.
From S2P Require Import Wire.
From S2P Require Import Schema.
From S2P Require Import Store.
From S2P Require Import StoreInv.
From S2P Require Import StoreStep.
From S2P Require Import StoreLog.
From S2P Require Import StoreTyped.
From S2P Require Import StoreFlows.
From S2P Require Import Settings.
From S2P Require Import HubState.
From S2P Require Import HubCommands.
From S2P Require Import HubInv.
From S2P Require Import Links.

Local Open Scope Z_scope.

Section System.
Context {P : Platform} {PL : PlatformLaws P} {E : Env P} {EO : EnvOk}.

(** *** Calls *)

Inductive HubCall :=
| Call_submit (cmd : ClientCommand)
| Call_apply (cmd : ClientCommand)
| Call_route (n : NodeId) (m : HubToNode)
| Call_worker_task (title prompt : string) (channel : option string) (preferred : option NodeId)
    (engine : string) (model effort workspace : option string)
| Call_track (channel : string) (t : TaskId) (r : RunId)
| Call_assistant_run (t : TaskId) (engine : string) (model effort : option string)
    (prompt : string) (workspace : option string)
| Call_assistant_message (t : TaskId) (r : RunId) (text : string)
| Call_assistant_event (k : EventKind) (t : TaskId) (r : RunId) (session : option string) (payload : Value)
| Call_save_settings (x : AssistantSettings)
| Call_save_updates (x : UpdateSettings)
| Call_save_session (channel : string) (x : AssistantSession)
| Call_clear_session (channel : string)
| Call_set_channel (channel : string)
| Call_complete_wake (i : EventId)
| Call_defer_wake (i : EventId) (error : string)
| Call_update_nodes (version : string)
| Call_node_open (hello : NodeHello) (sent : bool) (now : Z)
| Call_node_message (n : NodeId) (m : NodeToHub)
| Call_node_outbound (nl : NodeLink) (sent : bool)
| Call_node_close (nl : NodeLink).

Definition hub_call (c : HubCall) (s : HubState) : HubState :=
  match c with
  | Call_submit cmd => snd (submit_command cmd s)
  | Call_apply cmd => snd (apply_command cmd s)
  | Call_route n m => snd (route_to_node n m s)
  | Call_worker_task ti p ch pn e m ef w => snd (create_worker_task ti p ch pn e m ef w s)
  | Call_track ch t r => snd (track_assistant_worker ch t r s)
  | Call_assistant_run t e m ef p w => snd (start_hub_assistant_run t e m ef p w s)
  | Call_assistant_message t r x => snd (append_hub_assistant_message t r x s)
  | Call_assistant_event k t r ss pl => snd (append_hub_assistant_event k t r ss pl s)
  | Call_save_settings x => snd (save_assistant_settings x s)
  | Call_save_updates x => snd (save_update_settings x s)
  | Call_save_session ch x => snd (save_assistant_session ch x s)
  | Call_clear_session ch => snd (clear_assistant_session ch s)
  | Call_set_channel ch => snd (set_active_assistant_channel ch s)
  | Call_complete_wake i => snd (hub_complete_assistant_wake i s)
  | Call_defer_wake i e => snd (hub_defer_assistant_wake i e s)
  | Call_update_nodes v => snd (dispatch_update_to_nodes v s)
  | Call_node_open h sent now => snd (node_open h sent now s)
  | Call_node_message n m => snd (node_message n m s)
  | Call_node_outbound nl sent => snd (node_outbound nl sent s)
  | Call_node_close nl => snd (node_close nl s)
  end.

(** A node's draft carries the instant it claims; the others are the hub's. *)
Definition hub_call_ok (c : HubCall) : Prop :=
  match c with
  | Call_node_message _ (NH_NodeEvent _ draft) => draft_times_ok draft
  | _ => True
  end.

Lemma preserves_hub_read_setting k : preserves evolves (with_hub (get_setting k)).
Proof. apply preserves_setting. Qed.
Hint Resolve preserves_run_binding_checked preserves_run_binding preserves_accepts preserves_replay
  preserves_hub_ack preserves_connected preserves_disconnected preserves_apply_inner preserves_apply
  preserves_submit preserves_worker_task preserves_track preserves_hub_run preserves_hub_message
  preserves_hub_event preserves_hub_put : hub.

Lemma preserves_updates v t cs : preserves evolves (send_updates v t cs).
Proof. induction cs as [|c cs IH]; cbn [send_updates]; walk. Qed.
Hint Resolve preserves_updates : hub.

Lemma preserves_node_open h sent now : preserves evolves (node_open h sent now).
Proof. unfold node_open. walk. Qed.

Lemma preserves_node_message n m :
  (forall i d, m = NH_NodeEvent i d -> draft_times_ok d) -> preserves evolves (node_message n m).
Proof.
  intros Hm. destruct m as [i d|c|]; cbn [node_message]; [|walk..].
  pose proof (Hm i d eq_refl). walk.
Qed.

Lemma preserves_outbound nl sent : preserves evolves (node_outbound nl sent).
Proof.
  intros s. unfold node_outbound. destruct (hs_channels s !! _) as [[o [|w q]]|]; [done| |done].
  by apply evolves_quiet.
Qed.

Lemma preserves_node_close nl : preserves evolves (node_close nl).
Proof. unfold node_close. walk. Qed.

Lemma preserves_save_assistant x : preserves evolves (save_assistant_settings x).
Proof. unfold save_assistant_settings. walk. Qed.
Lemma preserves_save_update x : preserves evolves (save_update_settings x).
Proof. unfold save_update_settings. walk. Qed.
Lemma preserves_set_channel x : preserves evolves (set_active_assistant_channel x).
Proof. unfold set_active_assistant_channel. walk. Qed.
Lemma preserves_hub_complete i : preserves evolves (hub_complete_assistant_wake i).
Proof. unfold hub_complete_assistant_wake. walk. Qed.
Lemma preserves_hub_defer i e : preserves evolves (hub_defer_assistant_wake i e).
Proof. unfold hub_defer_assistant_wake. walk. Qed.
Lemma preserves_dispatch_updates v : preserves evolves (dispatch_update_to_nodes v).
Proof. unfold dispatch_update_to_nodes. walk. Qed.

Lemma hub_call_evolves c s : hub_call_ok c -> evolves s (hub_call c s).
Proof.
  intros Hc. destruct c; cbn [hub_call].
  - apply preserves_submit.
  - apply preserves_apply.
  - apply preserves_route.
  - apply preserves_worker_task.
  - apply preserves_track.
  - apply preserves_hub_run.
  - apply preserves_hub_message.
  - apply preserves_hub_event.
  - apply preserves_save_assistant.
  - apply preserves_save_update.
  - apply preserves_hub_put.
  - apply preserves_hub_put.
  - apply preserves_set_channel.
  - apply preserves_hub_complete.
  - apply preserves_hub_defer.
  - apply preserves_dispatch_updates.
  - apply preserves_node_open.
  - apply preserves_node_message. intros i d ->. done.
  - apply preserves_outbound.
  - apply preserves_node_close.
Qed.

(** *** Reachable hubs *)

Definition hub_step (s s' : HubState) : Prop := exists c, hub_call_ok c /\ s' = hub_call c s.

Lemma hub_steps_evolves s s' : rtc hub_step s s' -> evolves s s'.
Proof.
  induction 1 as [|s s1 s2 (c & Hc & ->) _ IH]; [done|]. etrans; [by apply hub_call_evolves|done].
Qed.

Lemma in_memory_good node_secret client_secret : good [] (in_memory_secured node_secret client_secret).
Proof. constructor; [apply empty_db_wf|apply empty_db_typed|apply represents_empty]. Qed.

(** A hub opened on an existing well-formed database. *)
Lemma from_hub_good d l ns cs :
  db_wf d -> db_typed d -> represents d l -> good l (from_hub d ns cs).
Proof. intros. constructor; [done|done|]. cbn. by rewrite app_nil_r. Qed.
End System.
