(* ===== verification/Samples.v ===== *)
(** Concrete values on the platform of TestPlatform.v, for the instances of the
    properties: a worker run from its creation to its terminal event. *)
From S2P Require Import Prelude.
From S2P Require Import RustStr.
From S2P Require Import Platform.
From S2P Require Import Ids.
From S2P Require Import Entities.
From S2P Require Import Event.
From S2P Require Import Protocol.
From S2P Require Import Wire.
From S2P Require Import TestPlatform.
From S2P Require Import Schema.
From S2P Require Import Store.
From S2P Require Import StoreInv.
From S2P Require Import StoreStep.
From S2P Require Import StoreLog.
From S2P Require Import StoreTyped.
From S2P Require Import StoreFlows.
From S2P Require Import Settings.
From S2P Require Import HubState.
From S2P Require Import HubCommands.
From S2P Require Import HubInv.
From S2P Require Import Links.
From S2P Require Import ClientDelivery.
From S2P Require Import HubSystem.

Local Open Scope Z_scope.

Definition an_id {k} (s : string) : Id k := MkId (P := test_platform) (k := k) (s : @Uuid test_platform).

Definition s_task_id : TaskId := an_id "task".
Definition s_run_id : RunId := an_id "run".
Definition s_event_id : EventId := an_id "event".
Definition s_command_id : CommandId := an_id "command".
Definition s_approval_id : ApprovalId := an_id "approval".
Definition s_node : NodeId := MkNodeId "node".
Definition s_other : NodeId := MkNodeId "other".

Definition s_draft : EventDraft := draft_new 7 TaskCreated s_task_id s_node.
Definition s_done : EventDraft := with_run s_run_id (draft_new 8 RunCompleted s_task_id s_node).
Definition s_work : HubToNode :=
  HN_DispatchCommand s_command_id None (NW_InterruptRun s_run_id).

(** Instants of the samples are representable. *)
Lemma s_time_ok t : 0 <= t <= 1000 -> time_ok t.
Proof. unfold time_ok. lia. Qed.

(** A store holding one command with a dispatch. *)
Definition s_call : StoreCall := SC_append_command 5 s_event_id s_command_id s_draft EW_None
  (Some (s_node, s_work)).
Definition s_db1 : Db := store_call s_call empty_db.

Lemma s_call_ok : call_times_ok s_call.
Proof. cbn. unfold draft_times_ok. cbn. split_and!; try done; apply s_time_ok; lia. Qed.
Lemma s_db1_reachable : reachable s_db1.
Proof. apply store_step_call. Qed.
Lemma s_db1_typed : db_typed s_db1.
Proof. apply store_call_typed; [apply empty_db_wf|apply empty_db_typed|apply s_call_ok]. Qed.
Lemma s_db1_timed : timed_steps empty_db s_db1.
Proof. apply rtc_once. exists s_call. split; [apply s_call_ok|done]. Qed.

(** A store with a tracked worker. *)
Definition s_worker : StoreCall := SC_register_worker 6 "telegram" s_task_id.
Definition s_db2 : Db := store_call s_worker s_db1.
Lemma s_db2_reachable : reachable s_db2.
Proof. eapply rtc_r; [apply s_db1_reachable|]. by exists s_worker. Qed.
Lemma s_db2_typed : db_typed s_db2.
Proof. apply store_call_typed; [apply reachable_wf, s_db1_reachable|apply s_db1_typed|done]. Qed.

(** Its run ended: the wake is open. *)
Definition s_db3 : Db := store_call (SC_append_node_event 9 (an_id "event2") s_done) s_db2.
Lemma s_db3_reachable : reachable s_db3.
Proof. eapply rtc_r; [apply s_db2_reachable|]. by eexists. Qed.

(** An approval is pending. *)
Definition s_db4 : Db :=
  store_call (SC_request_approval s_approval_id 9 s_run_id s_task_id "tool" "shell" ["yes"; "no"] None) s_db1.
Lemma s_db4_reachable : reachable s_db4.
Proof. eapply rtc_r; [apply s_db1_reachable|]. by eexists. Qed.

(** A concrete environment and a short life of a hub on the platform of
    TestPlatform.v: a node connects, a task is opened, a run starts on the node,
    the node reports. The instances of the hub's properties run on it. *)

(** Clock readings and UUIDs are their own index. *)
#[export] Instance s_env : Env test_platform := {
  env_now n := Z.of_nat n mod 1000;
  env_uuid n := pretty.pretty n : @Uuid test_platform;
  env_debug_error _ := "error"%string;
}.

#[export] Instance s_env_ok : EnvOk.
Proof.
  intros n. apply s_time_ok. cbn. pose proof (Z.mod_pos_bound (Z.of_nat n) 1000 eq_refl). lia.
Qed.

Definition s_capabilities : Value := value_object [("engines", value_array [value_str "claude"])]%string.
Definition s_hello : NodeHello := MkHello s_node "secret" "1.0" WIRE_PROTOCOL_VERSION s_capabilities None.
Definition s_bad_hello : NodeHello := MkHello s_node "guess" "1.0" WIRE_PROTOCOL_VERSION s_capabilities None.

(** The hub before and after the node connected. The tables and the bus of each
    state are given by value. *)
Definition s_hub0 : HubState := in_memory_secured "secret" "client".
Definition s_after (d : Db) (bus : list Event) (run : gmap RunId (NodeId * TaskId)) (task : gmap TaskId NodeId)
    (queue : list HubToNode) (ticks draws : nat) : HubState :=
  MkHubState d "secret" "client" bus {[ s_node := MkConnection 1 0 ]} 2 run task [MkChannel true queue] ticks draws.

Definition s_call1 : HubCall := Call_node_open s_hello true 0.
Definition s_db_1 : Db := Eval vm_compute in hs_hub (hub_call s_call1 s_hub0).
Definition s_bus1 : list Event := Eval vm_compute in hs_events (hub_call s_call1 s_hub0).
Definition s_hub1 : HubState := s_after s_db_1 s_bus1 ∅ ∅ [] 2 1.
Definition s_link1 : NodeLink := MkNodeLink s_node 1 0 0.

(** A task, a run on the node, and the run's end. *)
Definition s_create : ClientCommand := CC_CreateTask (an_id "c1") "title".
Definition s_call2 : HubCall := Call_submit s_create.
Definition s_db_2 : Db := Eval vm_compute in hs_hub (hub_call s_call2 s_hub1).
Definition s_bus2 : list Event := Eval vm_compute in hs_events (hub_call s_call2 s_hub1).
Definition s_hub2 : HubState := s_after s_db_2 s_bus2 ∅ ∅ [] 5 3.
Definition s_start : ClientCommand :=
  CC_StartRun (an_id "c2") (an_id "1") None "claude" None None None AccessPolicy.Supervised None.
Definition s_run3 : RunId := an_id "3".
Definition s_task3 : TaskId := an_id "1".
Definition s_run_message : HubToNode :=
  dispatch_command (an_id "c2")
    (NW_StartRun s_run3 s_task3 "claude" None None None AccessPolicy.Supervised None).
Definition s_call3 : HubCall := Call_submit s_start.
Definition s_db_3 : Db := Eval vm_compute in hs_hub (hub_call s_call3 s_hub2).
Definition s_bus3 : list Event := Eval vm_compute in hs_events (hub_call s_call3 s_hub2).
Definition s_hub3 : HubState :=
  s_after s_db_3 s_bus3 {[ s_run3 := (s_node, s_task3) ]} {[ s_task3 := s_node ]} [s_run_message] 8 5.
Definition s_report : EventDraft := with_run s_run3 (draft_new 8 RunCompleted s_task3 s_node).
Definition s_call4 : HubCall := Call_node_message s_node (NH_NodeEvent (an_id "e4") s_report).
Definition s_db_4 : Db := Eval vm_compute in hs_hub (hub_call s_call4 s_hub3).
Definition s_bus4 : list Event := Eval vm_compute in hs_events (hub_call s_call4 s_hub3).
Definition s_hub4 : HubState :=
  s_after s_db_4 s_bus4 {[ s_run3 := (s_node, s_task3) ]} {[ s_task3 := s_node ]}
    [s_run_message; HN_EventAck (an_id "e4")] 9 5.

Lemma s_report_ok : draft_times_ok s_report.
Proof. apply s_time_ok. cbn. lia. Qed.

Lemma s_good0 : good [] s_hub0.
Proof. apply in_memory_good. Qed.
Lemma s_step1 : hub_step s_hub0 s_hub1.
Proof. exists s_call1. split; [exact I|vm_refl]. Qed.
Lemma s_step2 : hub_step s_hub1 s_hub2.
Proof. exists s_call2. split; [exact I|vm_refl]. Qed.
Lemma s_step3 : hub_step s_hub2 s_hub3.
Proof. exists s_call3. split; [exact I|vm_refl]. Qed.
Lemma s_step4 : hub_step s_hub3 s_hub4.
Proof. exists s_call4. split; [exact s_report_ok|vm_refl]. Qed.
Lemma s_steps4 : rtc hub_step s_hub0 s_hub4.
Proof.
  eapply rtc_l; [exact s_step1|]. eapply rtc_l; [exact s_step2|]. eapply rtc_l; [exact s_step3|].
  apply rtc_once, s_step4.
Qed.
Lemma s_good1 : good [] s_hub1.
Proof. eapply ev_good; [apply hub_steps_evolves, rtc_once, s_step1|apply s_good0]. Qed.
Lemma s_good2 : good [] s_hub2.
Proof. eapply ev_good; [apply hub_steps_evolves, rtc_once, s_step2|apply s_good1]. Qed.
Lemma s_good3 : good [] s_hub3.
Proof. eapply ev_good; [apply hub_steps_evolves, rtc_once, s_step3|apply s_good2]. Qed.
