(* ===== verification/ContractTheorems.v ===== *)
(** The properties of the contracts other parts rely on: the wire messages, the
    on-disk tokens and the schema migrations. *)
From S2P Require Import Prelude.
From S2P Require Import RustStr.
From S2P Require Import Platform.
From S2P Require Import Ids.
From S2P Require Import Entities.
From S2P Require Import Event.
From S2P Require Import Protocol.
From S2P Require Import Wire.
From S2P Require Import TestPlatform.
From S2P Require Import Schema.
From S2P Require Import Store.
From S2P Require Import StoreLog.
From S2P Require Import Migrations.
From S2P Require Import Samples.

Local Open Scope Z_scope.

Section Contracts.
Context {P : Platform} {PL : PlatformLaws P}.

(** C15: Every message of the control plane survives the wire: the decoder of
    each link reads back exactly what the other side's encoder wrote, for the
    client's commands and subscription, the hub's frames to clients, the node
    handshake, node frames, node work and the hub's frames to nodes. *)
Theorem wire_round_trip :
  (forall c, client_command_from_value (client_command_to_value c) = Some c) /\
  (forall s, subscribe_from_value (subscribe_to_value s) = Some s) /\
  (forall m, (forall e, m = HC_EventDelivery e -> event_times_ok e) ->
     hub_to_client_from_value (hub_to_client_to_value m) = Some m) /\
  (forall h, hello_from_value (hello_to_value h) = Some h) /\
  (forall w, welcome_from_value (welcome_to_value w) = Some w) /\
  (forall m, (forall i d, m = NH_NodeEvent i d -> draft_times_ok d) ->
     node_to_hub_from_value (node_to_hub_to_value m) = Some m) /\
  (forall m, hub_to_node_times_ok m -> hub_to_node_from_value (hub_to_node_to_value m) = Some m).
Proof.
  split_and!; auto using client_command_roundtrip, subscribe_roundtrip, hub_to_client_roundtrip,
    hello_roundtrip, welcome_roundtrip, node_to_hub_roundtrip, hub_to_node_roundtrip.
Qed.

(** The on-disk tokens are a contract: every status, policy, decision and
    event kind parses back from its own token, and a token parses to at most
    the variant that writes it, so no two variants share one. *)
Theorem tokens_round_trip :
  (forall k, from_dotted (kind_as_str k) = Some k) /\
  (forall s k, from_dotted s = Some k -> s = kind_as_str k) /\
  (forall s x, ConnectionStatus.from_db s = Ok x <-> s = ConnectionStatus.as_str x) /\
  (forall s x, TaskStatus.from_db s = Ok x <-> s = TaskStatus.as_str x) /\
  (forall s x, RunStatus.from_db s = Ok x <-> s = RunStatus.as_str x) /\
  (forall s x, AccessPolicy.from_db s = Ok x <-> s = AccessPolicy.as_str x) /\
  (forall s x, Decision.from_db s = Ok x <-> s = Decision.as_str x).
Proof.
  split_and!; [apply kind_roundtrip|apply from_dotted_sound|..];
    (intros s x; split; [|by intros ->; destruct x]);
    unfold ConnectionStatus.from_db, TaskStatus.from_db, RunStatus.from_db, AccessPolicy.from_db,
      Decision.from_db;
    repeat (case_match; simplify_eq/=; [intros; simplify_eq; by apply String.eqb_eq|]); done.
Qed.

(** A fresh hub database comes up at the latest schema version, with the
    columns the store's statements name, run configuration included. *)
Theorem fresh_schema (clock : Z -> Time) :
  exists c, open_in_memory clock = Ok c /\ schema_version c = (Ok LATEST_HUB_SCHEMA_VERSION, c) /\
    columns_of "events" c = Some ["sequence"; "event_id"; "command_id"; "kind"; "task_id"; "run_id";
      "provider_session_id"; "node_id"; "protocol_version"; "occurred_at"; "hub_received_at"; "payload"] /\
    columns_of "command_receipts" c = Some ["command_id"; "sequence"; "event_id"; "received_at"] /\
    columns_of "tasks" c = Some ["task_id"; "title"; "status"; "created_at"] /\
    columns_of "runs" c = Some ["run_id"; "task_id"; "node_id"; "engine"; "access_policy";
      "workspace_path"; "status"; "started_at"; "model"; "reasoning_effort"; "system_prompt"] /\
    columns_of "approvals" c = Some ["approval_id"; "run_id"; "task_id"; "tool_call_id"; "scope";
      "options"; "expires_at"; "decision"; "resolved_by"; "created_at"; "resolved_at"] /\
    columns_of "nodes" c = Some ["node_id"; "label"; "status"; "software_version"; "capabilities";
      "last_seen_sequence"] /\
    columns_of "pending_dispatches" c = Some ["command_id"; "node_id"; "message"; "created_at"; "acked_at"] /\
    columns_of "control_settings" c = Some ["key"; "value"; "updated_at"] /\
    columns_of "assistant_workers" c = Some ["task_id"; "channel"; "created_at"] /\
    columns_of "assistant_wakes" c = Some ["event_id"; "sequence"; "channel"; "task_id"; "run_id";
      "kind"; "created_at"; "attempt_count"; "next_attempt_at"; "last_error"; "processed_at"].
Proof. eexists. split; [vm_compute; reflexivity|]. split_and!; reflexivity. Qed.


(** A database from elsewhere is refused: when the recorded history is not a
    prefix of the migrations this program knows (a newer version, a renamed or
    a missing step), the migrator fails and leaves every table, index and
    history row of the database as it was. *)
Theorem foreign_history_refused (clock : Z -> Time) (c : Catalog) :
  ~ (cat_history c).*1 `prefix_of` MIGRATIONS.*1 ->
  exists e c', run_migrations clock c = (Err e, c') /\ cat_history c' = cat_history c /\
    cat_indexes c' = cat_indexes c /\
    (forall name, name <> MIGRATIONS_TABLE -> assoc name (cat_tables c') = assoc name (cat_tables c)).
Proof.
  intros Hp. destruct (ddl_runs c) as (c0 & Hddl & Hh & Hi & Ht).
  rewrite (run_migrations_eq clock c c0 Hddl) Hh.
  destruct (check_history 0 (cat_history c).*1) as [[]|e] eqn:Hc; [|by exists e, c0].
  exfalso. apply Hp. apply check_history_ok in Hc as [tail Htail]. by exists tail.
Qed.
End Contracts.

(** ** Instances *)



Lemma foreign_history_refused_witness :
  exists e c', run_migrations (fun v => v) (MkCatalog [] [] [(4, "from the future", "t")]%string) = (Err e, c')
    /\ cat_history c' = [(4, "from the future", "t")]%string.
Proof.
  destruct (foreign_history_refused (fun v => v) (MkCatalog [] [] [(4, "from the future", "t")]%string))
    as (e & c' & H & Hh & _).
  - intros [t Ht]. discriminate Ht.
  - by exists e, c'.
Defined.

Definition s_event : Event := stamp 1 s_event_id (Some s_command_id) s_draft 5.

Lemma wire_round_trip_witness :
  hub_to_client_from_value (hub_to_client_to_value (HC_EventDelivery s_event)) = Some (HC_EventDelivery s_event) /\
  node_to_hub_from_value (node_to_hub_to_value (NH_NodeEvent s_event_id s_done)) = Some (NH_NodeEvent s_event_id s_done) /\
  hub_to_node_from_value (hub_to_node_to_value s_work) = Some s_work.
Proof.
  destruct wire_round_trip as (_ & _ & H3 & _ & _ & H6 & H7). split_and!.
  - apply H3. intros e [= <-]. split; apply s_time_ok; cbn; lia.
  - apply H6. intros i d [= <- <-]. apply s_time_ok. cbn. lia.
  - apply H7. exact I.
Defined.

Lemma tokens_round_trip_witness :
  "run.failed"%string = kind_as_str RunFailed /\ RunStatus.from_db "started" = Ok RunStatus.Started.
Proof.
  destruct tokens_round_trip as (_ & H2 & _ & _ & H5 & _).
  split; [apply H2; reflexivity|apply H5; reflexivity].
Defined.
