(* ===== verification/StoreTheorems.v ===== *)
(** The properties of the durable store, each with an instance on the concrete
    platform of TestPlatform.v. *)
From S2P Require Import Prelude.
From S2P Require Import RustStr.
From S2P Require Import Platform.
From S2P Require Import Ids.
From S2P Require Import Entities.
From S2P Require Import Event.
From S2P Require Import Protocol.
From S2P Require Import Wire.
From S2P Require Import TestPlatform.
From S2P Require Import Schema.
From S2P Require Import Store.
From S2P Require Import StoreInv.
From S2P Require Import StoreStep.
From S2P Require Import StoreLog.
From S2P Require Import StoreTyped.
From S2P Require Import StoreFlows.
From S2P Require Import Samples.
From stdpp Require Import sorting.

Local Open Scope Z_scope.

Section StoreTheorems.
Context {P : Platform} {PL : PlatformLaws P}.

(** C1: Appending a client command to a reachable store does exactly what the
    abstract log prescribes: a command already in the log is answered with its
    first event and nothing is written; a new one gets the next sequence and
    becomes the last event; or the append fails, only because the new rows
    could not be admitted, and writes nothing. *)
Theorem append_command_refines_log (d : Db) (l : list Event) now fresh cid draft entity dispatch :
  reachable d -> represents d l -> time_ok now -> time_ok (d_occurred_at draft) ->
  let '(o, l') := spec_append_command now fresh cid draft l in
  (exists d', append_command_bundle now fresh cid draft entity dispatch d = (Ok o, d') /\
     represents d' l' /\ (o_created o = false -> d' = d)) \/
  (o_created o = true /\ (~ admissible fresh entity d) /\
   exists err, append_command_bundle now fresh cid draft entity dispatch d = (Err err, d)).
Proof. intros Hr. apply append_command_refines. by apply reachable_wf. Qed.

(** C2: Appending a node event to a reachable store does exactly what the
    abstract log prescribes, deduplicating on the event id; it fails only when
    the 64-bit sequence is exhausted, and then writes nothing. *)
Theorem append_node_event_refines_log (d : Db) (l : list Event) now i draft :
  reachable d -> represents d l -> time_ok now -> time_ok (d_occurred_at draft) ->
  let '(o, l') := spec_append_node_event now i draft l in
  (exists d', append_node_event now i draft d = (Ok o, d') /\
     represents d' l' /\ (o_created o = false -> d' = d)) \/
  (o_created o = true /\ i64_max < zlen l + 1 /\
   append_node_event now i draft d = (Err (sql_err InvalidColumnType), d)).
Proof. intros Hr. apply append_node_event_refines. by apply reachable_wf. Qed.

(** C5: Idempotence of commands, for ever: once a command was accepted, any
    later append under the same command id, whatever it carries and whatever
    the store did in between, returns the first sequence and event id as a
    replay and leaves the database as it is. *)
Theorem command_idempotent_forever (d d1 d2 : Db) now fresh cid draft entity dispatch o
    now' fresh' draft' entity' dispatch' :
  reachable d -> append_command_bundle now fresh cid draft entity dispatch d = (Ok o, d1) ->
  store_steps d1 d2 ->
  append_command_bundle now' fresh' cid draft' entity' dispatch' d2 =
    (Ok (MkOutcome (o_sequence o) (o_event_id o) false), d2).
Proof. intros Hr. apply command_replay_later. by apply reachable_wf. Qed.

(** Idempotence of node events, for ever: a node event that was stored is
    never stored again, and every repetition answers with its sequence. *)
Theorem node_event_idempotent_forever (d d1 d2 : Db) now i draft o now' draft' :
  reachable d -> append_node_event now i draft d = (Ok o, d1) -> store_steps d1 d2 ->
  append_node_event now' i draft' d2 = (Ok (MkOutcome (o_sequence o) i false), d2).
Proof. intros Hr. apply node_event_replay_later. by apply reachable_wf. Qed.


(** C8: Nothing is forgotten or rewritten: along any steps of the store the
    events and receipts only grow at the end; a task and a run change only
    their status; an acknowledged dispatch, a decided approval and a processed
    wake never change again. *)
Theorem store_only_extends (d d' : Db) : reachable d -> store_steps d d' -> extends d d'.
Proof. intros Hr Hs. by apply (store_steps_wf d d' (reachable_wf d Hr)). Qed.

(** Catching up is exact: reading a later state of the store from the head
    of an earlier one returns precisely the events appended in between, in
    order. *)
Theorem catch_up_exact (d d' : Db) (l l' : list Event) :
  reachable d -> store_steps d d' -> represents d l -> represents d' l' ->
  exists missed, l' = l ++ missed /\ head_sequence d = (Ok (zlen l), d) /\
    events_after (zlen l) d' = (Ok missed, d').
Proof.
  intros Hr Hs Hl Hl'. pose proof (reachable_wf d Hr) as Hwf.
  destruct (store_steps_wf d d' Hwf Hs) as [Hwf' Hext].
  destruct (events_since d d' l l' Hwf' Hext Hl Hl') as (missed & -> & Hread).
  exists missed. split; [done|]. split; [by apply head_sequence_represents|done].
Qed.

(** C11: At-least-once dispatch: the node message a new command committed is, in
    every later state, either acknowledged or in its node's pending list. *)
Theorem dispatch_kept_until_acknowledged (d d1 d2 : Db) now fresh cid draft entity n m o :
  reachable d -> db_typed d -> time_ok now -> draft_times_ok draft -> entity_times_ok entity ->
  hub_to_node_times_ok m ->
  append_command_bundle now fresh cid draft entity (Some (n, m)) d = (Ok o, d1) ->
  o_created o = true -> timed_steps d1 d2 ->
  (exists r, dispatch_of cid d2 = Some r /\ dr_acked_at r <> None) \/
  (exists ps, pending_dispatches n d2 = (Ok ps, d2) /\ MkPendingDispatch cid n m now ∈ ps).
Proof.
  intros Hr Hty Hn Hdr He Hm Happ Hc Hs. pose proof (reachable_wf d Hr) as Hwf.
  set (c := SC_append_command now fresh cid draft entity (Some (n, m))).
  assert (d1 = store_call c d) as Hd1 by (cbn; by rewrite Happ).
  assert (db_wf d1) as Hwf1 by (rewrite Hd1; by apply store_call_step).
  assert (db_typed d1) as Hty1 by (rewrite Hd1; by apply store_call_typed).
  destruct (store_steps_wf _ _ Hwf1 (timed_steps_store _ _ Hs)) as [Hwf2 Hext].
  pose proof (append_command_opens _ _ _ _ _ _ _ _ _ _ Hwf Happ Hc) as Hopen.
  destruct (dispatch_of_later _ _ _ _ Hwf2 Hext Hopen) as (r & Hr2 & Hev).
  destruct (dr_acked_at r) as [t|] eqn:Ha; [left; exists r; by rewrite Ha|right].
  apply (undelivered_pending cid n m now d2 r).
  - by apply (timed_steps_typed d1).
  - done.
  - apply (undelivered_evolves _ _ _ Hev); [|done]. unfold undelivered. cbn. by rewrite String.eqb_refl.
  - eapply row_to_dispatch_evolves; [exact Hev|]. by apply row_to_dispatch_row.
Qed.

(** Acknowledgement is the owner's and is final: it succeeds exactly for an
    open dispatch of the acknowledging node, any other acknowledgement leaves
    the database as it is, and after it succeeded the command is in no node's
    pending list in any later state. *)
Theorem acknowledgement_owned_and_final (d : Db) now cid n :
  reachable d ->
  let '(r, d1) := acknowledge_dispatch_from now cid n d in
  (r = Ok true <-> exists row, dispatch_of cid d = Some row /\ undelivered n row = true) /\
  (r <> Ok true -> r = Ok false /\ d1 = d) /\
  (r = Ok true -> forall d2 n' ps, store_steps d1 d2 ->
     pending_dispatches n' d2 = (Ok ps, d2) -> cid ∉ pd_command_id <$> ps).
Proof.
  intros Hr. pose proof (reachable_wf d Hr) as Hwf.
  pose proof (acknowledge_from_step now cid n d Hwf) as [Hwf1 Hext1].
  rewrite (acknowledge_from_spec now cid n d Hwf) in Hwf1, Hext1 |- *.
  destruct (dispatch_of cid d) as [row|] eqn:Hf;
    [|split_and!; [by split; [|intros (? & ? & _)]|done|done]].
  destruct (undelivered n row) eqn:Hu;
    [|split_and!; [split; [done|intros (? & [= <-] & ?); congruence]|done|done]].
  cbn in Hwf1, Hext1. split_and!; [by split; [intros _; eauto|]|done|]. intros _ d2 n' ps Hs Hps.
  destruct (store_steps_wf _ _ Hwf1 Hs) as [Hwf2 Hext2].
  assert (dispatch_of cid (tbl_set dispatches_t (map (fun r =>
    if has_key dr_command_id (id_to_string cid) r && undelivered n r then set_acked now r else r)
    (db_dispatches d)) d) = Some (set_acked now row)) as Hacked.
  { unfold dispatch_of in *. cbn [tbl_set dispatches_t db_dispatches].
    rewrite find_update; [done|]. rewrite Hf. cbn. apply List.find_some in Hf as [_ Hk]. by rewrite Hk Hu. }
  destruct (dispatch_of_later _ _ _ _ Hwf2 Hext2 Hacked) as (row' & Hf' & (_ & _ & _ & _ & Ha)).
  eapply closed_not_pending; [exact Hwf2|exact Hf'| |exact Hps]. by rewrite Ha.
Qed.

(** C13: The first decision on an approval wins: after a successful resolution
    every later one, whatever it decides and whoever asks, returns that first
    result and changes nothing. *)
Theorem first_decision_wins (d d1 d2 : Db) i dec actor now a dec' actor' now' :
  reachable d -> time_ok now -> resolve_approval i dec actor now d = (Ok a, d1) ->
  store_steps d1 d2 -> dec' <> Decision.Pending ->
  a_decision a <> Decision.Pending /\
  resolve_approval i dec' actor' now' d2 = (Ok a, d2).
Proof.
  intros Hr Hn Hres Hs Hdec. pose proof (reachable_wf d Hr) as Hwf. split.
  - destruct (resolve_approval_row _ _ _ _ _ _ _ Hwf Hn Hres) as (_ & _ & _ & Hp).
    by apply bool_decide_eq_false in Hp.
  - by eapply resolve_approval_later.
Qed.

(** C14: A tracked worker's terminal event wakes its channel, durably: in every
    later state the wake is either processed or, once its retry time has come,
    in the channel's pending list, which is in sequence order. *)
Theorem worker_wake_until_processed (d d1 d2 : Db) now i draft run w rs ts o later :
  reachable d -> db_typed d -> time_ok now -> draft_times_ok draft ->
  append_node_event now i draft d = (Ok o, d1) -> o_created o = true ->
  terminal_effect (d_kind draft) = Some (rs, ts, true) -> d_run_id draft = Some run ->
  List.find (has_key wr_task_id (id_to_string (d_task_id draft))) (db_workers d) = Some w ->
  timed_steps d1 d2 ->
  exists r, wake_of i d2 = Some r /\
    (kr_processed_at r <> None \/ String.leb (kr_next_attempt_at r) (fmt_time later) = false \/
     exists ws x, pending_assistant_wakes later (wr_channel w) d2 = (Ok ws, d2) /\ x ∈ ws /\
       aw_event_id x = i /\ aw_run_id x = run /\ aw_kind x = d_kind draft /\
       Sorted Z.le (aw_sequence <$> ws)).
Proof.
  intros Hr Hty Hn Hdr Happ Hc Hk Hrun Hw Hs. pose proof (reachable_wf d Hr) as Hwf.
  set (c := SC_append_node_event now i draft).
  assert (d1 = store_call c d) as Hd1 by (cbn; by rewrite Happ).
  assert (db_wf d1) as Hwf1 by (rewrite Hd1; by apply store_call_step).
  assert (db_typed d1) as Hty1 by (rewrite Hd1; by apply store_call_typed).
  destruct (store_steps_wf _ _ Hwf1 (timed_steps_store _ _ Hs)) as [Hwf2 Hext].
  pose proof (terminal_opens_wake _ _ _ _ _ _ _ _ _ _ Hwf Happ Hc Hk Hrun Hw) as Hwake.
  destruct (wake_of_later _ _ _ _ Hwf2 Hext Hwake) as (r & Hr2 & Hev). exists r. split; [done|].
  destruct (kr_processed_at r) as [t|] eqn:Hp; [by left|right].
  destruct (String.leb (kr_next_attempt_at r) (fmt_time later)) eqn:Hle; [right|by left].
  destruct Hev as (Hid & _ & Hch & Htk & Hrn & Hkd & _ & _). cbn in Hid, Hch, Htk, Hrn, Hkd.
  assert (wake_due (wr_channel w) later r = true) as Hdue.
  { unfold wake_due. by rewrite Hch String.eqb_refl Hp Hle. }
  destruct (due_wake_pending later (wr_channel w) i d2 r) as (ws & x & Hps & Hin & Hrow);
    [by apply (timed_steps_typed d1)|done|done|].
  exists ws, x. split; [done|]. split; [done|].
  pose proof (pending_wakes_sorted _ _ _ _ _ Hps) as Hsorted.
  unfold row_to_wake in Hrow. rewrite Hkd kind_roundtrip Hid Htk Hrn !req_id_text in Hrow.
  cbn in Hrow. simplify_eq. done.
Qed.

(** Deferring a wake backs off: an open wake is deferred to
    [5 * 2^(attempt-1)] seconds from now, capped at 1280, so it is due again
    exactly from then on; its attempt count grows by one, and the recorded error
    is at most 500 characters. *)
Theorem deferral_backs_off (d : Db) now i err r t channel :
  reachable d -> wake_of i d = Some r -> kr_processed_at r = None -> 0 <= kr_attempt_count r ->
  kr_channel r = channel -> time_ok now -> time_ok (now + 1280 * nanos_per_second) -> time_ok t ->
  exists d' r' delay, defer_assistant_wake now i err d = (Ok true, d') /\
    wake_of i d' = Some r' /\ kr_attempt_count r' = kr_attempt_count r + 1 /\
    5 <= delay <= 1280 /\ delay = 5 * 2 ^ Z.min 8 (kr_attempt_count r) /\
    (wake_due channel t r' = true <-> now + delay * nanos_per_second <= t) /\
    (forall e, kr_last_error r' = Some e -> (char_count e <= 500)%nat).
Proof.
  intros Hr Hf Hp Ha Hch Hn Hn2 Ht.
  rewrite (defer_wake_spec now i err d r Hf Hp). eexists _, _, (wake_delay_seconds (kr_attempt_count r + 1)).
  pose proof (wake_delay_bounds (kr_attempt_count r + 1) ltac:(lia)) as Hb.
  split; [done|]. split; [by apply wake_of_update|]. split; [done|]. split; [done|].
  split; [unfold wake_delay_seconds; do 2 f_equal; lia|]. split.
  - unfold wake_due, set_wake_retry. cbn. rewrite Hch String.eqb_refl Hp. cbn.
    unfold fmt_time. rewrite rfc3339_order; [|done|apply Z.leb_le].
    unfold time_ok, nanos_per_second in *. lia.
  - intros e [= <-]. apply take_chars_bound.
Qed.

(** A terminal event closes its run: storing a new [run.completed],
    [run.failed] or [run.interrupted] event sets the run's and the task's
    status accordingly, in the same transaction, and touches no other run or
    task. *)
Theorem terminal_event_closes_run (d d1 : Db) now i draft run rs ts wakes o :
  reachable d -> append_node_event now i draft d = (Ok o, d1) -> o_created o = true ->
  terminal_effect (d_kind draft) = Some (rs, ts, wakes) -> d_run_id draft = Some run ->
  db_runs d1 = map (fun r => if String.eqb (ur_run_id r) (id_to_string run)
                             then set_run_row_status (RunStatus.as_str rs) r else r) (db_runs d) /\
  db_tasks d1 = map (fun t => if String.eqb (tr_task_id t) (id_to_string (d_task_id draft))
                              then set_task_row_status (TaskStatus.as_str ts) t else t) (db_tasks d).
Proof.
  intros Hr Happ Hc Hk Hrun. pose proof (reachable_wf d Hr) as Hwf.
  destruct (List.find (has_key er_event_id (id_to_string i)) (db_events d)) as [r|] eqn:Hf.
  { erewrite append_node_replay in Happ; [|done]. by simplify_eq. }
  rewrite append_node_new in Happ; [done|done|]. destruct (decide _); [|done]. simplify_eq.
  unfold commit_node_event, apply_terminal. rewrite Hk Hrun.
  clear Hf. destruct (List.find _ _); [destruct wakes|]; done.
Qed.

(** Entities round-trip: what a create call returns is what the matching
    read returns right after it, for tasks, runs, approvals and nodes, and a
    stored setting reads back as the same JSON value. *)
Theorem entities_round_trip (d : Db) now :
  time_ok now ->
  (forall fresh title t d', create_task fresh now title d = (Ok t, d') ->
     get_task (t_id t) d' = (Ok (Some t), d')) /\
  (forall fresh task_id node_id engine policy r d',
     start_run fresh now task_id node_id engine policy d = (Ok r, d') ->
     get_run (r_id r) d' = (Ok (Some r), d')) /\
  (forall fresh run_id task_id tool scope options expires a d',
     (forall t, expires = Some t -> time_ok t) ->
     request_approval fresh now run_id task_id tool scope options expires d = (Ok a, d') ->
     get_approval (a_id a) d' = (Ok (Some a), d')) /\
  (forall n, let d' := snd (upsert_node n d) in get_node (n_id n) d' = (Ok (Some n), d')) /\
  (forall k v, let d' := snd (put_setting now k v d) in get_setting k d' = (Ok (Some v), d')).
Proof.
  intros Hn. split_and!.
  - intros fresh title t d' H. apply m_bind_ok in H as ([] & d1 & H & [-> ->]%m_ret_ok).
    apply (insert_then_find tasks_t tr_task_id) in H; [|by intros ?[]|done].
    unfold get_task, query_row. run_m. cbn [tbl_get tasks_t t_id] in H |- *. rewrite H.
    unfold map_row. run_m. by rewrite row_to_task_row.
  - intros fresh task_id node_id engine policy r d' H.
    apply m_bind_ok in H as ([] & d1 & H & [-> ->]%m_ret_ok).
    apply (insert_then_find runs_t ur_run_id) in H; [|by intros ?[]|done].
    unfold get_run, query_row. run_m. cbn [tbl_get runs_t r_id] in H |- *. rewrite H.
    unfold map_row. run_m. by rewrite row_to_run_row.
  - intros fresh run_id task_id tool scope options expires a d' Hex H.
    apply m_bind_ok in H as ([] & d1 & H & [-> ->]%m_ret_ok).
    apply (insert_then_find approvals_t ar_approval_id) in H; [|by intros ?[]|done].
    unfold get_approval, query_row. run_m. cbn [tbl_get approvals_t a_id] in H |- *. rewrite H.
    unfold map_row. run_m. by rewrite row_to_approval_row.
  - intros n. cbv zeta. unfold get_node, query_row. run_m. unfold upsert_node.
    rewrite (upsert_then_find nodes_t nr_node_id); [done|done|by intros r Hk; unfold node_row; rewrite Hk|].
    unfold map_row. run_m. by rewrite row_to_node_row.
  - intros k v. cbv zeta. unfold get_setting, query_row. run_m. unfold put_setting.
    rewrite (upsert_then_find settings_t sr_key); [done|done|done|]. cbn. by rewrite json_roundtrip.
Qed.

(** The node list is complete, in order and without repetition: in a
    reachable store it holds exactly one node per stored row, sorted by node
    id. *)
Theorem node_list_sorted_unique (d : Db) (ns : list Node) :
  reachable d -> list_nodes d = (Ok ns, d) ->
  NoDup (n_id <$> ns) /\ length ns = length (db_nodes d) /\
  Sorted (fun a b => String.leb (node_as_str a) (node_as_str b) = true) (n_id <$> ns).
Proof.
  intros Hr H. pose proof (reachable_wf d Hr) as Hwf. injection H as H. apply collect_spec in H.
  pose proof (merge_sort_Permutation node_before (db_nodes d)) as Hperm.
  assert (forall r n, row_to_node r = Ok n -> nr_node_id r = node_as_str (n_id n)) as Hid.
  { intros r n Hrn. unfold row_to_node in Hrn. inv_bind Hrn. by simplify_eq. }
  assert (nr_node_id <$> merge_sort node_before (db_nodes d) = node_as_str <$> (n_id <$> ns)) as Hmap.
  { clear Hperm. induction H as [|r n rows ns Hrn _ IH]; [done|]. csimpl. by rewrite (Hid r n Hrn) IH. }
  split_and!.
  - apply (NoDup_fmap_1 node_as_str). rewrite -Hmap Hperm. by destruct Hwf.
  - rewrite -(Forall2_length _ _ _ H). by apply Permutation_length.
  - pose proof (Sorted_merge_sort node_before (db_nodes d)) as Hs. clear Hmap Hperm.
    revert Hs. induction H as [|r n rows ns Hrn HF IH]; intros Hs; [constructor|].
    apply Sorted_inv in Hs as [Hs Hhd]. csimpl. constructor; [by apply IH|].
    destruct HF as [|r2 n2 rows2 ns2 Hrn2 _]; constructor.
    apply HdRel_inv in Hhd. unfold node_before in Hhd. cbn beta. by rewrite -(Hid r n Hrn) -(Hid r2 n2 Hrn2).
Qed.
End StoreTheorems.

(** ** Instances *)

Lemma append_command_refines_log_witness :
  exists d', append_command_bundle 5 s_event_id s_command_id s_draft EW_None None empty_db
    = (Ok (MkOutcome 1 s_event_id true), d') /\
    represents d' [stamp 1 s_event_id (Some s_command_id) s_draft 5].
Proof.
  destruct (append_command_refines_log empty_db [] 5 s_event_id s_command_id s_draft EW_None None)
    as [(d' & H1 & H2 & _)|(_ & Hn & _)].
  - apply rtc_refl.
  - apply represents_empty.
  - apply s_time_ok. lia.
  - apply s_time_ok. cbn. lia.
  - by exists d'.
  - exfalso. apply Hn. split_and!; [unfold i64_max; cbn; lia|by apply not_elem_of_nil|exact I].
Defined.

Lemma append_node_event_refines_log_witness :
  exists d', append_node_event 5 s_event_id s_done empty_db = (Ok (MkOutcome 1 s_event_id true), d') /\
    represents d' [stamp 1 s_event_id None s_done 5].
Proof.
  destruct (append_node_event_refines_log empty_db [] 5 s_event_id s_done)
    as [(d' & H1 & H2 & _)|(_ & Hn & _)].
  - apply rtc_refl.
  - apply represents_empty.
  - apply s_time_ok. lia.
  - apply s_time_ok. cbn. lia.
  - by exists d'.
  - exfalso. revert Hn. unfold i64_max. cbn. lia.
Defined.

Lemma command_idempotent_forever_witness :
  append_command_bundle 99 (an_id "another") s_command_id s_done EW_None None s_db2 =
    (Ok (MkOutcome 1 s_event_id false), s_db2).
Proof.
  apply (command_idempotent_forever empty_db s_db1 s_db2 5 s_event_id s_command_id s_draft EW_None
    (Some (s_node, s_work)) (MkOutcome 1 s_event_id true)).
  - apply rtc_refl.
  - vm_refl.
  - apply rtc_once. by exists s_worker.
Defined.

Lemma node_event_idempotent_forever_witness :
  append_node_event 99 (an_id "event2") s_draft s_db3 = (Ok (MkOutcome 2 (an_id "event2") false), s_db3).
Proof.
  apply (node_event_idempotent_forever s_db2 s_db3 s_db3 9 (an_id "event2") s_done
    (MkOutcome 2 (an_id "event2") true)).
  - apply s_db2_reachable.
  - vm_refl.
  - apply rtc_refl.
Defined.


Lemma store_only_extends_witness : extends s_db1 s_db2.
Proof. apply (store_only_extends s_db1 s_db2 s_db1_reachable). apply (store_step_call s_worker). Defined.

Lemma catch_up_exact_witness :
  exists missed, [stamp 1 s_event_id (Some s_command_id) s_draft 5] = [] ++ missed /\
    head_sequence empty_db = (Ok 0, empty_db) /\ events_after 0 s_db1 = (Ok missed, s_db1).
Proof.
  apply (catch_up_exact empty_db s_db1).
  - apply rtc_refl.
  - apply s_db1_reachable.
  - apply represents_empty.
  - split; [vm_refl|].
    apply Forall_singleton. split; apply s_time_ok; cbn; lia.
Defined.

Lemma dispatch_kept_witness :
  (exists r, dispatch_of s_command_id s_db2 = Some r /\ dr_acked_at r <> None) \/
  (exists ps, pending_dispatches s_node s_db2 = (Ok ps, s_db2) /\
     MkPendingDispatch s_command_id s_node s_work 5 ∈ ps).
Proof.
  apply (dispatch_kept_until_acknowledged empty_db s_db1 s_db2 5 s_event_id s_command_id s_draft EW_None
    s_node s_work (MkOutcome 1 s_event_id true)).
  - apply rtc_refl.
  - apply empty_db_typed.
  - apply s_time_ok. lia.
  - apply s_time_ok. cbn. lia.
  - exact I.
  - exact I.
  - vm_refl.
  - reflexivity.
  - apply rtc_once. exists s_worker. split; [exact I|reflexivity].
Defined.

Lemma acknowledgement_witness :
  fst (acknowledge_dispatch_from 9 s_command_id s_node s_db1) = Ok true /\
  fst (acknowledge_dispatch_from 9 s_command_id s_other s_db1) = Ok false /\
  forall ps, pending_dispatches s_node (snd (acknowledge_dispatch_from 9 s_command_id s_node s_db1)) =
    (Ok ps, snd (acknowledge_dispatch_from 9 s_command_id s_node s_db1)) -> s_command_id ∉ pd_command_id <$> ps.
Proof.
  pose proof (acknowledgement_owned_and_final s_db1 9 s_command_id s_node s_db1_reachable) as H.
  destruct (acknowledge_dispatch_from 9 s_command_id s_node s_db1) as [r d1] eqn:He.
  assert (r = Ok true) as ->.
  { transitivity (fst (acknowledge_dispatch_from 9 s_command_id s_node s_db1)); [by rewrite He|vm_refl]. }
  split; [reflexivity|]. split; [vm_refl|].
  intros ps. apply (proj2 (proj2 H) eq_refl). apply rtc_refl.
Defined.

Lemma first_decision_wins_witness : exists a d1,
  resolve_approval s_approval_id Decision.Allowed "ann" 11 s_db4 = (Ok a, d1) /\
  a_decision a = Decision.Allowed /\
  resolve_approval s_approval_id Decision.Denied "bob" 12 d1 = (Ok a, d1).
Proof.
  destruct (resolve_approval s_approval_id Decision.Allowed "ann" 11 s_db4) as [[a|e] d1] eqn:He.
  - exists a, d1. split; [reflexivity|].
    destruct (first_decision_wins s_db4 d1 d1 s_approval_id Decision.Allowed "ann" 11 a
      Decision.Denied "bob" 12 s_db4_reachable) as [H1 H2].
    + apply s_time_ok. lia.
    + exact He.
    + apply rtc_refl.
    + discriminate.
    + split; [|exact H2].
      assert ((a_decision <$> fst (resolve_approval s_approval_id Decision.Allowed "ann" 11 s_db4))
        = Ok Decision.Allowed) as Hd by vm_refl.
      rewrite He in Hd. by injection Hd.
  - exfalso.
    assert (is_ok (fst (resolve_approval s_approval_id Decision.Allowed "ann" 11 s_db4)) = true) as Hd by vm_refl.
    by rewrite He in Hd.
Defined.

Lemma worker_wake_witness :
  exists r, wake_of (an_id "event2") s_db3 = Some r /\
    (kr_processed_at r <> None \/ String.leb (kr_next_attempt_at r) (fmt_time 10) = false \/
     exists ws x, pending_assistant_wakes 10 "telegram" s_db3 = (Ok ws, s_db3) /\ x ∈ ws /\
       aw_event_id x = an_id "event2" /\ aw_run_id x = s_run_id /\ aw_kind x = RunCompleted /\
       Sorted Z.le (aw_sequence <$> ws)).
Proof.
  apply (worker_wake_until_processed s_db2 s_db3 s_db3 9 (an_id "event2") s_done s_run_id
    (MkWorkerRow "task" "telegram" (fmt_time 6)) RunStatus.Completed TaskStatus.Completed
    (MkOutcome 2 (an_id "event2") true) 10).
  - apply s_db2_reachable.
  - apply s_db2_typed.
  - apply s_time_ok. lia.
  - apply s_time_ok. cbn. lia.
  - vm_refl.
  - reflexivity.
  - reflexivity.
  - reflexivity.
  - vm_refl.
  - apply rtc_refl.
Defined.

Lemma deferral_witness : exists d' r' delay,
  defer_assistant_wake 10 (an_id "event2") "no answer" s_db3 = (Ok true, d') /\
  wake_of (an_id "event2") d' = Some r' /\ kr_attempt_count r' = 0 + 1 /\
  5 <= delay <= 1280 /\ delay = 5 * 2 ^ Z.min 8 0 /\
  (wake_due "telegram" 500 r' = true <-> 10 + delay * nanos_per_second <= 500) /\
  (forall e, kr_last_error r' = Some e -> (char_count e <= 500)%nat).
Proof.
  assert (exists r, wake_of (an_id "event2") s_db3 = Some r /\ kr_attempt_count r = 0 /\
    kr_processed_at r = None /\ kr_channel r = "telegram"%string) as (r & Hr & H0 & Hp & Hch).
  { exists (wake_row (an_id "event2") 2 s_done s_run_id 9 (MkWorkerRow "task" "telegram" (fmt_time 6))).
    split; [vm_refl|]. split_and!; reflexivity. }
  rewrite -!H0.
  apply (deferral_backs_off s_db3 10 (an_id "event2") "no answer" r 500 "telegram").
  - apply s_db3_reachable.
  - exact Hr.
  - exact Hp.
  - lia.
  - exact Hch.
  - apply s_time_ok. lia.
  - unfold time_ok, nanos_per_second. lia.
  - apply s_time_ok. lia.
Defined.

Lemma terminal_event_closes_run_witness :
  db_runs s_db3 = map (fun r => if String.eqb (ur_run_id r) (id_to_string s_run_id)
    then set_run_row_status (RunStatus.as_str RunStatus.Completed) r else r) (db_runs s_db2) /\
  db_tasks s_db3 = map (fun t => if String.eqb (tr_task_id t) (id_to_string s_task_id)
    then set_task_row_status (TaskStatus.as_str TaskStatus.Completed) t else t) (db_tasks s_db2).
Proof.
  apply (terminal_event_closes_run s_db2 s_db3 9 (an_id "event2") s_done s_run_id RunStatus.Completed
    TaskStatus.Completed true (MkOutcome 2 (an_id "event2") true)).
  - apply s_db2_reachable.
  - vm_refl.
  - reflexivity.
  - reflexivity.
  - reflexivity.
Defined.

Lemma entities_round_trip_witness :
  get_task s_task_id (snd (create_task s_task_id 9 "title" empty_db)) =
    (Ok (Some (MkTask s_task_id "title" TaskStatus.Open 9)), snd (create_task s_task_id 9 "title" empty_db)).
Proof.
  apply (proj1 (entities_round_trip empty_db 9 (s_time_ok 9 ltac:(lia))) s_task_id "title"
    (MkTask s_task_id "title" TaskStatus.Open 9)).
  vm_refl.
Defined.

Lemma node_list_witness : exists ns,
  list_nodes (store_call (SC_upsert_node (MkNode s_node "n" ConnectionStatus.Connected "1" value_null None)) s_db1)
    = (Ok ns, store_call (SC_upsert_node (MkNode s_node "n" ConnectionStatus.Connected "1" value_null None)) s_db1)
  /\ NoDup (n_id <$> ns) /\ length ns = 1%nat.
Proof.
  set (d := store_call _ s_db1). exists [MkNode s_node "n" ConnectionStatus.Connected "1" value_null None].
  assert (list_nodes d = (Ok [MkNode s_node "n" ConnectionStatus.Connected "1" value_null None], d)) as H
    by (vm_refl).
  split; [exact H|].
  destruct (node_list_sorted_unique d [MkNode s_node "n" ConnectionStatus.Connected "1" value_null None])
    as (H1 & H2 & _).
  - eapply rtc_r; [apply s_db1_reachable|]. by eexists.
  - exact H.
  - split; [exact H1|reflexivity].
Defined.
