(* ===== verification/HubFacts.v ===== *)
(** Facts about single hub calls: what an accepted command leaves in the store,
    where a dispatch may go, whose events enter the log, which close reports a
    departure. *)
From S2P Require Import Prelude.
From S2P Require Import RustStr.
From S2P Require Import Platform.
From S2P Require Import Ids.
From S2P Require Import Entities.
From S2P Require Import Event.
From S2P Require Import Protocol.
From S2P Require Import Wire.
From S2P Require Import Schema.
From S2P Require Import Store.
From S2P Require Import StoreInv.
From S2P Require Import StoreStep.
From S2P Require Import StoreLog.
From S2P Require Import StoreTyped.
From S2P Require Import StoreFlows.
From S2P Require Import Settings.
From S2P Require Import HubState.
From S2P Require Import HubCommands.
From S2P Require Import HubInv.
From S2P Require Import Links.
From S2P Require Import HubSystem.

Local Open Scope Z_scope.

(** ** Pre- and postconditions of a method's successful result *)
Section Hoare.
Context {S : Type}.

Definition hoare {A} (Pre : S -> Prop) (m : M S A) (Post : A -> S -> Prop) : Prop :=
  forall s, Pre s -> match m s with (Ok a, s') => Post a s' | (Err _, _) => True end.

Lemma hoare_bind {A B} Pre (m : M S A) Mid (f : A -> M S B) Post :
  hoare Pre m Mid -> (forall a, hoare (Mid a) (f a) Post) -> hoare Pre (m ≫= f) Post.
Proof.
  intros Hm Hf s Hs. unfold mbind, M_bind. specialize (Hm s Hs).
  destruct (m s) as [[a|e] s']; [|done]. by apply Hf.
Qed.

Lemma hoare_ret {A} (Pre : S -> Prop) (a : A) Post : (forall s, Pre s -> Post a s) -> hoare Pre (mret a) Post.
Proof. intros H s. apply H. Qed.

Lemma hoare_conseq {A} Pre (m : M S A) (Post Post' : A -> S -> Prop) :
  (forall a s, Post a s -> Post' a s) -> hoare Pre m Post -> hoare Pre m Post'.
Proof. intros H Hm s Hs. specialize (Hm s Hs). destruct (m s) as [[a|e] s']; auto. Qed.
End Hoare.

Section Accepted.
Context {P : Platform} {PL : PlatformLaws P} {E : Env P} {EO : EnvOk}.

Definition hub_wf (s : HubState) : Prop := db_wf (hs_hub s).

Lemma evolves_wf s s' : hub_wf s -> evolves s s' -> hub_wf s'.
Proof.
  intros Hwf Hev. by apply (store_steps_wf (hs_hub s) (hs_hub s') Hwf),
    timed_steps_store, (ev_store _ _ Hev).
Qed.

Lemma hoare_quiet {A} (m : M HubState A) : preserves evolves m -> hoare hub_wf m (fun _ => hub_wf).
Proof.
  intros Hm s Hwf. specialize (Hm s). destruct (m s) as [[a|e] s']; [|done]. by eapply evolves_wf.
Qed.

(** *** The append, seen from the hub *)

Lemma broadcast_created_hub o s :
  hs_hub (snd (broadcast_created o s)) = hs_hub s /\
  (forall o', fst (broadcast_created o s) = Ok o' -> o' = o).
Proof.
  unfold broadcast_created. destruct (o_created o); [|by split; [|intros ? [=]]].
  unfold mbind, M_bind. pose proof (with_hub_snd (fetch_event (o_sequence o)) s) as H.
  rewrite read_fetch in H.
  destruct (with_hub _ s) as [[[e|]|err] s1]; cbn in *; subst s1; (split; [done|]); intros ? [=]; done.
Qed.

Lemma append_and_broadcast_command_hub c draft entity x s :
  let r := append_command_bundle (env_now (hs_ticks s)) (id_new (env_uuid (hs_draws s)))
             c draft entity x (hs_hub s) in
  hs_hub (snd (append_and_broadcast_command c draft entity x s)) = snd r /\
  (forall o, fst (append_and_broadcast_command c draft entity x s) = Ok o -> fst r = Ok o).
Proof.
  cbv zeta. unfold append_and_broadcast_command, mbind, M_bind. cbn [utc_now fresh_id].
  unfold utc_now, fresh_id, with_hub. cbn [hs_hub set_draws hs_ticks hs_draws].
  destruct (append_command_bundle _ _ _ _ _ _ (hs_hub s)) as [[o|e] d'].
  - destruct (broadcast_created_hub o (set_hub d' (set_draws (S (hs_ticks s)) (S (hs_draws s)) s))) as [H1 H2].
    cbn in *. split; [done|]. intros o' Ho'. by rewrite (H2 o' Ho').
  - done.
Qed.

(** *** Receipts and dispatches an effect stands for *)

(** An accepted receipt is the stored one; a dispatch is stored, open. *)
Definition stands (c : CommandId) (ef : CommandEffect) (s : HubState) : Prop :=
  hub_wf s /\
  (forall seq eid err, ef_receipt ef = HC_CommandReceipt c true (Some seq) (Some eid) err ->
    exists r, List.find (has_key rr_command_id (id_to_string c)) (db_receipts (hs_hub s)) = Some r /\
      rr_sequence r = seq /\ rr_event_id r = id_to_string eid) /\
  (forall n m, ef_dispatch ef = Some (n, m) ->
    exists now, dispatch_of c (hs_hub s) = Some (dispatch_row c n m now)).

Lemma stands_rejected c e s : hub_wf s -> stands c (rejected c e) s.
Proof. intros Hwf. split_and!; [done|by intros ??? [=]|done]. Qed.

Lemma hoare_rejected c e : hoare hub_wf (mret (rejected c e)) (stands c).
Proof. apply hoare_ret. intros s. apply stands_rejected. Qed.

Lemma finish_stands c draft x entity :
  draft_times_ok draft -> entity_times_ok entity -> dispatch_times_ok x ->
  hoare hub_wf (finish_with_entity c draft x entity) (stands c).
Proof.
  intros Hd He Hx s Hwf.
  pose proof (append_and_broadcast_command_hub c draft entity x s) as [Hhub Hok].
  pose proof (preserves_append_command c draft entity x Hd He Hx s) as Hev.
  unfold finish_with_entity, try, mbind, M_bind.
  destruct (append_and_broadcast_command c draft entity x s) as [[o|e] s1]; cbn in Hhub, Hok, Hev |- *.
  - specialize (Hok o eq_refl). pose proof (evolves_wf _ _ Hwf Hev) as Hwf1.
    destruct (append_command_bundle _ _ c draft entity x (hs_hub s)) as [r d1] eqn:Happ.
    cbn in Hhub, Hok. subst r d1. split_and!; [done| |].
    + intros seq eid err [= <- <- <-]. by apply (append_command_receipt _ _ _ _ _ _ _ _ _ Hwf Happ).
    + cbn. destruct (o_created o) eqn:Hc; [|done]. intros n m ->.
      eexists. by apply (append_command_opens _ _ _ _ _ _ _ _ _ _ Hwf Happ).
  - split_and!; [by eapply evolves_wf|done|done].
Qed.

Lemma hoare_now {A} (f : Time -> M HubState A) Post :
  (forall t, time_ok t -> hoare hub_wf (f t) Post) -> hoare hub_wf (utc_now ≫= f) Post.
Proof.
  intros Hf s Hwf. unfold mbind, M_bind. cbn. by apply Hf; [apply env_now_ok|].
Qed.

Lemma hoare_step {A B} (m : M HubState A) (f : A -> M HubState B) Post :
  preserves evolves m -> (forall a, hoare hub_wf (f a) Post) -> hoare hub_wf (m ≫= f) Post.
Proof. intros Hm Hf. eapply hoare_bind; [by apply hoare_quiet|done]. Qed.

Lemma create_task_stands c title : hoare hub_wf (apply_create_task c title) (stands c).
Proof.
  unfold apply_create_task. apply hoare_step; [apply preserves_fresh|intros i].
  apply hoare_now; intros created Hc. apply hoare_now; intros now Hn. by apply finish_stands.
Qed.

Lemma message_stands c t r text m : hoare hub_wf (apply_send_user_message c t r text m) (stands c).
Proof.
  unfold apply_send_user_message. apply hoare_step.
  { destruct r; [apply preserves_node_for_run|apply preserves_ret, _]. }
  intros o. apply hoare_step.
  { destruct o; [apply preserves_ret, _|apply preserves_node_for_task]. }
  intros n. case_bool_decide; [apply hoare_rejected|].
  apply hoare_now; intros now Hn. apply finish_stands; [done|done|]. by destruct n, r.
Qed.

Lemma start_run_on_stands n c t e m re sp ap w :
  hoare hub_wf (start_run_on n c t e m re sp ap w) (stands c).
Proof.
  unfold start_run_on. apply hoare_step; [apply preserves_fresh|intros run].
  apply hoare_now; intros started Hs. apply hoare_now; intros now Hn.
  eapply hoare_bind; [by apply finish_stands|]. intros ef.
  eapply (hoare_bind _ _ (fun _ => stands c ef)).
  - destruct (ef_dispatch ef); [|apply hoare_ret]; intros s Hs'; done.
  - intros _. by apply hoare_ret.
Qed.

Lemma start_run_stands res c t n e m re sp ap w :
  hoare hub_wf (apply_start_run res c t n e m re sp ap w) (stands c).
Proof.
  unfold apply_start_run. destruct (validate_run_configuration _ _ _ _ _); [|apply hoare_rejected].
  apply hoare_step.
  { destruct res; [apply preserves_ret, _|apply preserves_eligible]. }
  intros [n'|err]; [apply start_run_on_stands|apply hoare_rejected].
Qed.

Lemma interrupt_stands c r : hoare hub_wf (apply_interrupt_run c r) (stands c).
Proof.
  unfold apply_interrupt_run. apply hoare_step; [apply preserves_run_binding|intros b].
  case_bool_decide; [apply hoare_rejected|]. apply hoare_now; intros now Hn.
  apply finish_stands; [done|done|]. by destruct b.
Qed.

Lemma resolve_stands c i dec actor : hoare hub_wf (apply_resolve_approval c i dec actor) (stands c).
Proof.
  unfold apply_resolve_approval. apply hoare_now; intros now Hn.
  apply hoare_step; [by apply preserves_try, preserves_resolve|]. intros [a|e]; [|apply hoare_rejected].
  apply hoare_now; intros now' Hn'. by apply finish_stands.
Qed.

Lemma arm_stands cmd res : hoare hub_wf (apply_arm cmd res) (stands (command_id cmd)).
Proof.
  destruct cmd; simpl.
  - apply create_task_stands.
  - apply message_stands.
  - apply start_run_stands.
  - apply interrupt_stands.
  - apply resolve_stands.
Qed.

(** The replay lookup of [apply_command_inner]. *)
Lemma command_outcome_found c d r (i : EventId) :
  List.find (has_key rr_command_id (id_to_string c)) (db_receipts d) = Some r ->
  rr_event_id r = id_to_string i ->
  command_outcome c d = (Ok (Some (MkOutcome (rr_sequence r) i false)), d).
Proof.
  intros Hf Hi. unfold command_outcome. run_m. by rewrite find_receipt_eq Hf Hi req_id_text.
Qed.

Lemma command_outcome_none c d :
  List.find (has_key rr_command_id (id_to_string c)) (db_receipts d) = None ->
  command_outcome c d = (Ok None, d).
Proof. intros Hf. unfold command_outcome. run_m. by rewrite find_receipt_eq Hf. Qed.

Lemma with_hub_same {A} (f : M Db A) s r : f (hs_hub s) = (r, hs_hub s) -> with_hub f s = (r, s).
Proof. intros H. unfold with_hub. rewrite H. by destruct s. Qed.

Lemma apply_command_inner_cases cmd res s : hub_wf s ->
  match List.find (has_key rr_command_id (id_to_string (command_id cmd))) (db_receipts (hs_hub s)) with
  | Some r => exists i : EventId, rr_event_id r = id_to_string i /\
      apply_command_inner cmd res s =
        (Ok (MkEffect (accepted_receipt (command_id cmd) (rr_sequence r) i) None), s)
  | None => apply_command_inner cmd res s = apply_arm cmd res s
  end.
Proof.
  intros Hwf. unfold apply_command_inner, try, mbind, M_bind.
  destruct (List.find _ _) as [r|] eqn:Hf.
  - destruct (find_key_some _ _ _ _ Hf) as [_ Hr].
    destruct (receipt_event_id _ r Hwf Hr) as [i Hi]. exists i. split; [done|].
    by rewrite (with_hub_same _ s _ (command_outcome_found _ _ _ _ Hf Hi)).
  - by rewrite (with_hub_same _ s _ (command_outcome_none _ _ Hf)).
Qed.

Lemma apply_inner_stands cmd res : hoare hub_wf (apply_command_inner cmd res) (stands (command_id cmd)).
Proof.
  intros s Hwf. pose proof (apply_command_inner_cases cmd res s Hwf) as Hc.
  destruct (List.find _ _) as [r|] eqn:Hf.
  - destruct Hc as (i & Hi & ->). split_and!; [done| |done]. intros seq eid err [= <- <- <-]. eauto.
  - rewrite Hc. by apply arm_stands.
Qed.

(** *** Later copies of a command *)

Lemma replay_later c seq eid s s' cmd :
  hub_wf s -> evolves s s' -> command_id cmd = c ->
  (exists r, List.find (has_key rr_command_id (id_to_string c)) (db_receipts (hs_hub s)) = Some r /\
      rr_sequence r = seq /\ rr_event_id r = id_to_string eid) ->
  apply_command cmd s' = (Ok (MkEffect (accepted_receipt c seq eid) None), s').
Proof.
  intros Hwf Hev <- (r & Hf & <- & Hi).
  pose proof (evolves_wf _ _ Hwf Hev) as Hwf'.
  destruct (store_steps_wf _ _ Hwf (timed_steps_store _ _ (ev_store _ _ Hev))) as [_ Hext].
  pose proof (receipt_persists _ _ _ _ Hwf' Hext Hf) as Hf'.
  pose proof (apply_command_inner_cases cmd None s' Hwf') as Hc. rewrite Hf' in Hc.
  destruct Hc as (i & Hi' & Heq). rewrite Hi in Hi'. apply id_to_string_inj in Hi' as <-. exact Heq.
Qed.
End Accepted.

(** ** Targets, ownership and departures *)
Section Routing.
Context {P : Platform} {PL : PlatformLaws P} {E : Env P}.

(** The target of an effect's dispatch. *)
Definition target (ef : CommandEffect) : option NodeId := fst <$> ef_dispatch ef.

Lemma finish_target c draft x entity s ef s' :
  finish_with_entity c draft x entity s = (Ok ef, s') -> ef_dispatch ef = x \/ ef_dispatch ef = None.
Proof.
  intros H. apply m_bind_ok in H as (r & s1 & _ & [-> _]%m_ret_ok).
  destruct r as [o|e]; cbn; [|by right]. destruct (o_created o); eauto.
Qed.

(** Messages and interrupts never go to the hub's own node. *)
Lemma message_target c t r text m s ef s' n :
  apply_send_user_message c t r text m s = (Ok ef, s') -> target ef = Some n -> n <> hub_node.
Proof.
  intros H Ht. apply m_bind_ok in H as (o & s1 & _ & H). apply m_bind_ok in H as (node & s2 & _ & H).
  case_bool_decide as Hhub; [by apply m_ret_ok in H as [-> _]|].
  apply m_bind_ok in H as (now & s3 & _ & H). unfold target in Ht.
  destruct (finish_target _ _ _ _ _ _ _ H) as [Hx|Hx]; rewrite Hx in Ht; [|done].
  destruct node as [n'|]; [|done]. destruct r; cbn in Ht; simplify_eq. congruence.
Qed.

Lemma interrupt_target c r s ef s' n :
  apply_interrupt_run c r s = (Ok ef, s') -> target ef = Some n -> n <> hub_node.
Proof.
  intros H Ht. apply m_bind_ok in H as (b & s1 & _ & H).
  case_bool_decide as Hhub; [by apply m_ret_ok in H as [-> _]|].
  apply m_bind_ok in H as (now & s3 & _ & H). unfold target in Ht.
  destruct (finish_target _ _ _ _ _ _ _ H) as [Hx|Hx]; rewrite Hx in Ht; [|done].
  destruct b as [[n' t]|]; cbn in *; simplify_eq. congruence.
Qed.

(** A scheduled node is connected, advertises the engine, and is the preferred
    one when one was named. *)
Definition schedulable (s : HubState) (engine : string) (preferred : option NodeId) (n : NodeId) : Prop :=
  is_Some (hs_nodes s !! n) /\ (forall w, preferred = Some w -> n = w) /\
  exists nodes node, list_nodes (hs_hub s) = (Ok nodes, hs_hub s) /\ node ∈ nodes /\ n_id node = n /\
    node_accepts_engine (n_capabilities node) engine = true.

Lemma eligible_true s engine preferred node :
  eligible (hs_nodes s) engine preferred node = true <->
    is_Some (hs_nodes s !! n_id node) /\ (forall w, preferred = Some w -> n_id node = w) /\
    node_accepts_engine (n_capabilities node) engine = true.
Proof.
  unfold eligible. rewrite !andb_true_iff bool_decide_eq_true.
  destruct preferred as [w|]; rewrite ?bool_decide_eq_true.
  - split; [by intros [[-> ?] ?]; split_and!; [done|intros ? [=]|done]|].
    intros (? & Hp & ?). split_and!; [|done|done]. symmetry. by apply Hp.
  - split; [by intros [[_ ?] ?]|by intros (? & _ & ?)].
Qed.

Lemma eligible_spec engine preferred s :
  exists r, eligible_execution_node engine preferred s = (Ok r, s) /\
  match r with
  | inl n => schedulable s engine preferred n
  | inr _ => forall n, ~ schedulable s engine preferred n
  end.
Proof.
  unfold eligible_execution_node, try, mbind, M_bind. cbn [gets]. unfold gets.
  destruct (list_nodes (hs_hub s)) as [res d] eqn:Hl.
  assert (d = hs_hub s) as -> by (rewrite -(read_list_nodes (hs_hub s)) Hl; done).
  rewrite (with_hub_same _ s _ Hl). cbv [mret M_ret].
  destruct res as [nodes|e]; [|eexists; split; [done|]; intros n (_ & _ & nodes & node & Hl2 & _); congruence].
  destruct (List.find _ nodes) as [node|] eqn:Hf; eexists; (split; [done|]); cbn.
  - apply List.find_some in Hf as [Hin%list_elem_of_In Hel].
    apply eligible_true in Hel as (Hc & Hp & Ha). split_and!; [done|done|].
    rewrite Hl. by exists nodes, node.
  - intros n (Hc & Hp & nodes2 & node & Hl2 & Hin & Hid & Ha).
    rewrite Hl in Hl2. simplify_eq. apply list_elem_of_In in Hin.
    pose proof (List.find_none _ _ Hf node Hin) as Hno. cbn in Hno.
    assert (eligible (hs_nodes s) engine preferred node = true) by (by apply eligible_true).
    congruence.
Qed.

Lemma start_run_on_target n c t e m re sp ap w s ef s' n' :
  start_run_on n c t e m re sp ap w s = (Ok ef, s') -> target ef = Some n' -> n' = n.
Proof.
  intros H Ht. do 3 (apply m_bind_ok in H as (? & ? & _ & H)).
  apply m_bind_ok in H as (ef' & s1 & Hf & H). apply m_bind_ok in H as (? & s2 & _ & [-> _]%m_ret_ok).
  unfold target in Ht.
  destruct (finish_target _ _ _ _ _ _ _ Hf) as [Hx|Hx]; rewrite Hx in Ht; [|done]. by simplify_eq/=.
Qed.

Lemma start_run_target c t p e m re sp ap w s ef s' n :
  apply_start_run None c t p e m re sp ap w s = (Ok ef, s') -> target ef = Some n ->
  schedulable s e p n.
Proof.
  unfold apply_start_run. intros H Ht.
  destruct (validate_run_configuration _ _ _ _ _); [|by apply m_ret_ok in H as [-> _]].
  apply m_bind_ok in H as (r & s1 & Hr & H).
  destruct (eligible_spec e p s) as (r' & Hr' & Hspec). rewrite Hr' in Hr. simplify_eq.
  destruct r as [n'|err]; [|by apply m_ret_ok in H as [-> _]].
  by rewrite (start_run_on_target _ _ _ _ _ _ _ _ _ _ _ _ _ H Ht).
Qed.

(** *** Node events *)

(** The run is bound to this node and task, in the cache or in the store. *)
Definition owns_run (s : HubState) (n : NodeId) (run : RunId) (t : TaskId) : Prop :=
  match hs_run s !! run with
  | Some b => b = (n, t)
  | None => exists r, get_run run (hs_hub s) = (Ok (Some r), hs_hub s) /\ r_node_id r = n /\ r_task_id r = t
  end.

Lemma run_binding_spec run s b s' :
  run_binding_checked run s = (Ok b, s') ->
  hs_events s' = hs_events s /\ hs_hub s' = hs_hub s /\ hs_nodes s' = hs_nodes s /\
  hs_channels s' = hs_channels s /\
  match b with
  | Some (n, t) => owns_run s n run t
  | None => forall n t, ~ owns_run s n run t
  end.
Proof.
  unfold run_binding_checked, owns_run. intros H.
  apply m_bind_ok in H as (cached & s1 & Hc & H). cbn in Hc. injection Hc as <- <-.
  destruct (hs_run s !! run) as [[n t]|] eqn:Hrun.
  - apply m_ret_ok in H as [-> ->]. split_and!; done.
  - apply m_bind_ok in H as (found & s1 & Hf & H).
    assert (get_run run (hs_hub s) = (Ok found, hs_hub s) /\ s1 = s) as [Hg ->].
    { unfold with_hub in Hf. pose proof (read_get_run run (hs_hub s)) as Hr.
      destruct (get_run run (hs_hub s)) as [r d]. cbn in Hr. subst d.
      injection Hf as -> <-. split; [done|by destruct s]. }
    destruct found as [r|].
    + apply m_bind_ok in H as ([] & s2 & Hm & [-> ->]%m_ret_ok). injection Hm as <-.
      split_and!; [done..|]. by exists r.
    + apply m_ret_ok in H as [-> ->]. split_and!; [done..|].
      intros n t (r & Hr & _). congruence.
Qed.

Lemma accepts_node_event_spec n draft s v s' :
  accepts_node_event n draft s = (Ok v, s') ->
  hs_events s' = hs_events s /\ hs_hub s' = hs_hub s /\ hs_nodes s' = hs_nodes s /\
  hs_channels s' = hs_channels s /\
  (v = true <-> d_node_id draft = n /\
     exists run, d_run_id draft = Some run /\ owns_run s n run (d_task_id draft)).
Proof.
  unfold accepts_node_event. case_bool_decide as Hn; cbn [negb].
  - destruct (d_run_id draft) as [run|]; intros H.
    + apply m_bind_ok in H as (b & s1 & Hb & [-> ->]%m_ret_ok).
      apply run_binding_spec in Hb as (-> & -> & -> & -> & Hb). split_and!; [done..|].
      destruct b as [[n' t']|].
      * rewrite andb_true_iff !bool_decide_eq_true. split.
        -- intros [-> ->]. eauto.
        -- intros (_ & run' & [= <-] & Ho). unfold owns_run in *.
           destruct (hs_run s !! run) as [b|]; [by subst; simplify_eq|].
           destruct Hb as (r & Hr & <- & <-), Ho as (r' & Hr' & <- & <-). rewrite Hr in Hr'. by simplify_eq.
      * split; [done|]. intros (_ & run' & [= <-] & Ho). by apply Hb in Ho.
    + apply m_ret_ok in H as [-> ->]. split_and!; [done..|]. split; [done|]. by intros (_ & ? & ? & _).
  - intros H. apply m_ret_ok in H as [-> ->]. split_and!; [done..|]. split; [done|]. by intros [? _].
Qed.
End Routing.

(** ** Node links *)
Section NodeLinks.
Context {P : Platform} {PL : PlatformLaws P} {E : Env P}.

(** Updates that leave the registry alone. *)
Definition same_registry (s s' : HubState) : Prop :=
  hs_nodes s' = hs_nodes s /\ hs_next_node_connection_id s' = hs_next_node_connection_id s.

#[export] Instance same_registry_preorder : PreOrder same_registry.
Proof. split; [done|]. intros x y z [] []. split; congruence. Qed.

Lemma registry_with_hub {A} (f : M Db A) : preserves same_registry (with_hub f).
Proof. intros s. by rewrite with_hub_snd. Qed.
Lemma registry_now : preserves same_registry utc_now.
Proof. done. Qed.
Lemma registry_fresh {k} : preserves same_registry (fresh_id (k := k)).
Proof. done. Qed.
Lemma registry_bus e : preserves same_registry (bus_send e).
Proof. done. Qed.
Lemma registry_send c m : preserves same_registry (channel_send c m).
Proof. intros s. unfold channel_send. repeat case_match; done. Qed.
Lemma registry_route n m : preserves same_registry (route_to_node n m).
Proof. intros s. unfold route_to_node. case_match; [apply registry_send|done]. Qed.
Hint Resolve registry_with_hub registry_now registry_fresh registry_bus registry_send registry_route
  same_registry_preorder : hub.

Lemma registry_broadcast o : preserves same_registry (broadcast_created o).
Proof. unfold broadcast_created. walk. Qed.
Hint Resolve registry_broadcast : hub.
Lemma registry_append_node_event i d : preserves same_registry (append_and_broadcast_node_event i d).
Proof. unfold append_and_broadcast_node_event. walk. Qed.
Hint Resolve registry_append_node_event : hub.
Lemma registry_connected h : preserves same_registry (on_node_connected h).
Proof. unfold on_node_connected. walk. Qed.
Lemma registry_replay n : preserves same_registry (replay_pending n).
Proof. unfold replay_pending. walk. Qed.

(** Opening a link registers it under the next connection id. *)
Lemma node_open_registry h sent now s w nl s' :
  node_open h sent now s = (Ok (w, Some nl), s') ->
  w_accepted w = true /\ nl_node nl = h_node_id h /\
  nl_connection nl = hs_next_node_connection_id s /\ nl_rx nl = length (hs_channels s) /\
  hs_nodes s' = <[h_node_id h := MkConnection (nl_connection nl) (nl_rx nl)]> (hs_nodes s) /\
  hs_next_node_connection_id s' = (hs_next_node_connection_id s + 1) mod 2 ^ 64.
Proof.
  intros H. apply m_bind_ok in H as (w' & s1 & Hw & H). injection Hw as <- <-.
  destruct (negb sent || _) eqn:Hacc; [by apply m_ret_ok in H as [[=] _]|].
  apply m_bind_ok in H as (rx & s1 & Hrx & H). injection Hrx as <- <-.
  apply m_bind_ok in H as (cid & s2 & Hcid & H). injection Hcid as <- <-.
  apply m_bind_ok in H as ([] & s3 & Hcon & H). apply m_bind_ok in H as ([] & s4 & Hrep & H).
  apply m_ret_ok in H as [[= -> ->] ->].
  pose proof (registry_connected h (set_nodes (<[h_node_id h :=
    MkConnection (hs_next_node_connection_id s) (length (hs_channels s))]> (hs_nodes s))
    (set_next_id ((hs_next_node_connection_id s + 1) mod 2 ^ 64)
       (set_channels (hs_channels s ++ [MkChannel true []]) s)))) as [H1 H2].
  cbn in Hcon. rewrite Hcon in H1, H2.
  pose proof (registry_replay (h_node_id h) s3) as [H3 H4]. rewrite Hrep in H3, H4. cbn in *.
  apply orb_false_iff in Hacc as [_ Hacc%negb_false_iff]. split_and!; congruence.
Qed.

(** Closing a link that is no longer the registered one only drops its channel. *)
Lemma node_close_stale nl s :
  (forall c, hs_nodes s !! nl_node nl = Some c -> nc_id c <> nl_connection nl) ->
  node_close nl s = (Ok tt, snd (drop_receiver (nl_rx nl) s)).
Proof.
  intros Hst. unfold node_close, mbind, M_bind, unregister_node.
  destruct (hs_nodes s !! nl_node nl) as [c|]; [|done].
  by rewrite (proj2 (Z.eqb_neq _ _) (Hst c eq_refl)).
Qed.

(** *** Messages from a node *)

(** Only an owned event changes the log. *)
Lemma append_broadcast_node_hub i d s :
  hs_hub (snd (append_and_broadcast_node_event i d s)) =
    snd (append_node_event (env_now (hs_ticks s)) i d (hs_hub s)) /\
  (forall o, fst (append_and_broadcast_node_event i d s) = Ok o ->
     fst (append_node_event (env_now (hs_ticks s)) i d (hs_hub s)) = Ok o).
Proof.
  unfold append_and_broadcast_node_event, mbind, M_bind. cbn [utc_now]. unfold utc_now, with_hub.
  cbn [hs_hub set_draws hs_ticks].
  destruct (append_node_event _ _ _ (hs_hub s)) as [[o|e] d'].
  - destruct (broadcast_created_hub o (set_hub d' (set_draws (S (hs_ticks s)) (hs_draws s) s))) as [H1 H2].
    cbn in *. split; [done|]. intros o' Ho'. by rewrite (H2 o' Ho').
  - done.
Qed.

Lemma route_hub n m s : hs_hub (snd (route_to_node n m s)) = hs_hub s.
Proof. unfold route_to_node, channel_send. repeat case_match; done. Qed.

Lemma hub_ack_events n c s :
  db_events (hs_hub (snd (hub_acknowledge_dispatch_from n c s))) = db_events (hs_hub s).
Proof. done. Qed.

(** The verdict on a node event, and what follows from it. *)
Lemma node_event_cases n i d s :
  exists v s1, accepts_node_event n d s = (v, s1) /\ hs_hub s1 = hs_hub s /\
    hs_nodes s1 = hs_nodes s /\ hs_channels s1 = hs_channels s /\
    node_message n (NH_NodeEvent i d) s =
      match v with
      | Ok false => (Ok tt, snd (route_to_node n (HN_EventAck i) s1))
      | Ok true =>
          match append_and_broadcast_node_event i d s1 with
          | (Ok _, s2) => (Ok tt, snd (route_to_node n (HN_EventAck i) s2))
          | (Err _, s2) => (Ok tt, s2)
          end
      | Err _ => (Ok tt, s1)
      end.
Proof.
  destruct (accepts_node_event n d s) as [v s1] eqn:Hv. exists v, s1. split; [done|].
  assert (hs_hub s1 = hs_hub s /\ hs_nodes s1 = hs_nodes s /\ hs_channels s1 = hs_channels s) as (H1 & H2 & H3).
  { destruct v as [v|e]; [by apply accepts_node_event_spec in Hv as (_ & ? & ? & ? & _)|].
    unfold accepts_node_event, run_binding_checked, mbind, M_bind, with_hub, gets in Hv.
    repeat (case_match; simplify_eq/=; try done).
    all: match goal with H : get_run ?r ?x = (_, ?y) |- _ =>
           pose proof (read_get_run r x) as Hrd; rewrite H in Hrd; cbn in Hrd; by subst end. }
  split_and!; [done..|]. unfold node_message, try, mbind, M_bind. rewrite Hv.
  destruct v as [[]|e]; cbn; [|by destruct (returns_route n (HN_EventAck i) s1) as (b & s2 & -> & _)|done].
  destruct (append_and_broadcast_node_event i d s1) as [[o|e] s2]; cbn; [|done].
  by destruct (returns_route n (HN_EventAck i) s2) as (b & s3 & -> & _).
Qed.
End NodeLinks.

(** ** Event acknowledgements *)
Section Acks.
Context {P : Platform} {PL : PlatformLaws P} {E : Env P}.

(** Updates that leave the registry and the channels alone. *)
Definition same_links (s s' : HubState) : Prop :=
  hs_nodes s' = hs_nodes s /\ hs_channels s' = hs_channels s.
#[export] Instance same_links_preorder : PreOrder same_links.
Proof. split; [done|]. intros x y z [] []. split; congruence. Qed.

Lemma links_with_hub {A} (f : M Db A) : preserves same_links (with_hub f).
Proof. intros s. by rewrite with_hub_snd. Qed.
Lemma links_now : preserves same_links utc_now.
Proof. done. Qed.
Lemma links_bus e : preserves same_links (bus_send e).
Proof. done. Qed.
Hint Resolve links_with_hub links_now links_bus same_links_preorder : hub.
Lemma links_append_node_event i d : preserves same_links (append_and_broadcast_node_event i d).
Proof. unfold append_and_broadcast_node_event, broadcast_created. walk. Qed.

(** The message is queued for the node's current link, if that is open. *)
Definition queued (s s' : HubState) (n : NodeId) (m : HubToNode) : Prop :=
  forall conn q, hs_nodes s !! n = Some conn ->
    hs_channels s !! nc_sender conn = Some (MkChannel true q) ->
    hs_channels s' !! nc_sender conn = Some (MkChannel true (q ++ [m])).

Lemma route_queued n m s s1 :
  same_links s s1 -> queued s (snd (route_to_node n m s1)) n m.
Proof.
  intros [Hn Hc] conn q Hconn Hq. unfold route_to_node, channel_send. rewrite Hn Hconn Hc Hq. cbn.
  rewrite list_lookup_insert_eq; [by eapply lookup_lt_Some|done].
Qed.

Lemma links_events n m s : hs_events (snd (route_to_node n m s)) = hs_events s.
Proof. unfold route_to_node, channel_send. repeat case_match; done. Qed.

(** In a typed store the ownership of a run can always be decided. *)
Lemma accepts_total n d s : db_wf (hs_hub s) -> db_typed (hs_hub s) ->
  exists v s1, accepts_node_event n d s = (Ok v, s1).
Proof.
  intros Hwf Hty. destruct (typed_reads_ok _ Hwf Hty) as (_ & _ & _ & _ & Hrun & _).
  unfold accepts_node_event. destruct (negb _); [by eexists _, _|].
  destruct (d_run_id d) as [run|]; [|by eexists _, _].
  unfold mbind at 1, M_bind at 1. unfold run_binding_checked, gets, mbind, M_bind.
  destruct (hs_run s !! run); [by eexists _, _|]. unfold with_hub.
  specialize (Hrun run). destruct (get_run run (hs_hub s)) as [[[r|]|e] d']; [by eexists _, _..|done].
Qed.

(** The run named by the draft is this node's, in this task. *)
Definition owned (s : HubState) (n : NodeId) (draft : EventDraft) : Prop :=
  d_node_id draft = n /\ exists run, d_run_id draft = Some run /\ owns_run s n run (d_task_id draft).

Context {EO : EnvOk}.

(** Storing an event cannot fail while sequences are left. *)
Lemma append_broadcast_node_ok base i draft s :
  good base s -> draft_times_ok draft -> zlen (base ++ hs_events s) < i64_max ->
  exists o s', append_and_broadcast_node_event i draft s = (Ok o, s').
Proof.
  intros [Hwf Hty Hrep] Hdr Hmax. unfold append_and_broadcast_node_event.
  unfold mbind at 1, M_bind at 1, utc_now. unfold mbind at 1, M_bind at 1, with_hub at 1.
  cbn [hs_hub set_draws].
  pose proof (append_node_event_refines _ _ (env_now (hs_ticks s)) i draft Hwf Hrep
    (env_now_ok _) Hdr) as H.
  pose proof (append_node_step (env_now (hs_ticks s)) i draft _ Hwf) as [Hwf' _].
  unfold spec_append_node_event in H. destruct (List.find _ (base ++ hs_events s)) as [e|];
    (destruct H as [(d' & Happ & Hrep' & _)|(_ & Hov & _)]; [|lia]); rewrite Happ in Hwf' |- *;
    unfold broadcast_created; cbn [o_created o_sequence]; [by eexists _, _|].
  unfold mbind, M_bind, with_hub. cbn [hs_hub set_hub].
  rewrite (fetch_created d' _ _ Hwf' Hrep'). by eexists _, _.
Qed.

(** A node event is settled: stored when owned, dropped when not, and answered. *)
Lemma node_event_settled base s n i draft :
  good base s -> draft_times_ok draft -> zlen (base ++ hs_events s) < i64_max ->
  exists s', node_message n (NH_NodeEvent i draft) s = (Ok tt, s') /\
    queued s s' n (HN_EventAck i) /\
    (owned s n draft -> id_to_string i ∈ map er_event_id (db_events (hs_hub s'))) /\
    (~ owned s n draft -> hs_hub s' = hs_hub s /\ hs_events s' = hs_events s).
Proof.
  intros Hg Hdr Hmax. pose proof Hg as [Hwf Hty Hrep].
  destruct (node_event_cases n i draft s) as (v & s1 & Hv & Hh & Hn & Hc & ->).
  destruct (accepts_total n draft s Hwf Hty) as (b & s1' & Hb). rewrite Hb in Hv. simplify_eq.
  pose proof (accepts_node_event_spec _ _ _ _ _ Hb) as (He & _ & _ & _ & Hiff).
  pose proof (preserves_accepts n draft s) as Hev. rewrite Hb in Hev. cbn in Hev.
  destruct b.
  - pose proof (append_broadcast_node_hub i draft s1) as [Hhub _].
    destruct (append_broadcast_node_ok base i draft s1) as (o & s2 & Happ);
      [by apply (ev_good _ _ Hev)|done|by rewrite He|].
    pose proof (links_append_node_event i draft s1) as Hl. rewrite Happ in Hhub, Hl |- *. cbn in Hhub, Hl.
    eexists. split; [done|]. split_and!.
    + apply route_queued. by trans s1.
    + intros _. rewrite route_hub Hhub Hh.
      destruct (List.find (has_key er_event_id (id_to_string i)) (db_events (hs_hub s))) as [row|] eqn:Hf.
      * rewrite (append_node_replay _ _ _ _ row Hf). cbn. apply find_key_some in Hf as [Hk Hin].
        apply elem_of_map. by exists row.
      * rewrite append_node_new; [done|done|].
        rewrite decide_True; [rewrite (represents_length _ _ Hrep); lia|].
        cbn. rewrite commit_node_event_events map_app. apply elem_of_app. right. by apply list_elem_of_singleton.
    + intros Hno. destruct Hno. by apply Hiff.
  - eexists. split; [done|]. split_and!.
    + by apply route_queued.
    + intros Ho. by apply Hiff in Ho.
    + intros _. rewrite route_hub Hh. split; [done|].
      pose proof (links_events n (HN_EventAck i) s1) as ->. done.
Qed.
End Acks.

(** ** Settings *)
Section SettingsFacts.
Context {P : Platform} {PL : PlatformLaws P} {E : Env P}.

Lemma validate_update_ok u : validate_update u = Ok tt <-> 1 <= us_interval_hours u <= 168.
Proof.
  unfold validate_update. destruct (Z.leb_spec 1 (us_interval_hours u)), (Z.leb_spec (us_interval_hours u) 168);
    cbn; (split; [done || intros; lia|done || intros; lia]).
Qed.

(** A setting reads as it was last written. *)
Lemma saved_setting_reads k v s :
  with_hub (get_setting k) (snd (hub_put_setting k v s)) = (Ok (Some v), snd (hub_put_setting k v s)).
Proof.
  set (s' := snd _).
  assert (hs_hub s' = snd (put_setting (env_now (hs_ticks s)) k v (hs_hub s))) as Hh.
  { unfold s', hub_put_setting, mbind, M_bind. cbn [utc_now]. unfold utc_now. by rewrite with_hub_snd. }
  apply with_hub_same. unfold get_setting, query_row. run_m. rewrite Hh. unfold put_setting.
  rewrite (upsert_then_find settings_t sr_key); [done|done|done|]. cbn. by rewrite json_roundtrip.
Qed.
End SettingsFacts.
