(* ===== verification/Credits.v ===== *)
(** The credit model of the activity store (crates/stackhour-store/src/summarize.rs,
    with the row type of lib.rs): what each heartbeat earns, and the timeline
    segments. *)
From S2P Require Import Prelude.
From S2P Require Import RustStr.
From S2P Require Import Float64.
From Stdlib Require Import SpecFloat Sorted.

Local Open Scope Z_scope.

(** [Heartbeat] *)
Record Heartbeat := MkHeartbeat {
  hr_id : Z; hr_time : f64; hr_machine : string; hr_source : string; hr_project : string;
  hr_entity : string; hr_entity_type : string; hr_category : string; hr_language : option string;
  hr_branch : option string; hr_is_write : Z; hr_actor : string; hr_tokens_in : Z; hr_tokens_out : Z;
  hr_cost : f64; hr_created_at : f64;
}.

(** [Credited] *)
Record Credited := MkCredited { cr_row : Heartbeat; cr_credit : f64 }.

(** [StreamKey] *)
Record StreamKey := MkStreamKey { sk_machine : string; sk_source : string; sk_actor : string; sk_project : string }.

#[export] Instance StreamKey_eq_dec : EqDecision StreamKey.
Proof. solve_decision. Defined.

(** [StreamKey::of] *)
Definition stream_of (row : Heartbeat) : StreamKey :=
  MkStreamKey (hr_machine row) (hr_source row) (hr_actor row)
    (if String.eqb (hr_actor row) "agent" then hr_project row else EmptyString).

(** [by_time(a, b) == Less] *)
Definition by_time (a b : Heartbeat) : bool := f64_lt (hr_time a) (hr_time b).

(** The credits of one sorted stream. *)
Fixpoint credit_stream (cap_s last_s : f64) (stream : list Heartbeat) : list Credited :=
  match stream with
  | [] => []
  | row :: rest =>
      MkCredited row
        (match rest with
         | next :: _ => f64_min (f64_sub (hr_time next) (hr_time row)) cap_s
         | [] => last_s
         end) :: credit_stream cap_s last_s rest
  end.

(** [compute_credits] *)
Definition compute_credits (rows : list Heartbeat) (cap_s last_s : f64) : list Credited :=
  flat_map (fun e => credit_stream cap_s last_s (sort_by by_time e.2)) (group_by stream_of rows).

(** *** Segments *)

(** [Segment] *)
Record Segment := MkSegment {
  sg_project : string; sg_actor : string; sg_start : f64; sg_end : f64; sg_seconds : f64; sg_sources : list string;
}.

(** [IndexSet::insert] *)
Definition set_insert (x : string) (l : list string) : list string :=
  if decide (x ∈ l) then l else l ++ [x].

Definition segment_new (project actor : string) (c : Credited) : Segment :=
  MkSegment project actor (hr_time (cr_row c)) (hr_time (cr_row c)) (cr_credit c) [hr_source (cr_row c)].

Definition segment_extend (c : Credited) (s : Segment) : Segment :=
  MkSegment (sg_project s) (sg_actor s) (sg_start s) (hr_time (cr_row c)) (f64_add (sg_seconds s) (cr_credit c))
    (set_insert (hr_source (cr_row c)) (sg_sources s)).

(** The loop over one group: the segment in progress, then the ones it closes. *)
Fixpoint segment_loop (join_gap : f64) (project actor : string) (group : list Credited) (seg : option Segment)
    : list Segment :=
  match group with
  | [] => match seg with Some last => [last] | None => [] end
  | c :: rest =>
      match seg with
      | Some s =>
          if f64_le (f64_sub (hr_time (cr_row c)) (sg_end s)) join_gap
          then segment_loop join_gap project actor rest (Some (segment_extend c s))
          else s :: segment_loop join_gap project actor rest (Some (segment_new project actor c))
      | None => segment_loop join_gap project actor rest (Some (segment_new project actor c))
      end
  end.

Definition credited_by_time (a b : Credited) : bool := by_time (cr_row a) (cr_row b).
Definition segment_before (a b : Segment) : bool := f64_lt (sg_start a) (sg_start b).

(** [build_segments], before the segments are written as JSON. *)
Definition build_segments (rows : list Credited) (join_gap : f64) : list Segment :=
  sort_by segment_before
    (flat_map (fun e => segment_loop join_gap e.1.1 e.1.2 (sort_by credited_by_time e.2) None)
       (group_by (fun c => (hr_project (cr_row c), hr_actor (cr_row c))) rows)).

(** *** Credits *)

Lemma credit_stream_rows cap_s last_s stream : map cr_row (credit_stream cap_s last_s stream) = stream.
Proof. induction stream as [|r rest IH]; [done|]. cbn. by rewrite IH. Qed.

Lemma compute_credits_rows rows cap_s last_s : map cr_row (compute_credits rows cap_s last_s) ≡ₚ rows.
Proof.
  unfold compute_credits. rewrite -{2}(group_by_perm stream_of rows).
  induction (group_by stream_of rows) as [|[k vs] g IH]; [done|]. cbn [flat_map snd].
  rewrite map_app credit_stream_rows IH sort_by_perm. done.
Qed.

(** The rows of a stream, and what they earn. *)
Definition of_stream (k : StreamKey) (rows : list Heartbeat) : list Heartbeat := filter (fun r => stream_of r = k) rows.
Definition earned (k : StreamKey) (out : list Credited) : list Credited := filter (fun c => stream_of (cr_row c) = k) out.

Lemma credit_stream_keyed cap_s last_s k stream :
  Forall (fun r => stream_of r = k) stream -> Forall (fun c => stream_of (cr_row c) = k) (credit_stream cap_s last_s stream).
Proof.
  intros H. apply (proj1 (List.Forall_map cr_row (fun r => stream_of r = k) _)). by rewrite credit_stream_rows.
Qed.

(** Streams do not influence each other. *)
Lemma earned_compute k rows cap_s last_s :
  earned k (compute_credits rows cap_s last_s) = credit_stream cap_s last_s (sort_by by_time (of_stream k rows)).
Proof.
  apply (flat_map_group stream_of (fun c => stream_of (cr_row c)) (fun _ vs => credit_stream cap_s last_s (sort_by by_time vs)));
    [|done].
  intros k' vs Hvs. apply credit_stream_keyed. by rewrite sort_by_perm.
Qed.

(** Which rows share a stream. *)
Lemma stream_of_iff a b :
  stream_of a = stream_of b <->
    hr_machine a = hr_machine b /\ hr_source a = hr_source b /\ hr_actor a = hr_actor b /\
    (hr_actor a = "agent"%string -> hr_project a = hr_project b).
Proof.
  unfold stream_of. split.
  - intros [= Hm Hs Ha Hp]. rewrite Ha in Hp. split_and!; [done..|]. intros Hag. rewrite Ha in Hag. by rewrite Hag in Hp.
  - intros (-> & -> & Ha & Hp). rewrite -Ha. destruct (String.eqb_spec (hr_actor a) "agent"); [by rewrite Hp|done].
Qed.

(** What each row of a stream earns. *)
Lemma credit_stream_lookup cap_s last_s stream i :
  credit_stream cap_s last_s stream !! i =
    (fun r => MkCredited r
       match stream !! S i with Some next => f64_min (f64_sub (hr_time next) (hr_time r)) cap_s | None => last_s end)
    <$> stream !! i.
Proof.
  revert i. induction stream as [|r rest IH]; intros [|i]; try done; cbn [credit_stream lookup list_lookup].
  - cbn. by destruct rest.
  - apply IH.
Qed.

Lemma credit_stream_capped cap_s last_s stream :
  f64_is_nan cap_s = false ->
  Forall (fun c => cr_credit c = last_s \/ f64_le (cr_credit c) cap_s = true) (credit_stream cap_s last_s stream).
Proof.
  intros Hc. induction stream as [|r rest IH]; [constructor|]. cbn. constructor; [|exact IH]. cbn.
  destruct rest; [by left|right]. by apply f64_min_le.
Qed.

Lemma compute_credits_capped rows cap_s last_s :
  f64_is_nan cap_s = false ->
  Forall (fun c => cr_credit c = last_s \/ f64_le (cr_credit c) cap_s = true) (compute_credits rows cap_s last_s).
Proof.
  intros Hc. unfold compute_credits. induction (group_by stream_of rows) as [|e g IH]; [constructor|].
  cbn [flat_map]. apply Forall_app. split; [by apply credit_stream_capped|exact IH].
Qed.

Definition timed (r : Heartbeat) : Prop := f64_is_nan (hr_time r) = false.

Lemma by_time_ordered l : Forall timed l -> ordered by_time (sort_by by_time l).
Proof.
  apply sort_by_ordered.
  - intros x y. apply f64_lt_asym.
  - intros x y z. apply f64_ge_trans.
Qed.

(** *** Segments are the maximal runs *)

(** Split where the gap to the previous row is too large. *)
Fixpoint runs (join_gap : f64) (current : list Credited) (last : f64) (group : list Credited) : list (list Credited) :=
  match group with
  | [] => [current]
  | c :: rest =>
      if f64_le (f64_sub (hr_time (cr_row c)) last) join_gap
      then runs join_gap (current ++ [c]) (hr_time (cr_row c)) rest
      else current :: runs join_gap [c] (hr_time (cr_row c)) rest
  end.

Definition runs_of (join_gap : f64) (group : list Credited) : list (list Credited) :=
  match group with [] => [] | c :: rest => runs join_gap [c] (hr_time (cr_row c)) rest end.

(** What a run amounts to. *)
Definition segment_of (project actor : string) (run : list Credited) : option Segment :=
  match run with
  | [] => None
  | c :: rest => Some (fold_left (fun s c => segment_extend c s) rest (segment_new project actor c))
  end.

Lemma segment_end rest s : sg_end (fold_left (fun s c => segment_extend c s) rest s) =
  match last rest with Some c => hr_time (cr_row c) | None => sg_end s end.
Proof.
  revert s. induction rest as [|c rest IH]; intros s; [done|]. cbn [fold_left]. rewrite IH last_cons.
  by destruct (last rest).
Qed.

Lemma segment_loop_runs join_gap project actor group c run :
  let s := fold_left (fun s c => segment_extend c s) run (segment_new project actor c) in
  segment_loop join_gap project actor group (Some s) =
    omap (segment_of project actor) (runs join_gap (c :: run) (sg_end s) group).
Proof.
  revert c run. induction group as [|d rest IH]; intros c run; cbv zeta; [done|]. cbn [segment_loop runs].
  destruct (f64_le _ join_gap).
  - specialize (IH c (run ++ [d])). cbv zeta in IH. rewrite fold_left_app in IH. cbn [fold_left] in IH.
    rewrite IH. cbn [segment_extend sg_end]. by rewrite -app_comm_cons.
  - specialize (IH d []). cbv zeta in IH. cbn [fold_left] in IH. rewrite IH. cbn [segment_new sg_end].
    by cbn [omap list_omap segment_of].
Qed.

Lemma segment_loop_spec join_gap project actor group :
  segment_loop join_gap project actor group None = omap (segment_of project actor) (runs_of join_gap group).
Proof.
  destruct group as [|c rest]; [done|]. cbn [segment_loop runs_of].
  pose proof (segment_loop_runs join_gap project actor rest c []) as H. cbv zeta in H. cbn [fold_left] in H.
  rewrite H. done.
Qed.

Lemma runs_concat join_gap current last group : concat (runs join_gap current last group) = current ++ group.
Proof.
  revert current last. induction group as [|c rest IH]; intros current last; cbn [runs]; [cbn; by rewrite !app_nil_r|].
  destruct (f64_le _ _); [by rewrite IH -app_assoc|]. cbn [concat]. by rewrite IH.
Qed.

Lemma runs_of_concat join_gap group : concat (runs_of join_gap group) = group.
Proof. destruct group as [|c rest]; [done|]. unfold runs_of. by rewrite runs_concat. Qed.

(** Consecutive rows of a run are close; consecutive runs are apart. *)
Definition close (join_gap : f64) (a b : Credited) : bool :=
  f64_le (f64_sub (hr_time (cr_row b)) (hr_time (cr_row a))) join_gap.

Fixpoint chained (join_gap : f64) (run : list Credited) : Prop :=
  match run with
  | a :: rest => match rest with b :: _ => close join_gap a b = true | [] => True end /\ chained join_gap rest
  | [] => True
  end.

Definition apart (join_gap : f64) (r1 r2 : list Credited) : Prop :=
  exists l a b l', r1 = l ++ [a] /\ r2 = b :: l' /\ close join_gap a b = false.

Fixpoint separated (join_gap : f64) (rs : list (list Credited)) : Prop :=
  match rs with
  | r1 :: rest => match rest with r2 :: _ => apart join_gap r1 r2 | [] => True end /\ separated join_gap rest
  | [] => True
  end.

Lemma chained_snoc join_gap l a b :
  chained join_gap (l ++ [a]) -> close join_gap a b = true -> chained join_gap ((l ++ [a]) ++ [b]).
Proof.
  intros Hl Hc. induction l as [|x l IH]; [by cbn|]. cbn [app chained] in *. destruct Hl as [Hx Hl].
  split; [|by apply IH]. by destruct l.
Qed.

Lemma runs_head join_gap current last group : exists x more, runs join_gap current last group = (current ++ x) :: more.
Proof.
  revert current last. induction group as [|c rest IH]; intros current last; cbn [runs].
  - exists [], []. by rewrite app_nil_r.
  - destruct (f64_le _ _).
    + destruct (IH (current ++ [c]) (hr_time (cr_row c))) as (x & more & ->). exists (c :: x), more. by rewrite -app_assoc.
    + eexists [], _. by rewrite app_nil_r.
Qed.

Lemma runs_gaps join_gap l a group :
  chained join_gap (l ++ [a]) ->
  Forall (chained join_gap) (runs join_gap (l ++ [a]) (hr_time (cr_row a)) group) /\
  separated join_gap (runs join_gap (l ++ [a]) (hr_time (cr_row a)) group).
Proof.
  revert l a. induction group as [|c rest IH]; intros l a Hl; cbn [runs].
  { split; [by apply Forall_singleton|by cbn]. }
  fold (close join_gap a c). destruct (close join_gap a c) eqn:Hc; [apply IH; by apply chained_snoc|].
  destruct (IH [] c) as [H1 H2]; [by cbn|]. cbn [app] in *. split; [by constructor|].
  destruct (runs_head join_gap [c] (hr_time (cr_row c)) rest) as (x & more & Heq). rewrite Heq in H2 |- *.
  split; [|exact H2]. by exists l, a, c, x.
Qed.

Lemma runs_of_gaps join_gap group :
  Forall (chained join_gap) (runs_of join_gap group) /\ separated join_gap (runs_of join_gap group).
Proof. destruct group as [|c rest]; [by split|]. apply (runs_gaps join_gap [] c rest). by cbn. Qed.

(** *** The segments of one project and actor *)

Definition segment_key (s : Segment) : string * string := (sg_project s, sg_actor s).
Definition row_key (c : Credited) : string * string := (hr_project (cr_row c), hr_actor (cr_row c)).

Lemma segment_of_key project actor run s : segment_of project actor run = Some s -> segment_key s = (project, actor).
Proof.
  destruct run as [|c rest]; [done|]. cbn. intros [= <-].
  assert (forall s0, segment_key (fold_left (fun s c => segment_extend c s) rest s0) = segment_key s0) as ->; [|done].
  induction rest as [|d rest IH]; intros s0; [done|]. cbn [fold_left]. by rewrite IH.
Qed.

Lemma filter_perm {A} (Q : A -> Prop) `{!forall x, Decision (Q x)} l1 l2 : l1 ≡ₚ l2 -> filter Q l1 ≡ₚ filter Q l2.
Proof. by intros ->. Qed.

Lemma build_segments_runs rows join_gap k :
  filter (fun s => segment_key s = k) (build_segments rows join_gap) ≡ₚ
    omap (segment_of k.1 k.2) (runs_of join_gap (sort_by credited_by_time (filter (fun c => row_key c = k) rows))).
Proof.
  unfold build_segments. rewrite (filter_perm _ _ _ (sort_by_perm segment_before _)).
  rewrite (flat_map_group row_key segment_key
    (fun k vs => segment_loop join_gap k.1 k.2 (sort_by credited_by_time vs) None)); [|done|by rewrite segment_loop_spec].
  intros k' vs _. rewrite segment_loop_spec. apply Forall_forall. intros s Hs.
  apply list_elem_of_omap in Hs as (run & _ & Hs). apply segment_of_key in Hs. by destruct k'.
Qed.
