(* ===== verification/Reattribute.v ===== *)
(** File-save reattribution (crates/stackhour-store/src/reattribute.rs): an editor
    save close to an agent's edit of the same file counts as the agent's. *)
From S2P Require Import Prelude.
From S2P Require Import RustStr.
From S2P Require Import Float64.
From S2P Require Import Credits.
From Stdlib Require Import SpecFloat Sorted.

Local Open Scope Z_scope.

(** A candidate edit: its time and source. *)
Abbreviation Edit := (f64 * string)%type.

Definition is_edit (r : Heartbeat) : bool :=
  String.eqb (hr_actor r) "agent" && String.eqb (hr_entity_type r) "file" && negb (hr_is_write r =? 0).

(** The candidate edits, grouped by machine and entity. *)
Definition edits_by_entity (rows : list Heartbeat) : list ((string * string) * list Edit) :=
  fold_left (fun g r => if is_edit r then index_push (hr_machine r, hr_entity r) (hr_time r, hr_source r) g else g)
    rows [].

Definition edit_before (a b : Edit) : bool := f64_lt a.1 b.1.

(** The binary search: the first index whose time is not before [t]. *)
Fixpoint lower_bound (fuel : nat) (edits : list Edit) (t : f64) (lo hi : nat) : nat :=
  match fuel with
  | O => lo
  | S fuel' =>
      if Nat.ltb lo hi then
        let mid := Nat.div2 (lo + hi) in
        if match edits !! mid with Some e => f64_lt e.1 t | None => false end
        then lower_bound fuel' edits t (mid + 1) hi
        else lower_bound fuel' edits t lo mid
      else lo
  end.

(** One candidate index. *)
Definition consider (edits : list Edit) (t window_s : f64) (best : option string * f64) (index : option nat)
    : option string * f64 :=
  match index ≫= fun i => edits !! i with
  | None => best
  | Some (time, source) =>
      let distance := f64_abs (f64_sub time t) in
      if f64_le distance window_s && f64_lt distance best.2 then (Some source, distance) else best
  end.

Definition nearest_edit (edits : list Edit) (t window_s : f64) : option string :=
  let lo := lower_bound (length edits) edits t 0 (length edits) in
  (fold_left (consider edits t window_s) [if Nat.ltb 0 lo then Some (lo - 1)%nat else None; Some lo]
     (None, f64_infinity)).1.

(** The patch of one row. *)
Definition patch_of (groups : list ((string * string) * list Edit)) (window_s : f64) (r : Heartbeat) : option string :=
  if negb (String.eqb (hr_source r) "editor-files") then None
  else
    match List.find (fun e => bool_decide (e.1 = (hr_machine r, hr_entity r))) groups with
    | Some e => nearest_edit e.2 (hr_time r) window_s
    | None => None
    end.

Definition as_agent (source : string) (r : Heartbeat) : Heartbeat :=
  MkHeartbeat (hr_id r) (hr_time r) (hr_machine r) source (hr_project r) (hr_entity r) (hr_entity_type r)
    (hr_category r) (hr_language r) (hr_branch r) (hr_is_write r) "agent" (hr_tokens_in r) (hr_tokens_out r)
    (hr_cost r) (hr_created_at r).

Definition apply_patch (r : Heartbeat) (patch : option string) : Heartbeat :=
  match patch with Some source => as_agent source r | None => r end.

(** [reattribute_file_saves] *)
Definition reattribute_file_saves (rows : list Heartbeat) (window_s : f64) : list Heartbeat :=
  match edits_by_entity rows with
  | [] => rows
  | g =>
      let groups := map (fun e => (e.1, sort_by edit_before e.2)) g in
      map (fun r => apply_patch r (patch_of groups window_s r)) rows
  end.

(** *** The binary search *)

Definition timed_edit (e : Edit) : Prop := f64_is_nan e.1 = false.

Lemma edits_ordered l : Forall timed_edit l -> ordered edit_before (sort_by edit_before l).
Proof.
  apply sort_by_ordered.
  - intros x y. apply f64_lt_asym.
  - intros x y z. apply f64_ge_trans.
Qed.

Lemma ordered_lookup (l : list Edit) i j a b :
  ordered edit_before l -> l !! i = Some a -> l !! j = Some b -> (i < j)%nat -> f64_lt b.1 a.1 = false.
Proof.
  unfold ordered. revert i j. induction l as [|x l IH]; intros i j Ho Hi Hj Hlt; [done|].
  apply StronglySorted_inv in Ho as [Ho Hall]. destruct j as [|j]; [lia|]. destruct i as [|i].
  - cbn in Hi, Hj. injection Hi as ->. apply (proj1 (Forall_forall _ _) Hall b). by eapply list_elem_of_lookup_2.
  - apply (IH i j); [done..|lia].
Qed.

Lemma f64_lt_le_trans a b c :
  f64_is_nan a = false -> f64_is_nan b = false -> f64_is_nan c = false ->
  f64_lt b a = false -> f64_lt b c = true -> f64_lt a c = true.
Proof.
  intros Ha Hb Hc H1 H2. apply f64_lt_key in H2; [|done..]. apply f64_lt_key; [done..|].
  assert (~ key_lt (f64_key b) (f64_key a)) as N1 by (rewrite -f64_lt_key // H1 //).
  unfold key_lt in *. lia.
Qed.

(** With as much fuel as indices, the search ends at the boundary. *)
Lemma lower_bound_spec fuel edits t lo hi :
  Forall timed_edit edits -> f64_is_nan t = false -> ordered edit_before edits ->
  (hi - lo <= fuel)%nat -> (lo <= hi <= length edits)%nat ->
  (forall j e, (j < lo)%nat -> edits !! j = Some e -> f64_lt e.1 t = true) ->
  (forall j e, (hi <= j)%nat -> edits !! j = Some e -> f64_lt e.1 t = false) ->
  let k := lower_bound fuel edits t lo hi in
  (k <= length edits)%nat /\
  (forall j e, (j < k)%nat -> edits !! j = Some e -> f64_lt e.1 t = true) /\
  (forall j e, (k <= j)%nat -> edits !! j = Some e -> f64_lt e.1 t = false).
Proof.
  intros Hall Ht Ho. revert lo hi. induction fuel as [|fuel IH]; intros lo hi Hf Hb Hlo Hhi; cbv zeta; cbn [lower_bound].
  { assert (lo = hi) as -> by lia. by split_and!; [lia|..]. }
  destruct (Nat.ltb_spec lo hi) as [Hlt|Hge]; [|assert (lo = hi) as -> by lia; by split_and!; [lia|..]].
  set (mid := Nat.div2 (lo + hi)). assert (lo <= mid < hi)%nat as Hm.
  { unfold mid. rewrite Nat.div2_div. split; [apply Nat.div_le_lower_bound; lia|apply Nat.Div0.div_lt_upper_bound; lia]. }
  destruct (lookup_lt_is_Some_2 edits mid) as [e He]; [lia|]. rewrite He.
  assert (forall j x, edits !! j = Some x -> f64_is_nan x.1 = false) as Hnan.
  { intros j x Hx. exact (Forall_lookup_1 _ _ _ _ Hall Hx). }
  destruct (f64_lt e.1 t) eqn:Hcmp; apply IH; try lia; try done.
  - intros j x Hj Hx. destruct (decide (j = mid)) as [->|Hne]; [by simplify_eq|].
    destruct (decide (j < lo)%nat) as [Hl|Hl]; [by eapply Hlo|].
    apply (f64_lt_le_trans x.1 e.1 t); [by eapply Hnan|by eapply Hnan|done| |done].
    apply (ordered_lookup edits j mid x e Ho Hx He). lia.
  - intros j x Hj Hx. destruct (decide (j = mid)) as [->|Hne]; [by simplify_eq|].
    apply (f64_ge_trans t e.1 x.1); [done|by eapply Hnan|by eapply Hnan|done|].
    apply (ordered_lookup edits mid j e x Ho He Hx). lia.
Qed.

(** The boundary splits the edits into those before [t] and the others. *)
Lemma lower_bound_count edits t :
  Forall timed_edit edits -> f64_is_nan t = false -> ordered edit_before edits ->
  lower_bound (length edits) edits t 0 (length edits) = length (filter (fun e : Edit => f64_lt e.1 t = true) edits).
Proof.
  intros Hall Ht Ho. destruct (lower_bound_spec (length edits) edits t 0 (length edits) Hall Ht Ho) as (Hk & H1 & H2);
    [lia|lia|lia| |].
  { intros j e Hj He. apply lookup_lt_Some in He. lia. }
  set (k := lower_bound _ _ _ _ _) in *. clearbody k. clear Hall Ho.
  revert k Hk H1 H2. induction edits as [|x edits IH]; intros k Hk H1 H2; [cbn in *; lia|].
  rewrite filter_cons. destruct k as [|k].
  - rewrite decide_False; [by rewrite (H2 0%nat x)|]. apply (IH 0%nat); [lia|intros ??; lia|].
    intros j e _ He. apply (H2 (S j) e); [lia|done].
  - rewrite decide_True; [by apply (H1 0%nat); [lia|]|]. cbn [length] in *. f_equal. apply IH; [lia|..].
    + intros j e Hj He. apply (H1 (S j) e); [lia|done].
    + intros j e Hj He. apply (H2 (S j) e); [lia|done].
Qed.

(** *** What a save is compared with *)

(** The agent's edits of the row's file, in time order. *)
Definition file_edits (rows : list Heartbeat) (r : Heartbeat) : list Edit :=
  sort_by edit_before
    (map (fun e => (hr_time e, hr_source e))
       (filter (fun e => is_edit e = true /\ (hr_machine e, hr_entity e) = (hr_machine r, hr_entity r)) rows)).

Definition closer (t window_s : f64) (best : option string * f64) (e : option Edit) : option string * f64 :=
  match e with
  | None => best
  | Some (time, source) =>
      let distance := f64_abs (f64_sub time t) in
      if f64_le distance window_s && f64_lt distance best.2 then (Some source, distance) else best
  end.

(** The source of the last edit before the save or of the first one after,
    whichever is closer and within the window, the earlier one when they are equally
    close. *)
Definition expected_patch (rows : list Heartbeat) (window_s : f64) (r : Heartbeat) : option string :=
  if negb (String.eqb (hr_source r) "editor-files") then None
  else
    let edits := file_edits rows r in
    let t := hr_time r in
    (fold_left (closer t window_s)
       [last (filter (fun e : Edit => f64_lt e.1 t = true) edits); head (filter (fun e : Edit => f64_lt e.1 t = false) edits)]
       (None, f64_infinity)).1.

Lemma boundary_filters edits t k :
  (k <= length edits)%nat ->
  (forall j e, (j < k)%nat -> edits !! j = Some e -> f64_lt e.1 t = true) ->
  (forall j e, (k <= j)%nat -> edits !! j = Some e -> f64_lt e.1 t = false) ->
  filter (fun e : Edit => f64_lt e.1 t = true) edits = take k edits /\
  filter (fun e : Edit => f64_lt e.1 t = false) edits = drop k edits.
Proof.
  revert k. induction edits as [|x edits IH]; intros k Hk H1 H2; [by destruct k|].
  rewrite !filter_cons. destruct k as [|k].
  - rewrite decide_False; [by rewrite (H2 0%nat x)|]. rewrite decide_True; [by apply (H2 0%nat)|].
    destruct (IH 0%nat) as [-> ->]; [lia|intros; lia| |done]. intros j e _ He. apply (H2 (S j) e); [lia|done].
  - rewrite decide_True; [apply (H1 0%nat); [lia|done]|]. rewrite decide_False; [by rewrite (H1 0%nat x); [lia|done|]|].
    cbn [take drop length] in *. destruct (IH k) as [-> ->]; [lia| | |done].
    + intros j e Hj He. apply (H1 (S j) e); [lia|done].
    + intros j e Hj He. apply (H2 (S j) e); [lia|done].
Qed.

Lemma nearest_edit_spec edits t window_s :
  Forall timed_edit edits -> f64_is_nan t = false -> ordered edit_before edits ->
  nearest_edit edits t window_s =
    (fold_left (closer t window_s)
       [last (filter (fun e : Edit => f64_lt e.1 t = true) edits); head (filter (fun e : Edit => f64_lt e.1 t = false) edits)]
       (None, f64_infinity)).1.
Proof.
  intros Hall Ht Ho. destruct (lower_bound_spec (length edits) edits t 0 (length edits) Hall Ht Ho) as (Hk & H1 & H2);
    [lia|lia|lia| |].
  { intros j e Hj He. apply lookup_lt_Some in He. lia. }
  unfold nearest_edit. set (k := lower_bound _ _ _ _ _) in *. destruct (boundary_filters edits t k Hk H1 H2) as [-> ->].
  assert (forall best i, consider edits t window_s best i = closer t window_s best (i ≫= fun j => edits !! j)) as Hc.
  { intros best i. unfold consider, closer. by destruct (i ≫= _). }
  cbn [fold_left]. rewrite !Hc. cbn [mbind option_bind]. rewrite head_lookup lookup_drop Nat.add_0_r.
  f_equal. f_equal. f_equal. destruct k as [|k]; [done|]. cbn [Nat.ltb Nat.leb mbind option_bind].
  rewrite Nat.sub_succ Nat.sub_0_r last_lookup length_take Nat.min_l; [lia|].
  cbn [pred]. by rewrite lookup_take_lt; [lia|].
Qed.

Lemma edits_by_entity_of rows k :
  group_of k (edits_by_entity rows) =
    map (fun e => (hr_time e, hr_source e)) (filter (fun e => is_edit e = true /\ (hr_machine e, hr_entity e) = k) rows).
Proof.
  unfold edits_by_entity. assert (group_of k (@nil ((string * string) * list Edit)) = []) as H by done.
  rewrite -[RHS]app_nil_l -H. clear H. generalize (@nil ((string * string) * list Edit)).
  induction rows as [|r rows IH]; intros g; cbn [fold_left]; [by rewrite app_nil_r|].
  rewrite IH filter_cons. case_decide as Hd; cbn beta in Hd.
  - destruct Hd as [-> Hk]. rewrite index_push_of decide_True; [done|]. cbn [map]. by rewrite -app_assoc.
  - destruct (is_edit r); [|done]. rewrite index_push_of decide_False; [|done]. intros Hk. by apply Hd.
Qed.

Lemma find_mapped (g : list ((string * string) * list Edit)) k :
  List.find (fun e => bool_decide (e.1 = k)) (map (fun e => (e.1, sort_by edit_before e.2)) g) =
    (fun e => (e.1, sort_by edit_before e.2)) <$> List.find (fun e => bool_decide (e.1 = k)) g.
Proof. induction g as [|e g IH]; [done|]. cbn. by destruct (bool_decide (e.1 = k)). Qed.

Lemma patch_expected rows window_s r :
  Forall timed rows -> r ∈ rows ->
  patch_of (map (fun e => (e.1, sort_by edit_before e.2)) (edits_by_entity rows)) window_s r =
    expected_patch rows window_s r.
Proof.
  intros Hall Hr. unfold patch_of, expected_patch. destruct (negb _); [done|]. rewrite find_mapped.
  set (k := (hr_machine r, hr_entity r)). pose proof (edits_by_entity_of rows k) as Hof. unfold group_of in Hof.
  assert (Forall timed_edit (map (fun e => (hr_time e, hr_source e))
    (filter (fun e => is_edit e = true /\ (hr_machine e, hr_entity e) = k) rows))) as Htimed.
  { apply Forall_forall. intros e He. apply list_elem_of_fmap in He as (x & -> & Hx).
    apply list_elem_of_filter in Hx as [_ Hx]. exact (proj1 (Forall_forall _ _) Hall x Hx). }
  unfold file_edits. fold k. rewrite -Hof in Htimed |- *.
  destruct (List.find _ (edits_by_entity rows)) as [e|]; [|done]. cbn [fmap option_fmap option_map snd].
  apply nearest_edit_spec.
  - by rewrite sort_by_perm.
  - exact (proj1 (Forall_forall _ _) Hall r Hr).
  - by apply edits_ordered.
Qed.

Lemma map_ext_elem {A B} (f g : A -> B) l : (forall x, x ∈ l -> f x = g x) -> map f l = map g l.
Proof.
  induction l as [|x l IH]; intros H; [done|]. cbn. rewrite (H x); [by left|]. f_equal. apply IH. intros y Hy. apply H. by right.
Qed.

Lemma reattribute_expected rows window_s :
  Forall timed rows ->
  reattribute_file_saves rows window_s = map (fun r => apply_patch r (expected_patch rows window_s r)) rows.
Proof.
  intros Hall. unfold reattribute_file_saves. destruct (edits_by_entity rows) as [|e g] eqn:Hg.
  - rewrite -{1}(map_id rows). apply map_ext_elem. intros r Hr. rewrite -patch_expected // Hg. unfold patch_of. by destruct (negb _).
  - rewrite -Hg. apply map_ext_elem. intros r Hr. by rewrite patch_expected.
Qed.
