(* ===== verification/Heartbeats.v ===== *)
(** The activity database (crates/stackhour-store/src/db.rs, with
    [reattributed_range] of reattribute.rs): ingest of heartbeats, agent status
    reports, imported days, and the range and page queries. A statement may fail,
    as [fault] says, statement by statement. *)
From S2P Require Import Prelude.
From S2P Require Import RustStr.
From S2P Require Import Float64.
From S2P Require Import Platform.
From S2P Require Import JsNum.
From S2P Require Import Schema.
From S2P Require Import Credits.
From S2P Require Import Reattribute.
From Stdlib Require Import SpecFloat Sorted.

Local Open Scope Z_scope.

(** A row of [agent_status]. *)
Record StatusRow := MkStatusRow {
  sr_machine : string; sr_reported_at : f64; sr_received_at : f64; sr_version : string; sr_node_version : string;
  sr_interval_seconds : f64; sr_queue_depth : Z; sr_queue_bytes : Z; sr_clock_skew_seconds : f64;
  sr_watchers_json : string;
}.

(** A row of [wakatime_days]. *)
Record DayRow := MkDayRow { dy_date : string; dy_project : string; dy_seconds : f64 }.

Record ActivityDb := MkActivityDb { ad_heartbeats : list Heartbeat; ad_status : list StatusRow; ad_days : list DayRow }.

(** [StatusAck] *)
Record StatusAck := MkStatusAck { sa_machine : string; sa_server_time : f64; sa_clock_skew_seconds : f64 }.

(** [slice_utf16] *)
Definition len_utf16 (c : string) : N := match chars c with [x] => if N.ltb x 65536 then 1%N else 2%N | _ => 0%N end.
Fixpoint take_utf16 (units max : N) (cs : list string) : string :=
  match cs with
  | [] => EmptyString
  | c :: cs' =>
      let w := len_utf16 c in
      if N.ltb max (units + w) then EmptyString else c +:+ take_utf16 (units + w) max cs'
  end.
Definition slice_utf16 (s : string) (max : N) : string := take_utf16 0 max (split_chars s).

(** [finite_time] *)
Definition finite_time (row : JsonTree) : option f64 :=
  match get "time" row with
  | Some (Json_number n) => let f := number_f64 n in if f64_is_finite f then Some f else None
  | _ => None
  end.

(** [nonneg_int] and [nonneg_float] *)
Definition nonneg_int (v : option JsonTree) : Z := match v with Some x => f64_to_i64 (nonneg x true) | None => 0 end.
Definition nonneg_float (v : option JsonTree) : f64 := match v with Some x => nonneg x false | None => f64_zero end.

(** The parameters of the INSERT for one row; the id is assigned by the table. *)
Definition truthy_text (v : option JsonTree) : option string :=
  match v with Some x => if js_truthy x then Some (js_display x) else None | None => None end.
Definition is_text (v : option JsonTree) (s : string) : bool := bool_decide ((v ≫= as_str) = Some s).

Definition heartbeat_of (now : f64) (h : JsonTree) : option Heartbeat :=
  time ← finite_time h;
  Some (MkHeartbeat 0 time
    (js_string_or (get "machine" h) "unknown")
    (js_string_or (get "source" h) "unknown")
    (js_string_or (get "project" h) "unknown")
    (js_string_or (get "entity" h) "unknown")
    (if is_text (get "entity_type" h) "app" then "app" else "file")%string
    (js_string_or (get "category" h) "coding")
    (truthy_text (get "language" h))
    (truthy_text (get "branch" h))
    (if match get "is_write" h with Some v => js_truthy v | None => false end then 1 else 0)
    (if is_text (get "actor" h) "agent" then "agent" else "human")%string
    (nonneg_int (get "tokens_in" h))
    (nonneg_int (get "tokens_out" h))
    (nonneg_float (get "cost" h))
    now).

(** The unique index [hb_dedupe2]. *)
Definition same_key (a b : Heartbeat) : bool :=
  f64_eq (hr_time a) (hr_time b) && String.eqb (hr_machine a) (hr_machine b) && String.eqb (hr_source a) (hr_source b)
  && String.eqb (hr_project a) (hr_project b) && String.eqb (hr_entity a) (hr_entity b)
  && String.eqb (hr_actor a) (hr_actor b).

Definition set_id (id : Z) (r : Heartbeat) : Heartbeat :=
  MkHeartbeat id (hr_time r) (hr_machine r) (hr_source r) (hr_project r) (hr_entity r) (hr_entity_type r)
    (hr_category r) (hr_language r) (hr_branch r) (hr_is_write r) (hr_actor r) (hr_tokens_in r) (hr_tokens_out r)
    (hr_cost r) (hr_created_at r).

(** INTEGER PRIMARY KEY: one more than the largest, as long as there are fewer than
    2^63 - 1 of them. *)
Definition next_id (rows : list Heartbeat) : Z := fold_right Z.max 0 (map hr_id rows) + 1.

(** INSERT OR IGNORE: the number of rows it changed, and the table. *)
Definition insert_or_ignore (r : Heartbeat) (rows : list Heartbeat) : Z * list Heartbeat :=
  if existsb (same_key r) rows then (0, rows) else (1, rows ++ [set_id (next_id rows) r]).

Section Db.
Context {P : Platform}.

(** The statement failures of one call, by position. *)
Context (fault : nat -> option SqlError).

(** The loop of [insert_heartbeats], [i] the position of the next statement. *)
Fixpoint insert_rows (now : f64) (i : nat) (rows : list Value) (inserted : Z) (table : list Heartbeat)
    : Result (Z * list Heartbeat) :=
  match rows with
  | [] => Ok (inserted, table)
  | h :: rest =>
      match heartbeat_of now (value_tree h) with
      | None => insert_rows now i rest inserted table
      | Some r =>
          match fault i with
          | Some e => Err (sql_err e)
          | None => let '(n, table) := insert_or_ignore r table in insert_rows now (S i) rest (inserted + n) table
          end
      end
  end.

Definition set_heartbeats (rows : list Heartbeat) (d : ActivityDb) : ActivityDb := MkActivityDb rows (ad_status d) (ad_days d).

(** [insert_heartbeats]: statement 0 is BEGIN IMMEDIATE, 1 the preparation, the
    last one COMMIT. *)
Definition insert_heartbeats (now : f64) (rows : list Value) : M ActivityDb Z := fun d =>
  match fault 0 with
  | Some e => (Err (sql_err e), d)
  | None =>
      match fault 1 with
      | Some e => (Err (sql_err e), d)
      | None =>
          match insert_rows now 2 rows 0 (ad_heartbeats d) with
          | Err e => (Err e, d)
          | Ok (inserted, table) =>
              match fault (2 + length rows) with
              | Some e => (Err (sql_err e), d)
              | None => (Ok inserted, set_heartbeats table d)
              end
          end
      end
  end.

Definition status_t : Table ActivityDb StatusRow :=
  MkTable ad_status (fun rows d => MkActivityDb (ad_heartbeats d) rows (ad_days d)).
Definition days_t : Table ActivityDb DayRow :=
  MkTable ad_days (fun rows d => MkActivityDb (ad_heartbeats d) (ad_status d) rows).

(** The row an agent's report amounts to, when it is valid. *)
Definition status_row (status : Value) (received_at : f64) : option StatusRow :=
  let s := value_tree status in
  let reported_at := match get "time" s with Some v => js_number v | None => S754_nan end in
  let machine := slice_utf16 (js_trim (js_string_or (get "machine" s) "")) 200 in
  if str_is_empty machine || negb (f64_is_finite reported_at) then None
  else
    let watchers :=
      match value_get status "watchers" with
      | Some v => match value_tree v with Json_object _ => v | _ => value_object [] end
      | None => value_object []
      end in
    Some (MkStatusRow machine reported_at received_at
      (slice_utf16 (js_string_or (get "version" s) "unknown") 100)
      (slice_utf16 (js_string_or (get "nodeVersion" s) "unknown") 100)
      (nonneg_float (get "intervalSeconds" s))
      (nonneg_int (get "queueDepth" s))
      (nonneg_int (get "queueBytes" s))
      (f64_sub received_at reported_at)
      (json_to_string watchers)).

(** [upsert_agent_status]: statement 0 is its only one. *)
Definition upsert_agent_status (status : Value) (received_at : f64) : M ActivityDb StatusAck := fun d =>
  match status_row status received_at with
  | None => (Err (Error_msg "invalid agent status"), d)
  | Some r =>
      match fault 0 with
      | Some e => (Err (sql_err e), d)
      | None =>
          (sql_upsert status_t (has_key sr_machine (sr_machine r)) (fun _ => r) r ≫= fun _ =>
           mret (MkStatusAck (sr_machine r) received_at (sr_clock_skew_seconds r))) d
      end
  end.

(** [upsert_wakatime_day] *)
Definition same_day (a b : DayRow) : bool := String.eqb (dy_date a) (dy_date b) && String.eqb (dy_project a) (dy_project b).
Definition upsert_wakatime_day (date project : string) (seconds : f64) : M ActivityDb unit := fun d =>
  match fault 0 with
  | Some e => (Err (sql_err e), d)
  | None =>
      let r := MkDayRow date project seconds in
      sql_upsert days_t (same_day r) (fun old => MkDayRow (dy_date old) (dy_project old) seconds) r d
  end.

(** SELECT * FROM agent_status ORDER BY machine, as [list_agent_status] renders it. *)
Definition status_before (a b : StatusRow) : bool := String.ltb (sr_machine a) (sr_machine b).
Definition status_view (now : f64) (r : StatusRow) : JsonTree :=
  let num f := Json_number (json_num f) in
  Json_object [("machine", Json_string (sr_machine r)); ("reportedAt", num (sr_reported_at r));
    ("receivedAt", num (sr_received_at r)); ("ageSeconds", num (f64_max (f64_sub now (sr_received_at r)) f64_zero));
    ("version", Json_string (sr_version r)); ("nodeVersion", Json_string (sr_node_version r));
    ("intervalSeconds", num (sr_interval_seconds r)); ("queueDepth", Json_number (Num_int (sr_queue_depth r)));
    ("queueBytes", Json_number (Num_int (sr_queue_bytes r)));
    ("clockSkewSeconds", num (sr_clock_skew_seconds r));
    ("watchers", match json_from_str (sr_watchers_json r) with Some v => value_tree v | None => Json_object [] end)]%string.
Definition list_agent_status (now : f64) (d : ActivityDb) : list JsonTree :=
  map (status_view now) (sort_by status_before (ad_status d)).

(** [rows_in_range]: ORDER BY time, id *)
Definition rows_in_range (from to : f64) (d : ActivityDb) : list Heartbeat :=
  sort_by by_time
    (List.filter (fun r => f64_le from (hr_time r) && f64_le (hr_time r) to) (ad_heartbeats d)).

(** [recent_page]: ORDER BY time DESC, id DESC LIMIT *)
Definition newer (a b : Heartbeat) : bool :=
  f64_lt (hr_time b) (hr_time a) || (f64_eq (hr_time a) (hr_time b) && (hr_id b <? hr_id a)).
Definition recent_page (limit : Z) (d : ActivityDb) : list Heartbeat :=
  let rows := sort_by newer (ad_heartbeats d) in
  if limit <? 0 then rows else firstn (Z.to_nat limit) rows.

(** [reattributed_range] *)
Definition reattributed_range (from to window_s : f64) (d : ActivityDb) : list Heartbeat :=
  List.filter (fun r => f64_le from (hr_time r) && f64_le (hr_time r) to)
    (reattribute_file_saves (rows_in_range (f64_sub from window_s) (f64_add to window_s) d) window_s).
End Db.

(** *** The unique index *)

(** What the index compares. *)
Definition hb_key (r : Heartbeat) : (Z * Z * Z) * (string * string * string * string * string) :=
  (f64_key (hr_time r), (hr_machine r, hr_source r, hr_project r, hr_entity r, hr_actor r)).

Definition finite_hb (r : Heartbeat) : Prop := f64_is_finite (hr_time r) = true.

Lemma same_key_iff a b : finite_hb a -> finite_hb b -> same_key a b = bool_decide (hb_key a = hb_key b).
Proof.
  intros Ha%finite_not_nan Hb%finite_not_nan. unfold same_key, hb_key. rewrite f64_eq_key //.
  apply eq_true_iff_eq. rewrite !andb_true_iff !bool_decide_eq_true !String.eqb_eq. split.
  - by intros (((((-> & ->) & ->) & ->) & ->) & ->).
  - by intros [= H1 H2 H3 H4 H5 H6].
Qed.

Lemma existsb_same_key r rows :
  finite_hb r -> Forall finite_hb rows -> existsb (same_key r) rows = bool_decide (hb_key r ∈ map hb_key rows).
Proof.
  intros Hr Hall. apply eq_true_iff_eq. rewrite bool_decide_eq_true existsb_exists list_elem_of_fmap. split.
  - intros (x & Hx & Hk). apply list_elem_of_In in Hx. exists x. split; [|done].
    rewrite same_key_iff // in Hk; [|by apply bool_decide_eq_true in Hk]. exact (proj1 (Forall_forall _ _) Hall x Hx).
  - intros (x & Hk & Hx). exists x. split; [by apply list_elem_of_In|]. rewrite same_key_iff //.
    + exact (proj1 (Forall_forall _ _) Hall x Hx).
    + by apply bool_decide_eq_true.
Qed.

(** A table of heartbeats as the database keeps it. *)
Record table_ok (rows : list Heartbeat) : Prop := {
  to_finite : Forall finite_hb rows;
  to_keys : NoDup (map hb_key rows);
  to_ids : StronglySorted Z.lt (map hr_id rows) /\ Forall (fun i => 0 < i) (map hr_id rows);
}.

Lemma next_id_above rows i : i ∈ map hr_id rows -> i < next_id rows.
Proof.
  unfold next_id. generalize (map hr_id rows). intros l. induction l as [|x l IH]; [by intros ?%not_elem_of_nil|].
  cbn. intros [->|Hi]%elem_of_cons; [lia|]. specialize (IH Hi). lia.
Qed.

Lemma next_id_pos rows : 0 < next_id rows.
Proof. unfold next_id. induction (map hr_id rows) as [|x l IH]; cbn; lia. Qed.

Lemma sorted_snoc l x : StronglySorted Z.lt l -> Forall (fun i => i < x) l -> StronglySorted Z.lt (l ++ [x]).
Proof.
  induction 1 as [|y l Hs IH Hall]; intros Hx; [repeat constructor|]. apply Forall_cons in Hx as [Hy Hx].
  constructor; [by apply IH|]. apply Forall_app. split; [done|by constructor].
Qed.

Lemma insert_or_ignore_ok r rows :
  finite_hb r -> table_ok rows -> table_ok (insert_or_ignore r rows).2.
Proof.
  intros Hr [Hf Hk [Hi Hp]]. unfold insert_or_ignore. rewrite existsb_same_key //. case_bool_decide as Hin; [done|].
  constructor; cbn [snd].
  - apply Forall_app. split; [done|by constructor].
  - rewrite map_app. apply NoDup_app. split; [done|]. split; [|apply NoDup_singleton].
    intros k Hin' ->%list_elem_of_singleton. by apply Hin.
  - rewrite map_app. split.
    + apply sorted_snoc; [done|]. apply Forall_forall. intros i. apply next_id_above.
    + apply Forall_app. split; [done|]. constructor; [|constructor]. apply next_id_pos.
Qed.

(** *** What an ingested row is *)

(** The key under which a row is stored, if it is stored at all. *)
Definition row_key {P : Platform} (row : Value) := hb_key <$> heartbeat_of f64_zero (value_tree row).

Lemma heartbeat_of_finite now h r : heartbeat_of now h = Some r -> finite_hb r.
Proof.
  unfold heartbeat_of. destruct (finite_time h) as [t|] eqn:Ht; [|done]. intros [= <-]. unfold finite_time in Ht.
  unfold finite_hb. cbn. destruct (get "time" h) as [[]|]; try done. by destruct (f64_is_finite _) eqn:Hf; simplify_eq.
Qed.

(** The same row at another moment. *)
Definition same_but_moment (a b : Heartbeat) : Prop := exists id at_, a =
  MkHeartbeat id (hr_time b) (hr_machine b) (hr_source b) (hr_project b) (hr_entity b) (hr_entity_type b)
    (hr_category b) (hr_language b) (hr_branch b) (hr_is_write b) (hr_actor b) (hr_tokens_in b) (hr_tokens_out b)
    (hr_cost b) at_.

Lemma heartbeat_of_moment now now' h :
  match heartbeat_of now h, heartbeat_of now' h with
  | Some a, Some b => same_but_moment a b
  | None, None => True
  | _, _ => False
  end.
Proof. unfold heartbeat_of. destruct (finite_time h); [|done]. by exists 0, now. Qed.

Lemma same_but_moment_key a b : same_but_moment a b -> hb_key a = hb_key b.
Proof. by intros (id & at_ & ->). Qed.

Lemma row_key_of {P : Platform} now row : row_key row = hb_key <$> heartbeat_of now (value_tree row).
Proof.
  unfold row_key. pose proof (heartbeat_of_moment f64_zero now (value_tree row)) as H.
  destruct (heartbeat_of f64_zero _), (heartbeat_of now _); try done. cbn. by rewrite (same_but_moment_key _ _ H).
Qed.

Section Inserted.
Context {P : Platform}.
Context (fault : nat -> option SqlError) (now : f64).

(** What a batch adds to a table. *)
Record added (rows : list Value) (table new : list Heartbeat) : Prop := {
  ad_ok : table_ok (table ++ new);
  ad_moment : Forall (fun r => hr_created_at r = now) new;
  ad_from r : r ∈ new -> exists row h, row ∈ rows /\ heartbeat_of now (value_tree row) = Some h /\ same_but_moment r h;
  ad_key k : k ∈ map hb_key (table ++ new) <-> k ∈ map hb_key table \/ Some k ∈ map row_key rows;
}.

Lemma insert_or_ignore_spec r table :
  finite_hb r -> table_ok table ->
  exists new, insert_or_ignore r table = (Z.of_nat (length new), table ++ new) /\
    Forall (fun x => x = set_id (next_id table) r) new /\
    forall k, k ∈ map hb_key (table ++ new) <-> k ∈ map hb_key table \/ k = hb_key r.
Proof.
  intros Hr Ht. unfold insert_or_ignore. rewrite existsb_same_key //; [apply Ht|]. case_bool_decide as Hin.
  - exists []. rewrite app_nil_r. split_and!; [done|done|]. intros k. split; [by left|]. intros [Hk| ->]; done.
  - exists [set_id (next_id table) r]. split_and!; [done|by constructor|]. intros k.
    rewrite map_app elem_of_app list_elem_of_singleton. done.
Qed.

Lemma set_id_same id r : same_but_moment (set_id id r) r.
Proof. by exists id, (hr_created_at r). Qed.

Lemma insert_rows_spec i rows n table n' table' :
  table_ok table -> insert_rows fault now i rows n table = Ok (n', table') ->
  exists new, table' = table ++ new /\ n' = n + Z.of_nat (length new) /\ added rows table new.
Proof.
  revert i n table. induction rows as [|row rows IH]; intros i n table Ht; cbn [insert_rows].
  { intros [= <- <-]. exists []. rewrite app_nil_r. split_and!; [done|cbn; lia|].
    constructor; rewrite ?app_nil_r; [done|constructor|by intros r ?%not_elem_of_nil|].
    intros k. split; [by left|]. by intros [?|?%not_elem_of_nil]. }
  pose proof (row_key_of now row) as Hkey. destruct (heartbeat_of now (value_tree row)) as [r|] eqn:Hr.
  - destruct (fault i); [done|]. pose proof (heartbeat_of_finite _ _ _ Hr) as Hfin.
    pose proof (insert_or_ignore_ok r table Hfin Ht) as Hok.
    destruct (insert_or_ignore_spec r table Hfin Ht) as (new1 & Heq & Hall & Hk1). rewrite Heq in Hok |- *. cbn [snd] in Hok.
    intros H. destruct (IH _ _ _ Hok H) as (new2 & -> & -> & [H1 H2 H3 H4]). exists (new1 ++ new2).
    rewrite app_assoc. split_and!; [done|rewrite length_app; lia|]. rewrite -?app_assoc in H1 H4. constructor.
    + done.
    + apply Forall_app. split; [|done]. eapply Forall_impl; [exact Hall|]. intros x ->. cbn.
      unfold heartbeat_of in Hr. destruct (finite_time _); by simplify_eq/=.
    + intros x [Hx|Hx]%elem_of_app.
      * exists row, r. split_and!; [by left|done|]. rewrite (proj1 (Forall_forall _ _) Hall x Hx). apply set_id_same.
      * destruct (H3 x Hx) as (row' & h & Hin & Hh & Hs). exists row', h. split_and!; [by right|done..].
    + intros k. rewrite H4 Hk1. cbn [map]. rewrite elem_of_cons Hkey. cbn. split.
      * intros [[?|?]|?]; [by left|right; left; congruence|by right; right].
      * intros [?|[[= ->]|?]]; [by left; left|by left; right|by right].
  - intros H. destruct (IH _ _ _ Ht H) as (new & -> & -> & [H1 H2 H3 H4]). exists new. split_and!; [done..|].
    constructor; [done..| |].
    + intros x Hx. destruct (H3 x Hx) as (row' & h & Hin & Hh & Hs). exists row', h. split_and!; [by right|done..].
    + intros k. rewrite H4. cbn [map]. rewrite elem_of_cons Hkey. cbn. split.
      * intros [?|?]; [by left|by right; right].
      * intros [?|[?|?]]; [by left|done|by right].
Qed.

(** A batch of stored rows changes nothing. *)
Lemma insert_rows_stored i rows n table :
  (forall j, fault j = None) -> table_ok table ->
  (forall k, Some k ∈ map row_key rows -> k ∈ map hb_key table) ->
  insert_rows fault now i rows n table = Ok (n, table).
Proof.
  intros Hno Ht. revert i. induction rows as [|row rows IH]; intros i Hk; cbn [insert_rows]; [done|].
  assert (forall k, Some k ∈ map row_key rows -> k ∈ map hb_key table) as Hrest by (intros k Hin; apply Hk; by right).
  pose proof (row_key_of now row) as Hkey. destruct (heartbeat_of now (value_tree row)) as [r|] eqn:Hr; [|by apply IH].
  rewrite Hno. unfold insert_or_ignore. rewrite existsb_same_key; [by eapply heartbeat_of_finite|apply Ht|].
  rewrite bool_decide_eq_true_2; [|rewrite Z.add_0_r; by apply IH]. apply Hk. cbn [map]. rewrite Hkey. by left.
Qed.

Lemma insert_heartbeats_cases rows d res d' :
  table_ok (ad_heartbeats d) -> insert_heartbeats fault now rows d = (res, d') ->
  match res with
  | Err _ => d' = d
  | Ok n => exists new, d' = set_heartbeats (ad_heartbeats d ++ new) d /\ n = Z.of_nat (length new)
      /\ added rows (ad_heartbeats d) new
  end.
Proof.
  intros Ht. unfold insert_heartbeats. destruct (fault 0); [by intros [= <- <-]|].
  destruct (fault 1); [by intros [= <- <-]|].
  destruct (insert_rows fault now 2 rows 0 (ad_heartbeats d)) as [[n table]|e] eqn:Hi; [|by intros [= <- <-]].
  destruct (fault (2 + length rows)); [by intros [= <- <-]|]. intros [= <- <-].
  destruct (insert_rows_spec _ _ _ _ _ _ Ht Hi) as (new & -> & -> & Hadd). exists new. by rewrite Z.add_0_l.
Qed.

Lemma insert_heartbeats_stored rows d :
  (forall j, fault j = None) -> table_ok (ad_heartbeats d) ->
  (forall k, Some k ∈ map row_key rows -> k ∈ map hb_key (ad_heartbeats d)) ->
  insert_heartbeats fault now rows d = (Ok 0, d).
Proof.
  intros Hno Ht Hk. unfold insert_heartbeats. rewrite !Hno insert_rows_stored //. by destruct d.
Qed.
End Inserted.
