(* ===== verification/Auth.v ===== *)
(** Request authentication of the activity server
    (crates/stackhour-server/src/auth.rs). A request is seen through its headers,
    [None] where the header is absent or not visible ASCII, and its raw query; the
    url crate's query parser is a parameter. *)
From S2P Require Import Prelude.
From S2P Require Import RustStr.
From S2P Require Import Float64.
From S2P Require Import Platform.
From S2P Require Import JsNum.
From Stdlib Require Import Ascii.

Local Open Scope Z_scope.

(** [Principal] *)
Inductive Principal := Open | Global | Machine (name : string).

(** [is_truthy] *)
Definition is_truthy (value : option JsonTree) : bool :=
  match value with
  | None | Some Json_null => false
  | Some (Json_bool b) => b
  | Some (Json_string s) => negb (str_is_empty s)
  | Some (Json_number n) => let f := number_f64 n in negb (f64_eq f f64_zero || f64_is_nan f)
  | Some _ => true
  end.

(** [truthy_string] *)
Definition truthy_string (value : option JsonTree) : option string :=
  v ← value;
  if negb (is_truthy (Some v)) then None
  else
    match v with
    | Json_string s => Some s
    | Json_bool true => Some "true"%string
    | Json_number _ => Some (js_display v)
    | _ => None
    end.

(** [sextet] *)
Definition sextet (c : ascii) : option Z :=
  let b := Z.of_N (N_of_ascii c) in
  if (65 <=? b) && (b <=? 90) then Some (b - 65)
  else if (97 <=? b) && (b <=? 122) then Some (b - 97 + 26)
  else if (48 <=? b) && (b <=? 57) then Some (b - 48 + 52)
  else if (b =? 43) || (b =? 45) then Some 62
  else if (b =? 47) || (b =? 95) then Some 63
  else None.

(** The loop of [decode_base64_lenient]: a 32-bit accumulator and its fresh bits. *)
Fixpoint decode_base64 (acc bits : Z) (input : string) : string :=
  match input with
  | EmptyString => EmptyString
  | String byte r =>
      if Ascii.eqb byte "=" then EmptyString
      else
        match sextet byte with
        | None => decode_base64 acc bits r
        | Some value =>
            let acc := Z.lor (Z.shiftl acc 6 mod 2 ^ 32) value in
            let bits := bits + 6 in
            if 8 <=? bits then
              let bits := bits - 8 in
              String (ascii_of_N (Z.to_N (Z.land (Z.shiftr acc bits) 255))) (decode_base64 acc bits r)
            else decode_base64 acc bits r
        end
  end.
Definition decode_base64_lenient (input : string) : string := decode_base64 0 0 input.

(** [decoded.strip_suffix(':')], the text unchanged without it. *)
Fixpoint strip_colon (s : string) : string :=
  match s with
  | EmptyString => EmptyString
  | String ":" EmptyString => EmptyString
  | String a r => String a (strip_colon r)
  end.

(** Request headers, by lower-case name. *)
Definition Headers := string -> option string.

Section Auth.
Context (form_pairs : string -> list (string * string)).

(** [request_token] *)
Definition request_token (headers : Headers) (query : string) : string :=
  let header := default EmptyString (headers "authorization"%string) in
  match strip_prefix "Bearer " header with
  | Some rest => rest
  | None =>
      match strip_prefix "Basic " header with
      | Some rest => strip_colon (from_utf8_lossy (decode_base64_lenient rest))
      | None => default EmptyString (assoc "api_key" (form_pairs query))
      end
  end.

(** The configured per-machine tokens; a malformed field counts as none. *)
Definition machine_tokens (server_cfg : JsonTree) : list (string * JsonTree) :=
  match get "tokens" server_cfg with Some (Json_object l) => l | _ => [] end.

(** The search of [authenticate] over the machine tokens. *)
Definition find_machine (supplied : string) (tokens : list (string * JsonTree)) : option Principal :=
  Machine <$> (fst <$> List.find (fun e => bool_decide (truthy_string (Some e.2) = Some supplied)) tokens).

(** [authenticate]; [safe_equal] is equality of the bytes. *)
Definition authenticate (headers : Headers) (query : string) (server_cfg : JsonTree) : option Principal :=
  let tokens := machine_tokens server_cfg in
  let token := get "token" server_cfg in
  if negb (is_truthy token) && match tokens with [] => true | _ => false end then Some Open
  else
    let supplied := request_token headers query in
    if bool_decide (truthy_string token = Some supplied) then Some Global
    else find_machine supplied tokens.
End Auth.

(** [allows_machine] *)
Definition allows_machine (p : Principal) (machine : option string) : bool :=
  match p with
  | Open | Global => true
  | Machine owner =>
      let name := match machine with Some m => if str_is_empty m then "unknown"%string else m | None => "unknown"%string end in
      String.eqb name owner
  end.

(** *** Base64 *)

(** The alphabet of RFC 4648, and its encoder, with or without padding. *)
Definition b64 (n : Z) : ascii :=
  ascii_of_N (Z.to_N (if n <? 26 then n + 65 else if n <? 52 then n + 71 else if n <? 62 then n - 4
                      else if n =? 62 then 43 else 47)).
Definition byte_Z (a : ascii) : Z := Z.of_N (N_of_ascii a).

Fixpoint base64_encode (pad : bool) (bytes : string) : string :=
  match bytes with
  | EmptyString => EmptyString
  | String a EmptyString =>
      String (b64 (byte_Z a / 4)) (String (b64 (byte_Z a mod 4 * 16)) (if pad then "==" else ""))
  | String a (String b EmptyString) =>
      String (b64 (byte_Z a / 4)) (String (b64 (byte_Z a mod 4 * 16 + byte_Z b / 16))
        (String (b64 (byte_Z b mod 16 * 4)) (if pad then "=" else "")))
  | String a (String b (String c r)) =>
      String (b64 (byte_Z a / 4)) (String (b64 (byte_Z a mod 4 * 16 + byte_Z b / 16))
        (String (b64 (byte_Z b mod 16 * 4 + byte_Z c / 64)) (String (b64 (byte_Z c mod 64)) (base64_encode pad r))))
  end.

Lemma b64_sextet n : 0 <= n < 64 -> sextet (b64 n) = Some n /\ Ascii.eqb (b64 n) "=" = false.
Proof.
  intros Hn. rewrite -(Z2Nat.id n); [lia|]. assert (Z.to_nat n < 64)%nat as Hk by lia.
  generalize dependent (Z.to_nat n). intros k Hk. do 64 (destruct k as [|k]; [done|]). lia.
Qed.

Lemma byte_Z_range a : 0 <= byte_Z a < 256.
Proof. unfold byte_Z. pose proof (N_ascii_bounded a). lia. Qed.

Lemma byte_Z_back a z : z = byte_Z a -> ascii_of_N (Z.to_N z) = a.
Proof. intros ->. unfold byte_Z. by rewrite N2Z.id ascii_N_embedding. Qed.

(** One more sextet in the accumulator. *)
Lemma acc_step acc v : 0 <= acc -> 0 <= v < 64 -> Z.lor (Z.shiftl acc 6 mod 2 ^ 32) v = 64 * (acc mod 2 ^ 26) + v.
Proof.
  intros Ha Hv. rewrite Z.shiftl_mul_pow2; [lia|]. change (2 ^ 6) with 64.
  assert (acc * 64 mod 2 ^ 32 = 64 * (acc mod 2 ^ 26)) as ->.
  { change (2 ^ 32) with (2 ^ 26 * 64). rewrite Z.mul_mod_distr_r; [lia..|]. lia. }
  symmetry. apply Z.add_nocarry_lor. apply Z.bits_inj'. intros n Hn. rewrite Z.land_spec Z.bits_0.
  destruct (Z.ltb_spec n 6) as [Hl|Hl].
  - replace (64 * (acc mod 2 ^ 26)) with (acc mod 2 ^ 26 * 2 ^ 6) by lia. by rewrite Z.mul_pow2_bits_low.
  - rewrite (Z.bits_above_log2 v n); [lia| |by rewrite andb_false_r].
    destruct (Z.eq_dec v 0) as [->|]; [cbn; lia|]. assert (Z.log2 v < 6); [|lia]. apply Z.log2_lt_pow2; lia.
Qed.

Lemma decode_step acc bits v r :
  0 <= acc -> 0 <= v < 64 ->
  let acc' := 64 * (acc mod 2 ^ 26) + v in
  decode_base64 acc bits (String (b64 v) r) =
    if 8 <=? bits + 6
    then String (ascii_of_N (Z.to_N (acc' / 2 ^ (bits - 2) mod 256))) (decode_base64 acc' (bits - 2) r)
    else decode_base64 acc' (bits + 6) r.
Proof.
  intros Ha Hv. cbv zeta. cbn [decode_base64]. destruct (b64_sextet v Hv) as [-> ->]. rewrite acc_step //.
  destruct (Z.leb_spec 8 (bits + 6)) as [Hb|Hb]; [|done]. replace (bits + 6 - 8) with (bits - 2) by lia.
  rewrite Z.shiftr_div_pow2; [lia|]. change 255 with (Z.ones 8). rewrite Z.land_ones; [lia|]. done.
Qed.

Lemma decode_tail acc bits (pad : bool) :
  decode_base64 acc bits (if pad then "==" else "") = "" /\ decode_base64 acc bits (if pad then "=" else "") = "".
Proof. by destruct pad. Qed.

Ltac euclid := Z.to_euclidean_division_equations; lia.

(** The lenient decoder reads what the encoder writes, padded or not. *)
Lemma base64_roundtrip pad bytes : decode_base64_lenient (base64_encode pad bytes) = bytes.
Proof.
  unfold decode_base64_lenient. assert (0 <= 0) as Hacc by lia. revert Hacc. generalize 0 at 2 3. intros acc Hacc.
  remember (String.length bytes) as n eqn:Hn. revert bytes Hn acc Hacc.
  induction n as [n IH] using lt_wf_ind. intros bytes Hn acc Hacc.
  destruct bytes as [|a [|b [|c r]]]; [done|..]; cbn [base64_encode].
  - pose proof (byte_Z_range a). rewrite decode_step; [done|euclid|]. cbn [Z.leb Z.add Z.compare Pos.compare].
    change (8 <=? 0 + 6) with false. cbv iota. rewrite decode_step; [euclid|euclid|].
    change (8 <=? 0 + 6 + 6) with true. cbv iota. rewrite (proj1 (decode_tail _ _ pad)). f_equal.
    apply byte_Z_back. change (2 ^ (0 + 6 - 2)) with 16. euclid.
  - pose proof (byte_Z_range a). pose proof (byte_Z_range b). rewrite decode_step; [done|euclid|].
    change (8 <=? 0 + 6) with false. cbv iota. rewrite decode_step; [euclid|euclid|].
    change (8 <=? 0 + 6 + 6) with true. cbv iota. rewrite decode_step; [euclid|euclid|].
    change (8 <=? 0 + 6 - 2 + 6) with true. cbv iota. rewrite (proj2 (decode_tail _ _ pad)).
    f_equal; [|f_equal]; apply byte_Z_back.
    + change (2 ^ (0 + 6 - 2)) with 16. euclid.
    + change (2 ^ (0 + 6 - 2 - 2)) with 4. euclid.
  - pose proof (byte_Z_range a). pose proof (byte_Z_range b). pose proof (byte_Z_range c).
    rewrite decode_step; [done|euclid|].
    change (8 <=? 0 + 6) with false. cbv iota. rewrite decode_step; [euclid|euclid|].
    change (8 <=? 0 + 6 + 6) with true. cbv iota. rewrite decode_step; [euclid|euclid|].
    change (8 <=? 0 + 6 - 2 + 6) with true. cbv iota. rewrite decode_step; [euclid|euclid|].
    change (8 <=? 0 + 6 - 2 - 2 + 6) with true. cbv iota. change (0 + 6 - 2 - 2 - 2) with 0.
    f_equal; [|f_equal; [|f_equal]]; [apply byte_Z_back..|].
    + change (2 ^ (0 + 6 - 2)) with 16. euclid.
    + change (2 ^ (0 + 6 - 2 - 2)) with 4. euclid.
    + change (2 ^ 0) with 1. euclid.
    + apply (IH (String.length r)); [cbn in Hn; lia|done|euclid].
Qed.

(** *** Tokens *)

Lemma truthy_string_nonempty v t : truthy_string v = Some t -> t <> EmptyString.
Proof.
  unfold truthy_string. destruct v as [v|]; [|done]. cbn [mbind option_bind].
  destruct (is_truthy (Some v)) eqn:Ht; [|done]. cbn [negb]. destruct v as [|[]|n|s|l|l]; try done.
  - by intros [= <-].
  - intros [= <-] He. pose proof (js_f64_nonempty (number_f64 n)) as Hn. cbn in He. by rewrite He in Hn.
  - intros [= ->] ->. done.
Qed.

Lemma truthy_string_truthy v t : truthy_string v = Some t -> is_truthy v = true.
Proof.
  unfold truthy_string. destruct v as [v|]; [|done]. cbn [mbind option_bind]. by destruct (is_truthy (Some v)).
Qed.

(** The first configured machine with that token. *)
Definition first_machine (supplied : string) (tokens : list (string * JsonTree)) (m : string) : Prop :=
  exists before v after, tokens = before ++ (m, v) :: after /\ truthy_string (Some v) = Some supplied /\
    Forall (fun e => truthy_string (Some e.2) <> Some supplied) before.

Lemma find_machine_spec supplied tokens :
  match find_machine supplied tokens with
  | Some p => exists m, p = Machine m /\ first_machine supplied tokens m
  | None => Forall (fun e => truthy_string (Some e.2) <> Some supplied) tokens
  end.
Proof.
  unfold find_machine. induction tokens as [|[m v] tokens IH]; cbn; [constructor|].
  case_bool_decide as Hv; cbn.
  - exists m. split; [done|]. exists [], v, tokens. split_and!; [done|done|constructor].
  - destruct (List.find _ tokens) as [[m' v']|]; cbn in *.
    + destruct IH as (m2 & Heq & before & v2 & after & -> & H1 & H2). exists m2. split; [done|].
      exists ((m, v) :: before), v2, after. split_and!; [done|done|]. by constructor.
    + by constructor.
Qed.
