(* ===== verification/Tokens.v ===== *)
(** Machine tokens and enrollment codes (crates/stackhour-core/src/tokens.rs and the
    command of crates/stackhour/src/token.rs). The configuration file is the state:
    its text, or the error of reading it. *)
From S2P Require Import Prelude.
From S2P Require Import RustStr.
From S2P Require Import Float64.
From S2P Require Import Platform.
From S2P Require Import JsNum.
From S2P Require Import JsonTrees.
From S2P Require Import Auth.
From S2P Require Import Pricing.
From S2P Require Import Paths.
From S2P Require Import Modules.
From S2P Require Import Config.
From Stdlib Require Import Ascii.

Local Open Scope Z_scope.

(** *** Strings as JavaScript sees them *)

(** [str::encode_utf16] *)
Definition utf16_units (s : string) : list N :=
  concat (map (fun c => if N.ltb c 65536 then [c]
                        else [(55296 + (c - 65536) / 1024)%N; (56320 + (c - 65536) mod 1024)%N]) (chars s)).
(** [utf16_len], [utf16_cmp(a, b) == Less] *)
Definition utf16_len (s : string) : nat := length (utf16_units s).
Fixpoint units_before (a b : list N) : bool :=
  match a, b with
  | _, [] => false
  | [], _ => true
  | x :: a, y :: b => N.ltb x y || (N.eqb x y && units_before a b)
  end.
Definition utf16_before (a b : string) : bool := units_before (utf16_units a) (utf16_units b).

(** [field_trim] *)
Definition field_trim (v : option JsonTree) : string :=
  match v with
  | Some v => if js_truthy v then js_trim (js_display v) else EmptyString
  | None => EmptyString
  end.

(** [machine_name] *)
Definition bad_char (c : N) : bool := N.leb c 31 || N.eqb c 127.
Definition machine_name (value : string) : Result string :=
  let machine := js_trim value in
  if str_is_empty machine || (200 <? utf16_len machine)%nat || existsb bad_char (chars machine)
  then Err (Error_msg "machine must be 1-200 printable characters") else Ok machine.

(** *** The raw configuration *)

(** [LoadedConfig]: [lc_phantom] is the detached map of an array's [tokens]. *)
Record LoadedConfig := MkLoaded { lc_config : JsonTree; lc_phantom : option (list (string * JsonTree)) }.

(** [self.config["server"]["tokens"]] of a configuration that has them *)
Definition server_tokens (config : JsonTree) : list (string * JsonTree) :=
  match get "server" config ≫= get "tokens" with Some (Json_object l) => l | _ => [] end.
(** [LoadedConfig::tokens] *)
Definition loaded_tokens (c : LoadedConfig) : list (string * JsonTree) :=
  default (server_tokens (lc_config c)) (lc_phantom c).

(** [config["server"]["tokens"] = ..] *)
Definition set_server_tokens (tokens : list (string * JsonTree)) (config : JsonTree) : JsonTree :=
  match config with
  | Json_object l =>
      match assoc "server" l with
      | Some (Json_object server) =>
          Json_object (object_insert "server" (Json_object (object_insert "tokens" (Json_object tokens) server)) l)
      | _ => config
      end
  | _ => config
  end.
(** A change through [LoadedConfig::tokens_mut] *)
Definition with_tokens (f : list (string * JsonTree) -> list (string * JsonTree)) (c : LoadedConfig) : LoadedConfig :=
  match lc_phantom c with
  | Some m => MkLoaded (lc_config c) (Some (f m))
  | None => MkLoaded (set_server_tokens (f (server_tokens (lc_config c))) (lc_config c)) None
  end.

Definition type_name (v : JsonTree) : string :=
  match v with Json_number _ => "number" | Json_string _ => "string" | _ => "boolean" end.

(** The configuration file. *)
Definition ConfigFile : Type := Result string.

Section Crud.
Context {J : JsonText}.

(** [server.tokens], an empty object where it is null or absent; [None] when it is
    something else. *)
Definition normal_tokens (server : list (string * JsonTree)) : option (list (string * JsonTree)) :=
  match assoc "tokens" server with
  | None | Some Json_null => Some []
  | Some (Json_object m) => Some m
  | Some _ => None
  end.

(** [read_server_config], of the parsed value *)
Definition check_server_config (config : JsonTree) : Result LoadedConfig :=
  match config with
  | Json_null => Err (Error_msg "Cannot read properties of null (reading 'server')")
  | _ =>
      match get "server" config with
      | None => Err (Error_msg "server is not initialized")
      | Some server =>
          if negb (js_truthy server) then Err (Error_msg "server is not initialized")
          else
            match server with
            | Json_object m =>
                match normal_tokens m with
                | Some tokens => Ok (MkLoaded (set_server_tokens tokens config) None)
                | None => Err (Error_msg "server.tokens must be an object keyed by machine name")
                end
            | Json_array _ => Ok (MkLoaded config (Some []))
            | other =>
                Err (Error_msg ("Cannot create property 'tokens' on " +:+ type_name other +:+ " '" +:+
                                js_display other +:+ "'"))
            end
      end
  end.

(** [read_server_config] *)
Definition read_server_config : M ConfigFile LoadedConfig := fun file =>
  (match file with
   | Err e => Err (Error_msg ("cannot read config: " +:+ err_msg e))
   | Ok text =>
       match tree_from_str text with
       | None => Err (Error_msg ("cannot read config: " +:+ tree_error text))
       | Some config => check_server_config config
       end
   end, file).

(** [write_raw_config]; [refused] is the error of the atomic write, which then leaves
    the file as it was. *)
Definition write_raw_config (refused : option Error) (config : JsonTree) : M ConfigFile unit := fun file =>
  match refused with
  | Some e => (Err e, file)
  | None => (Ok tt, Ok (tree_to_pretty config +:+ String LF EmptyString))
  end.

(** The duplicate check of [create_machine_token]. *)
Definition assigned_elsewhere (name secret : string) (tokens : list (string * JsonTree)) : bool :=
  existsb (fun e => negb (String.eqb e.1 name) &&
             match e.2 with Json_string s => String.eqb s secret | _ => false end) tokens.

(** [create_machine_token]; [generated] is what [generate_token] returns. *)
Definition create_machine_token (refused : option Error) (generated : string) (machine : string)
    (token : option string) (force : bool) : M ConfigFile (string * string) :=
  name ← lift (machine_name machine);
  loaded ← read_server_config;
  if contains_key name (loaded_tokens loaded) && negb force
  then fail (Error_msg ("token for " +:+ name +:+ " already exists; pass --force to rotate it"))
  else
    let secret := match token with None => generated | Some s => js_trim s end in
    if str_is_empty secret then fail (Error_msg "token cannot be empty")
    else if assigned_elsewhere name secret (loaded_tokens loaded)
    then fail (Error_msg "token is already assigned to another machine")
    else
      write_raw_config refused (lc_config (with_tokens (object_insert name (Json_string secret)) loaded)) ≫= fun _ =>
      mret (name, secret).

(** [revoke_machine_token] *)
Definition revoke_machine_token (refused : option Error) (machine : string) : M ConfigFile unit :=
  name ← lift (machine_name machine);
  loaded ← read_server_config;
  if negb (contains_key name (loaded_tokens loaded)) then fail (Error_msg ("no token exists for " +:+ name))
  else write_raw_config refused (lc_config (with_tokens (shift_remove name) loaded)).

(** [list_machine_tokens] *)
Definition list_machine_tokens : M ConfigFile (list string) :=
  loaded ← read_server_config;
  mret (sort_by utf16_before (loaded_tokens loaded).*1).
End Crud.

(** *** Base64 *)

(** [lenient_base64_decode]: groups of four sextets in a 32-bit accumulator. *)
Definition byte_of (z : Z) : ascii := ascii_of_N (Z.to_N (z mod 256)).
Fixpoint decode_groups (acc : Z) (have : nat) (s : string) : string :=
  let rest := match have with
              | 2%nat => String (byte_of (Z.shiftr acc 4)) EmptyString
              | 3%nat => String (byte_of (Z.shiftr acc 10)) (String (byte_of (Z.shiftr acc 2)) EmptyString)
              | _ => EmptyString
              end in
  match s with
  | EmptyString => rest
  | String b r =>
      if Ascii.eqb b "=" then rest
      else
        match sextet b with
        | None => decode_groups acc have r
        | Some v =>
            let acc := Z.lor (Z.shiftl acc 6 mod 2 ^ 32) v in
            if Nat.eqb (S have) 4
            then String (byte_of (Z.shiftr acc 16)) (String (byte_of (Z.shiftr acc 8)) (String (byte_of acc)
                   (decode_groups 0 0 r)))
            else decode_groups acc (S have) r
        end
  end.
Definition lenient_base64_decode (s : string) : string := decode_groups 0 0 s.

(** The URL-safe alphabet, which has other characters for the last two sextets. *)
Definition url_char (a : ascii) : ascii :=
  if Ascii.eqb a "+" then "-"%char else if Ascii.eqb a "/" then "_"%char else a.
Fixpoint map_string (f : ascii -> ascii) (s : string) : string :=
  match s with EmptyString => EmptyString | String a r => String (f a) (map_string f r) end.
(** [URL_SAFE_NO_PAD.encode] *)
Definition base64url_encode (bytes : string) : string := map_string url_char (base64_encode false bytes).

(** [generate_token]: the text of 32 random bytes. *)
Definition generate_token (random : string) : string := base64url_encode random.

(** *** Enrollment *)

(** [Enrollment] *)
Record Enrollment := MkEnrollment { en_server_url : string; en_machine : string; en_token : string }.

Section Enroll.
Context {J : JsonText}.
(** [url::Url::parse]: the scheme and the serialisation. *)
Context (url_parse : string -> option (string * string)).

(** [valid_url] *)
Definition valid_url (u : string) : Result string :=
  match url_parse u with
  | None => Err (Error_msg "server URL must be a valid http(s) URL")
  | Some (scheme, href) =>
      if negb (String.eqb scheme "http" || String.eqb scheme "https")
      then Err (Error_msg "server URL must use http or https")
      else Ok (default href (strip_suffix "/" href))
  end.

Definition enrollment_payload (url machine token : string) : JsonTree :=
  Json_object [("v", Json_number (Num_int 1)); ("serverUrl", Json_string url); ("machine", Json_string machine);
               ("token", Json_string token)]%string.

(** [create_enrollment] *)
Definition create_enrollment (server_url machine token : string) : Result string :=
  clean_url ← valid_url server_url;
  let machine := js_trim machine in
  let token := js_trim token in
  if str_is_empty machine then Err (Error_msg "enrollment machine cannot be empty")
  else if str_is_empty token then Err (Error_msg "enrollment token cannot be empty")
  else Ok (base64url_encode (tree_to_string (enrollment_payload clean_url machine token))).

Definition code_char (a : ascii) : bool := is_ascii_alphanumeric (N_of_ascii a) || Ascii.eqb a "_" || Ascii.eqb a "-".
Definition code_ok (code : string) : bool :=
  negb (str_is_empty code) && N.leb (str_len code) 16384 && all_bytes code_char code.

(** [parse_enrollment] *)
Definition parse_enrollment (code : string) : Result Enrollment :=
  if negb (code_ok code) then Err (Error_msg "invalid enrollment code")
  else
    match tree_from_str (from_utf8_lossy (lenient_base64_decode code)) with
    | None => Err (Error_msg "invalid enrollment code")
    | Some payload =>
        match payload with
        | Json_object obj =>
            if match assoc "v" obj with Some (Json_number n) => f64_eq (number_f64 n) (f64_of_Z 1) | _ => false end
            then
              let raw_url := match assoc "serverUrl" obj with Some v => js_display v | None => "undefined"%string end in
              url ← valid_url raw_url;
              Ok (MkEnrollment url (field_trim (assoc "machine" obj)) (field_trim (assoc "token" obj)))
            else Err (Error_msg "unsupported enrollment code")
        | _ => Err (Error_msg "unsupported enrollment code")
        end
    end.
End Enroll.

(** Command-line options (crates/stackhour/src/args.rs) and the token command
    (crates/stackhour/src/token.rs). The command's output is the text it prints;
    writing to the standard output is taken to succeed. *)

Local Close Scope Z_scope.

(** [option_values], [last_option], [has_flag] *)
Definition option_values (args : list string) (name : string) : list string :=
  omap (strip_prefix ("--" +:+ name +:+ "=")) args.
Definition last_option (args : list string) (name : string) : option string := last (option_values args name).
Definition has_flag (args : list string) (flag : string) : bool := existsb (String.eqb flag) args.

Definition newline : string := String LF EmptyString.

Section Cli.
Context {J : JsonText}.
Context (url_parse : string -> option (string * string)).

(** [public_url] *)
Definition configured_url (file : ConfigFile) : Result (option string) :=
  match file with
  | Err e => Err (Error_msg ("cannot read config: " +:+ err_msg e))
  | Ok text =>
      match tree_from_str text with
      | None => Err (Error_msg ("cannot read config: " +:+ tree_error text))
      | Some config =>
          let url : option string := field (get "server" config) "publicUrl" ≫= as_str in
          Ok (match url with Some u => if str_is_empty u then None else Some u | None => None end)
      end
  end.
Definition public_url (override_url : option string) : M ConfigFile (option string) := fun file =>
  let given := match override_url with Some u => if str_is_empty u then None else Some u | None => None end in
  (match given with Some u => Ok (Some u) | None => configured_url file end ≫= fun value =>
   match value with
   | Some u => valid_url url_parse u ≫= fun url => Ok (Some url)
   | None => Ok None
   end, file).

(** [run_token_into] *)
Definition run_create (refused : option Error) (generated : string) (args : list string) (machine : string)
    : M ConfigFile string :=
  created ← create_machine_token refused generated machine (last_option args "token") (has_flag args "--force");
  let '(name, secret) := (created : string * string) in
  url ← public_url (last_option args "server-url");
  let plain := "Token for " +:+ name +:+ ": " +:+ secret +:+ newline in
  if has_flag args "--raw" then mret plain
  else
    match (url : option string) with
    | None => mret plain
    | Some url =>
        code ← lift (create_enrollment url_parse url name secret);
        mret ("Enrolled " +:+ name +:+ ". On that machine run:" +:+ newline +:+ newline +:+
              "  ./target/release/stackhour init agent --enrollment=" +:+ code +:+ " --install" +:+ newline +:+ newline +:+
              "Add one or more --project-root=/path options before --install if needed." +:+ newline)
    end.
Definition run_token_into (refused : option Error) (generated : string) (args : list string) : M ConfigFile string :=
  let command := default EmptyString (args !! 0) in
  let machine := default EmptyString (args !! 1) in
  if String.eqb command "create" then run_create refused generated args machine
  else if String.eqb command "revoke" then
    revoke_machine_token refused machine ≫= fun _ =>
    mret ("Revoked token for " +:+ trim machine +:+ newline)
  else if String.eqb command "list" then
    names ← list_machine_tokens;
    mret (String.concat EmptyString (map (fun n => n +:+ newline) names))
  else fail (Error_msg "usage: stackhour token <create MACHINE|revoke MACHINE|list>").
End Cli.
