(* ===== verification/TokenFacts.v ===== *)
(** Facts about the token commands: what the file holds after each of them, what the
    server reads of it, and the two Base64 decoders. *)
From S2P Require Import Prelude.
From S2P Require Import RustStr.
From S2P Require Import Float64.
From S2P Require Import Platform.
From S2P Require Import JsNum.
From S2P Require Import JsonTrees.
From S2P Require Import Pricing.
From S2P Require Import Paths.
From S2P Require Import Modules.
From S2P Require Import Config.
From S2P Require Import Auth.
From S2P Require Import Tokens.
From Stdlib Require Import Ascii.

Local Open Scope Z_scope.

(** *** The tokens of a configuration *)

(** A configuration whose server section is an object with these tokens. *)
Record has_tokens (config : JsonTree) (l server tokens : list (string * JsonTree)) : Prop := {
  ht_config : config = Json_object l;
  ht_server : assoc "server" l = Some (Json_object server);
  ht_tokens : normal_tokens server = Some tokens;
}.

Lemma check_server_ok config server loaded :
  get "server" config = Some (Json_object server) -> check_server_config config = Ok loaded ->
  exists l tokens, has_tokens config l server tokens /\ loaded = MkLoaded (set_server_tokens tokens config) None.
Proof.
  intros Hs Hc. destruct config as [| | | | |l]; try done. cbn in Hs. unfold check_server_config in Hc. cbn [get] in Hc.
  rewrite Hs in Hc. cbn [js_truthy negb] in Hc. destruct (normal_tokens server) as [tokens|] eqn:Ht; [|done].
  injection Hc as <-. by exists l, tokens.
Qed.

Section SetTokens.
Context (config : JsonTree) (l server tokens : list (string * JsonTree)) (H : has_tokens config l server tokens).

Lemma set_tokens_eq new :
  set_server_tokens new config =
    Json_object (object_insert "server" (Json_object (object_insert "tokens" (Json_object new) server)) l).
Proof. destruct H as [-> Hs _]. cbn [set_server_tokens]. by rewrite Hs. Qed.

Lemma set_tokens_has new :
  has_tokens (set_server_tokens new config)
    (object_insert "server" (Json_object (object_insert "tokens" (Json_object new) server)) l)
    (object_insert "tokens" (Json_object new) server) new.
Proof.
  constructor; [apply set_tokens_eq|by rewrite assoc_insert String.eqb_refl|].
  unfold normal_tokens. by rewrite assoc_insert String.eqb_refl.
Qed.

Lemma set_tokens_other new k : k <> "server"%string -> get k (set_server_tokens new config) = get k config.
Proof.
  intros Hk. rewrite set_tokens_eq. destruct H as [-> _ _]. cbn [get]. rewrite assoc_insert.
  by rewrite (proj2 (String.eqb_neq k "server")).
Qed.

Lemma set_tokens_ok new : tree_ok config = true -> entries_ok new -> tree_ok (set_server_tokens new config) = true.
Proof.
  intros Hok Hnew. rewrite set_tokens_eq. destruct H as [-> Hs _]. apply tree_ok_object in Hok.
  apply tree_ok_object, insert_ok; [done| |done]. apply tree_ok_object, insert_ok; [done|by apply tree_ok_object|].
  apply tree_ok_object. by apply (ok_lookup "server" _ l).
Qed.

Lemma tokens_ok : tree_ok config = true -> entries_ok tokens.
Proof.
  intros Hok. destruct H as [-> Hs Ht]. apply tree_ok_object in Hok. pose proof (ok_lookup _ _ _ Hok Hs) as Hso.
  apply tree_ok_object in Hso. unfold normal_tokens in Ht. destruct (assoc "tokens" server) as [v|] eqn:Hv.
  - pose proof (ok_lookup _ _ _ Hso Hv) as Hvo. destruct v; try done; injection Ht as <-; [by split; constructor|].
    by apply tree_ok_object.
  - injection Ht as <-. by split; constructor.
Qed.

(** [server.token] is not touched. *)
Lemma set_tokens_token new :
  assoc "token" (object_insert "tokens" (Json_object new) server) = assoc "token" server.
Proof. by rewrite assoc_insert. Qed.
End SetTokens.

(** An explicit object of tokens is what [LoadedConfig::tokens] returns. *)
Lemma has_server_tokens config l server tokens :
  has_tokens config l server tokens -> assoc "tokens" server = Some (Json_object tokens) -> server_tokens config = tokens.
Proof. intros [-> Hs _] Ht. unfold server_tokens. cbn [get mbind option_bind]. rewrite Hs. cbn. by rewrite Ht. Qed.

Lemma loaded_tokens_eq config l server tokens :
  has_tokens config l server tokens -> server_tokens (set_server_tokens tokens config) = tokens.
Proof.
  intros H. apply (has_server_tokens _ _ _ _ (set_tokens_has _ _ _ _ H tokens)). by rewrite assoc_insert String.eqb_refl.
Qed.

(** A change of the tokens, as it is written. *)
Lemma with_tokens_eq config l server tokens f :
  has_tokens config l server tokens ->
  lc_config (with_tokens f (MkLoaded (set_server_tokens tokens config) None)) =
    set_server_tokens (f tokens) (set_server_tokens tokens config).
Proof. intros H. unfold with_tokens. cbn [lc_phantom lc_config]. by rewrite (loaded_tokens_eq _ _ _ _ H). Qed.

(** *** What the server reads *)

Lemma put_all_new (m : list (string * JsonTree)) : NoDup m.*1 -> put_all merge_value m [] = m.
Proof.
  intros Hm. assert ((put_all merge_value m []).*1 = m.*1) as Hk.
  { rewrite put_all_keys // app_nil_l. clear. induction m.*1 as [|k l IH]; [done|]. cbn. by f_equal. }
  apply object_ext; [by apply put_all_NoDup; constructor|done|]. intros k. rewrite put_all_assoc //. cbn.
  destruct (assoc k m) as [v|]; [|done]. by destruct v.
Qed.

Lemma get_update_other k key f v : k <> key -> get k (update_object key f v) = get k v.
Proof.
  intros Hk. unfold update_object. destruct v as [| | | | |l]; try done.
  destruct (assoc key l) as [[| | | | |m]|]; try done. cbn [get]. rewrite assoc_insert.
  by rewrite (proj2 (String.eqb_neq k key)).
Qed.

(** The server section of the loaded configuration. *)
Lemma loaded_server home machine storage config l server tokens :
  tree_ok config = true -> has_tokens config l server tokens -> assoc "tokens" server = Some (Json_object tokens) ->
  exists section, get "server" (merged_raw home machine storage config) = Some (Json_object section) /\
    assoc "tokens" section = Some (Json_object tokens) /\
    assoc "token" section = Some (default (Json_string "") (assoc "token" server)).
Proof.
  intros Hok H Ht. pose proof (tokens_ok _ _ _ _ H Hok) as [Hnt _]. destruct H as [-> Hs _].
  apply tree_ok_object in Hok. pose proof (ok_lookup _ _ _ Hok Hs) as Hso. apply tree_ok_object in Hso as [Hns _].
  destruct Hok as [Hn _]. unfold merged_raw. rewrite get_update_other //. unfold deep_merge. rewrite merge_object.
  unfold update_object. rewrite put_all_assoc // Hs.
  match goal with |- context [assoc "server" (spread_into_map (defaults_with ?d ?m))] =>
    set (dflt := assoc "server" (spread_into_map (defaults_with d m))) end.
  vm_compute in dflt. subst dflt.
  match goal with |- context [merge_value _ (Some (Json_object ?ds))] => set (ds0 := ds) end.
  cbn [merge_value]. rewrite merge_object. cbn [spread_into_map get]. rewrite assoc_insert String.eqb_refl.
  eexists. split; [reflexivity|].
  assert (forall k, k <> "db"%string -> assoc k (expand_db home (put_all merge_value server ds0)) =
            match assoc k server with Some v => Some (merge_value v (assoc k ds0)) | None => assoc k ds0 end) as Hl.
  { intros k Hk. unfold expand_db. rewrite -put_all_assoc //. destruct (assoc "db" _); [|done].
    rewrite assoc_insert. by rewrite (proj2 (String.eqb_neq k "db")). }
  rewrite !Hl // Ht. split.
  - change (assoc "tokens" ds0) with (Some (Json_object [])). cbn [merge_value]. rewrite merge_object. cbn [spread_into_map].
    by rewrite put_all_new.
  - change (assoc "token" ds0) with (Some (Json_string "")). destruct (assoc "token" server) as [v|]; [|done]. by destruct v.
Qed.

(** *** The commands *)

(** Every machine token is text. *)
Definition text_tokens (tokens : list (string * JsonTree)) : Prop := Forall (fun e => exists s, e.2 = Json_string s) tokens.

Lemma find_machine_unique secret name tokens :
  (exists v, (name, v) ∈ tokens /\ truthy_string (Some v) = Some secret) ->
  (forall m v, (m, v) ∈ tokens -> truthy_string (Some v) = Some secret -> m = name) ->
  find_machine secret tokens = Some (Machine name).
Proof.
  intros (v & Hin & Hv) Hu. pose proof (find_machine_spec secret tokens) as H.
  destruct (find_machine secret tokens) as [p|].
  - destruct H as (m & -> & before & w & after & -> & Hw & _). f_equal. f_equal. apply (Hu m w); [|done].
    apply elem_of_app. right. constructor.
  - rewrite Forall_forall in H. by specialize (H _ Hin).
Qed.

Lemma find_machine_none secret tokens :
  (forall m v, (m, v) ∈ tokens -> truthy_string (Some v) <> Some secret) -> find_machine secret tokens = None.
Proof.
  intros Hu. pose proof (find_machine_spec secret tokens) as H. destruct (find_machine secret tokens) as [p|]; [|done].
  destruct H as (m & -> & before & w & after & -> & Hw & _). exfalso. apply (Hu m w); [|done].
  apply elem_of_app. right. constructor.
Qed.

Lemma truthy_text s : s <> EmptyString -> truthy_string (Some (Json_string s)) = Some s.
Proof. by destruct s. Qed.
Lemma truthy_text_inv s t : truthy_string (Some (Json_string s)) = Some t -> s = t.
Proof. destruct s; [done|]. by intros [= <-]. Qed.

Lemma assigned_elsewhere_false name secret tokens m :
  assigned_elsewhere name secret tokens = false -> (m, Json_string secret) ∈ tokens -> m = name.
Proof.
  intros H Hin. destruct (String.eqb_spec m name) as [|Hm]; [done|]. exfalso. revert H. apply not_false_iff_true.
  apply existsb_exists. exists (m, Json_string secret). split; [by apply list_elem_of_In|]. cbn.
  by rewrite (proj2 (String.eqb_neq m name)) // String.eqb_refl.
Qed.

Lemma insert_elem {V} k (v : V) l : (k, v) ∈ object_insert k v l.
Proof.
  unfold object_insert. destruct (contains_key k l) eqn:Hc.
  - unfold contains_key in Hc. apply existsb_exists in Hc as ([j x] & Hin%list_elem_of_In & Hj%String.eqb_eq). cbn in Hj. subst.
    apply list_elem_of_fmap. exists (k, x). by rewrite String.eqb_refl.
  - apply elem_of_app. right. constructor.
Qed.
Lemma insert_elem_inv {V} k (v : V) l m w : (m, w) ∈ object_insert k v l -> (m = k /\ w = v) \/ (m <> k /\ (m, w) ∈ l) .
Proof.
  unfold object_insert. destruct (contains_key k l) eqn:Hc.
  - intros ([j x] & Heq & Hin)%list_elem_of_fmap. cbn in Heq. destruct (String.eqb_spec j k) as [->|]; injection Heq as -> ->; auto.
  - intros [Hin|[= -> ->]%list_elem_of_singleton]%elem_of_app; [|by left]. right. split; [|done]. intros ->.
    assert (contains_key k l = true); [|congruence]. apply contains_key_elem. by apply (list_elem_of_fmap_2 fst) in Hin.
Qed.

Lemma contains_removed {V} k (l : list (string * V)) : contains_key k (shift_remove k l) = false.
Proof. rewrite contains_key_assoc assoc_remove String.eqb_refl. by apply bool_decide_eq_false. Qed.
Lemma removed_elem {V} k (l : list (string * V)) m v : (m, v) ∈ shift_remove k l -> (m, v) ∈ l /\ m <> k.
Proof.
  intros Hin%list_elem_of_In%filter_In. destruct Hin as [Hin Hk]. split; [by apply list_elem_of_In|].
  by apply negb_true_iff, String.eqb_neq in Hk.
Qed.

(** A computation that only reads its state, and one whose error leaves it as it was. *)
Definition only_reads {S A} (m : M S A) : Prop := forall s, (m s).2 = s.
Definition keeps_on_error {S A} (m : M S A) : Prop := forall s e s', m s = (Err e, s') -> s' = s.

Lemma keeps_bind {S A B} (m : M S A) (f : A -> M S B) :
  only_reads m -> (forall a, keeps_on_error (f a)) -> keeps_on_error (m ≫= f).
Proof.
  intros Hm Hf s e s' H. unfold mbind, M_bind in H. specialize (Hm s). destruct (m s) as [[a|e0] s1]; cbn in Hm; subst s1.
  - by eapply Hf.
  - by injection H as _ <-.
Qed.
Lemma keeps_fail {S A} e : keeps_on_error (fail (S := S) (A := A) e).
Proof. by intros s e0 s' [= _ <-]. Qed.

Section Commands.
Context {J : JsonText} {JL : JsonTextLaws J}.

Lemma write_then_keeps {A} refused config (a : A) :
  keeps_on_error (write_raw_config refused config ≫= fun _ => mret a).
Proof. intros s e s'. unfold mbind, M_bind, write_raw_config. destruct refused; [by intros [= _ <-]|done]. Qed.
Lemma write_keeps refused config : keeps_on_error (write_raw_config refused config).
Proof. intros s e s'. unfold write_raw_config. destruct refused; [by intros [= _ <-]|done]. Qed.

(** A configuration file with a server section that is an object. *)
Record server_file (text : string) (config : JsonTree) (server : list (string * JsonTree)) : Prop := {
  sf_text : tree_from_str text = Some config;
  sf_server : get "server" config = Some (Json_object server);
}.

(** The file after a change of the tokens. *)
Lemma changed_file config l server tokens new :
  tree_ok config = true -> has_tokens config l server tokens -> entries_ok new ->
  let config' := set_server_tokens new (set_server_tokens tokens config) in
  tree_from_str (tree_to_pretty config' +:+ String LF EmptyString) = Some config' /\ tree_ok config' = true /\
  (exists l' server', has_tokens config' l' server' new /\ assoc "tokens" server' = Some (Json_object new) /\
     assoc "token" server' = assoc "token" server) /\
  (forall k, k <> "server"%string -> get k config' = get k config).
Proof.
  intros Hok H Hnew config'. pose proof (set_tokens_has _ _ _ _ H tokens) as H1.
  assert (tree_ok (set_server_tokens tokens config) = true) as Hok1.
  { eapply set_tokens_ok; [exact H|done|]. exact (tokens_ok _ _ _ _ H Hok). }
  assert (tree_ok config' = true) as Hok' by (by eapply set_tokens_ok).
  split_and!; [by apply read_pretty|done| |].
  - eexists _, _. split; [by eapply (set_tokens_has _ _ _ _ H1)|]. split; [by rewrite assoc_insert String.eqb_refl|].
    by rewrite !assoc_insert.
  - intros k Hk. unfold config'. by rewrite (set_tokens_other _ _ _ _ H1) // (set_tokens_other _ _ _ _ H).
Qed.

Lemma name_valid machine name : utf8_valid machine = true -> machine_name machine = Ok name -> utf8_valid name = true.
Proof.
  intros Hm. unfold machine_name. destruct (_ || _); [done|]. intros [= <-]. by apply trim_valid.
Qed.

(** What [create_machine_token] did when it succeeded. *)
Lemma create_ok generated machine token force text config server name secret file' :
  server_file text config server -> 
  create_machine_token None generated machine token force (Ok text) = (Ok (name, secret), file') ->
  exists l tokens, has_tokens config l server tokens /\ machine_name machine = Ok name /\
    secret = match token with None => generated | Some s => js_trim s end /\ secret <> EmptyString /\
    assigned_elsewhere name secret tokens = false /\ (force = false -> contains_key name tokens = false) /\
    file' = Ok (tree_to_pretty (set_server_tokens (object_insert name (Json_string secret) tokens)
                  (set_server_tokens tokens config)) +:+ String LF EmptyString).
Proof.
  intros [Ht Hs] H. unfold create_machine_token in H. apply m_bind_ok in H as (n & s1 & Hn & H). injection Hn as Hn <-.
  apply m_bind_ok in H as (loaded & s2 & Hr & H). unfold read_server_config in Hr. rewrite Ht in Hr. injection Hr as Hr <-.
  destruct (check_server_ok _ _ _ Hs Hr) as (l & tokens & Htok & ->).
  unfold loaded_tokens in H. cbn [lc_phantom lc_config default from_option] in H. rewrite (loaded_tokens_eq _ _ _ _ Htok) in H.
  destruct (contains_key n tokens && negb force) eqn:Hc; [done|].
  set (sec := match token with None => generated | Some s => js_trim s end) in *.
  destruct (str_is_empty sec) eqn:He; [done|]. destruct (assigned_elsewhere n sec tokens) eqn:Ha; [done|].
  rewrite (with_tokens_eq _ _ _ _ _ Htok) in H. injection H as <- <- <-. exists l, tokens. split_and!; [done|done|done| |done| |done].
  - intros Hsec. by rewrite Hsec in He.
  - intros ->. by rewrite andb_true_r in Hc.
Qed.

Lemma revoke_ok machine text config server file' :
  server_file text config server -> revoke_machine_token None machine (Ok text) = (Ok tt, file') ->
  exists l tokens name, has_tokens config l server tokens /\ machine_name machine = Ok name /\
    contains_key name tokens = true /\
    file' = Ok (tree_to_pretty (set_server_tokens (shift_remove name tokens) (set_server_tokens tokens config))
                  +:+ String LF EmptyString).
Proof.
  intros [Ht Hs] H. unfold revoke_machine_token in H. apply m_bind_ok in H as (n & s1 & Hn & H). injection Hn as Hn <-.
  apply m_bind_ok in H as (loaded & s2 & Hr & H). unfold read_server_config in Hr. rewrite Ht in Hr. injection Hr as Hr <-.
  destruct (check_server_ok _ _ _ Hs Hr) as (l & tokens & Htok & ->).
  unfold loaded_tokens in H. cbn [lc_phantom lc_config default from_option] in H. rewrite (loaded_tokens_eq _ _ _ _ Htok) in H.
  destruct (contains_key n tokens) eqn:Hc; [|done]. cbn [negb] in H.
  rewrite (with_tokens_eq _ _ _ _ _ Htok) in H. injection H as <-. by exists l, tokens, n.
Qed.
End Commands.

(** *** Base64 *)

(** One more sextet in either accumulator. *)
Lemma sextet_range b v : sextet b = Some v -> 0 <= v < 64.
Proof.
  unfold sextet. repeat (match goal with |- context [if ?c then _ else _] => destruct c eqn:? end); intros [= <-];
    repeat match goal with H : (_ && _) = true |- _ => apply andb_true_iff in H as [?%Z.leb_le ?%Z.leb_le] end; lia.
Qed.

Lemma byte_of_land z : ascii_of_N (Z.to_N (Z.land z 255)) = byte_of z.
Proof. unfold byte_of. change 255 with (Z.ones 8). by rewrite Z.land_ones. Qed.

(** What the grouping decoder still owes after [have] sextets of a group: the bytes
    the streaming decoder has already given for them. *)
Definition owed (acc : Z) (have : nat) : string :=
  match have with
  | 2%nat => String (byte_of (Z.shiftr acc 4)) EmptyString
  | 3%nat => String (byte_of (Z.shiftr acc 10)) (String (byte_of (Z.shiftr acc 2)) EmptyString)
  | _ => EmptyString
  end.
(** The bits the streaming decoder holds back. *)
Definition held (have : nat) : Z := match have with 1%nat => 6 | 2%nat => 4 | 3%nat => 2 | _ => 0 end.

Lemma byte_of_eq y z : y mod 256 = z mod 256 -> byte_of y = byte_of z.
Proof. unfold byte_of. by intros ->. Qed.

(** Two numbers with one remainder differ by a multiple, and the other way. *)
Lemma cong_of m x y : x mod m = y mod m -> m <> 0 -> exists d, x = y + d * m.
Proof.
  intros H Hm. exists (x / m - y / m). rewrite !Z.mod_eq // in H. lia.
Qed.

Lemma of_cong d m x y : 0 < m -> x = y + d * m -> x mod m = y mod m.
Proof. intros Hm ->. apply Z.mod_add. lia. Qed.

Lemma byte_of_shift k x y :
  0 <= k -> x mod 2 ^ (8 + k) = y mod 2 ^ (8 + k) -> byte_of (Z.shiftr x k) = byte_of (Z.shiftr y k).
Proof.
  intros Hk H. apply byte_of_eq. pose proof (Z.pow_pos_nonneg 2 k eq_refl Hk) as Hp. rewrite Z.pow_add_r // in H.
  apply cong_of in H as [d ->]; [|lia]. rewrite !Z.shiftr_div_pow2; [lia..|].
  rewrite (Z.mul_assoc d) Z.div_add; [lia|]. apply (of_cong d); lia.
Qed.

Lemma decoders_step acc a have s :
  (have < 4)%nat -> 0 <= acc < 64 ^ Z.of_nat have -> 0 <= a -> a mod 2 ^ held have = acc mod 2 ^ held have ->
  decode_groups acc have s = owed acc have +:+ decode_base64 a (held have) s.
Proof.
  revert acc a have. induction s as [|b s IH]; intros acc a have Hh Hacc Ha Hm.
  { cbn [decode_groups decode_base64]. rewrite str_app_nil_r. by do 4 (destruct have as [|have]; [done|]). }
  cbn [decode_groups decode_base64]. fold (owed acc have).
  destruct (Ascii.eqb b "="); [by rewrite str_app_nil_r|]. destruct (sextet b) as [v|] eqn:Hv; [|by apply IH].
  apply sextet_range in Hv. assert (0 <= acc) as Hacc0 by lia. rewrite !acc_step //. rewrite ?byte_of_land.
  assert (acc mod 2 ^ 26 = acc) as -> by (apply Z.mod_small; destruct have as [|[|[|[|]]]]; simpl in Hacc; lia).
  set (a' := 64 * (a mod 2 ^ 26) + v).
  assert (0 <= a') as Ha' by (unfold a'; pose proof (Z.mod_pos_bound a (2 ^ 26) eq_refl); lia).
  assert (exists q, a' = 64 * a + v - q * 2 ^ 32) as [q Hq].
  { exists (a / 2 ^ 26). unfold a'. pose proof (Z.div_mod a (2 ^ 26) ltac:(lia)). lia. }
  clearbody a'. assert (forall k, 0 <= k -> Z.shiftr (64 * acc + v) (6 + k) = Z.shiftr acc k) as Hsh.
  { intros k Hk. rewrite !Z.shiftr_div_pow2; [lia..|]. rewrite Z.pow_add_r //.
    pose proof (Z.pow_pos_nonneg 2 k eq_refl Hk). rewrite -(Z.div_div _ (2 ^ 6)) //. change (2 ^ 6) with 64. f_equal. symmetry. apply (Z.div_unique _ _ _ v); lia. }
  assert (forall m, 0 < m -> (m | 64 * 2 ^ held have) -> a' mod m = (64 * acc + v) mod m) as Hc.
  { intros m Hm0 [e He]. apply cong_of in Hm as [d Hd]; [|by destruct have as [|[|[|[|]]]]].
    assert (exists f, 2 ^ 32 = 64 * 2 ^ held have * f) as [f Hf]
      by (exists (2 ^ (26 - held have)); destruct have as [|[|[|[|]]]]; [..|lia]; done).
    apply (of_cong (d * e - q * e * f)); [done|]. rewrite Hq Hd Hf. nia. }
  assert (0 <= 64 * acc + v < 64 ^ Z.of_nat (S have)) as Hr by (rewrite Nat2Z.inj_succ Z.pow_succ_r; lia).
  destruct have as [|[|[|[|]]]]; [..|lia]; cbn [held owed Nat.eqb Z.leb Z.add Z.compare Pos.compare Pos.add Pos.succ Pos.compare_cont] in *.
  - rewrite (IH (64 * acc + v) a' 1%nat); [lia|done|done| |done]. apply Hc; [done|]. by exists 1.
  - simpl. rewrite (IH (64 * acc + v) a' 2%nat); [lia|done|done| |].
    + apply Hc; [done|]. by exists 256.
    + apply (f_equal2 String); [|done]. symmetry. apply (byte_of_shift 4); [lia|]. apply Hc; [done|]. by exists 1.
  - simpl. rewrite (IH (64 * acc + v) a' 3%nat); [lia|done|done| |].
    + apply Hc; [done|]. by exists 256.
    + rewrite -(Hsh 4) //. apply (f_equal2 String); [done|]. apply (f_equal2 String); [|done].
      symmetry. apply (byte_of_shift 2); [lia|]. apply Hc; [done|]. by exists 1.
  - simpl. rewrite (IH 0 a' 0%nat); [lia|done|done| |].
    + by rewrite !Z.mod_1_r.
    + rewrite -(Hsh 10) // -(Hsh 2) //. apply (f_equal2 String); [done|]. apply (f_equal2 String); [done|].
      apply (f_equal2 String); [|done].
      symmetry. apply (byte_of_shift 0); [lia|]. apply Hc; [done|]. by exists 1.
Qed.

(** The two decoders of the two crates read the same bytes. *)
Lemma decoders_agree s : lenient_base64_decode s = decode_base64_lenient s.
Proof. by apply (decoders_step 0 0 0%nat s (Nat.lt_0_succ 3)). Qed.

(** The URL-safe letters have the same sextets. *)
Lemma url_char_sextet a : sextet (url_char a) = sextet a /\ Ascii.eqb (url_char a) "=" = Ascii.eqb a "=".
Proof.
  unfold url_char. destruct (Ascii.eqb_spec a "+") as [->|]; [done|]. by destruct (Ascii.eqb_spec a "/") as [->|].
Qed.

Lemma decode_url_text acc bits s : decode_base64 acc bits (map_string url_char s) = decode_base64 acc bits s.
Proof.
  revert acc bits. induction s as [|a s IH]; intros acc bits; [done|]. cbn [map_string decode_base64].
  destruct (url_char_sextet a) as [-> ->]. destruct (Ascii.eqb a "="); [done|]. destruct (sextet a); [|done].
  by rewrite !IH.
Qed.

(** Decoding undoes the URL-safe encoding. *)
Lemma base64url_roundtrip bytes : lenient_base64_decode (base64url_encode bytes) = bytes.
Proof.
  rewrite decoders_agree. unfold decode_base64_lenient, base64url_encode. rewrite decode_url_text. apply base64_roundtrip.
Qed.

(** Every letter of a code is one the parser takes. *)
Lemma b64_code_char v : 0 <= v < 64 -> code_char (url_char (b64 v)) = true.
Proof.
  intros Hv. assert (forallb (fun n => code_char (url_char (b64 (Z.of_nat n)))) (seq 0 64) = true) as H by (vm_compute; reflexivity).
  rewrite forallb_forall in H. rewrite -(Z2Nat.id v); [lia|]. apply H, in_seq. lia.
Qed.

Lemma code_text bytes : all_bytes code_char (base64url_encode bytes) = true.
Proof.
  unfold base64url_encode. remember (String.length bytes) as n eqn:Hn. revert bytes Hn.
  induction n as [n IH] using lt_wf_ind. intros bytes Hn.
  destruct bytes as [|a [|b [|c r]]]; [done|..]; cbn [base64_encode map_string all_bytes];
    pose proof (byte_Z_range a); try pose proof (byte_Z_range b); try pose proof (byte_Z_range c).
  - rewrite !b64_code_char //; euclid.
  - rewrite !b64_code_char //; euclid.
  - rewrite !b64_code_char; [euclid..|]. apply (IH (String.length r)); [|done]. cbn in Hn. lia.
Qed.

Lemma encode_nonempty bytes : bytes <> EmptyString -> str_is_empty (base64url_encode bytes) = false.
Proof. by destruct bytes as [|a [|b [|c r]]]. Qed.

(** *** Enrollment *)

Lemma field_trim_text s : field_trim (Some (Json_string s)) = js_trim s.
Proof. by destruct s. Qed.

Lemma payload_ok url machine token :
  utf8_valid url = true -> utf8_valid machine = true -> utf8_valid token = true ->
  tree_ok (enrollment_payload url machine token) = true.
Proof.
  intros Hu Hm Ht. apply tree_ok_object. split; [apply (bool_decide_unpack _); vm_compute; exact I|].
  repeat constructor; unfold entry_ok; cbn; by rewrite ?Hu ?Hm ?Ht.
Qed.
