(* ===== verification/Ingest.v ===== *)
(** The authenticated POST routes of the activity server that the agent uses
    (crates/stackhour-server/src/ingest.rs, with the responses of lib.rs), and the
    agent's side of them (crates/stackhour-agent/src/http.rs). *)
From S2P Require Import Prelude.
From S2P Require Import RustStr.
From S2P Require Import Float64.
From S2P Require Import Platform.
From S2P Require Import JsNum.
From S2P Require Import Schema.
From S2P Require Import Credits.
From S2P Require Import Heartbeats.
From S2P Require Import Auth.

Local Open Scope Z_scope.

(** [BODY_LIMIT] *)
Definition BODY_LIMIT : N := 5 * 1024 * 1024.

(** A request, and a JSON response. *)
Record Request := MkRequest { rq_headers : Headers; rq_query : option string; rq_body : string }.
Record Response := MkResponse { rs_status : Z; rs_body : JsonTree }.

(** [json_error] *)
Definition json_error (status : Z) (message : string) : Response :=
  MkResponse status (Json_object [("error"%string, Json_string message)]).

(** [ApiError::into_response]; a status that is not one of HTTP's becomes 500. *)
Definition api_error (e : Error) : Response :=
  let code := status_code e in
  json_error (if (100 <=? code) && (code <=? 999) then code else 500) (err_msg e).

Definition js_int (z : Z) : JsonTree := Json_number (Num_int z).

Section Ingest.
Context {P : Platform}.
Context (form_pairs : string -> list (string * string)).

(** The configuration's [raw] value; a missing server section is an empty one. *)
Context (raw : JsonTree).

(** [read_json] *)
Definition read_json (body : string) : Value + Response :=
  if N.ltb BODY_LIMIT (str_len body) then inr (json_error 413 "body too large")
  else
    match (if utf8_valid body then json_from_str body else None) with
    | Some v => inl v
    | None => inr (json_error 400 "invalid JSON")
    end.

(** [principal_or_401] *)
Definition principal_or_401 (r : Request) : Principal + Response :=
  let server_cfg := default (Json_object []) (get "server" raw) in
  match authenticate form_pairs (rq_headers r) (default EmptyString (rq_query r)) server_cfg with
  | Some p => inl p
  | None => inr (json_error 401 "unauthorized")
  end.

(** [scope_denied] *)
Definition scope_denied (p : Principal) : Response :=
  json_error 403 ("token is restricted to machine " +:+ match p with Machine m => m | _ => EmptyString end).

(** [row_machine] *)
Definition row_machine (row : JsonTree) : string :=
  match get "machine" row with
  | Some v => if js_truthy v then js_display v else "unknown"
  | None => "unknown"
  end.

(** What a handler needs before it touches the database: who asks, and the body. *)
Definition admitted (r : Request) : (Principal * Value) + Response :=
  match principal_or_401 r with
  | inr res => inr res
  | inl p => match read_json (rq_body r) with inr res => inr res | inl v => inl (p, v) end
  end.

(** [ingest_handler] *)
Definition ingest_handler (fault : nat -> option SqlError) (now : f64) (r : Request) (d : ActivityDb)
    : Response * ActivityDb :=
  match admitted r with
  | inr res => (res, d)
  | inl (p, parsed) =>
      match value_as_array parsed with
      | None => (json_error 400 "expected array", d)
      | Some rows =>
          if existsb (fun row => negb (allows_machine p (Some (row_machine (value_tree row))))) rows
          then (scope_denied p, d)
          else
            match insert_heartbeats fault now rows d with
            | (Ok inserted, d') =>
                (MkResponse 200 (Json_object [("inserted"%string, js_int inserted);
                                              ("received"%string, js_int (Z.of_nat (length rows)))]), d')
            | (Err e, d') => (api_error e, d')
            end
      end
  end.

(** [agent_status_handler] *)
Definition agent_status_handler (fault : nat -> option SqlError) (now : f64) (r : Request) (d : ActivityDb)
    : Response * ActivityDb :=
  match admitted r with
  | inr res => (res, d)
  | inl (p, status) =>
      match value_tree status with
      | Json_object _ as tree =>
          if negb (allows_machine p (Some (row_machine tree))) then (scope_denied p, d)
          else
            match upsert_agent_status fault status now d with
            | (Ok ack, d') =>
                (MkResponse 200 (Json_object [("machine"%string, Json_string (sa_machine ack));
                   ("serverTime"%string, Json_number (json_num (sa_server_time ack)));
                   ("clockSkewSeconds"%string, Json_number (json_num (sa_clock_skew_seconds ack)))]), d')
            | (Err e, d') => (json_error 400 (err_msg e), d')
            end
      | _ => (json_error 400 "expected object", d)
      end
  end.

(** *** The agent's side *)

(** The request [post] makes for a batch of rows. *)
Definition ingest_request (token : string) (rows : list Value) : Request :=
  MkRequest
    (fun name =>
       if String.eqb name "authorization" then if str_is_empty token then None else Some ("Bearer " +:+ token)
       else if String.eqb name "content-type" then Some "application/json" else None)
    None (json_to_string (value_array rows)).

(** [status.is_success()] *)
Definition is_success (r : Response) : bool := (200 <=? rs_status r) && (rs_status r <=? 299).

(** *** What an answer says *)

Definition ok_body (inserted received : Z) : JsonTree :=
  Json_object [("inserted"%string, js_int inserted); ("received"%string, js_int received)].

(** Who may write for which stored machine. *)
Definition may_store (p : Principal) (machine : string) : Prop :=
  match p with
  | Open | Global => True
  | Machine m => machine = m \/ (m = "unknown"%string /\ machine = EmptyString)
  end.

Lemma insert_error_status fault now rows d e d' :
  insert_heartbeats fault now rows d = (Err e, d') -> status_code e = 500.
Proof.
  assert (forall i n table, insert_rows fault now i rows n table = Err e -> status_code e = 500) as Hrows.
  { induction rows as [|row rows IH]; intros i n table; cbn [insert_rows]; [done|].
    destruct (heartbeat_of now (value_tree row)); [|apply IH]. destruct (fault i); [by intros [= <-]|].
    destruct (insert_or_ignore h table). apply IH. }
  unfold insert_heartbeats. destruct (fault 0%nat); [by intros [= <- _]|]. destruct (fault 1%nat); [by intros [= <- _]|].
  destruct (insert_rows fault now 2%nat rows 0 (ad_heartbeats d)) as [[n table]|e'] eqn:Hi; [|intros [= -> _]; by eapply Hrows].
  by destruct (fault (2 + length rows)%nat); [intros [= <- _]|].
Qed.

(** The machine a row is checked under is the one it is stored under. *)
Lemma stored_machine now row h p :
  heartbeat_of now row = Some h -> allows_machine p (Some (row_machine row)) = true -> may_store p (hr_machine h).
Proof.
  unfold heartbeat_of. destruct (finite_time row); [|done]. intros [= <-]. cbn.
  assert (js_string_or (get "machine" row) "unknown" = row_machine row) as -> by done.
  destruct p as [| |m]; [done..|]. cbn [allows_machine may_store hr_machine].
  intros Hm. apply String.eqb_eq in Hm as <-. destruct (row_machine row); [by right|by left].
Qed.

(** The handler, case by case. *)
Record ingested (p : Principal) (rows : list Value) (now : f64) (d : ActivityDb) (new : list Heartbeat) : Prop := {
  ig_added : added now rows (ad_heartbeats d) new;
  ig_scope : Forall (fun h => may_store p (hr_machine h)) new;
}.

Lemma ingest_cases fault now r d res d' :
  table_ok (ad_heartbeats d) -> ingest_handler fault now r d = (res, d') ->
  (exists p parsed rows new, admitted r = inl (p, parsed) /\ value_as_array parsed = Some rows /\
     res = MkResponse 200 (ok_body (Z.of_nat (length new)) (Z.of_nat (length rows))) /\
     d' = set_heartbeats (ad_heartbeats d ++ new) d /\ ingested p rows now d new) \/
  (d' = d /\ rs_status res ∈ [400; 401; 403; 413; 500]).
Proof.
  intros Ht. unfold ingest_handler. destruct (admitted r) as [[p parsed]|e] eqn:Ha.
  2: { intros [= <- <-]. right. split; [done|]. revert Ha. unfold admitted, principal_or_401, read_json, json_error.
       repeat case_match; intros [= <-]; cbn; set_solver. }
  destruct (value_as_array parsed) as [rows|] eqn:Hp; [|intros [= <- <-]; right; split; [done|cbn; set_solver]].
  destruct (existsb _ rows) eqn:Hs; [intros [= <- <-]; right; split; [done|cbn; set_solver]|].
  destruct (insert_heartbeats fault now rows d) as [[n|e] d1] eqn:Hi; intros [= <- <-].
  - destruct (insert_heartbeats_cases _ _ _ _ _ _ Ht Hi) as (new & -> & -> & Hadd). left.
    exists p, parsed, rows, new. split_and!; try done. constructor; [done|].
    apply Forall_forall. intros h Hh. destruct (ad_from _ _ _ _ Hadd h Hh) as (row & h0 & Hin & Hh0 & (id & at_ & ->)).
    cbn. apply (stored_machine now (value_tree row)); [done|]. destruct (allows_machine _ _) eqn:Hall; [done|].
    assert (existsb (fun row => negb (allows_machine p (Some (row_machine (value_tree row))))) rows = true) as Hs'.
    { apply existsb_exists. exists row. split; [by apply list_elem_of_In|by rewrite Hall]. }
    by rewrite Hs' in Hs.
  - pose proof (insert_heartbeats_cases _ _ _ _ _ _ Ht Hi) as ->. right. split; [done|].
    unfold api_error. rewrite (insert_error_status _ _ _ _ _ _ Hi). cbn. set_solver.
Qed.

Lemma ingest_success fault now r d res d' :
  table_ok (ad_heartbeats d) -> ingest_handler fault now r d = (res, d') -> is_success res = true ->
  exists p parsed rows new, admitted r = inl (p, parsed) /\ value_as_array parsed = Some rows /\
    d' = set_heartbeats (ad_heartbeats d ++ new) d /\ ingested p rows now d new.
Proof.
  intros Ht Hi Hs. destruct (ingest_cases _ _ _ _ _ _ Ht Hi) as [(p & parsed & rows & new & H1 & H2 & _ & H3 & H4)|[_ Hst]].
  - by exists p, parsed, rows, new.
  - exfalso. unfold is_success in Hs. apply andb_true_iff in Hs as [Hs1%Z.leb_le Hs2%Z.leb_le]. set_unfold in Hst. lia.
Qed.

(** The batch the agent sends is the batch the server reads. *)
Context {PL : PlatformLaws P}.

Lemma admitted_batch token rows p parsed :
  admitted (ingest_request token rows) = inl (p, parsed) -> value_as_array parsed = Some rows.
Proof.
  unfold admitted. destruct (principal_or_401 _); [|done]. unfold read_json. cbn [rq_body ingest_request].
  destruct (N.ltb _ _); [done|]. rewrite json_utf8 json_roundtrip. intros [= _ <-]. apply as_array_array.
Qed.
End Ingest.
