(* ===== verification/Totals.v ===== *)
(** Grouped totals and day buckets (the rest of crates/stackhour-store/src/summarize.rs)
    and the JSON of a row (lib.rs of the same crate). *)
From S2P Require Import Prelude.
From S2P Require Import RustStr.
From S2P Require Import Float64.
From S2P Require Import Platform.
From S2P Require Import JsNum.
From S2P Require Import JsonTrees.
From S2P Require Import Credits.
From Stdlib Require Import SpecFloat Sorted.

Local Open Scope Z_scope.

(** *** A row as JSON *)

(** [GROUP_FIELDS] *)
Definition GROUP_FIELDS : list string :=
  ["project"; "source"; "machine"; "category"; "language"; "entity"; "actor"; "branch"]%string.

(** [str_or_null] *)
Definition str_or_null (s : option string) : JsonTree := match s with Some v => Json_string v | None => Json_null end.

Definition js_f64 (f : f64) : JsonTree := Json_number (json_num f).
Definition js_i64 (z : Z) : JsonTree := Json_number (Num_int z).

(** [Heartbeat::to_value] *)
Definition to_value (r : Heartbeat) : JsonTree :=
  Json_object [("id", js_i64 (hr_id r)); ("time", js_f64 (hr_time r)); ("machine", Json_string (hr_machine r));
    ("source", Json_string (hr_source r)); ("project", Json_string (hr_project r)); ("entity", Json_string (hr_entity r));
    ("entity_type", Json_string (hr_entity_type r)); ("category", Json_string (hr_category r));
    ("language", str_or_null (hr_language r)); ("branch", str_or_null (hr_branch r));
    ("is_write", js_i64 (hr_is_write r)); ("actor", Json_string (hr_actor r)); ("tokens_in", js_i64 (hr_tokens_in r));
    ("tokens_out", js_i64 (hr_tokens_out r)); ("cost", js_f64 (hr_cost r)); ("created_at", js_f64 (hr_created_at r))]%string.

(** [Heartbeat::field] *)
Definition row_field (r : Heartbeat) (name : string) : option JsonTree :=
  if String.eqb name "project" then Some (Json_string (hr_project r))
  else if String.eqb name "source" then Some (Json_string (hr_source r))
  else if String.eqb name "machine" then Some (Json_string (hr_machine r))
  else if String.eqb name "category" then Some (Json_string (hr_category r))
  else if String.eqb name "language" then Some (str_or_null (hr_language r))
  else if String.eqb name "entity" then Some (Json_string (hr_entity r))
  else if String.eqb name "actor" then Some (Json_string (hr_actor r))
  else if String.eqb name "branch" then Some (str_or_null (hr_branch r))
  else if String.eqb name "entity_type" then Some (Json_string (hr_entity_type r))
  else None.

(** [Heartbeat::field_label] *)
Definition field_label (r : Heartbeat) (name : string) : string :=
  match row_field r name with
  | None | Some Json_null => "unknown"
  | Some (Json_string s) => s
  | Some other => js_display other
  end.

(** [labels] *)
Definition labels (r : Heartbeat) (keys : list string) : list string := map (field_label r) keys.

(** [round2] *)
Definition round2 (x : f64) : f64 := f64_div (js_round_f64 (f64_mul x (f64_of_Z 100))) (f64_of_Z 100).

(** *** [IndexMap] of values, updated with [entry(k).or_insert(d)] *)

Section Entries.
Context {K V A : Type} `{EqDecision K}.

Fixpoint index_entry (k : K) (d : A) (f : A -> A) (l : list (K * A)) : list (K * A) :=
  match l with
  | [] => [(k, f d)]
  | (k', a) :: l' => if decide (k = k') then (k', f a) :: l' else (k', a) :: index_entry k d f l'
  end.

(** What an entry holds after the updates of the values of its group: the first one
    starts from a value of its own. *)
Definition entry_value (d : V -> A) (g : A -> V -> A) (vs : list V) : option A :=
  fold_left (fun o v => Some (g (default (d v) o) v)) vs None.

Lemma entry_value_snoc (d : V -> A) (g : A -> V -> A) vs v :
  entry_value d g (vs ++ [v]) = Some (g (default (d v) (entry_value d g vs)) v).
Proof. unfold entry_value. by rewrite fold_left_app. Qed.

Lemma index_entry_push (key : V -> K) (d : V -> A) (g : A -> V -> A) v l grp :
  map (prod_map id Some) l = map (prod_map id (entry_value d g)) grp ->
  map (prod_map id Some) (index_entry (key v) (d v) (fun a => g a v) l) =
    map (prod_map id (entry_value d g)) (index_push (key v) v grp).
Proof.
  revert grp. induction l as [|[k a] l IH]; intros [|[k' vs] grp] H; try done. cbn [map prod_map] in H.
  assert (k = k' /\ Some a = entry_value d g vs /\ map (prod_map id Some) l = map (prod_map id (entry_value d g)) grp)
    as (-> & Ha & Hl) by (injection H; auto).
  cbn [index_entry index_push]. destruct (decide (key v = k')); cbn [map].
  - f_equal; [|done]. unfold prod_map. cbn [fst snd]. by rewrite entry_value_snoc -Ha.
  - f_equal; [exact (f_equal (pair k') Ha)|]. by apply IH.
Qed.

(** Updating entry by entry is grouping first and folding each group. *)
Lemma index_entry_groups (key : V -> K) (d : V -> A) (g : A -> V -> A) l :
  map (prod_map id Some) (fold_left (fun b v => index_entry (key v) (d v) (fun a => g a v) b) l []) =
    map (prod_map id (entry_value d g)) (group_by key l).
Proof.
  unfold group_by. assert (map (prod_map id Some) (@nil (K * A)) = map (prod_map id (entry_value d g)) []) as H by done.
  revert H. generalize (@nil (K * A)) (@nil (K * list V)).
  induction l as [|v l IH]; intros b grp H; [done|]. cbn [fold_left]. by apply IH, index_entry_push.
Qed.

(** What the map holds, key by key. *)
Lemma index_entry_keys (key : V -> K) (d : V -> A) (g : A -> V -> A) l :
  (fold_left (fun b v => index_entry (key v) (d v) (fun a => g a v) b) l []).*1 = (group_by key l).*1.
Proof.
  pose proof (f_equal (map fst) (index_entry_groups key d g l)) as H. rewrite !map_map in H. exact H.
Qed.

Lemma index_entry_spec (key : V -> K) (d : V -> A) (g : A -> V -> A) l k a :
  (k, a) ∈ fold_left (fun b v => index_entry (key v) (d v) (fun a => g a v) b) l [] <->
    entry_value d g (filter (fun v => key v = k) l) = Some a.
Proof.
  set (b := fold_left _ l []). assert ((k, a) ∈ b <-> (k, Some a) ∈ map (prod_map id Some) b) as ->.
  { rewrite list_elem_of_fmap. split; [intros H; by exists (k, a)|]. by intros ([k' a'] & [= -> ->] & H). }
  unfold b. rewrite index_entry_groups list_elem_of_fmap. split.
  - intros ([k' vs] & [= -> Ha] & Hin). apply group_by_elem in Hin. by subst vs.
  - intros Ha. rewrite -group_by_of in Ha. destruct (decide (k ∈ (group_by key l).*1)) as [Hk|Hk].
    + apply list_elem_of_fmap in Hk as ([k' vs] & -> & Hin). exists (k', vs). cbn in Ha.
      rewrite (group_of_elem k' vs) // in Ha; [apply group_by_NoDup|]. split; [|done]. exact (f_equal (pair k') (eq_sym Ha)).
    + exfalso. unfold group_of in Ha. destruct (List.find _ _) as [e|] eqn:Hf; [|done].
      apply List.find_some in Hf as [Hin%list_elem_of_In He%bool_decide_eq_true]. apply Hk, list_elem_of_fmap. by exists e.
Qed.
End Entries.

(** The keys of a grouping are those of its rows. *)
Lemma group_by_key {K V} `{EqDecision K} (key : V -> K) l v : v ∈ l -> key v ∈ (group_by key l).*1.
Proof.
  intros Hv. assert (v ∈ flat_map snd (group_by key l)) as Hin by by rewrite group_by_perm.
  apply list_elem_of_In, in_flat_map in Hin as ([k vs] & Hg%list_elem_of_In & Hin%list_elem_of_In). cbn in Hin.
  apply list_elem_of_fmap. exists (k, vs). split; [|done]. apply group_by_elem in Hg. subst vs.
  by apply list_elem_of_filter in Hin as [<- _].
Qed.

(** *** Totals *)

(** [Totals] *)
Record Totals := MkTotals { tt_seconds : f64; tt_tokens : f64; tt_cost : f64 }.
Definition no_totals : Totals := MkTotals f64_zero f64_zero f64_zero.

Definition row_tokens (r : Heartbeat) : f64 := f64_add (f64_of_Z (hr_tokens_in r)) (f64_of_Z (hr_tokens_out r)).

Definition totals_add (t : Totals) (c : Credited) : Totals :=
  MkTotals (f64_add (tt_seconds t) (cr_credit c)) (f64_add (tt_tokens t) (row_tokens (cr_row c)))
    (f64_add (tt_cost t) (hr_cost (cr_row c))).

(** The keys of a bucket and their labels, put after its numbers. *)
Definition with_labels (keys parts : list string) (obj : list (string * JsonTree)) : list (string * JsonTree) :=
  fold_left (fun obj kp => object_insert kp.1 (Json_string kp.2) obj) (combine keys parts) obj.

(** One bucket as an object. *)
Definition totals_value (keys : list string) (b : list string * Totals) : Z * JsonTree :=
  let seconds := js_round (tt_seconds b.2) in
  (seconds, Json_object (with_labels keys b.1
     [("seconds", js_f64 (f64_of_Z seconds)); ("tokens", js_f64 (tt_tokens b.2));
      ("cost", js_f64 (round2 (tt_cost b.2)))]%string)).

Definition totals_buckets (rows : list Credited) (keys : list string) : list (list string * Totals) :=
  fold_left (fun b c => index_entry (labels (cr_row c) keys) no_totals (fun t => totals_add t c) b) rows [].

(** [totals_by] *)
Definition totals_by (rows : list Credited) (keys : list string) : list JsonTree :=
  map snd (sort_by (fun a b : Z * JsonTree => b.1 <? a.1) (map (totals_value keys) (totals_buckets rows keys))).

(** [Segment::to_value] *)
Definition segment_value (s : Segment) : JsonTree :=
  Json_object [("project", Json_string (sg_project s)); ("actor", Json_string (sg_actor s)); ("start", js_f64 (sg_start s));
    ("end", js_f64 (sg_end s)); ("seconds", js_f64 (f64_of_Z (js_round (sg_seconds s))));
    ("sources", Json_array (map Json_string (sg_sources s)))]%string.

(** *** Days *)

(** [js_day_compare] and [day_sort_ordering] *)
Definition js_day_compare (a b : string) : Z := if String.ltb a b then -1 else 1.
Definition day_sort_ordering (a b : string) : comparison :=
  if js_day_compare a b <? 0 then Lt else if String.eqb a b then Eq else Gt.

Section Days.
(** chrono: the date [n] days after 1970-01-01 as text, when its calendar has one. *)
Context (date_text : Z -> option string).

(** [day_string] *)
Definition day_string (time : f64) (tz_min : Z) : string :=
  let ms := f64_mul (f64_sub time (f64_mul (f64_of_Z tz_min) (f64_of_Z 60))) (f64_of_Z 1000) in
  if negb (f64_is_finite ms) || f64_lt (f64_of_Z 8640000000000000) (f64_abs ms) then "Invalid Date"
  else
    let days := f64_to_i64 (f64_trunc ms) / 86400000 in
    default "Invalid Date"%string (date_text days).

Definition day_key (keys : list string) (tz_min : Z) (c : Credited) : list string :=
  day_string (hr_time (cr_row c)) tz_min :: labels (cr_row c) keys.

Definition day_value (keys : list string) (b : list string * f64) : string * JsonTree :=
  let date := default EmptyString (head b.1) in
  (date, Json_object (with_labels keys (tail b.1)
     [("date", Json_string date); ("seconds", js_f64 (f64_of_Z (js_round b.2)))]%string)).

Definition day_rows (rows : list Credited) (keys : list string) (tz_min : Z) : list (list string * f64) :=
  fold_left (fun b c => index_entry (day_key keys tz_min c) f64_zero (fun s => f64_add s (cr_credit c)) b) rows [].

(** [day_buckets] *)
Definition day_buckets (rows : list Credited) (keys : list string) (tz_min : Z) : list JsonTree :=
  map snd (sort_by (fun a b : string * JsonTree => match day_sort_ordering a.1 b.1 with Lt => true | _ => false end)
             (map (day_value keys) (day_rows rows keys tz_min))).
End Days.

(** *** What the buckets are *)

(** The rows of a bucket, in their order. *)
Definition with_label (keys k : list string) (rows : list Credited) : list Credited :=
  filter (fun c => labels (cr_row c) keys = k) rows.

(** From a fixed start the first value is no different. *)
Lemma entry_value_fixed {V A} (d : A) (g : A -> V -> A) vs :
  entry_value (fun _ => d) g vs = match vs with [] => None | _ => Some (fold_left g vs d) end.
Proof.
  destruct vs as [|v vs]; [done|]. unfold entry_value. cbn [fold_left default from_option]. generalize (g d v).
  induction vs as [|w vs IH]; intros a; [done|]. by apply IH.
Qed.

Lemma totals_buckets_spec rows keys k t :
  (k, t) ∈ totals_buckets rows keys <-> with_label keys k rows <> [] /\ t = fold_left totals_add (with_label keys k rows) no_totals.
Proof.
  unfold totals_buckets.
  rewrite (index_entry_spec (fun c => labels (cr_row c) keys) (fun _ => no_totals) totals_add) entry_value_fixed.
  unfold with_label. destruct (filter _ rows); [by split; [|intros []]|]. split; [by intros [= <-]|by intros [_ ->]].
Qed.

Lemma totals_buckets_NoDup rows keys : NoDup (totals_buckets rows keys).*1.
Proof.
  unfold totals_buckets. rewrite (index_entry_keys (fun c => labels (cr_row c) keys) (fun _ => no_totals) totals_add).
  apply group_by_NoDup.
Qed.

(** Sorting after rendering, by what the rendering keeps. *)
Lemma sort_by_map {A B} (f : A -> B) (before : B -> B -> bool) l :
  sort_by before (map f l) = map f (sort_by (fun a b => before (f a) (f b)) l).
Proof.
  assert (forall x acc, insert_by before (f x) (map f acc) = map f (insert_by (fun a b => before (f a) (f b)) x acc)) as Hi.
  { intros x acc. induction acc as [|y acc IH]; cbn; [done|]. destruct (before (f x) (f y)); cbn; [done|]. by rewrite IH. }
  unfold sort_by. change (@nil B) with (map f []). generalize (@nil A).
  induction l as [|x l IH]; intros acc; [done|]. cbn [map fold_left]. by rewrite Hi IH.
Qed.

(** The buckets from the most seconds to the least, in the rounded value. *)
Definition more_seconds (a b : list string * Totals) : bool := js_round (tt_seconds b.2) <? js_round (tt_seconds a.2).
Definition sorted_buckets (rows : list Credited) (keys : list string) : list (list string * Totals) :=
  sort_by more_seconds (totals_buckets rows keys).

Lemma totals_by_sorted rows keys :
  totals_by rows keys = map (fun b => (totals_value keys b).2) (sorted_buckets rows keys).
Proof. unfold totals_by. rewrite sort_by_map map_map. done. Qed.

Lemma sorted_buckets_ordered rows keys :
  StronglySorted (fun a b => js_round (tt_seconds b.2) <= js_round (tt_seconds a.2)) (sorted_buckets rows keys).
Proof.
  assert (ordered more_seconds (sorted_buckets rows keys)) as H.
  { apply (sort_by_ordered more_seconds (fun _ => True)); unfold more_seconds; [| |by apply Forall_true].
    - intros x y _ _. rewrite Z.ltb_lt Z.ltb_ge. lia.
    - intros x y z _ _ _. rewrite !Z.ltb_ge. lia. }
  induction H as [|a l _ IH Hall]; constructor; [done|]. eapply Forall_impl; [exact Hall|]. intros b. unfold more_seconds.
  by rewrite Z.ltb_ge.
Qed.
