(* ===== verification/ReadApi.v ===== *)
(** The read routes of the activity server (crates/stackhour-server/src/read_api.rs and
    detail.rs, with the token check and the startup lines of lib.rs). *)
From S2P Require Import Prelude.
From S2P Require Import RustStr.
From S2P Require Import Float64.
From S2P Require Import Platform.
From S2P Require Import JsNum.
From S2P Require Import JsonTrees.
From S2P Require Import Config.
From S2P Require Import Credits.
From S2P Require Import Reattribute.
From S2P Require Import Heartbeats.
From S2P Require Import Auth.
From S2P Require Import Ingest.
From S2P Require Import Totals.
From Stdlib Require Import SpecFloat Ascii.

Local Open Scope Z_scope.

(** [f64]'s [Sum], which starts from the negative zero. *)
Definition f64_sum (l : list f64) : f64 := fold_left f64_add l (S754_zero true).

(** [i64] subtraction *)
Definition i64_sub (a b : Z) : Z := (a - b + 2 ^ 63) mod 2 ^ 64 - 2 ^ 63.

(** [has_configured_tokens] *)
Definition has_configured_tokens (cfg : Config) : bool :=
  if negb (str_is_empty (sc_token (cf_server cfg))) then true
  else
    match get "server" (cf_raw cfg) ≫= get "tokens" with
    | Some (Json_object m) => match m with [] => false | _ => true end
    | _ => false
    end.

(** [startup_lines] *)
Definition startup_lines (cfg : Config) : list string :=
  (("[stackhour] server listening on http://" +:+ sc_host (cf_server cfg) +:+ ":" +:+
    pretty.pretty (sc_port (cf_server cfg)) +:+ " (db: " +:+ sc_db (cf_server cfg) +:+ ")") ::
   if has_configured_tokens cfg then []
   else ["[stackhour] WARNING: no server tokens configured — ingest is open to anyone who can reach this port"])%string.

(** *** Queries *)

(** [Query::get]: the first occurrence. *)
Definition Query := list (string * string).
Definition query_get (q : Query) (name : string) : option string := assoc name q.

(** [group_by] of read_api.rs *)
Definition group_keys (raw : option string) : list string :=
  let raw := match raw with Some s => if str_is_empty s then "project"%string else s | None => "project"%string end in
  let picked := omap (fun part => List.find (fun f => String.eqb f part) GROUP_FIELDS) (split_byte "," raw) in
  match picked with [] => ["project"%string] | _ => picked end.

(** *** Bodies *)

(** Seconds credited to all rows and to those of people. *)
Definition total_of (credited : list Credited) : Z := js_round (f64_sum (map cr_credit credited)).
Definition human_total_of (credited : list Credited) : Z :=
  js_round (f64_sum (map cr_credit (List.filter (fun c => negb (String.eqb (hr_actor (cr_row c)) "agent")) credited))).

Section Days.
Context (date_text : Z -> option string).

(** [summary_body] *)
Definition summary_body (from to : f64) (rows : list Heartbeat) (credited : list Credited) (keys : list string) (tz : f64)
    : JsonTree :=
  let total := total_of credited in
  let human_total := human_total_of credited in
  let total_cost := round2 (f64_sum (map hr_cost rows)) in
  let total_tokens := f64_sum (map row_tokens rows) in
  Json_object [("from", js_f64 from); ("to", js_f64 to); ("total", js_i64 total); ("humanTotal", js_i64 human_total);
    ("agentTotal", js_i64 (i64_sub total human_total)); ("totalCost", js_f64 total_cost);
    ("totalTokens", js_f64 total_tokens); ("totals", Json_array (totals_by credited keys));
    ("days", Json_array (day_buckets date_text credited keys (f64_to_i64 tz)))]%string.
End Days.

(** The key of [now_rows]. *)
Definition now_key (r : Heartbeat) : string * string * string * string :=
  (hr_actor r, hr_project r, hr_source r, hr_machine r).
(** One row of its loop: kept when it is later than the one there. *)
Definition keep_later (r prev : Heartbeat) : Heartbeat := if f64_le (hr_time r) (hr_time prev) then prev else r.
Definition now_view (r : Heartbeat) : JsonTree :=
  Json_object [("actor", Json_string (hr_actor r)); ("project", Json_string (hr_project r));
    ("source", Json_string (hr_source r)); ("machine", Json_string (hr_machine r)); ("time", js_f64 (hr_time r));
    ("entity", Json_string (hr_entity r))]%string.

(** [f64::total_cmp(b, a) == Less] of times that are numbers: a negative zero is before
    a positive one. *)
Definition total_lt (a b : f64) : bool :=
  f64_lt a b || match a, b with S754_zero true, S754_zero false => true | _, _ => false end.
Definition time_desc (a b : Heartbeat) : bool := total_lt (hr_time b) (hr_time a).

(** [now_rows] *)
Definition now_picked (rows : list Heartbeat) : list Heartbeat :=
  map snd (fold_left (fun seen r => index_entry (now_key r) r (keep_later r) seen) rows []).
Definition now_rows (rows : list Heartbeat) : list JsonTree := map now_view (sort_by time_desc (now_picked rows)).

(** [recent_with_context] *)
Definition by_id (rows : list Heartbeat) : list (Z * Heartbeat) :=
  fold_left (fun m r => index_entry (hr_id r) r (fun _ => r) m) rows [].
Definition row_by_id (id : Z) (m : list (Z * Heartbeat)) : option Heartbeat :=
  snd <$> List.find (fun e => e.1 =? id) m.
Definition page_context (selected : list Heartbeat) (window : f64) (d : ActivityDb) : list Heartbeat :=
  let min_time := fold_left (fun m r => f64_min m (hr_time r)) selected f64_infinity in
  let max_time := fold_left (fun m r => f64_max m (hr_time r)) selected (S754_infinity true) in
  rows_in_range (f64_sub min_time window) (f64_add max_time window) d.
Definition recent_with_context (limit : Z) (window : f64) (d : ActivityDb) : list Heartbeat :=
  let selected := recent_page limit d in
  match selected with
  | [] => selected
  | _ =>
      let m := by_id (reattribute_file_saves (page_context selected window d) window) in
      map (fun r => default r (row_by_id (hr_id r) m)) selected
  end.

(** [select_wakatime_days]: ORDER BY date, project *)
Definition day_before (a b : DayRow) : bool :=
  String.ltb (dy_date a) (dy_date b) || (String.eqb (dy_date a) (dy_date b) && String.ltb (dy_project a) (dy_project b)).
Definition day_view (r : DayRow) : JsonTree :=
  Json_object [("date", Json_string (dy_date r)); ("project", Json_string (dy_project r)); ("seconds", js_f64 (dy_seconds r))]%string.
Definition select_wakatime_days (d : ActivityDb) : list JsonTree := map day_view (sort_by day_before (ad_days d)).

(** *** detail.rs *)

Definition RECENT_LIMIT : nat := 50.
Definition BREAKDOWN_LIMIT : nat := 20.

(** [selector] *)
Definition selector (q : Query) : option (string * string) :=
  let dimension := default EmptyString (query_get q "dimension") in
  value ← query_get q "value";
  if negb (existsb (String.eqb dimension) GROUP_FIELDS) then None else Some (dimension, value).

(** [matches] *)
Definition detail_matches (r : Heartbeat) (dimension value : string) : bool :=
  if str_is_empty value then match row_field r dimension with None | Some Json_null => true | _ => false end
  else String.eqb (field_label r dimension) value.

(** [build_body] *)
Definition build_body (from to : f64) (dimension value : string) (raw : list Heartbeat) (credited : list Credited)
    (join_gap : f64) : JsonTree :=
  let selected_rows := List.filter (fun r => detail_matches r dimension value) raw in
  let selected_credits := List.filter (fun c => detail_matches (cr_row c) dimension value) credited in
  let total := total_of selected_credits in
  let human_total := human_total_of selected_credits in
  let breakdowns := omap (fun f => if String.eqb f dimension then None
    else Some (f, Json_array (firstn BREAKDOWN_LIMIT (totals_by selected_credits [f])))) GROUP_FIELDS in
  let total_cost := f64_sum (map hr_cost selected_rows) in
  let total_tokens := f64_sum (map row_tokens selected_rows) in
  Json_object [("from", js_f64 from); ("to", js_f64 to); ("dimension", Json_string dimension); ("value", Json_string value);
    ("total", js_i64 total); ("humanTotal", js_i64 human_total); ("agentTotal", js_i64 (i64_sub total human_total));
    ("totalCost", js_f64 (round2 total_cost)); ("totalTokens", js_f64 total_tokens);
    ("breakdowns", Json_object breakdowns);
    ("segments", Json_array (map segment_value (build_segments selected_credits join_gap)));
    ("recent", Json_array (map to_value (firstn RECENT_LIMIT (sort_by time_desc selected_rows))))]%string.

(** *** Handlers *)

Section Handlers.
Context {P : Platform}.
Context (form_pairs : string -> list (string * string)).
Context (date_text : Z -> option string).

(** The loaded configuration and the version of the crate. *)
Context (cfg : Config) (version : string).

(** A read request; the database task of a handler, which may fail, is one access. *)
Definition parse_query (raw : option string) : Query := form_pairs (default EmptyString raw).
Definition with_db {A} (failed : option Error) (f : ActivityDb -> A) (d : ActivityDb) : Result A :=
  match failed with Some e => Err e | None => Ok (f d) end.
Definition answer {A} (r : Result A) (body : A -> JsonTree) : Response :=
  match r with Ok a => MkResponse 200 (body a) | Err e => api_error e end.

(** [read_guard] *)
Definition read_guard (headers : Headers) (raw : option string) : option Response :=
  if negb (has_configured_tokens cfg) then None
  else
    let server_cfg := default Json_null (get "server" (cf_raw cfg)) in
    match authenticate form_pairs headers (default EmptyString raw) server_cfg with
    | Some _ => None
    | None => Some (json_error 401 "unauthorized")
    end.

(** The guard at the head of a handler. *)
Definition guarded (headers : Headers) (raw : option string) (handler : Response) : Response :=
  default handler (read_guard headers raw).

(** [health] *)
Definition health : Response := MkResponse 200 (Json_object [("ok", Json_bool true); ("version", Json_string version)]%string).

(** [auth_check] *)
Definition auth_check (headers : Headers) (raw : option string) : Response :=
  let server_cfg := default Json_null (get "server" (cf_raw cfg)) in
  match authenticate form_pairs headers (default EmptyString raw) server_cfg with
  | None => json_error 401 "unauthorized"
  | Some principal =>
      let machine := match principal with Machine m => Json_string m | Open | Global => Json_null end in
      MkResponse 200 (Json_object [("ok", Json_bool true); ("version", Json_string version); ("machine", machine)]%string)
  end.

(** [agent_status] *)
Definition agent_status (failed : option Error) (now : f64) (headers : Headers) (raw : option string) (d : ActivityDb)
    : Response :=
  guarded headers raw (answer (with_db failed (list_agent_status now) d) Json_array).

(** The rows of a range and their credits. *)
Definition credits_of (rows : list Heartbeat) : list Credited :=
  compute_credits rows (su_cap_seconds (cf_summary cfg)) (su_last_event_credit_seconds (cf_summary cfg)).
Definition window_of : f64 := su_reattribute_window_seconds (cf_summary cfg).

(** [days], [to] and [from] of /api/summary and /api/detail *)
Definition range_of (q : Query) (now : f64) (default_days : Z) : f64 * f64 :=
  let days := number_param (query_get q "days") (f64_of_Z default_days) (Some (f64_of_Z 1)) (Some (f64_of_Z 366)) in
  let to := number_param (query_get q "to") now None None in
  (number_param (query_get q "from") (f64_sub to (f64_mul days (f64_of_Z 86400))) None None, to).

(** [summary] *)
Definition summary (failed : option Error) (now : f64) (headers : Headers) (raw : option string) (d : ActivityDb)
    : Response :=
  guarded headers raw
    (let q := parse_query raw in
     let '(from, to) := range_of q now 1 in
     let keys := group_keys (query_get q "groupBy") in
     let tz := number_param (query_get q "tz") f64_zero (Some (f64_of_Z (-1440))) (Some (f64_of_Z 1440)) in
     answer (with_db failed (reattributed_range from to window_of) d)
       (fun rows => summary_body date_text from to rows (credits_of rows) keys tz)).

(** [now] *)
Definition now_handler (failed : option Error) (now : f64) (headers : Headers) (raw : option string) (d : ActivityDb)
    : Response :=
  guarded headers raw
    (let q := parse_query raw in
     let window_s := number_param (query_get q "window") (f64_of_Z 150) (Some (f64_of_Z 1)) (Some (f64_of_Z 86400)) in
     answer (with_db failed (reattributed_range (f64_sub now window_s) now window_of) d) (fun rows => Json_array (now_rows rows))).

(** [timeline] *)
Definition timeline (failed : option Error) (now : f64) (headers : Headers) (raw : option string) (d : ActivityDb)
    : Response :=
  guarded headers raw
    (let q := parse_query raw in
     let hours := number_param (query_get q "hours") (f64_of_Z 24) (Some (f64_div (f64_of_Z 1) (f64_of_Z 60)))
                    (Some (f64_mul (f64_of_Z 24) (f64_of_Z 14))) in
     let to := number_param (query_get q "to") now None None in
     let from := f64_sub to (f64_mul hours (f64_of_Z 3600)) in
     answer (with_db failed (reattributed_range from to window_of) d)
       (fun rows => Json_object [("from", js_f64 from); ("to", js_f64 to);
          ("segments", Json_array (map segment_value
             (build_segments (credits_of rows) (su_join_gap_seconds (cf_summary cfg)))))]%string)).

(** [recent] *)
Definition recent (failed : option Error) (headers : Headers) (raw : option string) (d : ActivityDb) : Response :=
  guarded headers raw
    (let q := parse_query raw in
     let limit := f64_to_i64 (f64_floor (number_param (query_get q "limit") (f64_of_Z 50) (Some (f64_of_Z 1))
                    (Some (f64_of_Z 500)))) in
     answer (with_db failed (recent_with_context limit window_of) d) (fun rows => Json_array (map to_value rows))).

(** [wakatime_days] *)
Definition wakatime_days (failed : option Error) (headers : Headers) (raw : option string) (d : ActivityDb) : Response :=
  guarded headers raw (answer (with_db failed select_wakatime_days d) Json_array).

(** [detail] *)
Definition detail (failed : option Error) (now : f64) (headers : Headers) (raw : option string) (d : ActivityDb)
    : Response :=
  guarded headers raw
    (let q := parse_query raw in
     match selector q with
     | None => json_error 400 "dimension and value are required"
     | Some (dimension, value) =>
         let '(from, to) := range_of q now 7 in
         answer (with_db failed (reattributed_range from to window_of) d)
           (fun rows => build_body from to dimension value rows (credits_of rows) (su_join_gap_seconds (cf_summary cfg)))
     end).

(** *** The router *)

(** The routes that read; the dashboard's files and the WakaTime imports apart. *)
Inductive Route := R_health | R_auth_check | R_summary | R_now | R_timeline | R_recent | R_wakatime_days | R_agent_status | R_detail.
Definition route_of (path : string) : option Route :=
  if String.eqb path "/api/health" then Some R_health
  else if String.eqb path "/api/auth-check" then Some R_auth_check
  else if String.eqb path "/api/summary" then Some R_summary
  else if String.eqb path "/api/now" then Some R_now
  else if String.eqb path "/api/timeline" then Some R_timeline
  else if String.eqb path "/api/recent" then Some R_recent
  else if String.eqb path "/api/wakatime-days" then Some R_wakatime_days
  else if String.eqb path "/api/agent-status" then Some R_agent_status
  else if String.eqb path "/api/detail" then Some R_detail
  else None.

(** The answer of a route to GET. *)
Definition serve (route : Route) (failed : option Error) (now : f64) (headers : Headers) (raw : option string)
    (d : ActivityDb) : Response :=
  match route with
  | R_health => health
  | R_auth_check => auth_check headers raw
  | R_summary => summary failed now headers raw d
  | R_now => now_handler failed now headers raw d
  | R_timeline => timeline failed now headers raw d
  | R_recent => recent failed headers raw d
  | R_wakatime_days => wakatime_days failed headers raw d
  | R_agent_status => agent_status failed now headers raw d
  | R_detail => detail failed now headers raw d
  end.

(** [build_router] and [reject_head] on these paths: HEAD is refused before routing and
    any other method is not found; [None] where another group of routes answers. *)
Definition respond (verb path : string) (failed : option Error) (now : f64) (headers : Headers) (raw : option string)
    (d : ActivityDb) : option Response :=
  if String.eqb verb "HEAD" then Some (json_error 404 "not found")
  else
    route ← route_of path;
    if String.eqb verb "GET" then Some (serve route failed now headers raw d)
    else if String.eqb path "/api/agent-status" && String.eqb verb "POST" then None
    else Some (json_error 404 "not found").
End Handlers.
