(* ===== verification/AgentQueue.v ===== *)
(** The agent's offline queue (crates/stackhour-agent/src/queue.rs) and the part
    of its tick that moves heartbeats (lib.rs, [tick]): from the watchers to the
    queue file, to the server and off the file. The file is its bytes; the
    watchers and the network are parameters. *)
From S2P Require Import Prelude.
From S2P Require Import RustStr.
From S2P Require Import Platform.
From Stdlib Require Import Ascii.

Section AgentQueue.
Context {P : Platform}.

(** *** queue.jsonl *)

(** [MAX_SEND_BYTES] *)
Definition MAX_SEND_BYTES : N := 4 * 1024 * 1024.

(** [read_queue]: nothing when there is no file or it is not UTF-8. *)
Definition read_queue (file : option string) : list Value :=
  match file with
  | None => []
  | Some text => if utf8_valid text then omap json_from_str (full_lines LF text) else []
  end.

(** [encode] *)
Fixpoint encode_rows (rows : list Value) : string :=
  match rows with
  | [] => EmptyString
  | [row] => json_to_string row
  | row :: rest => json_to_string row +:+ String LF (encode_rows rest)
  end.
Definition encode (rows : list Value) : string := encode_rows rows +:+ String LF EmptyString.

(** [append_queue], when the write succeeds. *)
Definition append_queue (file : option string) (rows : list Value) : option string :=
  match rows with [] => file | _ => Some (default EmptyString file +:+ encode rows) end.

(** [save_queue], when it succeeds: the file is replaced, or removed. *)
Definition save_queue (rows : list Value) : option string :=
  match rows with [] => None | _ => Some (encode rows) end.

(** [take_send_batch] *)
Fixpoint take_from (pending : list Value) (budget count bytes : N) : N :=
  match pending with
  | [] => count
  | row :: rest =>
      let row_bytes := (str_len (json_to_string row) + (if (0 <? count)%N then 1 else 0))%N in
      if ((0 <? count) && (budget <? bytes + row_bytes))%N then count
      else take_from rest budget (count + 1) (bytes + row_bytes)
  end.
Definition take_send_batch (pending : list Value) (budget : N) : N := take_from pending budget 0 2.

(** *** The tick *)

(** [Map::insert] on the entries in order: in place, or at the end. *)
Fixpoint map_insert (k : string) (v : Value) (l : list (string * Value)) : list (string * Value) :=
  match l with
  | [] => [(k, v)]
  | (k', v') :: l' => if String.eqb k k' then (k, v) :: l' else (k', v') :: map_insert k v l'
  end.

(** The stamp [{ machine, ...row }]. *)
Definition stamp (machine : string) (row : Value) : Value :=
  value_object
    (fold_left (fun out e => map_insert e.1 e.2 out) (default [] (value_as_object row))
       [("machine"%string, value_str machine)]).

(** The watchers of one machine: what they hand over from a saved state, and the
    state they leave; [covered] is everything handed over up to a state. *)
Class Watchers := {
  WState : Type;
  watchers_run : nat -> WState -> list Value * WState;
  covered : WState -> list Value;
  covered_run t st : covered (watchers_run t st).2 = covered st ++ (watchers_run t st).1;
}.

Context {W : Watchers}.
Context (machine : string).

(** What a tick leaves behind: the queue file, the watchers' saved state, and
    the rows the server has taken in. *)
Record Disk := MkDisk { dk_queue : option string; dk_state : WState; dk_server : list Value }.

(** How the request to the server ends: it never arrives, its answer is lost, or
    it is confirmed. *)
Inductive Sent := Unreached | Unanswered | Confirmed.

Definition set_queue (q : option string) (d : Disk) : Disk := MkDisk q (dk_state d) (dk_server d).

(** The durable effects of a tick, in order; [t] names the moment it runs. A
    write that fails leaves its file as it was. *)
Definition fresh_rows (t : nat) (d : Disk) : list Value := map (stamp machine) (watchers_run t (dk_state d)).1.

Definition persist_rows (ok : bool) (t : nat) (d : Disk) : Disk :=
  if ok then set_queue (append_queue (dk_queue d) (fresh_rows t d)) d else d.

Definition persist_state (ok : bool) (t : nat) (d : Disk) : Disk :=
  if ok then MkDisk (dk_queue d) (watchers_run t (dk_state d)).2 (dk_server d) else d.

Definition send_pending (sent : Sent) (saved : bool) (pending : list Value) (d : Disk) : Disk :=
  match pending with
  | [] => d
  | _ =>
      let take := N.to_nat (take_send_batch pending MAX_SEND_BYTES) in
      let taken := MkDisk (dk_queue d) (dk_state d) (dk_server d ++ firstn take pending) in
      match sent with
      | Unreached => d
      | Unanswered => taken
      | Confirmed => if saved then set_queue (save_queue (skipn take pending)) taken else taken
      end
  end.

(** How far a tick gets before the process dies. *)
Inductive Reached := After_load | After_append | After_state | Whole.

(** [tick], from the disk it finds to the disk it leaves. *)
Definition tick (t : nat) (appended stated : bool) (sent : Sent) (saved : bool) (upto : Reached) (d : Disk) : Disk :=
  let pending := read_queue (dk_queue d) ++ fresh_rows t d in
  let d1 := persist_rows appended t d in
  let d2 := MkDisk (dk_queue d1) (dk_state (persist_state stated t d)) (dk_server d1) in
  match upto with
  | After_load => d
  | After_append => d1
  | After_state => d2
  | Whole => send_pending sent saved pending d2
  end.

(** *** The file *)

Context {PL : PlatformLaws P}.

Lemma str_nonempty_json v : str_is_empty (json_to_string v) = false.
Proof.
  destruct (json_to_string v) eqn:Hs; [|done]. pose proof (json_roundtrip v) as H. by rewrite Hs json_empty in H.
Qed.

Lemma encode_cons row rest :
  rest <> [] -> encode (row :: rest) = json_to_string row +:+ String LF (encode rest).
Proof.
  intros Hr. unfold encode. destruct rest as [|r2 rest]; [done|]. cbn [encode_rows].
  change (encode_rows (row :: r2 :: rest)) with (json_to_string row +:+ String LF (encode_rows (r2 :: rest))).
  by rewrite str_app_assoc.
Qed.

Lemma lines_encode rows : omap json_from_str (full_lines LF (encode rows)) = rows.
Proof.
  assert (forall row, full_lines LF (encode [row]) = [json_to_string row]) as Hone.
  { intros row. unfold encode. cbn [encode_rows]. rewrite full_lines_app.
    rewrite full_lines_one; [apply json_one_line|apply str_nonempty_json|done]. }
  induction rows as [|row [|r2 rest] IH]; [done| |].
  - rewrite Hone. cbn. by rewrite json_roundtrip.
  - rewrite encode_cons // full_lines_app full_lines_one; [apply json_one_line|apply str_nonempty_json|].
    cbn [app omap list_omap]. by rewrite json_roundtrip IH.
Qed.

Lemma encode_utf8 rows : utf8_valid (encode rows) = true.
Proof.
  assert (forall row, utf8_valid (encode [row]) = true) as Hone.
  { intros row. apply utf8_valid_app; [apply json_utf8|done]. }
  induction rows as [|row [|r2 rest] IH]; [done|apply Hone|].
  rewrite encode_cons //. apply utf8_valid_app; [apply json_utf8|]. exact IH.
Qed.

(** A file is framed when every line of it is complete. *)
Definition framed (file : option string) : Prop :=
  match file with
  | None => True
  | Some text => utf8_valid text = true /\ (text = EmptyString \/ exists s, text = s +:+ String LF EmptyString)
  end.

Lemma read_saved rows : read_queue (save_queue rows) = rows.
Proof. destruct rows as [|r rows]; [done|]. unfold read_queue, save_queue. by rewrite encode_utf8 lines_encode. Qed.

Lemma framed_saved rows : framed (save_queue rows).
Proof. destruct rows as [|r rows]; [done|]. split; [apply encode_utf8|]. right. by eexists. Qed.

Lemma full_lines_ended s t :
  full_lines LF ((s +:+ String LF EmptyString) +:+ t) = full_lines LF (s +:+ String LF EmptyString) ++ full_lines LF t.
Proof.
  rewrite full_lines_app.
  assert ((s +:+ String LF EmptyString) +:+ t = s +:+ String LF t) as ->.
  { by rewrite str_app_assoc. }
  rewrite full_lines_app. by rewrite (app_nil_r (full_lines LF s)).
Qed.

(** Appending to a framed file adds exactly the rows. *)
Lemma read_appended file rows :
  framed file -> framed (append_queue file rows) /\ read_queue (append_queue file rows) = read_queue file ++ rows.
Proof.
  intros Hf. destruct rows as [|r rows]; [split; [done|by rewrite app_nil_r]|].
  unfold append_queue. set (rows' := r :: rows).
  destruct file as [text|]; cbn [default from_option id].
  - destruct Hf as [Hu He]. assert (utf8_valid (text +:+ encode rows') = true) as Hu'.
    { apply utf8_valid_app; [done|apply encode_utf8]. }
    unfold read_queue. rewrite Hu Hu'. destruct He as [->|[s ->]].
    + split; [split; [done|right; by eexists]|]. cbn. apply lines_encode.
    + split; [split; [done|right]|].
      * exists ((s +:+ String LF EmptyString) +:+ encode_rows rows'). unfold encode.
        by rewrite !str_app_assoc.
      * by rewrite full_lines_ended omap_app lines_encode.
  - split; [split; [apply encode_utf8|right; by eexists]|]. cbn [read_queue].
    change (EmptyString +:+ encode rows') with (encode rows'). by rewrite encode_utf8 lines_encode.
Qed.

(** *** The batch *)

(** The length of the JSON array of the rows. *)
Definition row_bytes (row : Value) : N := str_len (json_to_string row).
Definition body_bytes (rows : list Value) : N :=
  match rows with
  | [] => 2
  | row :: rest => (2 + row_bytes row + fold_right (fun r n => row_bytes r + 1 + n) 0 rest)%N
  end.

Definition more_bytes (rows : list Value) : N := (fold_right (fun r n => row_bytes r + 1 + n) 0 rows)%N.

(** Past the first row, as many as fit and no more. *)
Lemma take_from_spec pending budget count bytes :
  (0 < count)%N ->
  exists k, take_from pending budget count bytes = (count + N.of_nat k)%N /\ (k <= length pending)%nat /\
    (k <> 0%nat -> (bytes + more_bytes (firstn k pending) <= budget)%N) /\
    ((k < length pending)%nat -> (budget < bytes + more_bytes (firstn (S k) pending))%N).
Proof.
  revert count bytes. induction pending as [|row rest IH]; intros count bytes Hc; cbn [take_from].
  { exists 0%nat. split; [cbn; lia|]. cbn. split_and!; lia. }
  rewrite (proj2 (N.ltb_lt 0 count) Hc). cbn [andb]. fold (row_bytes row).
  destruct (N.ltb_spec budget (bytes + (row_bytes row + 1))) as [Hlt|Hge].
  - exists 0%nat. cbn [firstn more_bytes fold_right length]. split_and!; lia.
  - destruct (IH (count + 1)%N (bytes + (row_bytes row + 1))%N ltac:(lia)) as (k & -> & Hk & Hfit & Hmax).
    exists (S k). cbn [length firstn]. unfold more_bytes in *. cbn [fold_right]. split_and!; try lia.
    + intros _. destruct k as [|k]; [change (take 0 rest) with (@nil Value); cbn [foldr]; lia|]. specialize (Hfit ltac:(lia)). lia.
Qed.

Lemma batch_spec row rest budget :
  exists k, take_send_batch (row :: rest) budget = N.of_nat (S k) /\ (k <= length rest)%nat /\
    (k <> 0%nat -> (body_bytes (row :: firstn k rest) <= budget)%N) /\
    ((k < length rest)%nat -> (budget < body_bytes (row :: firstn (S k) rest))%N).
Proof.
  unfold take_send_batch. cbn [take_from N.ltb]. change ((0 <? 0)%N) with false. cbn [andb].
  destruct (take_from_spec rest budget (0 + 1) (2 + (str_len (json_to_string row) + 0)) ltac:(lia))
    as (k & -> & Hk & Hfit & Hmax).
  exists k. unfold body_bytes, more_bytes in *. fold (row_bytes row) in *. split_and!; lia.
Qed.

(** *** No row is lost *)

(** One tick, whatever succeeds and wherever it is cut short; but a tick that
    goes on past its append has written it. *)
Definition agent_step (d d' : Disk) : Prop :=
  exists t appended stated sent saved upto,
    (upto = After_state \/ upto = Whole -> appended = true) /\
    d' = tick t appended stated sent saved upto d.

Record safe (d : Disk) : Prop := {
  sf_framed : framed (dk_queue d);
  sf_kept row : row ∈ map (stamp machine) (covered (dk_state d)) ->
    row ∈ read_queue (dk_queue d) \/ row ∈ dk_server d;
}.

Lemma send_pending_safe sent saved d :
  safe d -> safe (send_pending sent saved (read_queue (dk_queue d)) d).
Proof.
  intros [Hf Hk]. unfold send_pending. remember (read_queue (dk_queue d)) as pending eqn:Hp.
  destruct pending as [|row rest]; [constructor; rewrite -?Hp //|].
  generalize (N.to_nat (take_send_batch (row :: rest) MAX_SEND_BYTES)). intros take.
  rewrite Hp in Hk |- *. clear row rest Hp.
  assert (forall row, row ∈ map (stamp machine) (covered (dk_state d)) ->
    row ∈ read_queue (dk_queue d) \/ row ∈ dk_server d ++ firstn take (read_queue (dk_queue d))) as Hmore.
  { intros row Hr. destruct (Hk row Hr) as [?|?]; [by left|right; apply elem_of_app; by left]. }
  destruct sent; [by constructor|by constructor|]. destruct saved; [|by constructor].
  constructor; [apply framed_saved|]. intros row Hr. cbn [dk_queue dk_server dk_state set_queue] in *. rewrite read_saved.
  destruct (Hk row Hr) as [Hq|Hs]; [|right; apply elem_of_app; by left].
  rewrite -(firstn_skipn take (read_queue (dk_queue d))) in Hq. apply elem_of_app in Hq as [Hq|Hq]; [|by left].
  right. apply elem_of_app. by right.
Qed.

Lemma agent_step_safe d d' : safe d -> agent_step d d' -> safe d'.
Proof.
  intros Hs (t & appended & stated & sent & saved & upto & Happ & ->). pose proof Hs as [Hf Hk].
  destruct (read_appended (dk_queue d) (fresh_rows t d) Hf) as [Hf' Hr].
  assert (safe (set_queue (append_queue (dk_queue d) (fresh_rows t d)) d)) as Ha.
  { constructor; [exact Hf'|]. intros row Hin. cbn. rewrite Hr. destruct (Hk row Hin) as [?|?]; [|by right].
    left. apply elem_of_app. by left. }
  assert (safe (MkDisk (append_queue (dk_queue d) (fresh_rows t d)) (dk_state (persist_state stated t d)) (dk_server d))) as Hst.
  { destruct Ha as [_ Ha]. destruct stated; [|by constructor]. constructor; [exact Hf'|]. cbn in *.
    intros row. rewrite covered_run map_app. intros [Hin|Hin]%elem_of_app; [by apply Ha|].
    left. rewrite Hr. apply elem_of_app. by right. }
  unfold tick. destruct upto; [done| | |].
  - unfold persist_rows. by destruct appended.
  - rewrite Happ; [by left|]. exact Hst.
  - rewrite Happ; [by right|]. cbn [persist_rows dk_queue set_queue dk_server].
    rewrite -Hr. apply (send_pending_safe sent saved _ Hst).
Qed.

Lemma agent_steps_safe d d' : safe d -> rtc agent_step d d' -> safe d'.
Proof. intros Hs. induction 1; [done|]. eauto using agent_step_safe. Qed.

(** *** The queue drains *)

(** A whole tick that finds no new activity and reaches the server. *)
Definition quiet_tick (t : nat) (d : Disk) : Disk := tick t true true Confirmed true Whole d.

Lemma quiet_tick_sends t d row rest :
  (watchers_run t (dk_state d)).1 = [] -> read_queue (dk_queue d) = row :: rest ->
  exists k st, (k <= length rest)%nat /\
    quiet_tick t d = MkDisk (save_queue (skipn k rest)) st (dk_server d ++ row :: firstn k rest) /\
    st = (watchers_run t (dk_state d)).2.
Proof.
  intros Hq Hr. unfold quiet_tick, tick, fresh_rows, persist_rows. rewrite Hq /= app_nil_r Hr.
  unfold send_pending. destruct (batch_spec row rest MAX_SEND_BYTES) as (k & -> & Hk & _).
  rewrite Nat2N.id. exists k, (watchers_run t (dk_state d)).2.
  split_and!; [exact Hk|reflexivity|reflexivity].
Qed.

Lemma quiet_tick_idle t d :
  (watchers_run t (dk_state d)).1 = [] -> read_queue (dk_queue d) = [] ->
  quiet_tick t d = MkDisk (dk_queue d) (watchers_run t (dk_state d)).2 (dk_server d).
Proof.
  intros Hq Hr. unfold quiet_tick, tick, fresh_rows, persist_rows. rewrite Hq /= Hr.
  cbn [app send_pending]. unfold fresh_rows. by rewrite Hq.
Qed.

Fixpoint quiet_ticks (t n : nat) (d : Disk) : Disk :=
  match n with O => d | S n' => quiet_ticks (S t) n' (quiet_tick t d) end.

Lemma quiet_ticks_drain n t d :
  (forall t st, (watchers_run t st).1 = []) -> (length (read_queue (dk_queue d)) <= n)%nat ->
  read_queue (dk_queue (quiet_ticks t n d)) = [] /\
  dk_server (quiet_ticks t n d) = dk_server d ++ read_queue (dk_queue d).
Proof.
  intros Hq. revert t d. induction n as [|n IH]; intros t d Hn; cbn [quiet_ticks].
  { destruct (read_queue (dk_queue d)); cbn in Hn; [by rewrite app_nil_r|lia]. }
  destruct (read_queue (dk_queue d)) as [|row rest] eqn:Hr.
  - rewrite quiet_tick_idle //. destruct (IH (S t) (MkDisk (dk_queue d) (watchers_run t (dk_state d)).2 (dk_server d)))
      as [H1 H2]; cbn [dk_queue dk_server] in *; [rewrite Hr; cbn; lia|]. rewrite H1 H2 Hr. done.
  - destruct (quiet_tick_sends t d row rest (Hq _ _) Hr) as (k & st & Hk & -> & _).
    destruct (IH (S t) (MkDisk (save_queue (skipn k rest)) st (dk_server d ++ row :: firstn k rest))) as [H1 H2];
      cbn [dk_queue dk_server] in *; [rewrite read_saved length_skipn; cbn in Hn; lia|].
    split; [exact H1|]. rewrite H2 read_saved -app_assoc. cbn [app]. by rewrite firstn_skipn.
Qed.
End AgentQueue.
