(* ===== verification/ActivityFlow.v ===== *)
(** The agent and the activity server together: a tick whose request is handled by
    the server's ingest route, between the requests of others. *)
From S2P Require Import Prelude.
From S2P Require Import RustStr.
From S2P Require Import Float64.
From S2P Require Import Platform.
From S2P Require Import JsNum.
From S2P Require Import Credits.
From S2P Require Import Schema.
From S2P Require Import Heartbeats.
From S2P Require Import Auth.
From S2P Require Import Ingest.
From S2P Require Import AgentQueue.

Local Open Scope Z_scope.

Section Flow.
Context {P : Platform} {PL : PlatformLaws P} {W : Watchers}.
Context (form_pairs : string -> list (string * string)) (raw : JsonTree).
Context (machine token : string).

(** One machine's agent, and the server's database. *)
Record Net := MkNet { nt_disk : Disk; nt_db : ActivityDb }.

(** The rows a tick sends. *)
Definition pending_rows (t : nat) (d : Disk) : list Value := read_queue (dk_queue d) ++ fresh_rows machine t d.
Definition batch_of (t : nat) (d : Disk) : list Value :=
  firstn (N.to_nat (take_send_batch (pending_rows t d) MAX_SEND_BYTES)) (pending_rows t d).

(** What becomes of the request and of its answer, and how the statements of the
    server fare. *)
Record Fate := MkFate {
  ft_appended : bool; ft_stated : bool; ft_saved : bool; ft_upto : Reached;
  ft_arrives : bool; ft_answered : bool; ft_fault : nat -> option SqlError; ft_now : f64;
}.

(** The answer to a tick's request. *)
Definition answer (t : nat) (f : Fate) (s : Net) : Response * ActivityDb :=
  ingest_handler form_pairs raw (ft_fault f) (ft_now f) (ingest_request token (batch_of t (nt_disk s))) (nt_db s).

(** [tick], with [post_ingest] and the handler it reaches. *)
Definition net_tick (t : nat) (f : Fate) (s : Net) : Net :=
  let go sent db := MkNet (tick machine t (ft_appended f) (ft_stated f) sent (ft_saved f) (ft_upto f) (nt_disk s)) db in
  match ft_upto f, pending_rows t (nt_disk s) with
  | Whole, _ :: _ =>
      if ft_arrives f then
        let '(res, db) := answer t f s in
        go (if is_success res then if ft_answered f then Confirmed else Unanswered else Unreached) db
      else go Unreached (nt_db s)
  | _, _ => go Unreached (nt_db s)
  end.

Inductive net_step : Net -> Net -> Prop :=
| Step_tick s t f :
    (ft_upto f = After_state \/ ft_upto f = Whole -> ft_appended f = true) -> net_step s (net_tick t f s)
| Step_ingest s fault now r :
    net_step s (MkNet (nt_disk s) (ingest_handler form_pairs raw fault now r (nt_db s)).2)
| Step_status s fault now r :
    net_step s (MkNet (nt_disk s) (agent_status_handler form_pairs raw fault now r (nt_db s)).2).

Record net_ok (s : Net) : Prop := {
  no_safe : safe machine (nt_disk s);
  no_table : table_ok (ad_heartbeats (nt_db s));
  no_stored row k : row ∈ dk_server (nt_disk s) -> row_key row = Some k -> k ∈ map hb_key (ad_heartbeats (nt_db s));
}.

Lemma tick_server t f sent d :
  dk_server (tick machine t (ft_appended f) (ft_stated f) sent (ft_saved f) (ft_upto f) d) =
    dk_server d ++ match ft_upto f, sent with
                   | Whole, Unreached => []
                   | Whole, _ => batch_of t d
                   | _, _ => []
                   end.
Proof.
  unfold tick, persist_rows, batch_of, pending_rows. destruct (ft_upto f); rewrite ?app_nil_r //.
  - by destruct (ft_appended f).
  - by destruct (ft_appended f).
  - destruct (read_queue (dk_queue d) ++ fresh_rows machine t d) as [|row rest].
    { cbn [send_pending dk_server]. destruct sent; rewrite ?app_nil_r; by destruct (ft_appended f). }
    unfold send_pending. destruct sent; rewrite ?app_nil_r; [by destruct (ft_appended f)..|].
    destruct (ft_saved f); by destruct (ft_appended f).
Qed.

Lemma ingest_keeps fault now r d :
  table_ok (ad_heartbeats d) ->
  let d' := (ingest_handler form_pairs raw fault now r d).2 in
  table_ok (ad_heartbeats d') /\ exists new, ad_heartbeats d' = ad_heartbeats d ++ new.
Proof.
  intros Ht. cbv zeta. destruct (ingest_handler form_pairs raw fault now r d) as [res d'] eqn:Hi. cbn [snd].
  destruct (ingest_cases _ _ _ _ _ _ _ _ Ht Hi) as [(p & parsed & rows & new & _ & _ & _ & -> & Hn)|[-> _]].
  - split; [apply (ad_ok _ _ _ _ (ig_added _ _ _ _ _ Hn))|]. by exists new.
  - split; [done|]. exists []. by rewrite app_nil_r.
Qed.

Lemma status_keeps fault now r d :
  ad_heartbeats (agent_status_handler form_pairs raw fault now r d).2 = ad_heartbeats d.
Proof.
  unfold agent_status_handler. destruct (admitted _ _ _) as [[p status]|res]; [|done].
  destruct (value_tree status); try done. destruct (negb _); [done|]. unfold upsert_agent_status.
  destruct (status_row status now); [|done]. destruct (fault 0%nat); [done|].
  unfold sql_upsert, mbind, M_bind, mret, M_ret. by destruct (existsb _ _).
Qed.

(** What a successful tick's request leaves in the database. *)
Lemma answer_stores t f s res db :
  table_ok (ad_heartbeats (nt_db s)) -> answer t f s = (res, db) -> is_success res = true ->
  table_ok (ad_heartbeats db) /\
  forall k, k ∈ map hb_key (ad_heartbeats db) <->
    k ∈ map hb_key (ad_heartbeats (nt_db s)) \/ Some k ∈ map row_key (batch_of t (nt_disk s)).
Proof.
  intros Ht Ha Hs. destruct (ingest_success _ _ _ _ _ _ _ _ Ht Ha Hs) as (p & parsed & rows & new & H1 & H2 & -> & Hn).
  rewrite (admitted_batch _ _ _ _ _ _ H1) in H2. injection H2 as <-.
  split; [apply (ad_ok _ _ _ _ (ig_added _ _ _ _ _ Hn))|]. apply (ad_key _ _ _ _ (ig_added _ _ _ _ _ Hn)).
Qed.

Lemma tick_is_agent_step t f sent d :
  (ft_upto f = After_state \/ ft_upto f = Whole -> ft_appended f = true) ->
  agent_step machine d (tick machine t (ft_appended f) (ft_stated f) sent (ft_saved f) (ft_upto f) d).
Proof. intros H. exists t, (ft_appended f), (ft_stated f), sent, (ft_saved f), (ft_upto f). by split. Qed.

(** A tick that reaches nobody. *)
Lemma unreached_ok t f s :
  net_ok s -> (ft_upto f = After_state \/ ft_upto f = Whole -> ft_appended f = true) ->
  net_ok (MkNet (tick machine t (ft_appended f) (ft_stated f) Unreached (ft_saved f) (ft_upto f) (nt_disk s)) (nt_db s)).
Proof.
  intros [Hs Ht Hk] Hf. constructor; cbn; [|done|].
  - apply (agent_step_safe machine (nt_disk s)); [exact Hs|]. by apply tick_is_agent_step.
  - intros row k. rewrite tick_server. destruct (ft_upto f); rewrite app_nil_r; apply Hk.
Qed.

(** A tick reaches nobody, or its request is answered. *)
Definition ticked (t : nat) (f : Fate) (sent : Sent) (d : Disk) : Disk :=
  tick machine t (ft_appended f) (ft_stated f) sent (ft_saved f) (ft_upto f) d.
Definition heard (f : Fate) (res : Response) : Sent :=
  if is_success res then if ft_answered f then Confirmed else Unanswered else Unreached.

Lemma net_tick_cases t f s :
  net_tick t f s = MkNet (ticked t f Unreached (nt_disk s)) (nt_db s) \/
  ft_upto f = Whole /\ exists res db,
    answer t f s = (res, db) /\ net_tick t f s = MkNet (ticked t f (heard f res) (nt_disk s)) db.
Proof.
  unfold net_tick, ticked, heard. destruct (ft_upto f); [by left..|].
  destruct (pending_rows t (nt_disk s)); [by left|]. destruct (ft_arrives f); [|by left].
  destruct (answer t f s) as [res db]. right. split; [done|]. by exists res, db.
Qed.

Lemma answered_ok t f s res db :
  net_ok s -> ft_upto f = Whole -> ft_appended f = true -> answer t f s = (res, db) ->
  net_ok (MkNet (ticked t f (heard f res) (nt_disk s)) db).
Proof.
  intros [Hs Ht Hk] Hu Hf Ha.
  assert (safe machine (ticked t f (heard f res) (nt_disk s))) as Hs'.
  { apply (agent_step_safe machine (nt_disk s)); [exact Hs|]. by apply tick_is_agent_step. }
  unfold heard in *. destruct (is_success res) eqn:Hsuc.
  - destruct (answer_stores _ _ _ _ _ Ht Ha Hsuc) as [Ht' Hk']. constructor; [done..|].
    intros row k. cbn [nt_disk nt_db]. unfold ticked. rewrite tick_server Hu. intros Hin Hrk. apply Hk'.
    assert (row ∈ dk_server (nt_disk s) \/ row ∈ batch_of t (nt_disk s)) as [Hr|Hr].
    { destruct (ft_answered f); by apply elem_of_app. }
    + left. by eapply Hk.
    + right. apply list_elem_of_fmap. by exists row.
  - pose proof (ingest_keeps (ft_fault f) (ft_now f)
      (ingest_request token (batch_of t (nt_disk s))) (nt_db s) Ht) as [Ht' (new & Hnew)].
    unfold answer in Ha. rewrite Ha /= in Ht' Hnew. constructor; [done..|].
    intros row k. cbn [nt_disk nt_db]. unfold ticked. rewrite tick_server Hu app_nil_r Hnew map_app elem_of_app.
    intros Hin Hrk. left. by eapply Hk.
Qed.

Lemma net_step_ok s s' : net_ok s -> net_step s s' -> net_ok s'.
Proof.
  intros Hok Hstep. pose proof Hok as [Hs Ht Hk]. destruct Hstep as [s t f Hf|s fault now r|s fault now r].
  - destruct (net_tick_cases t f s) as [->|(Hu & res & db & Ha & ->)]; [by apply unreached_ok|].
    apply (answered_ok t f s); try done. apply Hf. by right.
  - destruct (ingest_keeps fault now r (nt_db s) Ht) as [Ht' (new & Hnew)]. constructor; cbn; [done..|].
    intros row k Hin Hrk. rewrite Hnew map_app elem_of_app. left. by eapply Hk.
  - constructor; cbn; [done|by rewrite status_keeps|]. intros row k. rewrite status_keeps. apply Hk.
Qed.

Lemma net_steps_ok s s' : net_ok s -> rtc net_step s s' -> net_ok s'.
Proof. intros Hs. induction 1; [done|]. eauto using net_step_ok. Qed.
(** *** One row, one heartbeat *)

(** The heartbeats stored under a key. *)
Definition stored_under k (d : ActivityDb) : list Heartbeat := filter (fun h => hb_key h = k) (ad_heartbeats d).

Lemma stored_once k d : table_ok (ad_heartbeats d) -> k ∈ map hb_key (ad_heartbeats d) -> length (stored_under k d) = 1%nat.
Proof.
  intros [_ Hnd _]. unfold stored_under. induction (ad_heartbeats d) as [|h rows IH]; [by intros ?%not_elem_of_nil|].
  cbn [map] in *. apply NoDup_cons in Hnd as [Hh Hnd]. rewrite filter_cons. intros [->|Hin]%elem_of_cons.
  - rewrite decide_True; [done|]. cbn [length]. f_equal. rewrite filter_none; [|done].
    apply Forall_forall. intros x Hx Heq. apply Hh, list_elem_of_fmap. by exists x.
  - rewrite decide_False; [by intros <-|]. by apply IH.
Qed.

(** *** A server that takes the agent's rows *)

(** A tick on a working day. *)
Definition working (now : f64) : Fate := MkFate true true true Whole true true (fun _ => None) now.

Fixpoint net_ticks (clock : nat -> f64) (t n : nat) (s : Net) : Net :=
  match n with O => s | S n' => net_ticks clock (S t) n' (net_tick t (working (clock t)) s) end.

(** The server knows the token, lets it write the rows, and none of the batches a
    tick can form of them is too large. *)
Definition takes (rows : list Value) : Prop :=
  (exists p, principal_or_401 form_pairs raw (ingest_request token []) = inl p /\
     Forall (fun row => allows_machine p (Some (row_machine (value_tree row))) = true) rows) /\
  (forall j k, let batch := firstn k (skipn j rows) in
     batch <> [] -> length batch = 1%nat \/ (body_bytes batch <= MAX_SEND_BYTES)%N ->
     (str_len (json_to_string (value_array batch)) <= BODY_LIMIT)%N).

Lemma takes_success rows k fault now d :
  let batch := firstn k rows in
  takes rows -> batch <> [] -> length batch = 1%nat \/ (body_bytes batch <= MAX_SEND_BYTES)%N ->
  (forall j, fault j = None) ->
  is_success (ingest_handler form_pairs raw fault now (ingest_request token batch) d).1 = true.
Proof.
  intros batch [(p & Hp & Hall) Hsize] Hne Hfit Hno. unfold ingest_handler, admitted.
  assert (principal_or_401 form_pairs raw (ingest_request token batch) = inl p) as -> by exact Hp.
  unfold read_json. cbn [rq_body ingest_request]. rewrite (proj2 (N.ltb_ge _ _) (Hsize 0%nat k Hne Hfit)).
  rewrite json_utf8 json_roundtrip as_array_array.
  destruct (existsb _ batch) eqn:Hs.
  - apply existsb_exists in Hs as (row & Hrow & Hd). apply list_elem_of_In in Hrow.
    assert (row ∈ rows) as Hr by (rewrite -(take_drop k rows) elem_of_app; by left).
    by rewrite (proj1 (Forall_forall _ _) Hall row Hr) in Hd.
  - unfold insert_heartbeats. rewrite !Hno. clear Hne Hfit Hs. clearbody batch.
    assert (forall i n table, exists m t', insert_rows fault now i batch n table = Ok (m, t')) as Hrows.
    { clear -Hno. induction batch as [|row batch IH]; intros i n table; cbn [insert_rows]; [by eexists _, _|].
      destruct (heartbeat_of now (value_tree row)); [|apply IH]. rewrite Hno. destruct (insert_or_ignore h table). apply IH. }
    destruct (Hrows 2%nat 0 (ad_heartbeats d)) as (m & t' & ->). done.
Qed.

Lemma working_tick t now s :
  (forall t st, (watchers_run t st).1 = []) -> takes (read_queue (dk_queue (nt_disk s))) ->
  nt_disk (net_tick t (working now) s) = quiet_tick machine t (nt_disk s).
Proof.
  intros Hq Htakes. unfold net_tick, quiet_tick. cbn [ft_upto working ft_appended ft_stated ft_saved ft_arrives ft_answered].
  assert (fresh_rows machine t (nt_disk s) = []) as Hfresh by (unfold fresh_rows; by rewrite Hq).
  destruct (pending_rows t (nt_disk s)) as [|row rest] eqn:Hp.
  - unfold pending_rows in Hp. unfold tick. rewrite Hp. done.
  - destruct (answer t (working now) s) as [res db] eqn:Ha. cbn [nt_disk].
    assert (is_success res = true) as ->; [|done]. unfold answer, batch_of in Ha. rewrite Hp in Ha.
    unfold pending_rows in Hp. rewrite Hfresh app_nil_r in Hp. rewrite Hp in Htakes.
    destruct (batch_spec row rest MAX_SEND_BYTES) as (k & Hk & Hlen & Hfit & _). rewrite Hk Nat2N.id in Ha.
    pose proof (takes_success (row :: rest) (S k) (ft_fault (working now)) (ft_now (working now)) (nt_db s) Htakes) as Hs.
    cbv zeta in Hs. rewrite Ha in Hs. apply Hs; [done| |done].
    destruct k as [|k]; [left; by destruct rest|right; by apply Hfit].
Qed.

Lemma takes_rest rows j : takes rows -> takes (skipn j rows).
Proof.
  intros [(p & Hp & Hall) Hsize]. split.
  - exists p. split; [done|]. by apply Forall_drop.
  - intros i k. rewrite drop_drop. apply Hsize.
Qed.

(** A quiet tick leaves the end of the queue. *)
Lemma quiet_tick_rest t d :
  (forall t st, (watchers_run t st).1 = []) ->
  exists j, read_queue (dk_queue (quiet_tick machine t d)) = skipn j (read_queue (dk_queue d)).
Proof.
  intros Hq. destruct (read_queue (dk_queue d)) as [|row rest] eqn:Hr.
  - exists 0%nat. rewrite quiet_tick_idle //.
  - destruct (quiet_tick_sends machine t d row rest (Hq _ _) Hr) as (k & st & _ & -> & _). exists (S k). cbn [dk_queue].
    by rewrite read_saved.
Qed.

Lemma net_ticks_disk clock n t s :
  (forall t st, (watchers_run t st).1 = []) -> takes (read_queue (dk_queue (nt_disk s))) ->
  nt_disk (net_ticks clock t n s) = quiet_ticks machine t n (nt_disk s).
Proof.
  intros Hq. revert t s. induction n as [|n IH]; intros t s Ht; [done|]. cbn [net_ticks quiet_ticks].
  rewrite IH; [|by rewrite working_tick]. rewrite working_tick //.
  destruct (quiet_tick_rest t (nt_disk s) Hq) as [j ->]. by apply takes_rest.
Qed.

Lemma net_ticks_steps clock n t s : rtc net_step s (net_ticks clock t n s).
Proof.
  revert t s. induction n as [|n IH]; intros t s; [done|]. cbn [net_ticks]. eapply rtc_l; [|apply IH].
  by apply Step_tick.
Qed.
End Flow.
