(* ===== verification/Calendar.v ===== *)
(** Calendar arithmetic and ISO text (crates/stackhour-core/src/timeparse.rs):
    dates as days since the epoch and back, the bare-date parser, and the UTC
    rendering of instants. *)
From S2P Require Import Prelude.
From S2P Require Import RustStr.
From S2P Require Import JsNum.
From Stdlib Require Import Ascii.

Local Open Scope Z_scope.

(** [MAX_DATE_MS as i64] *)
Definition MAX_DATE_MS : Z := 8640000000000000.

(** [is_leap_year]; [%] truncates. *)
Definition is_leap_year (y : Z) : bool :=
  ((Z.rem y 4 =? 0) && negb (Z.rem y 100 =? 0)) || (Z.rem y 400 =? 0).

(** [days_in_month] *)
Definition days_in_month (y m : Z) : Z :=
  match m with
  | 1 | 3 | 5 | 7 | 8 | 10 | 12 => 31
  | 4 | 6 | 9 | 11 => 30
  | 2 => if is_leap_year y then 29 else 28
  | _ => 0
  end.

(** [days_from_civil]; [/] truncates. *)
Definition days_from_civil (y m d : Z) : Z :=
  let y := if m <=? 2 then y - 1 else y in
  let era := Z.quot (if 0 <=? y then y else y - 399) 400 in
  let yoe := y - era * 400 in
  let mp := if 2 <? m then m - 3 else m + 9 in
  let doy := Z.quot (153 * mp + 2) 5 + d - 1 in
  let doe := yoe * 365 + Z.quot yoe 4 - Z.quot yoe 100 + doy in
  era * 146097 + doe - 719468.

(** [civil_from_days] *)
Definition civil_from_days (z : Z) : Z * Z * Z :=
  let z := z + 719468 in
  let era := Z.quot (if 0 <=? z then z else z - 146096) 146097 in
  let doe := z - era * 146097 in
  let yoe := Z.quot (doe - Z.quot doe 1460 + Z.quot doe 36524 - Z.quot doe 146096) 365 in
  let y := yoe + era * 400 in
  let doy := doe - (365 * yoe + Z.quot yoe 4 - Z.quot yoe 100) in
  let mp := Z.quot (5 * doy + 2) 153 in
  let d := doy - Z.quot (153 * mp + 2) 5 + 1 in
  let m := if mp <? 10 then mp + 3 else mp - 9 in
  (if m <=? 2 then y + 1 else y, m, d).

(** *** Text *)

(** [parse_bare_date_days] *)
Definition parse_bare_date_days (s : string) : option Z :=
  if negb (Nat.eqb (String.length s) 10) || negb (bool_decide (String.get 4 s = Some "-"%char))
     || negb (bool_decide (String.get 7 s = Some "-"%char))
  then None
  else
    year ← digits 0 (String.substring 0 4 s);
    month ← digits 0 (String.substring 5 2 s);
    day ← digits 0 (String.substring 8 2 s);
    if negb ((1 <=? month) && (month <=? 12)) || (day <? 1) || (days_in_month year month <? day) then None
    else Some (days_from_civil year month day).

(** [js_to_iso_string] *)
Definition js_to_iso_string (epoch_ms : Z) : string :=
  let ms := Z.max (- MAX_DATE_MS) (Z.min epoch_ms MAX_DATE_MS) in
  let days := ms / 86400000 in
  let tod := ms mod 86400000 in
  let '(year, month, day) := civil_from_days days in
  let '(hh, mm, ss, mmm) :=
    (Z.quot tod 3600000, Z.rem (Z.quot tod 60000) 60, Z.rem (Z.quot tod 1000) 60, Z.rem tod 1000) in
  let year_str :=
    if (0 <=? year) && (year <=? 9999) then zero_padded 4 year
    else (if year <? 0 then "-"%string else "+"%string) +:+ zero_padded 6 (Z.abs year) in
  (year_str +:+ "-" +:+ zero_padded 2 month +:+ "-" +:+ zero_padded 2 day +:+ "T" +:+ zero_padded 2 hh +:+ ":" +:+
   zero_padded 2 mm +:+ ":" +:+ zero_padded 2 ss +:+ "." +:+ zero_padded 3 mmm +:+ "Z")%string.

(** [s.chars().map(f).collect()], for ASCII text. *)
Fixpoint map_bytes (f : ascii -> ascii) (s : string) : string :=
  match s with EmptyString => EmptyString | String a r => String (f a) (map_bytes f r) end.

(** [iso_ts_for_filename] *)
Definition iso_ts_for_filename (epoch_ms : Z) : string :=
  map_bytes (fun c => if Ascii.eqb c ":" || Ascii.eqb c "." then "-"%char else c) (js_to_iso_string epoch_ms).

(** *** The calendar *)

(** A day of the proleptic Gregorian calendar. *)
Definition valid_date (x : Z * Z * Z) : Prop :=
  let '(y, m, d) := x in 1 <= m <= 12 /\ 1 <= d <= days_in_month y m.

(** The day after. *)
Definition next_day (x : Z * Z * Z) : Z * Z * Z :=
  let '(y, m, d) := x in
  if d <? days_in_month y m then (y, m, d + 1) else if m <? 12 then (y, m + 1, 1) else (y + 1, 1, 1).

(** The days before March-based month [mp], and before year [yoe] of an era. *)
Definition month_days (mp : Z) : Z := (153 * mp + 2) / 5.
Definition year_days (yoe : Z) : Z := 365 * yoe + yoe / 4 - yoe / 100.

Lemma quot_floor a n : 0 < n -> Z.quot (if 0 <=? a then a else a - (n - 1)) n = a / n.
Proof.
  intros Hn. destruct (Z.leb_spec 0 a).
  - by apply Z.quot_div_nonneg.
  - Z.to_euclidean_division_equations. nia.
Qed.

(** The formula for the year of an era. *)
Lemma yoe_formula yoe doy :
  0 <= yoe <= 399 -> 0 <= doy -> year_days yoe + doy < year_days (yoe + 1) + (if yoe =? 399 then 1 else 0) ->
  let doe := year_days yoe + doy in
  (doe - doe / 1460 + doe / 36524 - doe / 146096) / 365 = yoe.
Proof.
  intros Hy Hd Hlt doe. unfold doe, year_days in *. clear doe.
  destruct (Z.eqb_spec yoe 399) as [->|Hne].
  - Z.to_euclidean_division_equations. lia.
  - Z.to_euclidean_division_equations. lia.
Qed.

(** *** Both directions over one era of 400 years *)

(** A year counted from March, split into its era and the year within it. *)
Definition from_march (y m : Z) : Z := if m <=? 2 then y - 1 else y.
Definition march_month (m : Z) : Z := if 2 <? m then m - 3 else m + 9.

Definition calendar_month (mp : Z) : Z := if mp <? 10 then mp + 3 else mp - 9.

Lemma days_from_civil_eq y m d :
  1 <= m <= 12 ->
  let yy := from_march y m in
  days_from_civil y m d = yy / 400 * 146097 + year_days (yy mod 400) + month_days (march_month m) + (d - 1) - 719468.
Proof.
  intros Hm. cbv zeta. unfold days_from_civil. fold (from_march y m) (march_month m).
  set (yy := from_march y m). change (yy - 399) with (yy - (400 - 1)). rewrite quot_floor //.
  assert (yy - yy / 400 * 400 = yy mod 400) as -> by (rewrite Z.mod_eq //; lia).
  pose proof (Z.mod_pos_bound yy 400 eq_refl).
  assert (0 <= march_month m <= 11) by (unfold march_month; destruct (2 <? m) eqn:?; lia).
  rewrite !Z.quot_div_nonneg //; [lia..|]. unfold year_days, month_days. lia.
Qed.

(** The days of a year from March on, leap day included. *)
Definition march_year_length (yoe : Z) : Z := year_days (yoe + 1) + (if yoe =? 399 then 1 else 0) - year_days yoe.

(** The formula for the March-based month of a day of the year. *)
Lemma month_formula mp d yoe :
  0 <= yoe <= 399 -> 0 <= mp <= 11 -> 1 <= d -> month_days mp + (d - 1) < march_year_length yoe ->
  (mp < 11 -> d <= month_days (mp + 1) - month_days mp) ->
  (5 * (month_days mp + (d - 1)) + 2) / 153 = mp.
Proof.
  intros Hy Hm Hd Hlen Hmonth.
  assert (march_year_length yoe <= 366) as Hmax.
  { unfold march_year_length, year_days. Z.to_euclidean_division_equations. destruct (yoe =? 399) eqn:?; lia. }
  assert (month_days mp + (d - 1) < 366) as Hlt by lia. clear Hlen Hmax. unfold month_days in *.
  Z.to_euclidean_division_equations. lia.
Qed.

Lemma civil_from_days_eq era yoe mp d :
  0 <= yoe <= 399 -> 0 <= mp <= 11 -> 1 <= d -> month_days mp + (d - 1) < march_year_length yoe ->
  (mp < 11 -> d <= month_days (mp + 1) - month_days mp) ->
  civil_from_days (era * 146097 + year_days yoe + month_days mp + (d - 1) - 719468) =
    (let m := calendar_month mp in
     (if m <=? 2 then yoe + era * 400 + 1 else yoe + era * 400, m, d)).
Proof.
  intros Hy Hm Hd Hlen Hmonth. unfold civil_from_days.
  set (doy := month_days mp + (d - 1)) in *. assert (0 <= doy) as Hdoy.
  { unfold doy, month_days. Z.to_euclidean_division_equations. lia. }
  set (z := _ + 719468). assert (z = era * 146097 + (year_days yoe + doy)) as Hz by (unfold z, doy; lia).
  assert (0 <= year_days yoe + doy < 146097) as Hdoe.
  { unfold march_year_length, year_days in *. Z.to_euclidean_division_equations. destruct (yoe =? 399) eqn:?; lia. }
  change (z - 146096) with (z - (146097 - 1)). rewrite quot_floor //.
  assert (z / 146097 = era) as -> by (symmetry; apply (Z.div_unique _ _ _ (year_days yoe + doy)); lia).
  assert (z - era * 146097 = year_days yoe + doy) as -> by lia.
  set (doe := year_days yoe + doy) in *.
  assert (Z.quot (doe - Z.quot doe 1460 + Z.quot doe 36524 - Z.quot doe 146096) 365 = yoe) as ->.
  { rewrite !(Z.quot_div_nonneg doe) //; try lia. rewrite Z.quot_div_nonneg //.
    - Z.to_euclidean_division_equations. lia.
    - apply yoe_formula; unfold march_year_length in Hlen; lia. }
  assert (doe - (365 * yoe + Z.quot yoe 4 - Z.quot yoe 100) = doy) as ->.
  { rewrite !Z.quot_div_nonneg //; try lia. unfold doe, year_days. lia. }
  assert (Z.quot (5 * doy + 2) 153 = mp) as ->.
  { rewrite Z.quot_div_nonneg //; try lia. by apply (month_formula _ _ yoe). }
  assert (Z.quot (153 * mp + 2) 5 = month_days mp) as ->.
  { rewrite Z.quot_div_nonneg //; try lia. }
  cbv zeta. f_equal. unfold doy. lia.
Qed.

(** *** Dates *)

Lemma rem_zero y n : 0 < n -> (Z.rem y n =? 0) = (y mod n =? 0).
Proof.
  intros Hn. destruct (Z.eqb_spec (y mod n) 0) as [H|H].
  - apply Z.eqb_eq, Z.rem_divide; [lia|]. apply Z.mod_divide; [lia|done].
  - apply Z.eqb_neq. intros Hr. apply H, Z.mod_divide; [lia|]. apply Z.rem_divide; [lia|done].
Qed.

Lemma leap_length y : march_year_length ((y - 1) mod 400) = if is_leap_year y then 366 else 365.
Proof.
  unfold is_leap_year. rewrite !rem_zero //. unfold march_year_length, year_days.
  destruct (Z.eqb_spec (y mod 4) 0), (Z.eqb_spec (y mod 100) 0), (Z.eqb_spec (y mod 400) 0),
    (Z.eqb_spec ((y - 1) mod 400) 399); cbn [andb orb negb]; Z.to_euclidean_division_equations; lia.
Qed.

Lemma month_cases m (Q : Z -> Prop) :
  Q 1 -> Q 2 -> Q 3 -> Q 4 -> Q 5 -> Q 6 -> Q 7 -> Q 8 -> Q 9 -> Q 10 -> Q 11 -> Q 12 -> 1 <= m <= 12 -> Q m.
Proof.
  intros. assert (m = 1 \/ m = 2 \/ m = 3 \/ m = 4 \/ m = 5 \/ m = 6 \/ m = 7 \/ m = 8 \/ m = 9 \/ m = 10 \/ m = 11 \/ m = 12)
    as Hm by lia. by repeat destruct Hm as [->|Hm]; [..|subst m].
Qed.

(** Compute what literal months stand for. *)
Ltac eval_in_goal t := let v := eval vm_compute in t in change t with v.
Ltac eval_months :=
  repeat match goal with
  | |- context [march_month ?k] => eval_in_goal (march_month k)
  | |- context [calendar_month ?k] => eval_in_goal (calendar_month k)
  | |- context [month_days ?k] => eval_in_goal (month_days k)
  | |- context [from_march ?y ?k] =>
      let b := eval vm_compute in (k <=? 2) in change (from_march y k) with (if b then y - 1 else y); cbn iota
  | |- context [?k <=? 2] => eval_in_goal (k <=? 2); cbn iota
  end.

(** A valid date is a valid day of its March-based year. *)
Lemma valid_march y m d :
  valid_date (y, m, d) ->
  let yoe := from_march y m mod 400 in let mp := march_month m in
  0 <= yoe <= 399 /\ 0 <= mp <= 11 /\ 1 <= d /\ month_days mp + (d - 1) < march_year_length yoe /\
  (mp < 11 -> d <= month_days (mp + 1) - month_days mp).
Proof.
  intros [Hm Hd]. cbv zeta.
  assert (forall x, 0 <= x mod 400 <= 399) as Hmod by (intros x; pose proof (Z.mod_pos_bound x 400 eq_refl); lia).
  assert (forall x, 365 <= march_year_length (x mod 400)) as Hlen.
  { intros x. replace x with ((x + 1) - 1) by lia. rewrite leap_length. by destruct (is_leap_year _). }
  revert d Hd. apply (month_cases m); [..|exact Hm]; intros d Hd; eval_months; cbn [days_in_month] in Hd;
    try (pose proof (Hmod y); pose proof (Hlen y)); try (pose proof (Hmod (y - 1)); pose proof (Hlen (y - 1)));
    try (split_and!; lia).
  pose proof (leap_length y) as Hl. destruct (is_leap_year y); split_and!; lia.
Qed.

Lemma civil_of_days x :
  valid_date x -> civil_from_days (days_from_civil x.1.1 x.1.2 x.2) = x.
Proof.
  destruct x as [[y m] d]. intros Hv. pose proof (valid_march y m d Hv) as (Hy & Hmp & Hd & Hlt & Hmo).
  destruct Hv as [Hm _]. cbn [fst snd]. rewrite days_from_civil_eq //. cbv zeta.
  rewrite civil_from_days_eq //. cbv zeta.
  assert (from_march y m mod 400 + from_march y m / 400 * 400 = from_march y m) as ->.
  { pose proof (Z.div_mod (from_march y m) 400 ltac:(lia)). lia. }
  revert Hm. clear. intros Hm. apply (month_cases m); [..|exact Hm]; eval_months; repeat f_equal; lia.
Qed.

Lemma next_day_valid x : valid_date x -> valid_date (next_day x).
Proof.
  destruct x as [[y m] d]. intros [Hm Hd]. unfold next_day, valid_date in *.
  destruct (Z.ltb_spec d (days_in_month y m)); [lia|]. destruct (Z.ltb_spec m 12); [|cbn; lia].
  split; [lia|]. assert (1 <= m + 1 <= 12) as Hm' by lia. revert Hm'. generalize (m + 1). intros m' Hm'.
  apply (month_cases m'); [..|exact Hm']; cbn; try lia. by destruct (is_leap_year y).
Qed.

Lemma next_day_days x :
  valid_date x ->
  let x' := next_day x in days_from_civil x'.1.1 x'.1.2 x'.2 = days_from_civil x.1.1 x.1.2 x.2 + 1.
Proof.
  destruct x as [[y m] d]. intros [Hm Hd]. cbv zeta. unfold next_day.
  destruct (Z.ltb_spec d (days_in_month y m)) as [Hlt|Hge]; cbn [fst snd].
  { rewrite !days_from_civil_eq //. cbv zeta. lia. }
  assert (d = days_in_month y m) as -> by lia. clear Hd Hge. destruct (Z.ltb_spec m 12) as [Hlt|Hge]; cbn [fst snd].
  - rewrite !days_from_civil_eq //; [lia|]. cbv zeta. revert Hlt.
    apply (month_cases m); [..|exact Hm]; intros Hlt; try lia; eval_months; cbn [days_in_month]; try lia.
    pose proof (leap_length y) as Hl. unfold march_year_length, year_days in *. destruct (is_leap_year y);
      destruct (Z.eqb_spec ((y - 1) mod 400) 399); Z.to_euclidean_division_equations; lia.
  - assert (m = 12) as -> by lia. rewrite !days_from_civil_eq //. cbv zeta. eval_months. cbn [days_in_month].
    replace (y + 1 - 1) with y by lia. lia.
Qed.

(** Four hundred years are 146097 days. *)
Lemma days_shift y m d k :
  1 <= m <= 12 -> days_from_civil (y + 400 * k) m d = days_from_civil y m d + 146097 * k.
Proof.
  intros Hm. rewrite !days_from_civil_eq //. cbv zeta.
  assert (from_march (y + 400 * k) m = from_march y m + k * 400) as -> by (unfold from_march; destruct (m <=? 2); lia).
  rewrite Z.div_add // Z.mod_add //. lia.
Qed.

Lemma valid_shift y m d k : valid_date (y, m, d) -> valid_date (y + 400 * k, m, d).
Proof.
  unfold valid_date. intros [Hm Hd]. split; [done|]. replace (days_in_month (y + 400 * k) m) with (days_in_month y m); [done|].
  assert (is_leap_year (y + 400 * k) = is_leap_year y) as Hl.
  { unfold is_leap_year. rewrite !rem_zero //.
    replace (y + 400 * k) with (y + (100 * k) * 4) at 1 by lia. rewrite Z.mod_add //.
    replace (y + 400 * k) with (y + (4 * k) * 100) at 1 by lia. rewrite Z.mod_add //.
    replace (y + 400 * k) with (y + k * 400) by lia. by rewrite Z.mod_add. }
  unfold days_in_month. by rewrite Hl.
Qed.

(** Every day number is a date's. *)
Lemma date_of_days z : exists x, valid_date x /\ days_from_civil x.1.1 x.1.2 x.2 = z.
Proof.
  assert (forall n : nat, exists x, valid_date x /\ days_from_civil x.1.1 x.1.2 x.2 = Z.of_nat n) as Hnat.
  { induction n as [|n (x & Hv & Hx)]; [by exists (1970, 1, 1)|].
    exists (next_day x). split; [by apply next_day_valid|]. rewrite next_day_days //. lia. }
  set (k := Z.max 0 (- z)). destruct (Hnat (Z.to_nat (z + 146097 * k))) as ([[y m] d] & Hv & Hx).
  exists (y + 400 * (- k), m, d). split; [by apply valid_shift|]. cbn [fst snd] in *.
  rewrite days_shift; [apply Hv|]. rewrite Hx. unfold k. lia.
Qed.

Lemma days_of_civil z :
  let x := civil_from_days z in valid_date x /\ days_from_civil x.1.1 x.1.2 x.2 = z.
Proof. destruct (date_of_days z) as (x & Hv & <-). rewrite civil_of_days //. Qed.

(** *** Dates as text *)

Lemma date_text_parses y m d :
  0 <= y <= 9999 -> valid_date (y, m, d) ->
  parse_bare_date_days (zero_padded 4 y +:+ "-" +:+ zero_padded 2 m +:+ "-" +:+ zero_padded 2 d) =
    Some (days_from_civil y m d).
Proof.
  intros Hy [Hm Hd]. assert (days_in_month y m <= 31) as H31.
  { apply (month_cases m); [..|exact Hm]; cbn; try lia. by destruct (is_leap_year y). }
  unfold parse_bare_date_days.
  set (s := zero_padded 4 y +:+ _).
  assert (String.length s = 10%nat) as -> by reflexivity.
  assert (String.get 4 s = Some "-"%char) as -> by reflexivity.
  assert (String.get 7 s = Some "-"%char) as -> by reflexivity.
  assert (String.substring 0 4 s = zero_padded 4 y) as -> by reflexivity.
  assert (String.substring 5 2 s = zero_padded 2 m) as -> by reflexivity.
  assert (String.substring 8 2 s = zero_padded 2 d) as -> by reflexivity.
  cbn [Nat.eqb negb orb]. rewrite !bool_decide_eq_true_2 //. cbn [negb orb].
  rewrite !digits_padded; [cbn; lia..|]. cbn [mbind option_bind].
  rewrite (proj2 (Z.leb_le 1 m)); [lia|]. rewrite (proj2 (Z.leb_le m 12)); [lia|]. cbn [andb negb orb].
  rewrite (proj2 (Z.ltb_ge d 1)); [lia|]. by rewrite (proj2 (Z.ltb_ge (days_in_month y m) d)); [lia|].
Qed.

(** The date of an instant is the first ten bytes of its text. *)
Lemma iso_date_text ms y m d :
  Z.abs ms <= MAX_DATE_MS -> civil_from_days (ms / 86400000) = (y, m, d) -> 0 <= y <= 9999 ->
  String.substring 0 10 (js_to_iso_string ms) =
    zero_padded 4 y +:+ "-" +:+ zero_padded 2 m +:+ "-" +:+ zero_padded 2 d.
Proof.
  intros Hms Hc Hy. unfold js_to_iso_string. rewrite Z.min_l; [lia|]. rewrite Z.max_r; [lia|]. rewrite Hc.
  rewrite (proj2 (Z.leb_le 0 y)); [lia|]. rewrite (proj2 (Z.leb_le y 9999)); [lia|]. reflexivity.
Qed.
