(* ===== verification/Backoff.v ===== *)
(** The reconnect delay of an execution node (crates/stackhour-node/src/backoff.rs):
    u64 milliseconds with saturating multiplication, and the jitter computed in
    f64, whose round-to-nearest-even is written out on rationals. *)
From S2P Require Import Prelude.
From Stdlib Require Import QArith Qround Qpower Lqa.

Local Open Scope Z_scope.

(** *** f64, on the non-negative values that occur here (no subnormal, no overflow) *)

(** The nearest integer, ties to even. *)
Definition round_half_even (x : Q) : Z :=
  let f := Qfloor x in
  match Qcompare (x - inject_Z f) (1 # 2) with
  | Lt => f
  | Gt => f + 1
  | Eq => if Z.even f then f else f + 1
  end.

(** The exponent of the last of the 53 significant bits of [x > 0]. *)
Definition f64_exponent (x : Q) : Z :=
  let k := Z.log2 (Qnum x) - Z.log2 (QDen x) in
  if Qle_bool (Qpower 2 k) x then k - 52 else k - 53.

Definition f64_round (x : Q) : Q :=
  if Qle_bool x 0 then 0%Q
  else let e := f64_exponent x in (inject_Z (round_half_even (x / Qpower 2 e)) * Qpower 2 e)%Q.

(** *** u64 and durations *)

Definition u64_max : Z := 2 ^ 64 - 1.
Definition u64_saturating_mul (a b : Z) : Z := Z.min (a * b) u64_max.

(** [Duration::as_millis() as u64], of a duration in nanoseconds. *)
Definition as_millis_u64 (d : Z) : Z := (d / 1000000) mod 2 ^ 64.
(** [Duration::from_millis] *)
Definition from_millis (ms : Z) : Z := ms * 1000000.

(** [x as u64] of an f64. *)
Definition f64_as_u64 (x : Q) : Z := Z.min (Z.max 0 (Qfloor x)) u64_max.

(** [jitter_fraction]: [nanos] is the sub-second part of the clock reading. *)
Definition jitter_fraction (nanos : Z) : Q := f64_round (inject_Z (nanos mod 1000) / inject_Z 1000).

(** The saturated exponential step of [delay]. *)
Definition capped_ms (attempt base_ms max_ms : Z) : Z :=
  let shift := Z.min (Z.max (attempt - 1) 0) 32 in
  Z.min (u64_saturating_mul base_ms (Z.shiftl 1 shift)) max_ms.

(** [backoff::delay] *)
Definition delay (nanos attempt base max : Z) : Z :=
  let base_ms := as_millis_u64 base in
  let max_ms := as_millis_u64 max in
  if (base_ms =? 0) || (max_ms =? 0) then from_millis 0
  else
    let half := capped_ms attempt base_ms max_ms / 2 in
    let jitter := f64_as_u64 (f64_round (f64_round (inject_Z half) * jitter_fraction nanos)) in
    from_millis (half + jitter).

(** *** The rounding error *)

Section Rounding.
Local Open Scope Q_scope.

Lemma pow2_pos e : 0 < 2 ^ e.
Proof. by apply Qpower_0_lt. Qed.

Lemma pow2_split a b : 2 ^ (a + b) == 2 ^ a * 2 ^ b.
Proof. by apply Qpower_plus. Qed.

Lemma pow2_Z k : (0 <= k)%Z -> inject_Z (2 ^ k) == 2 ^ k.
Proof. intros Hk. by rewrite Zpower_Qpower. Qed.

(** The leading bit of a positive rational. *)
Lemma log2_ratio x : 0 < x -> 2 ^ (Z.log2 (Qnum x) - Z.log2 (QDen x) - 1) <= x.
Proof.
  destruct x as [n d]. intros Hx.
  assert (0 < n)%Z as Hn by (revert Hx; unfold Qlt; cbn; lia). cbn [Qnum Qden].
  apply (Qmult_le_r _ _ (2 ^ (Z.log2 (Zpos d) + 1))); [apply pow2_pos|].
  rewrite -pow2_split. replace (_ - _ - 1 + (_ + 1))%Z with (Z.log2 n) by lia.
  pose proof (Z.log2_nonneg n). pose proof (Z.log2_nonneg (Zpos d)).
  rewrite -(pow2_Z (Z.log2 n)) // -(pow2_Z (Z.log2 (Zpos d) + 1)); [lia|].
  destruct (Z.log2_spec n Hn) as [H1 _]. destruct (Z.log2_spec (Zpos d) eq_refl) as [_ H2].
  rewrite -Z.add_1_r in H2. revert H1 H2. generalize (2 ^ Z.log2 n)%Z (2 ^ (Z.log2 (Zpos d) + 1))%Z.
  intros a b Ha Hb. unfold Qle, inject_Z, Qmult. cbn [Qnum Qden]. rewrite !Z.mul_1_r Pos.mul_1_r. nia.
Qed.

Lemma f64_exponent_bits x : 0 < x -> inject_Z (2 ^ 52) <= x / 2 ^ f64_exponent x.
Proof.
  intros Hx. unfold f64_exponent. apply Qle_shift_div_l; [apply pow2_pos|].
  rewrite pow2_Z; [done|]. rewrite -pow2_split.
  destruct (Qle_bool _ x) eqn:Hb.
  - apply Qle_bool_iff in Hb. by replace (52 + _)%Z with (Z.log2 (Qnum x) - Z.log2 (QDen x))%Z by lia.
  - replace (52 + _)%Z with (Z.log2 (Qnum x) - Z.log2 (QDen x) - 1)%Z by lia. by apply log2_ratio.
Qed.

Lemma round_half_even_le x : inject_Z (round_half_even x) <= x + (1 # 2).
Proof.
  unfold round_half_even. pose proof (Qfloor_le x) as H1.
  destruct (Qcompare_spec (x - inject_Z (Qfloor x)) (1 # 2)); [destruct (Z.even _)|..];
    rewrite ?inject_Z_plus; change (inject_Z 1) with 1; lra.
Qed.

Lemma round_half_even_pos x : 0 <= x -> (0 <= round_half_even x)%Z.
Proof.
  intros Hx. assert (0 <= Qfloor x)%Z as H by (change 0%Z with (Qfloor 0); by apply Qfloor_resp_le).
  unfold round_half_even. repeat case_match; lia.
Qed.

(** Rounding adds at most one part in 2^53 = 9007199254740992. *)
Lemma f64_round_bounds x : 0 <= x -> 0 <= f64_round x <= x * (1 + (1 # 9007199254740992)).
Proof.
  intros Hx. unfold f64_round. destruct (Qle_bool x 0) eqn:Hz.
  { split; [done|]. apply Qmult_le_0_compat; [done|discriminate]. }
  assert (0 < x) as Hpos by (apply Qnot_le_lt; by rewrite -Qle_bool_iff Hz).
  set (e := f64_exponent x). pose proof (f64_exponent_bits x Hpos) as Hbits. fold e in Hbits.
  pose proof (pow2_pos e) as He. set (p := 2 ^ e) in *. set (y := x / p) in *.
  assert (x == y * p) as Hxy by (unfold y; field; intros H; rewrite H in He; discriminate He).
  pose proof (round_half_even_le y) as Hr.
  assert (0 <= y) as Hy by (eapply Qle_trans; [|exact Hbits]; discriminate).
  pose proof (round_half_even_pos y Hy) as Hn.
  split.
  - apply Qmult_le_0_compat; [|by apply Qlt_le_weak]. by rewrite (Zle_Qle 0) in Hn.
  - assert (y * p * (1 + (1 # 9007199254740992)) == y * (1 + (1 # 9007199254740992)) * p) as Hring by ring.
    rewrite Hxy Hring.
    apply Qmult_le_r; [done|]. change (inject_Z (2 ^ 52)) with (4503599627370496 # 1) in Hbits. lra.
Qed.

(** The jitter never exceeds the half it is drawn from. *)
Lemma jitter_bounds half nanos :
  (0 <= half)%Z -> (half <= u64_max)%Z ->
  (0 <= f64_as_u64 (f64_round (f64_round (inject_Z half) * jitter_fraction nanos)) <= half)%Z.
Proof.
  intros Hh Hm. unfold jitter_fraction.
  set (k := (nanos mod 1000)%Z). assert (0 <= k <= 999)%Z as Hk by (unfold k; pose proof (Z.mod_pos_bound nanos 1000 eq_refl); lia).
  set (f := inject_Z k / inject_Z 1000).
  assert (0 <= f <= 999 # 1000) as [Hf0 Hf1].
  { unfold f. split; [apply Qle_shift_div_l|apply Qle_shift_div_r]; try done;
      unfold Qle, inject_Z; cbn; lia. }
  assert (0 <= inject_Z half) as HQ by (by rewrite (Zle_Qle 0) in Hh).
  destruct (f64_round_bounds _ HQ) as [Ha0 Ha1]. destruct (f64_round_bounds _ Hf0) as [Hb0 Hb1].
  set (a := f64_round (inject_Z half)) in *. set (b := f64_round f) in *.
  assert (0 <= a * b) as Hab by by apply Qmult_le_0_compat.
  destruct (f64_round_bounds _ Hab) as [Hc0 Hc1]. set (c := f64_round (a * b)) in *.
  assert (b <= 9991 # 10000) as Hb2 by lra.
  assert (a * b <= a * (9991 # 10000)) as Hab2.
  { rewrite (Qmult_comm a b) (Qmult_comm a). by apply Qmult_le_compat_r. }
  assert (c <= inject_Z half) as Hc2 by lra.
  assert (0 <= Qfloor c)%Z as Hfl by (change 0%Z with (Qfloor 0); by apply Qfloor_resp_le).
  assert (Qfloor c <= half)%Z by (rewrite -(Qfloor_Z half); by apply Qfloor_resp_le).
  unfold f64_as_u64. lia.
Qed.
End Rounding.

(** *** The delay *)

Lemma capped_ms_eq attempt base_ms max_ms :
  1 <= attempt -> max_ms <= u64_max ->
  capped_ms attempt base_ms max_ms = Z.min (base_ms * 2 ^ Z.min (attempt - 1) 32) max_ms.
Proof.
  intros Ha Hm. unfold capped_ms, u64_saturating_mul. rewrite (Z.max_l (attempt - 1)); [lia|].
  rewrite Z.shiftl_mul_pow2; [lia|]. lia.
Qed.

Lemma as_millis_bounds d : 0 <= as_millis_u64 d <= u64_max.
Proof. unfold as_millis_u64, u64_max. pose proof (Z.mod_pos_bound (d / 1000000) (2 ^ 64) eq_refl). lia. Qed.

Lemma as_millis_le d : 0 <= d -> as_millis_u64 d * 1000000 <= d.
Proof.
  intros Hd. unfold as_millis_u64. pose proof (Z.div_pos d 1000000 Hd eq_refl).
  pose proof (Z.mod_le (d / 1000000) (2 ^ 64) H eq_refl). pose proof (Z.mul_div_le d 1000000 eq_refl). lia.
Qed.

Lemma delay_bounds nanos attempt base max :
  0 < as_millis_u64 base -> 0 < as_millis_u64 max ->
  let c := capped_ms attempt (as_millis_u64 base) (as_millis_u64 max) in
  from_millis (c / 2) <= delay nanos attempt base max <= from_millis c.
Proof.
  intros Hb Hm c. unfold delay.
  rewrite (proj2 (Z.eqb_neq _ _)); [lia|]. rewrite (proj2 (Z.eqb_neq _ _)); [lia|]. cbn [orb]. fold c.
  assert (0 <= c <= u64_max) as Hc.
  { unfold c, capped_ms, u64_saturating_mul. pose proof (as_millis_bounds max). split; [|lia].
    assert (0 <= Z.shiftl 1 (Z.min (Z.max (attempt - 1) 0) 32)) by by apply Z.shiftl_nonneg.
    pose proof (Z.mul_nonneg_nonneg (as_millis_u64 base) _ ltac:(lia) H0). unfold u64_max. lia. }
  pose proof (Z.div_pos c 2 ltac:(lia) eq_refl). pose proof (Z.mul_div_le c 2 eq_refl).
  pose proof (jitter_bounds (c / 2) nanos ltac:(lia) ltac:(lia)). unfold from_millis. lia.
Qed.
