(* ===== verification/Outbox.v ===== *)
(** The execution node's outbox (crates/stackhour-node/src/engine.rs,
    [EngineOutbox]) and the tasks that feed the link's single writer: every
    event is kept until the hub acknowledges it, and sent again on each attach
    and heartbeat. One definition per critical section of the mutex; a
    [send().await] is a task that moves one frame at a time into the bounded
    channel. *)
From S2P Require Import Prelude.
From S2P Require Import Platform.
From S2P Require Import Ids.
From S2P Require Import Entities.
From S2P Require Import Event.
From S2P Require Import Protocol.

Section Outbox.
Context {P : Platform}.

(** [Outgoing]; a pong's payload plays no role. *)
Inductive Outgoing := Out_Protocol (m : NodeToHub) | Out_Pong.

(** [OutboxState]; the sender half of a session's channel is its index. *)
Record OutboxState := MkOutbox { ob_tx : option nat; ob_pending : list (EventId * NodeToHub) }.

(** [mpsc::channel::<Outgoing>(64)] of one session: whether the writer still
    holds the receiver, and the frames queued. *)
Record LinkChannel := MkLink { lc_open : bool; lc_queue : list Outgoing }.
Definition LINK_CAPACITY : nat := 64.

(** The node's sending side: the shared outbox, the channels of its sessions,
    and the tasks awaiting a send, each with the channel it captured and the
    frames it has left. *)
Record NodeSide := MkNodeSide {
  ns_outbox : OutboxState;
  ns_links : list LinkChannel;
  ns_sending : list (nat * list NodeToHub);
}.

(** [EngineOutbox::persistent] *)
Definition persistent : NodeSide := MkNodeSide (MkOutbox None []) [] [].

Definition set_outbox (o : OutboxState) (s : NodeSide) : NodeSide := MkNodeSide o (ns_links s) (ns_sending s).
Definition set_links (l : list LinkChannel) (s : NodeSide) : NodeSide :=
  MkNodeSide (ns_outbox s) l (ns_sending s).

(** A task that awaits sending [ms] on [tx]. *)
Definition await_send (tx : option nat) (ms : list NodeToHub) (s : NodeSide) : NodeSide :=
  match tx with
  | Some c => MkNodeSide (ns_outbox s) (ns_links s) (ns_sending s ++ [(c, ms)])
  | None => s
  end.

Definition pending_messages (s : NodeSide) : list NodeToHub := (ob_pending (ns_outbox s)).*2.

(** [EngineOutbox::attach] *)
Definition attach (tx : nat) (s : NodeSide) : NodeSide :=
  await_send (Some tx) (pending_messages s) (set_outbox (MkOutbox (Some tx) (ob_pending (ns_outbox s))) s).

(** [EngineOutbox::detach] *)
Definition detach (s : NodeSide) : NodeSide := set_outbox (MkOutbox None (ob_pending (ns_outbox s))) s.

(** [EngineOutbox::resend_pending] *)
Definition resend_pending (s : NodeSide) : NodeSide :=
  await_send (ob_tx (ns_outbox s)) (pending_messages s) s.

(** [position(..)] and [remove(index)]: the first entry with this id. *)
Fixpoint remove_event (i : EventId) (l : list (EventId * NodeToHub)) : list (EventId * NodeToHub) :=
  match l with
  | [] => []
  | (j, m) :: l' => if bool_decide (j = i) then l' else (j, m) :: remove_event i l'
  end.

(** [EngineOutbox::acknowledge_event] *)
Definition acknowledge_event (i : EventId) (s : NodeSide) : NodeSide :=
  set_outbox (MkOutbox (ob_tx (ns_outbox s)) (remove_event i (ob_pending (ns_outbox s)))) s.

(** [EngineOutbox::emit_draft]; [fresh] is the id it draws. *)
Definition emit_draft (fresh : EventId) (draft : EventDraft) (s : NodeSide) : NodeSide :=
  let msg := NH_NodeEvent fresh draft in
  let o := ns_outbox s in
  await_send (ob_tx o) [msg] (set_outbox (MkOutbox (ob_tx o) (ob_pending o ++ [(fresh, msg)])) s).

(** The draft of [EngineOutbox::emit]. *)
Definition emit_event (now : Time) (node_id : NodeId) (kind : EventKind) (task_id : TaskId)
    (run_id : option RunId) (payload : Value) : EventDraft :=
  let draft := draft_new now kind task_id node_id in
  with_payload payload (match run_id with Some r => with_run r draft | None => draft end).

(** [EngineOutbox::ack] *)
Definition ack (c : CommandId) (s : NodeSide) : NodeSide :=
  await_send (ob_tx (ns_outbox s)) [NH_CommandAck c] s.

(** One poll of the [k]-th awaiting task: the next frame enters the channel if it
    is open and has room; on a closed channel the task gives up. *)
Definition poll_send (k : nat) (s : NodeSide) : NodeSide :=
  match ns_sending s !! k with
  | Some (c, m :: ms) =>
      match ns_links s !! c with
      | Some (MkLink true queue) =>
          if Nat.ltb (length queue) LINK_CAPACITY
          then MkNodeSide (ns_outbox s) (<[c := MkLink true (queue ++ [Out_Protocol m])]> (ns_links s))
                 (<[k := (c, ms)]> (ns_sending s))
          else s
      | _ => MkNodeSide (ns_outbox s) (ns_links s) (delete k (ns_sending s))
      end
  | Some (_, []) => MkNodeSide (ns_outbox s) (ns_links s) (delete k (ns_sending s))
  | None => s
  end.

(** [connect_once], after the handshake: a new session's channel. *)
Definition open_link (s : NodeSide) : NodeSide := set_links (ns_links s ++ [MkLink true []]) s.
(** The writer stops: its receiver is dropped with what it held. *)
Definition close_link (c : nat) (s : NodeSide) : NodeSide :=
  set_links (alter (fun _ => MkLink false []) c (ns_links s)) s.

(** [rx.recv()] of [writer_task]: the next frame for the socket. *)
Definition writer_recv (c : nat) (s : NodeSide) : option Outgoing * NodeSide :=
  match ns_links s !! c with
  | Some (MkLink o (m :: queue)) => (Some m, set_links (<[c := MkLink o queue]> (ns_links s)) s)
  | _ => (None, s)
  end.

(** *** Facts *)

Lemma remove_event_sublist i l : remove_event i l `sublist_of` l.
Proof.
  induction l as [|[j m] l IH]; cbn; [constructor|].
  case_bool_decide; [by constructor|]. by constructor.
Qed.

Lemma remove_event_keeps i j l : j <> i -> j ∈ l.*1 -> j ∈ (remove_event i l).*1.
Proof.
  intros Hne. induction l as [|[x m] l IH]; cbn; [done|]. intros [->|H]%elem_of_cons.
  - rewrite bool_decide_eq_false_2; [done|]. by left.
  - case_bool_decide; [done|]. right. by apply IH.
Qed.

Lemma remove_event_gone i l : NoDup l.*1 -> i ∉ (remove_event i l).*1.
Proof.
  induction l as [|[x m] l IH]; cbn; [intros _; by apply not_elem_of_nil|].
  intros [Hx Hnd]%NoDup_cons. case_bool_decide as Hi; [by subst|].
  intros [->|H]%elem_of_cons; [done|]. by apply IH.
Qed.

(** Every frame an awaiting task or a channel holds satisfies [Q]. *)
Definition out_ok (Q : NodeToHub -> Prop) (o : Outgoing) : Prop :=
  match o with Out_Protocol m => Q m | Out_Pong => True end.
Record carries (Q : NodeToHub -> Prop) (s : NodeSide) : Prop := {
  ca_sending : Forall (fun t => Forall Q t.2) (ns_sending s);
  ca_queued : Forall (fun l => Forall (out_ok Q) (lc_queue l)) (ns_links s);
}.

Lemma carries_weaken (Q Q' : NodeToHub -> Prop) s : (forall m, Q m -> Q' m) -> carries Q s -> carries Q' s.
Proof.
  intros H [H1 H2]. constructor.
  - eapply Forall_impl; [exact H1|]. intros t Ht. eapply Forall_impl; [exact Ht|exact H].
  - eapply Forall_impl; [exact H2|]. intros l Hl. eapply Forall_impl; [exact Hl|]. intros []; cbn; auto.
Qed.

Lemma carries_await Q tx ms s : Forall Q ms -> carries Q s -> carries Q (await_send tx ms s).
Proof.
  intros Hm [H1 H2]. destruct tx as [c|]; cbn; [|by constructor]. constructor; cbn; [|done].
  apply Forall_app. split; [done|]. by apply Forall_singleton.
Qed.

Lemma carries_outbox Q o s : carries Q s -> carries Q (set_outbox o s).
Proof. intros [H1 H2]. by constructor. Qed.

Lemma carries_links Q l s :
  Forall (fun l => Forall (out_ok Q) (lc_queue l)) l -> carries Q s -> carries Q (set_links l s).
Proof. intros Hl [H1 H2]. by constructor. Qed.

Lemma carries_poll Q k s : carries Q s -> carries Q (poll_send k s).
Proof.
  intros [H1 H2]. pose proof (conj H1 H2) as Hs. unfold poll_send.
  destruct (ns_sending s !! k) as [[c [|m ms]]|] eqn:Hk; [| |by constructor].
  - constructor; cbn; [by apply Forall_delete|done].
  - pose proof (Forall_lookup_1 _ _ _ _ H1 Hk) as Hm. cbn in Hm. apply Forall_cons in Hm as [Hm Hms].
    destruct (ns_links s !! c) as [[[] q]|] eqn:Hc; [|constructor; cbn; [by apply Forall_delete|done]..].
    destruct (Nat.ltb _ _); [|by constructor].
    pose proof (Forall_lookup_1 _ _ _ _ H2 Hc) as Hq. cbn in Hq.
    constructor; cbn; apply Forall_insert; try done.
    cbn. apply Forall_app. split; [done|]. by apply Forall_singleton.
Qed.

Lemma carries_writer Q c s o s' :
  writer_recv c s = (o, s') -> carries Q s -> carries Q s' /\ (forall m, o = Some (Out_Protocol m) -> Q m).
Proof.
  unfold writer_recv. intros H [H1 H2].
  destruct (ns_links s !! c) as [[b [|m q]]|] eqn:Hc; simplify_eq; try by split.
  pose proof (Forall_lookup_1 _ _ _ _ H2 Hc) as Hq. cbn in Hq. apply Forall_cons in Hq as [Hm Hq].
  split; [|by intros m' [= ->]]. constructor; cbn; [done|]. by apply Forall_insert.
Qed.
End Outbox.
