(* ===== verification/NodeDelivery.v ===== *)
(** A node and a hub with a lossy link between them. What the node relies on is
    stated as an interface, [HubSide]; the interleavings of the node's tasks,
    its writer, the socket and the hub are the steps of one relation; no step
    loses an event that the hub has not settled, and a connected node can
    always settle what it still holds. The hub of Links.v implements the
    interface (HubContract.v). *)
From S2P Require Import Prelude.
From S2P Require Import Platform.
From S2P Require Import Ids.
From S2P Require Import Entities.
From S2P Require Import Event.
From S2P Require Import Protocol.
From S2P Require Import Outbox.

Section NodeDelivery.
Context {P : Platform}.

(** *** What a hub promises to a node *)
Class HubSide := {
  hb : Type;
  (** what holds of the hub at every moment, and what it asks of a draft *)
  hb_ok : hb -> Prop;
  hb_draft_ok : EventDraft -> Prop;
  (** a frame of this node is handled: the frames queued for it in answer *)
  hb_handle : NodeToHub -> hb -> hb * list HubToNode;
  (** whatever the hub does for anyone else *)
  hb_other : relation hb;
  (** the log holds an event with this id; an event is refused as not this node's *)
  hb_logged : EventId -> hb -> Prop;
  hb_refuses : EventDraft -> hb -> bool;
  (** the link is up and the hub has room for this many more events *)
  hb_ready : nat -> hb -> Prop;
}.

Class HubSideLaws (H : HubSide) : Prop := {
  hb_handle_ok m h : hb_ok h -> (forall i d, m = NH_NodeEvent i d -> hb_draft_ok d) -> hb_ok (hb_handle m h).1;
  hb_other_ok h h' : hb_ok h -> hb_other h h' -> hb_ok h';
  hb_handle_logged m h i : hb_ok h -> (forall j d, m = NH_NodeEvent j d -> hb_draft_ok d) ->
    hb_logged i h -> hb_logged i (hb_handle m h).1;
  hb_other_logged h h' i : hb_ok h -> hb_other h h' -> hb_logged i h -> hb_logged i h';
  hb_ack_settles m h i : hb_ok h -> HN_EventAck i ∈ (hb_handle m h).2 ->
    exists d, m = NH_NodeEvent i d /\ (hb_logged i (hb_handle m h).1 \/ hb_refuses d h = true);
  hb_ready_acks k i d h : hb_ok h -> hb_draft_ok d -> hb_ready (S k) h ->
    HN_EventAck i ∈ (hb_handle (NH_NodeEvent i d) h).2 /\ hb_ready k (hb_handle (NH_NodeEvent i d) h).1;
}.

Context {H : HubSide} {HL : HubSideLaws H}.

(** *** The system *)

(** The node, the frames on the socket in each direction, the hub; and, for
    the statements, what was emitted and what the hub refused. *)
Record Sys := MkSys {
  sy_node : NodeSide;
  sy_up : list NodeToHub;
  sy_down : list HubToNode;
  sy_hub : hb;
  sy_emitted : list (EventId * EventDraft);
  sy_refused : list EventId;
}.

Definition set_node (n : NodeSide) (s : Sys) : Sys :=
  MkSys n (sy_up s) (sy_down s) (sy_hub s) (sy_emitted s) (sy_refused s).

(** A frame from the socket at the node, as [handle_hub_message] treats an
    acknowledgement; the other frames do not concern the outbox. *)
Definition node_receive (m : HubToNode) (n : NodeSide) : NodeSide :=
  match m with
  | HN_EventAck i => acknowledge_event i n
  | _ => n
  end.

(** The events the hub refused, once it has handled [m]. *)
Definition note_refused (m : NodeToHub) (h : hb) (refused : list EventId) : list EventId :=
  match m with
  | NH_NodeEvent i d => if hb_refuses d h then i :: refused else refused
  | _ => refused
  end.

Inductive sys_step : Sys -> Sys -> Prop :=
| step_emit i d s :
    i ∉ (sy_emitted s).*1 -> hb_draft_ok d ->
    sys_step s (MkSys (emit_draft i d (sy_node s)) (sy_up s) (sy_down s) (sy_hub s)
                  (sy_emitted s ++ [(i, d)]) (sy_refused s))
| step_command_ack c s : sys_step s (set_node (ack c (sy_node s)) s)
| step_attach c s : sys_step s (set_node (attach c (sy_node s)) s)
| step_detach s : sys_step s (set_node (detach (sy_node s)) s)
| step_heartbeat s : sys_step s (set_node (resend_pending (sy_node s)) s)
| step_poll k s : sys_step s (set_node (poll_send k (sy_node s)) s)
| step_open s : sys_step s (set_node (open_link (sy_node s)) s)
| step_close c s : sys_step s (set_node (close_link c (sy_node s)) s)
| step_write c m n s (** the socket took the frame *) :
    writer_recv c (sy_node s) = (Some (Out_Protocol m), n) ->
    sys_step s (MkSys n (sy_up s ++ [m]) (sy_down s) (sy_hub s) (sy_emitted s) (sy_refused s))
| step_write_lost c o n s :
    writer_recv c (sy_node s) = (o, n) -> sys_step s (set_node n s)
| step_lose_up u1 m u2 s :
    sy_up s = u1 ++ m :: u2 ->
    sys_step s (MkSys (sy_node s) (u1 ++ u2) (sy_down s) (sy_hub s) (sy_emitted s) (sy_refused s))
| step_lose_down u1 m u2 s :
    sy_down s = u1 ++ m :: u2 ->
    sys_step s (MkSys (sy_node s) (sy_up s) (u1 ++ u2) (sy_hub s) (sy_emitted s) (sy_refused s))
| step_hub u1 m u2 s :
    sy_up s = u1 ++ m :: u2 ->
    sys_step s (MkSys (sy_node s) (u1 ++ u2) (sy_down s ++ (hb_handle m (sy_hub s)).2)
                  (hb_handle m (sy_hub s)).1 (sy_emitted s) (note_refused m (sy_hub s) (sy_refused s)))
| step_hub_other h s :
    hb_other (sy_hub s) h ->
    sys_step s (MkSys (sy_node s) (sy_up s) (sy_down s) h (sy_emitted s) (sy_refused s))
| step_receive u1 m u2 s :
    sy_down s = u1 ++ m :: u2 ->
    sys_step s (MkSys (node_receive m (sy_node s)) (sy_up s) (u1 ++ u2) (sy_hub s)
                  (sy_emitted s) (sy_refused s)).

Lemma step_hub_to u1 m u2 s h out refused :
  sy_up s = u1 ++ m :: u2 -> hb_handle m (sy_hub s) = (h, out) ->
  note_refused m (sy_hub s) (sy_refused s) = refused ->
  sys_step s (MkSys (sy_node s) (u1 ++ u2) (sy_down s ++ out) h (sy_emitted s) refused).
Proof. intros Hu Hh Hr. pose proof (step_hub u1 m u2 s Hu) as H'. by rewrite Hh Hr in H'. Qed.

(** A node that has just started, and a hub. *)
Definition sys_start (h : hb) : Sys := MkSys persistent [] [] h [] [].

(** *** The invariant *)

Definition settled (s : Sys) (i : EventId) : Prop := hb_logged i (sy_hub s) \/ i ∈ sy_refused s.

(** A frame that is an event is one that was emitted. *)
Definition genuine (emitted : list (EventId * EventDraft)) (m : NodeToHub) : Prop :=
  forall i d, m = NH_NodeEvent i d -> (i, d) ∈ emitted.

Definition held (s : Sys) : list (EventId * NodeToHub) := ob_pending (ns_outbox (sy_node s)).

Record sys_inv (s : Sys) : Prop := {
  si_hub : hb_ok (sy_hub s);
  si_fresh : NoDup (sy_emitted s).*1;
  si_drafts : Forall (fun e => hb_draft_ok e.2) (sy_emitted s);
  si_held : held s `sublist_of` ((fun e => (e.1, NH_NodeEvent e.1 e.2)) <$> sy_emitted s);
  si_carried : carries (genuine (sy_emitted s)) (sy_node s);
  si_up : Forall (genuine (sy_emitted s)) (sy_up s);
  si_down : forall i, HN_EventAck i ∈ sy_down s -> settled s i;
  si_safe : forall i, i ∈ (sy_emitted s).*1 -> i ∈ (held s).*1 \/ settled s i;
}.

Lemma sys_start_inv h : hb_ok h -> sys_inv (sys_start h).
Proof.
  intros Hh. constructor; cbn; try done; try (by constructor); intros i Hi; by apply not_elem_of_nil in Hi.
Qed.

(** The operations that leave the pending events as they are. *)
Definition same_pending (n n' : NodeSide) : Prop := ob_pending (ns_outbox n') = ob_pending (ns_outbox n).

Lemma await_outbox tx ms n : ns_outbox (await_send tx ms n) = ns_outbox n.
Proof. by destruct tx. Qed.
Lemma poll_outbox k n : ns_outbox (poll_send k n) = ns_outbox n.
Proof. unfold poll_send. by repeat case_match. Qed.
Lemma writer_outbox c n o n' : writer_recv c n = (o, n') -> ns_outbox n' = ns_outbox n.
Proof. unfold writer_recv. intros Hw. repeat case_match; by simplify_eq. Qed.

Lemma held_genuine s : sys_inv s -> Forall (genuine (sy_emitted s)) (pending_messages (sy_node s)).
Proof.
  intros Hi. apply Forall_forall. intros m Hm i d ->. unfold pending_messages in Hm.
  apply list_elem_of_fmap in Hm as ([j m] & Hj & Hin). cbn in Hj. subst m.
  pose proof (elem_of_sublist _ _ _ Hin (si_held s Hi)) as Hin'. apply list_elem_of_fmap in Hin' as ([i' d'] & [= -> -> ->] & He). done.
Qed.

(** A step of the node alone that keeps its pending events. *)
Lemma set_node_inv n s :
  sys_inv s -> same_pending (sy_node s) n -> carries (genuine (sy_emitted s)) n -> sys_inv (set_node n s).
Proof.
  intros [] Hp Hc. unfold held, same_pending in *. constructor; cbn; try done; unfold held; cbn; by rewrite Hp.
Qed.

Lemma genuine_more e em m : genuine em m -> genuine (em ++ [e]) m.
Proof. intros Hg i d Hm. apply elem_of_app. left. by apply Hg. Qed.

Lemma emit_inv i d s :
  sys_inv s -> i ∉ (sy_emitted s).*1 -> hb_draft_ok d ->
  sys_inv (MkSys (emit_draft i d (sy_node s)) (sy_up s) (sy_down s) (sy_hub s)
             (sy_emitted s ++ [(i, d)]) (sy_refused s)).
Proof.
  intros [Hh Hf Hd Hs Hc Hu Hw Hsafe] Hi Hok. unfold held in *.
  constructor; unfold held; cbn [sy_hub sy_emitted sy_node sy_up sy_down]; rewrite ?fmap_app; cbn [fmap list_fmap].
  - done.
  - apply NoDup_app. split; [done|]. split; [|apply NoDup_singleton].
    intros j Hj Hj'%list_elem_of_singleton. cbn in Hj'. by subst.
  - apply Forall_app. split; [done|]. by apply Forall_singleton.
  - unfold emit_draft. rewrite await_outbox. cbn. by apply sublist_app.
  - apply carries_await; [|apply carries_outbox; by eapply carries_weaken; [apply genuine_more|]].
    apply Forall_singleton. intros j e [= <- <-]. apply elem_of_app. right. by apply list_elem_of_singleton.
  - eapply Forall_impl; [exact Hu|]. intros m. apply genuine_more.
  - done.
  - unfold emit_draft. rewrite await_outbox. cbn. intros j [Hj|Hj]%elem_of_app.
    + destruct (Hsafe j Hj) as [Hp|Hp]; [left|by right]. rewrite fmap_app. apply elem_of_app. by left.
    + left. rewrite fmap_app. apply elem_of_app. by right.
Qed.

Lemma settled_hub m s i :
  sys_inv s -> genuine (sy_emitted s) m -> settled s i ->
  hb_logged i (hb_handle m (sy_hub s)).1 \/ i ∈ note_refused m (sy_hub s) (sy_refused s).
Proof.
  intros Hi Hg [Hl|Hr].
  - left. apply hb_handle_logged; [apply Hi| |done]. intros j d ->.
    exact (proj1 (Forall_forall _ _) (si_drafts s Hi) (j, d) (Hg j d eq_refl)).
  - right. destruct m as [j d| |]; cbn; [|done..]. destruct (hb_refuses _ _); [by right|done].
Qed.

Lemma genuine_drafts s m i d :
  sys_inv s -> genuine (sy_emitted s) m -> m = NH_NodeEvent i d -> hb_draft_ok d.
Proof. intros Hi Hg Hm. exact (proj1 (Forall_forall _ _) (si_drafts s Hi) (i, d) (Hg i d Hm)). Qed.

Lemma hub_inv u1 m u2 s :
  sys_inv s -> sy_up s = u1 ++ m :: u2 ->
  sys_inv (MkSys (sy_node s) (u1 ++ u2) (sy_down s ++ (hb_handle m (sy_hub s)).2)
             (hb_handle m (sy_hub s)).1 (sy_emitted s) (note_refused m (sy_hub s) (sy_refused s))).
Proof.
  intros Hi Hup. pose proof (si_up s Hi) as Hu. rewrite Hup in Hu. apply Forall_app in Hu as [Hu1 Hu2].
  apply Forall_cons in Hu2 as [Hm Hu2]. pose proof (fun j d => genuine_drafts s m j d Hi Hm) as Hd.
  pose proof (fun j => settled_hub m s j Hi Hm) as Hset. pose proof Hi as [].
  constructor; unfold held, settled in *; cbn; try done.
  - by apply hb_handle_ok.
  - by apply Forall_app.
  - intros j [Hj|Hj]%elem_of_app; [by apply Hset, si_down0|].
    destruct (hb_ack_settles _ _ _ si_hub0 Hj) as (d & -> & [Hl|Hr]); [by left|]. right. cbn.
    rewrite Hr. by left.
  - intros j Hj. destruct (si_safe0 j Hj) as [Hp|Hp]; [by left|]. right. by apply Hset.
Qed.

Lemma receive_inv u1 m u2 s :
  sys_inv s -> sy_down s = u1 ++ m :: u2 ->
  sys_inv (MkSys (node_receive m (sy_node s)) (sy_up s) (u1 ++ u2) (sy_hub s) (sy_emitted s) (sy_refused s)).
Proof.
  intros Hi Hdown. pose proof Hi as [].
  assert (forall j, HN_EventAck j ∈ u1 ++ u2 -> settled s j) as Hrest.
  { intros j Hj. apply si_down0. rewrite Hdown. apply elem_of_app. apply elem_of_app in Hj as [Hj|Hj]; [by left|].
    right. by right. }
  destruct m; cbn [node_receive]; try (by constructor; cbn).
  assert (settled s event_id) as Hack.
  { apply si_down0. rewrite Hdown. apply elem_of_app. right. by left. }
  constructor; unfold held, settled in *; cbn; try done.
  - etrans; [apply remove_event_sublist|done].
  - by apply carries_outbox.
  - intros j Hj. destruct (si_safe0 j Hj) as [Hp|Hp]; [|by right].
    destruct (decide (j = event_id)) as [->|Hne]; [by right|]. left. by apply remove_event_keeps.
Qed.

Lemma lose_up_inv u1 m u2 s :
  sys_inv s -> sy_up s = u1 ++ m :: u2 ->
  sys_inv (MkSys (sy_node s) (u1 ++ u2) (sy_down s) (sy_hub s) (sy_emitted s) (sy_refused s)).
Proof.
  intros [] Hup. rewrite Hup in si_up0. apply Forall_app in si_up0 as [Hu1 Hu2]. apply Forall_cons in Hu2 as [_ Hu2].
  constructor; cbn; try done. by apply Forall_app.
Qed.

Lemma lose_down_inv u1 m u2 s :
  sys_inv s -> sy_down s = u1 ++ m :: u2 ->
  sys_inv (MkSys (sy_node s) (sy_up s) (u1 ++ u2) (sy_hub s) (sy_emitted s) (sy_refused s)).
Proof.
  intros [] Hdown. constructor; cbn; try done. intros j Hj. apply si_down0. rewrite Hdown.
  apply elem_of_app. apply elem_of_app in Hj as [Hj|Hj]; [by left|]. right. by right.
Qed.

(** Losing frames, reordering, reconnecting, resending, handling twice: every
    step keeps the invariant. *)
Lemma sys_step_inv s s' : sys_inv s -> sys_step s s' -> sys_inv s'.
Proof.
  intros Hi Hstep. pose proof (si_carried s Hi) as Hc. pose proof (held_genuine s Hi) as Hg.
  destruct Hstep as [i d s Hf Hok|c s|c s|s|s|k s|s|c s|c m n s Hw|c o n s Hw|u1 m u2 s Hu|u1 m u2 s Hd
    |u1 m u2 s Hu|h s Ho|u1 m u2 s Hd].
  - by apply emit_inv.
  - apply set_node_inv; [done|unfold same_pending, ack; by rewrite await_outbox|].
    apply carries_await; [|done]. apply Forall_singleton. by intros ??.
  - apply set_node_inv; [done|done|]. apply carries_await; [done|by apply carries_outbox].
  - apply set_node_inv; [done|done|by apply carries_outbox].
  - apply set_node_inv; [done|unfold same_pending, resend_pending; by rewrite await_outbox|].
    by apply carries_await.
  - apply set_node_inv; [done|unfold same_pending; by rewrite poll_outbox|by apply carries_poll].
  - apply set_node_inv; [done|done|]. apply carries_links; [|done].
    apply Forall_app. split; [apply Hc|by apply Forall_singleton].
  - apply set_node_inv; [done|done|]. apply carries_links; [|done].
    apply Forall_alter; [apply Hc|by constructor].
  - destruct (carries_writer _ _ _ _ _ Hw Hc) as [Hc' Hm]. pose proof (writer_outbox _ _ _ _ Hw) as Ho.
    destruct (set_node_inv n s Hi) as []; [by unfold same_pending; rewrite Ho|done|].
    constructor; try done. cbn. apply Forall_app. split; [apply Hi|]. apply Forall_singleton. by apply Hm.
  - destruct (carries_writer _ _ _ _ _ Hw Hc) as [Hc' _]. apply set_node_inv; [done| |done].
    unfold same_pending. by rewrite (writer_outbox _ _ _ _ Hw).
  - by eapply lose_up_inv.
  - by eapply lose_down_inv.
  - by apply hub_inv.
  - pose proof Hi as []. constructor; unfold held, settled in *; cbn; try done; [by eapply hb_other_ok|..];
      intros i Hin; [destruct (si_down0 i Hin)|destruct (si_safe0 i Hin) as [?|[?|?]]];
      eauto using hb_other_logged.
  - by eapply receive_inv.
Qed.

Lemma sys_steps_inv s s' : sys_inv s -> rtc sys_step s s' -> sys_inv s'.
Proof. intros Hi. induction 1; [done|]. eauto using sys_step_inv. Qed.

Lemma sys_reached_inv h s : hb_ok h -> rtc sys_step (sys_start h) s -> sys_inv s.
Proof. intros Hh. by apply sys_steps_inv, sys_start_inv. Qed.

(** *** Progress *)

(** The node is attached to an open session. *)
Definition connected (c : nat) (n : NodeSide) : Prop :=
  ob_tx (ns_outbox n) = Some c /\ exists q, ns_links n !! c = Some (MkLink true q).

(** The writer empties its queue. *)
Lemma flush c q s :
  ns_links (sy_node s) !! c = Some (MkLink true q) ->
  exists n, rtc sys_step s (set_node n s) /\ ns_links n !! c = Some (MkLink true []) /\
    ns_outbox n = ns_outbox (sy_node s) /\ ns_sending n = ns_sending (sy_node s).
Proof.
  revert s. induction q as [|o q IH]; intros s Hc.
  - exists (sy_node s). split; [|done]. destruct s. apply rtc_refl.
  - set (n1 := set_links (<[c := MkLink true q]> (ns_links (sy_node s))) (sy_node s)).
    assert (writer_recv c (sy_node s) = (Some o, n1)) as Hw by (unfold writer_recv; by rewrite Hc).
    destruct (IH (set_node n1 s)) as (n & Hr & Hl & Ho & Hs).
    { cbn. apply list_lookup_insert_eq. by eapply lookup_lt_Some. }
    exists n. split; [|done]. eapply rtc_l; [by eapply step_write_lost|done].
Qed.

(** A frame that is the next one of an awaiting task reaches the socket. *)
Lemma deliver_up c k m ms s :
  ns_links (sy_node s) !! c = Some (MkLink true []) -> ns_sending (sy_node s) !! k = Some (c, m :: ms) ->
  exists n, rtc sys_step s (MkSys n (sy_up s ++ [m]) (sy_down s) (sy_hub s) (sy_emitted s) (sy_refused s)) /\
    ns_outbox n = ns_outbox (sy_node s) /\ ns_links n !! c = Some (MkLink true []).
Proof.
  intros Hc Hk. pose proof (lookup_lt_Some _ _ _ Hc) as Hlt.
  set (n1 := MkNodeSide (ns_outbox (sy_node s)) (<[c := MkLink true [Out_Protocol m]]> (ns_links (sy_node s)))
               (<[k := (c, ms)]> (ns_sending (sy_node s)))).
  assert (poll_send k (sy_node s) = n1) as Hp by (unfold poll_send; by rewrite Hk Hc).
  set (n2 := set_links (<[c := MkLink true []]> (ns_links n1)) n1).
  assert (writer_recv c n1 = (Some (Out_Protocol m), n2)) as Hw.
  { unfold writer_recv. cbn. by rewrite list_lookup_insert_eq. }
  exists n2. split; [|split; [done|cbn]].
  - eapply rtc_l; [apply (step_poll k)|]. rewrite Hp. apply rtc_once.
    by apply (step_write c m n2 (set_node n1 s)).
  - apply list_lookup_insert_eq. by rewrite length_insert.
Qed.

(** The oldest event a connected node holds can be settled. *)
Lemma settle_one c i m rest k s :
  sys_inv s -> connected c (sy_node s) -> held s = (i, m) :: rest -> hb_ready (S k) (sy_hub s) ->
  exists s', rtc sys_step s s' /\ connected c (sy_node s') /\ held s' = rest /\
    hb_ready k (sy_hub s') /\ sy_emitted s' = sy_emitted s.
Proof.
  intros Hi [Htx [q Hc]] Hheld Hready.
  assert (exists d, m = NH_NodeEvent i d /\ hb_draft_ok d) as (d & -> & Hd).
  { assert ((i, m) ∈ held s) as Hin by (rewrite Hheld; by left).
    pose proof (elem_of_sublist _ _ _ Hin (si_held s Hi)) as Hin'.
    apply list_elem_of_fmap in Hin' as ([j d] & [= -> ->] & He). exists d. split; [done|].
    exact (proj1 (Forall_forall _ _) (si_drafts s Hi) (j, d) He). }
  destruct (flush c q s Hc) as (n0 & Hr0 & Hl0 & Ho0 & _).
  set (s1 := set_node (resend_pending n0) (set_node n0 s)).
  set (msgs := NH_NodeEvent i d :: rest.*2).
  assert (resend_pending n0 = MkNodeSide (ns_outbox n0) (ns_links n0) (ns_sending n0 ++ [(c, msgs)])) as Hrs.
  { unfold resend_pending, pending_messages. rewrite Ho0 Htx. cbn. unfold held in Hheld. by rewrite Hheld Ho0. }
  destruct (deliver_up c (length (ns_sending n0)) (NH_NodeEvent i d) rest.*2 s1) as (n2 & Hr2 & Ho2 & Hl2).
  { unfold s1. cbn. by rewrite Hrs. }
  { unfold s1. cbn. rewrite Hrs. cbn. by rewrite list_lookup_middle. }
  destruct (hb_ready_acks k i d (sy_hub s) (si_hub s Hi) Hd Hready) as [Hack Hready'].
  set (h' := hb_handle (NH_NodeEvent i d) (sy_hub s)) in *.
  destruct (list_elem_of_split _ _ Hack) as (a1 & a2 & Ha).
  set (refused := note_refused (NH_NodeEvent i d) (sy_hub s) (sy_refused s)).
  exists (MkSys (acknowledge_event i n2) (sy_up s ++ []) ((sy_down s ++ a1) ++ a2) h'.1 (sy_emitted s) refused).
  split; [|split; [|split; [|split]]]; cbn; [| | |exact Hready'|done].
  - etrans; [exact Hr0|]. eapply rtc_l; [apply step_heartbeat|].
    etrans; [exact Hr2|]. eapply rtc_l; [by apply (step_hub (sy_up s) (NH_NodeEvent i d) [])|].
    apply rtc_once, (step_receive (sy_down s ++ a1) (HN_EventAck i) a2
      (MkSys n2 (sy_up s ++ []) (sy_down s ++ h'.2) h'.1 (sy_emitted s) refused)).
    cbn. by rewrite -app_assoc -Ha.
  - split; cbn; [|by eexists]. rewrite Ho2. unfold s1. cbn. by rewrite Hrs Ho0.
  - unfold held in *. cbn. rewrite Ho2. unfold s1. cbn. rewrite Hrs Ho0 Hheld. cbn.
    by rewrite bool_decide_eq_true_2.
Qed.

Lemma settle_all c s :
  sys_inv s -> connected c (sy_node s) -> hb_ready (length (held s)) (sy_hub s) ->
  exists s', rtc sys_step s s' /\ held s' = [] /\ sy_emitted s' = sy_emitted s.
Proof.
  remember (held s) as l eqn:Hl. revert s Hl. induction l as [|[i m] l IH]; intros s Hl Hi Hc Hr.
  { exists s. split; [apply rtc_refl|done]. }
  destruct (settle_one c i m l (length l) s Hi Hc) as (s1 & Hr1 & Hc1 & Hl1 & Hready & He); [done|done|].
  destruct (IH s1) as (s2 & Hr2 & Hl2 & He2); [done|by eapply sys_steps_inv|done|done|].
  exists s2. split; [by etrans|]. split; [done|]. by rewrite He2.
Qed.
End NodeDelivery.
