(* ===== verification/HubContract.v ===== *)
(** The hub of HubState.v and Links.v keeps what it promises to a node: it
    implements the interface of NodeDelivery.v. *)
From S2P Require Import Prelude.
From S2P Require Import RustStr.
From S2P Require Import Platform.
From S2P Require Import Ids.
From S2P Require Import Entities.
From S2P Require Import Event.
From S2P Require Import Protocol.
From S2P Require Import Wire.
From S2P Require Import Schema.
From S2P Require Import Store.
From S2P Require Import StoreInv.
From S2P Require Import StoreStep.
From S2P Require Import StoreLog.
From S2P Require Import StoreTyped.
From S2P Require Import Settings.
From S2P Require Import HubState.
From S2P Require Import HubCommands.
From S2P Require Import HubInv.
From S2P Require Import Links.
From S2P Require Import ClientDelivery.
From S2P Require Import HubSystem.
From S2P Require Import HubFacts.
From S2P Require Import Outbox.
From S2P Require Import NodeDelivery.

Local Open Scope Z_scope.

Section HubContract.
Context {P : Platform} {PL : PlatformLaws P} {E : Env P} {EO : EnvOk}.
(** The node, and the log the hub was opened on. *)
Context (n : NodeId) (base : list Event).

(** The frames waiting on the node's registered channel. *)
Definition inbox (s : HubState) : list HubToNode :=
  match hs_nodes s !! n with
  | Some conn => match hs_channels s !! nc_sender conn with Some ch => ch_queue ch | None => [] end
  | None => []
  end.

Definition log_holds (i : EventId) (s : HubState) : Prop :=
  id_to_string i ∈ map er_event_id (db_events (hs_hub s)).

(** A frame is handled: the new state, and what was queued for the node. *)
Definition hub_handles (m : NodeToHub) (s : HubState) : HubState * list HubToNode :=
  let s' := snd (node_message n m s) in (s', drop (length (inbox s)) (inbox s')).

(** The verdict that the event is not the node's own. *)
Definition refuses (draft : EventDraft) (s : HubState) : bool :=
  match fst (accepts_node_event n draft s) with Ok false => true | _ => false end.

Definition link_ready (k : nat) (s : HubState) : Prop :=
  (exists conn q, hs_nodes s !! n = Some conn /\ hs_channels s !! nc_sender conn = Some (MkChannel true q)) /\
  zlen (base ++ hs_events s) + Z.of_nat k <= i64_max.

#[export] Instance hub_side : HubSide := {|
  hb := HubState;
  hb_ok := good base;
  hb_draft_ok := draft_times_ok;
  hb_handle := hub_handles;
  hb_other := evolves;
  hb_logged := log_holds;
  hb_refuses := refuses;
  hb_ready := link_ready;
|}.

(** *** The laws *)

Lemma evolves_logged s s' i : good base s -> evolves s s' -> log_holds i s -> log_holds i s'.
Proof.
  intros Hg Hev. destruct (store_steps_wf _ _ (good_wf _ _ Hg) (timed_steps_store _ _ (ev_store _ _ Hev))) as [_ Hx].
  destruct (proj1 (grows_eq_prefix _ _) (ext_events _ _ Hx)) as [t Ht]. unfold log_holds. rewrite Ht map_app.
  intros Hi. apply elem_of_app. by left.
Qed.

Lemma handles_evolves m s :
  (forall i d, m = NH_NodeEvent i d -> draft_times_ok d) -> evolves s (hub_handles m s).1.
Proof. intros Hm. by apply preserves_node_message. Qed.

Lemma inbox_links s s' : same_links s s' -> inbox s' = inbox s.
Proof. intros [H1 H2]. unfold inbox. by rewrite H1 H2. Qed.

Lemma inbox_route m s :
  inbox (snd (route_to_node n m s)) = inbox s ++ [m] \/ inbox (snd (route_to_node n m s)) = inbox s.
Proof.
  unfold route_to_node, channel_send. destruct (hs_nodes s !! n) as [conn|] eqn:Hn; [|by right].
  destruct (hs_channels s !! nc_sender conn) as [[[] q]|] eqn:Hc; [|by right..].
  left. unfold inbox. cbn. rewrite Hn Hc. rewrite list_lookup_insert_eq; [by eapply lookup_lt_Some|done].
Qed.

Lemma links_hub_ack c s : same_links s (snd (node_message n (NH_CommandAck c) s)).
Proof.
  cbn [node_message]. unfold hub_acknowledge_dispatch_from, mbind, M_bind, try, with_hub. cbn.
  by destruct (acknowledge_dispatch_from _ _ _ _).
Qed.

(** Handling an event leaves the registry as it is. *)
Lemma nodes_node_message i d s : hs_nodes (snd (node_message n (NH_NodeEvent i d) s)) = hs_nodes s.
Proof.
  assert (forall m s1, hs_nodes (snd (route_to_node n m s1)) = hs_nodes s1) as Hr.
  { intros m s1. unfold route_to_node, channel_send. by repeat case_match. }
  destruct (node_event_cases n i d s) as (v & s1 & _ & _ & Hn & _ & ->).
  pose proof (links_append_node_event i d s1) as [Hl _].
  destruct v as [[]|e]; cbn [snd]; rewrite ?Hr //.
  destruct (append_and_broadcast_node_event i d s1) as [[o|e] s2]; cbn [snd] in *; rewrite ?Hr Hl //.
Qed.

Lemma append_ok_logged i d s o s' :
  db_wf (hs_hub s) -> append_and_broadcast_node_event i d s = (Ok o, s') -> log_holds i s'.
Proof.
  intros Hwf Happ. destruct (append_broadcast_node_hub i d s) as [Hh Ho]. rewrite Happ in Hh, Ho. cbn in Hh, Ho.
  specialize (Ho o eq_refl). unfold log_holds. rewrite Hh.
  destruct (List.find (has_key er_event_id (id_to_string i)) (db_events (hs_hub s))) as [r|] eqn:Hf.
  - rewrite (append_node_replay _ _ _ _ r Hf). cbn. apply find_key_some in Hf as [Hk Hin].
    apply elem_of_map. by exists r.
  - rewrite append_node_new in Ho |- *; [done..|]. case_decide; [|done]. cbn.
    rewrite commit_node_event_events map_app. apply elem_of_app. right. by apply list_elem_of_singleton.
Qed.

(** Nothing but the acknowledgement of the event handled is queued. *)
Lemma handles_answers m s i :
  HN_EventAck i ∈ (hub_handles m s).2 ->
  exists d, m = NH_NodeEvent i d /\
    (refuses d s = true \/
     exists s1 o s2, accepts_node_event n d s = (Ok true, s1) /\
       append_and_broadcast_node_event i d s1 = (Ok o, s2) /\
       hs_hub (hub_handles m s).1 = hs_hub s2).
Proof.
  unfold hub_handles, refuses. cbn [fst snd].
  assert (forall s', same_links s s' -> HN_EventAck i ∈ drop (length (inbox s)) (inbox s') -> False) as Hnone.
  { intros s' Hl. rewrite (inbox_links _ _ Hl) drop_ge; [done|by apply not_elem_of_nil]. }
  assert (forall j s1, same_links s s1 ->
    HN_EventAck i ∈ drop (length (inbox s)) (inbox (snd (route_to_node n (HN_EventAck j) s1))) -> i = j) as Hroute.
  { intros j s1 Hl. rewrite -(inbox_links _ _ Hl).
    destruct (inbox_route (HN_EventAck j) s1) as [->| ->].
    - rewrite drop_app_length. by intros [= ->]%list_elem_of_singleton.
    - rewrite drop_ge; [done|]. intros Hx. by apply not_elem_of_nil in Hx. }
  destruct m as [j d|c|].
  - destruct (node_event_cases n j d s) as (v & s1 & Hv & Hh & Hn & Hc & ->).
    assert (same_links s s1) as Hl by done. destruct v as [[]|e].
    + pose proof (links_append_node_event j d s1) as Hl2.
      destruct (append_and_broadcast_node_event j d s1) as [[o|e] s2] eqn:Happ; cbn [snd] in *;
        [|intros Hx; by destruct (Hnone s2 ltac:(by trans s1) Hx)].
      intros Hx%Hroute; [|by trans s1]. subst j. exists d. split; [done|]. right.
      exists s1, o, s2. split_and!; [done|done|]. by rewrite route_hub.
    + intros Hx%Hroute; [|done]. subst j. exists d. split; [done|]. left. by rewrite Hv.
    + intros Hx. by destruct (Hnone s1 Hl Hx).
  - intros Hx. exfalso. apply (Hnone _ (links_hub_ack c s) Hx).
  - intros Hx. exfalso. by apply (Hnone s).
Qed.

Lemma log_length s : good base s -> zlen (base ++ hs_events s) = zlen (db_events (hs_hub s)).
Proof. intros [_ _ Hrep]. by rewrite (represents_length _ _ Hrep). Qed.

(** One event makes the log at most one longer. *)
Lemma handles_growth i d s :
  db_wf (hs_hub s) ->
  zlen (db_events (hs_hub (hub_handles (NH_NodeEvent i d) s).1)) <= zlen (db_events (hs_hub s)) + 1.
Proof.
  intros Hwf. unfold hub_handles. cbn [fst]. destruct (node_event_cases n i d s) as (v & s1 & _ & Hh & _ & _ & ->).
  assert (zlen (db_events (snd (append_node_event (env_now (hs_ticks s1)) i d (hs_hub s)))) <=
          zlen (db_events (hs_hub s)) + 1) as Hlen.
  { destruct (List.find (has_key er_event_id (id_to_string i)) (db_events (hs_hub s))) as [r|] eqn:Hf.
    - rewrite (append_node_replay _ _ _ _ r Hf). cbn. lia.
    - rewrite append_node_new; [done..|]. case_decide; cbn; [|lia].
      rewrite commit_node_event_events length_app. cbn. lia. }
  pose proof (append_broadcast_node_hub i d s1) as [Hb _].
  destruct v as [[]|e]; cbn [snd]; rewrite ?route_hub ?Hh; try lia.
  destruct (append_and_broadcast_node_event i d s1) as [[o|e] s2]; cbn [snd] in *; rewrite ?route_hub Hb Hh; lia.
Qed.

#[export] Instance hub_side_laws : HubSideLaws hub_side.
Proof.
  constructor; cbn.
  - intros m s Hg Hm. by apply (ev_good _ _ (handles_evolves m s Hm)).
  - intros s s' Hg Hev. by apply (ev_good _ _ Hev).
  - intros m s i Hg Hm. apply evolves_logged; [done|]. by apply handles_evolves.
  - intros s s' i. apply evolves_logged.
  - intros m s i Hg Hack. destruct (handles_answers m s i Hack) as (d & -> & [Hr|(s1 & o & s2 & Hv & Happ & Hs)]);
      exists d; split; try done; [by right|left].
    unfold log_holds. rewrite Hs. apply (append_ok_logged i d s1 o); [|done].
    apply accepts_node_event_spec in Hv as (_ & -> & _). apply Hg.
  - intros k i d s Hg Hd [(conn & q & Hn & Hc) Hk].
    destruct (node_event_settled base s n i d Hg Hd ltac:(lia)) as (s' & Hm & Hq & _).
    specialize (Hq conn q Hn Hc).
    assert (hs_nodes s' !! n = Some conn) as Hn'.
    { pose proof (nodes_node_message i d s) as He. by rewrite Hm in He; rewrite He. }
    pose proof (handles_growth i d s (good_wf _ _ Hg)) as Hgrow.
    assert (good base s') as Hg'.
    { apply (ev_good s); [|done]. pose proof (handles_evolves (NH_NodeEvent i d) s) as Hev.
      unfold hub_handles in Hev. rewrite Hm in Hev. apply Hev. by intros ?? [= _ <-]. }
    change (HN_EventAck i ∈ (hub_handles (NH_NodeEvent i d) s).2 /\ link_ready k (hub_handles (NH_NodeEvent i d) s).1).
    unfold hub_handles in *. rewrite Hm in Hgrow |- *. cbn [fst snd] in *.
    split; [|split; [by exists conn, (q ++ [HN_EventAck i])|]].
    + unfold inbox. rewrite Hn Hn' Hc Hq. cbn. rewrite drop_app_length. by left.
    + rewrite (log_length s' Hg'). rewrite (log_length s Hg) in Hk. lia.
Qed.
End HubContract.
