(* ===== verification/EngineDef.v ===== *)
(** How a coding engine is spawned (crates/stackhour-core/src/engine.rs): the
    definitions of the built-in engines, placeholder substitution and the
    assembly of a spawn's arguments; and the closed form the two built-ins
    reduce to. *)
From S2P Require Import Prelude.
From S2P Require Import RustStr.
From Stdlib Require Import Ascii.

Local Open Scope string_scope.

Definition BYPASS_PERMISSION_MODE : string := "bypassPermissions".
Definition BYPASS_SANDBOX_FLAG : string := "--dangerously-bypass-approvals-and-sandbox".

Definition PLACEHOLDER_SESSION_ID : string := "{{session_id}}".
Definition PLACEHOLDER_MODEL : string := "{{model}}".
Definition PLACEHOLDER_PERMISSION_MODE : string := "{{permission_mode}}".
Definition PLACEHOLDER_SYSTEM_PROMPT : string := "{{system_prompt}}".
Definition PLACEHOLDER_EFFORT : string := "{{effort}}".
Definition PLACEHOLDER_ALLOWED_TOOLS : string := "{{allowed_tools}}".
Definition PLACEHOLDER_DISALLOWED_TOOLS : string := "{{disallowed_tools}}".

(** [StreamKind] *)
Inductive StreamKind := ClaudeStreamJson | CodexJsonl | PlainLines.

#[export] Instance StreamKind_eq_dec : EqDecision StreamKind.
Proof. solve_decision. Defined.

(** [ResumeStyle] *)
Inductive ResumeStyle := Resume_Flag (args : list string) | Resume_Subcommand (insert : string).

(** [PromptDelivery] *)
Inductive PromptDelivery := Stdin | LastArg.

(** [EngineDef] *)
Record EngineDef := MkEngineDef {
  ed_name : string; ed_label : string; ed_emoji : string; ed_bin : string; ed_kind : StreamKind;
  ed_args : list string; ed_resume : ResumeStyle; ed_model_args : option (list string);
  ed_permission_args : option (list string); ed_system_prompt_args : option (list string);
  ed_prompt_delivery : PromptDelivery; ed_env : list (string * string);
  ed_partial_messages_flag : option string; ed_effort_args : option (list string);
  ed_allowed_tools_args : option (list string); ed_disallowed_tools_args : option (list string);
}.

(** [ArgvVars] *)
Record ArgvVars := MkArgvVars {
  av_session_id : option string; av_model : option string; av_permission_mode : option string;
  av_system_prompt : option string; av_effort : option string; av_allow_tools : list string;
  av_deny_tools : list string; av_live_status : bool;
}.

Definition ArgvVars_default : ArgvVars := MkArgvVars None None None None None [] [] false.

(** [subst] *)
Definition subst (vars : ArgvVars) (template : string) : string :=
  let t := replace PLACEHOLDER_SESSION_ID (default "" (av_session_id vars)) template in
  let t := replace PLACEHOLDER_MODEL (default "" (av_model vars)) t in
  let t := replace PLACEHOLDER_PERMISSION_MODE (default "default" (av_permission_mode vars)) t in
  let t := replace PLACEHOLDER_SYSTEM_PROMPT (default "" (av_system_prompt vars)) t in
  let t := replace PLACEHOLDER_EFFORT (default "" (av_effort vars)) t in
  let t := replace PLACEHOLDER_ALLOWED_TOOLS (String.concat "," (av_allow_tools vars)) t in
  replace PLACEHOLDER_DISALLOWED_TOOLS (String.concat "," (av_deny_tools vars)) t.

(** [builtin_claude] *)
Definition builtin_claude : EngineDef := MkEngineDef
  "claude" "Claude" "🧠" "claude" ClaudeStreamJson
  ["-p"; "--output-format"; "stream-json"; "--verbose"]
  (Resume_Flag ["--resume"; PLACEHOLDER_SESSION_ID])
  (Some ["--model"; PLACEHOLDER_MODEL])
  (Some ["--permission-mode"; PLACEHOLDER_PERMISSION_MODE])
  (Some ["--append-system-prompt"; PLACEHOLDER_SYSTEM_PROMPT])
  Stdin [] (Some "--include-partial-messages") None
  (Some ["--allowedTools"; PLACEHOLDER_ALLOWED_TOOLS])
  (Some ["--disallowedTools"; PLACEHOLDER_DISALLOWED_TOOLS]).

(** A double quote. *)
Definition QUOTE : string := String "034" "".

(** [builtin_codex] *)
Definition builtin_codex : EngineDef := MkEngineDef
  "codex" "Codex" "🛠" "codex" CodexJsonl
  ["exec"; "--json"; "--skip-git-repo-check"; "-"]
  (Resume_Subcommand "resume")
  (Some ["--model"; PLACEHOLDER_MODEL])
  (Some ["--sandbox"; "workspace-write"])
  None Stdin [] None
  (Some ["-c"; "model_reasoning_effort=" +:+ QUOTE +:+ PLACEHOLDER_EFFORT +:+ QUOTE])
  None None.

(** [EngineDef::permission_argv] *)
Definition permission_argv (def : EngineDef) (permission_mode : option string) : list string :=
  match ed_permission_args def with
  | None => []
  | Some template =>
      let mode := default "default" permission_mode in
      let takes_mode_flag := existsb (contains PLACEHOLDER_PERMISSION_MODE) template in
      if String.eqb mode BYPASS_PERMISSION_MODE && negb takes_mode_flag then [BYPASS_SANDBOX_FLAG]
      else
        let vars := MkArgvVars None None (Some mode) None None [] [] false in
        map (subst vars) template
  end.

(** [Vec::insert], for an index within the vector. *)
Definition vec_insert {A} (i : nat) (x : A) (l : list A) : list A := take i l ++ x :: drop i l.

(** The index just before a trailing [-], or the end. *)
Definition before_sentinel (out : list string) : nat :=
  match last out with
  | Some l => if String.eqb l "-" then (length out - 1)%nat else length out
  | None => length out
  end.

(** The closure [splice_in], on the vector and the splice point. *)
Definition splice_in (items : list string) (s : list string * nat) : list string * nat :=
  fold_left (fun '(out, splice) item => (vec_insert splice item out, S splice)) items s.

(** A group of arguments spliced in when [cond] holds and the engine has them. *)
Definition splice_when (cond : bool) (vars : ArgvVars) (template : option (list string))
    (s : list string * nat) : list string * nat :=
  if cond then match template with Some t => splice_in (map (subst vars) t) s | None => s end else s.

Definition is_some_b {A} (o : option A) : bool := match o with Some _ => true | None => false end.

(** [EngineDef::assemble_argv] *)
Definition assemble_argv (def : EngineDef) (vars : ArgvVars) : list string :=
  let out := map (subst vars) (ed_args def) in
  let s := (out, before_sentinel out) in
  let s :=
    if av_live_status vars then
      match ed_partial_messages_flag def with Some flag => splice_in [flag] s | None => s end
    else s in
  let s := splice_in (permission_argv def (av_permission_mode vars)) s in
  let s := splice_when (is_some_b (av_system_prompt vars)) vars (ed_system_prompt_args def) s in
  let s := splice_when (is_some_b (av_model vars)) vars (ed_model_args def) s in
  let s := splice_when (is_some_b (av_effort vars)) vars (ed_effort_args def) s in
  let s := splice_when (negb (Nat.eqb (length (av_allow_tools vars)) 0)) vars (ed_allowed_tools_args def) s in
  let s := splice_when (negb (Nat.eqb (length (av_deny_tools vars)) 0)) vars (ed_disallowed_tools_args def) s in
  let out := s.1 in
  match av_session_id vars with
  | Some sid =>
      match ed_resume def with
      | Resume_Flag args => out ++ map (subst vars) args
      | Resume_Subcommand insert =>
          let out := vec_insert (Nat.min 1 (length out)) insert out in
          vec_insert (before_sentinel out) sid out
      end
  | None => out
  end.

(** *** Substitution *)

(** No brace: no placeholder can appear in it. *)
Definition plain (s : string) : bool := byte_free "{" s.

Lemma replace_plain p w s : plain s = true -> replace (String "{" p) w s = s.
Proof. intros H. by apply replace_absent, byte_free_contains. Qed.

Lemma subst_plain vars t : plain t = true -> subst vars t = t.
Proof. intros H. unfold subst. by rewrite !replace_plain. Qed.

(** The placeholders replaced after the system prompt's. *)
Definition inert (s : string) : bool :=
  forallb (fun p => negb (contains p s))
    [PLACEHOLDER_EFFORT; PLACEHOLDER_ALLOWED_TOOLS; PLACEHOLDER_DISALLOWED_TOOLS].

Lemma subst_session_id vars s : av_session_id vars = Some s -> plain s = true -> subst vars PLACEHOLDER_SESSION_ID = s.
Proof. intros Hs Hp. unfold subst. rewrite Hs replace_whole. by rewrite !replace_plain. Qed.

Lemma subst_model vars m : av_model vars = Some m -> plain m = true -> subst vars PLACEHOLDER_MODEL = m.
Proof.
  intros Hm Hp. unfold subst. rewrite Hm (replace_absent PLACEHOLDER_SESSION_ID) //.
  rewrite replace_whole. by rewrite !replace_plain.
Qed.

Lemma subst_permission_mode vars m :
  av_permission_mode vars = Some m -> plain m = true -> subst vars PLACEHOLDER_PERMISSION_MODE = m.
Proof.
  intros Hm Hp. unfold subst. rewrite Hm (replace_absent PLACEHOLDER_SESSION_ID) //.
  rewrite (replace_absent PLACEHOLDER_MODEL) // replace_whole. by rewrite !replace_plain.
Qed.

Lemma subst_system_prompt vars s :
  av_system_prompt vars = Some s -> inert s = true -> subst vars PLACEHOLDER_SYSTEM_PROMPT = s.
Proof.
  intros Hs Hi. unfold subst. rewrite Hs (replace_absent PLACEHOLDER_SESSION_ID) //.
  rewrite (replace_absent PLACEHOLDER_MODEL) // (replace_absent PLACEHOLDER_PERMISSION_MODE) // replace_whole.
  apply andb_true_iff in Hi as [H1 Hi]. apply andb_true_iff in Hi as [H2 Hi]. apply andb_true_iff in Hi as [H3 _].
  apply negb_true_iff in H1, H2, H3. by rewrite !replace_absent.
Qed.

Lemma subst_effort vars e :
  av_effort vars = Some e -> plain e = true ->
  subst vars ("model_reasoning_effort=" +:+ QUOTE +:+ PLACEHOLDER_EFFORT +:+ QUOTE) =
    "model_reasoning_effort=" +:+ QUOTE +:+ e +:+ QUOTE.
Proof.
  intros He Hp. unfold subst. rewrite He (replace_absent PLACEHOLDER_SESSION_ID) //.
  rewrite (replace_absent PLACEHOLDER_MODEL) // (replace_absent PLACEHOLDER_PERMISSION_MODE) //.
  rewrite (replace_absent PLACEHOLDER_SYSTEM_PROMPT) //.
  assert (replace PLACEHOLDER_EFFORT (default "" (Some e))
    ("model_reasoning_effort=" +:+ QUOTE +:+ PLACEHOLDER_EFFORT +:+ QUOTE) =
    "model_reasoning_effort=" +:+ QUOTE +:+ e +:+ QUOTE) as -> by reflexivity.
  assert (plain ("model_reasoning_effort=" +:+ QUOTE +:+ e +:+ QUOTE) = true) as Hq.
  { unfold plain in *. by rewrite !byte_free_app Hp. }
  by rewrite !replace_plain.
Qed.

(** *** Splicing *)

Local Open Scope list_scope.

Lemma splice_in_at items l r : splice_in items (l ++ r, length l) = ((l ++ items) ++ r, length (l ++ items)).
Proof.
  revert l. induction items as [|x items IH]; intros l; [by rewrite app_nil_r|].
  unfold splice_in in *. cbn [fold_left]. unfold vec_insert. rewrite take_app_length drop_app_length.
  assert (l ++ x :: r = (l ++ [x]) ++ r) as -> by by rewrite -app_assoc.
  assert (S (length l) = length (l ++ [x])) as -> by (rewrite length_app /=; lia).
  rewrite IH. by rewrite -!app_assoc.
Qed.

Definition spliced (cond : bool) (vars : ArgvVars) (template : option (list string)) : list string :=
  if cond then match template with Some t => map (subst vars) t | None => [] end else [].

Lemma splice_when_at cond vars template l r :
  splice_when cond vars template (l ++ r, length l) =
    ((l ++ spliced cond vars template) ++ r, length (l ++ spliced cond vars template)).
Proof.
  unfold splice_when, spliced. destruct cond; [|by rewrite app_nil_r].
  destruct template; [by rewrite splice_in_at|by rewrite app_nil_r].
Qed.

Lemma before_sentinel_dash l : before_sentinel (l ++ ["-"]) = length l.
Proof. unfold before_sentinel. rewrite last_snoc length_app /=. lia. Qed.

(** *** The arguments of the two built-in engines *)

(** One option and its value, when there is one. *)
Definition opt_args (flag : string) (value : option string) : list string :=
  match value with Some v => [flag; v] | None => [] end.

Definition claude_args (mode : string) (live : bool) (system model session : option string) : list string :=
  ["-p"; "--output-format"; "stream-json"; "--verbose"] ++
  (if live then ["--include-partial-messages"] else []) ++
  ["--permission-mode"; mode] ++ opt_args "--append-system-prompt" system ++ opt_args "--model" model ++
  opt_args "--resume" session.

Definition effort_args (effort : option string) : list string :=
  match effort with Some e => ["-c"; ("model_reasoning_effort=" +:+ QUOTE +:+ e +:+ QUOTE)%string] | None => [] end.

Definition codex_args (mode : string) (model effort session : option string) : list string :=
  ["exec"] ++ (if is_some_b session then ["resume"] else []) ++ ["--json"; "--skip-git-repo-check"] ++
  (if String.eqb mode BYPASS_PERMISSION_MODE then [BYPASS_SANDBOX_FLAG] else ["--sandbox"; "workspace-write"]) ++
  opt_args "--model" model ++
  effort_args effort ++
  (match session with Some s => [s] | None => [] end) ++ ["-"].

Definition plain_opt (o : option string) : bool := match o with Some s => plain s | None => true end.
Definition inert_opt (o : option string) : bool := match o with Some s => inert s | None => true end.

(** An optional flag whose template is the placeholder of its value. *)
Lemma spliced_opt vars flag placeholder (value : option string) :
  plain flag = true -> (forall v, value = Some v -> subst vars placeholder = v) ->
  spliced (is_some_b value) vars (Some [flag; placeholder]) = opt_args flag value.
Proof.
  intros Hf Hv. unfold spliced. destruct value as [v|]; [|done]. cbn [is_some_b map opt_args].
  by rewrite subst_plain // (Hv v).
Qed.

Section ClosedForms.
Context (mode : string) (live : bool) (system model effort session : option string).
Context (Hmode : plain mode = true) (Hmodel : plain_opt model = true) (Hsession : plain_opt session = true).

Definition vars : ArgvVars := MkArgvVars session model (Some mode) system effort [] [] live.

Lemma spliced_model :
  spliced (is_some_b model) vars (Some ["--model"; PLACEHOLDER_MODEL]) = opt_args "--model" model.
Proof.
  apply spliced_opt; [done|]. intros m Hm. apply subst_model; [exact Hm|]. pose proof Hmodel as H. by rewrite Hm in H.
Qed.

Lemma claude_argv :
  inert_opt system = true -> assemble_argv builtin_claude vars = claude_args mode live system model session.
Proof.
  intros Hsystem. unfold assemble_argv. cbn [ed_args builtin_claude map]. rewrite !subst_plain //.
  set (base := ["-p"; "--output-format"; "stream-json"; "--verbose"]).
  assert ((base, before_sentinel base) = (base ++ [], length base)) as -> by by rewrite app_nil_r.
  cbn [ed_partial_messages_flag builtin_claude av_live_status av_permission_mode vars].
  assert ((if live then splice_in ["--include-partial-messages"] (base ++ [], length base)
           else (base ++ [], length base)) =
          ((base ++ if live then ["--include-partial-messages"] else []) ++ [],
           length (base ++ if live then ["--include-partial-messages"] else []))) as ->.
  { destruct live; [by rewrite splice_in_at|by rewrite (app_nil_r base)]. }
  assert (permission_argv builtin_claude (Some mode) = ["--permission-mode"; mode]) as ->.
  { unfold permission_argv. cbn [ed_permission_args builtin_claude default existsb].
    rewrite andb_false_r. cbn [map]. rewrite subst_plain // (subst_permission_mode _ mode) //. }
  rewrite splice_in_at !splice_when_at. cbn [fst ed_system_prompt_args builtin_claude ed_model_args ed_effort_args
    av_system_prompt av_model av_effort av_allow_tools av_deny_tools vars length Nat.eqb negb].
  fold vars. rewrite spliced_model spliced_opt; [done| |].
  { intros s Hs. apply subst_system_prompt; [exact Hs|]. by rewrite Hs in Hsystem. }
  assert (spliced (is_some_b effort) vars None = []) as -> by by destruct effort.
  unfold spliced. cbn [ed_resume builtin_claude map av_session_id vars]. fold vars. unfold claude_args. fold base.
  destruct session as [x|] eqn:Hx; cbn [opt_args].
  - rewrite subst_plain // (subst_session_id vars x) //. by rewrite !app_nil_r -!app_assoc.
  - by rewrite !app_nil_r -!app_assoc.
Qed.

Lemma codex_argv :
  plain_opt effort = true -> assemble_argv builtin_codex vars = codex_args mode model effort session.
Proof.
  intros Heffort. unfold assemble_argv. cbn [ed_args builtin_codex map]. rewrite !subst_plain //.
  set (base := ["exec"; "--json"; "--skip-git-repo-check"]).
  assert ((["exec"; "--json"; "--skip-git-repo-check"; "-"], before_sentinel ["exec"; "--json"; "--skip-git-repo-check"; "-"])
    = (base ++ ["-"], length base)) as -> by done.
  cbn [ed_partial_messages_flag builtin_codex av_live_status av_permission_mode vars].
  assert ((if live then (base ++ ["-"], length base) else (base ++ ["-"], length base)) = (base ++ ["-"], length base))
    as -> by by destruct live.
  set (sandbox := if String.eqb mode BYPASS_PERMISSION_MODE then [BYPASS_SANDBOX_FLAG] else ["--sandbox"; "workspace-write"]).
  assert (permission_argv builtin_codex (Some mode) = sandbox) as ->.
  { change (permission_argv builtin_codex (Some mode)) with
      (if String.eqb mode BYPASS_PERMISSION_MODE && true then [BYPASS_SANDBOX_FLAG]
       else map (subst (MkArgvVars None None (Some mode) None None [] [] false)) ["--sandbox"; "workspace-write"]).
    rewrite andb_true_r. unfold sandbox. destruct (String.eqb mode _); [done|]. cbn [map]. by rewrite !subst_plain. }
  rewrite splice_in_at !splice_when_at. cbn [fst ed_system_prompt_args builtin_codex ed_model_args ed_effort_args
    ed_allowed_tools_args ed_disallowed_tools_args
    av_system_prompt av_model av_effort av_allow_tools av_deny_tools vars length Nat.eqb negb].
  fold vars. rewrite spliced_model.
  assert (spliced (is_some_b system) vars None = []) as -> by by destruct system.
  assert (forall t, t = ["-c"; ("model_reasoning_effort=" +:+ QUOTE +:+ PLACEHOLDER_EFFORT +:+ QUOTE)%string] ->
    spliced (is_some_b effort) vars (Some t) = effort_args effort) as Heff.
  { intros t ->. unfold spliced. destruct effort as [e|] eqn:He; [|done]. cbn [is_some_b map].
    rewrite subst_plain // (subst_effort vars e) //. }
  rewrite Heff; [done|].
  unfold spliced. cbn [ed_resume builtin_codex av_session_id vars]. unfold codex_args. fold sandbox. rewrite !app_nil_r.
  set (tail := sandbox ++ opt_args "--model" model ++ effort_args effort).
  assert (((((base ++ sandbox) ++ opt_args "--model" model) ++ effort_args effort) ++ ["-"])
          = "exec" :: ("--json" :: "--skip-git-repo-check" :: tail) ++ ["-"]) as ->
    by (unfold base, tail; cbn [app]; rewrite <- !app_assoc; reflexivity).
  destruct session as [x|]; [|unfold tail; cbn [app opt_args is_some_b]; rewrite <- !app_assoc; reflexivity].
  unfold vec_insert at 2. cbn [length Nat.min take drop app].
  assert ("exec" :: "resume" :: "--json" :: "--skip-git-repo-check" :: tail ++ ["-"] =
    ("exec" :: "resume" :: "--json" :: "--skip-git-repo-check" :: tail) ++ ["-"]) as -> by done.
  rewrite before_sentinel_dash. unfold vec_insert. rewrite take_app_length drop_app_length.
  unfold tail. cbn [app is_some_b]. rewrite <- !app_assoc. reflexivity.
Qed.
End ClosedForms.
