(* ===== verification/Process.v ===== *)
(** The child process of one prompt (crates/stackhour-node/src/process.rs): what
    is spawned for a request, and how its output becomes a result. *)
From S2P Require Import Prelude.
From S2P Require Import RustStr.
From S2P Require Import Platform.
From S2P Require Import EngineDef.
From Stdlib Require Import Ascii.

Local Open Scope Z_scope.

(** A newline, which a string literal cannot escape. *)
Definition NEWLINE : string := String "010" EmptyString.

(** [SYSTEM_PROMPT_TURN] *)
Definition SYSTEM_PROMPT_TURN : string :=
  ("[System instructions]" +:+ NEWLINE +:+ "{{system}}" +:+ NEWLINE +:+ NEWLINE +:+
   "[User message]" +:+ NEWLINE +:+ "{{prompt}}")%string.

Section Process.
Context {P : Platform}.

(** [RunRequest] *)
Record RunRequest := MkRunRequest {
  rq_prompt : string; rq_session_id : option string; rq_model : option string;
  rq_permission_mode : option string; rq_system_prompt : option string; rq_effort : option string;
  rq_cwd : option string; rq_live_status : bool; rq_bin : option string;
}.

(** [RunResult] *)
Record RunResult := MkRunResult {
  rr_text : string; rr_session_id : option string; rr_code : option Z; rr_error : option string;
  rr_stderr : string;
}.

(** The request with its prompt and system prompt replaced. *)
Definition set_prompts (prompt : string) (system : option string) (r : RunRequest) : RunRequest :=
  MkRunRequest prompt (rq_session_id r) (rq_model r) (rq_permission_mode r) system (rq_effort r)
    (rq_cwd r) (rq_live_status r) (rq_bin r).

(** [apply_system_prompt] *)
Definition apply_system_prompt (def : EngineDef) (request : RunRequest) : RunRequest :=
  if is_some_b (ed_system_prompt_args def) then request
  else if is_some_b (rq_session_id request) && negb (bool_decide (ed_kind def = ClaudeStreamJson)) then request
  else
    match rq_system_prompt request with
    | None => request
    | Some system =>
        if str_is_empty (trim system) then set_prompts (rq_prompt request) None request
        else
          set_prompts
            (replace "{{prompt}}" (rq_prompt request) (replace "{{system}}" system SYSTEM_PROMPT_TURN))
            None request
    end.

(** [build_argv] *)
Definition build_argv (def : EngineDef) (request : RunRequest) : list string :=
  let argv := assemble_argv def
    (MkArgvVars (rq_session_id request) (rq_model request) (rq_permission_mode request)
       (rq_system_prompt request) (rq_effort request) [] [] (rq_live_status request)) in
  match ed_prompt_delivery def with
  | LastArg => argv ++ [rq_prompt request]
  | Stdin => argv
  end.

(** The [Command] [spawn_engine] builds, and what is written to its stdin. *)
Record Command := MkCommand {
  cmd_binary : string; cmd_args : list string; cmd_cwd : option string; cmd_env : list (string * string);
  cmd_stdin : option string;
}.

(** [spawn_engine], up to the spawn. *)
Definition spawn_command (def : EngineDef) (request : RunRequest) : Command :=
  let request := apply_system_prompt def request in
  MkCommand (default (ed_bin def) (rq_bin request)) (build_argv def request) (rq_cwd request) (ed_env def)
    (match ed_prompt_delivery def with Stdin => Some (rq_prompt request) | LastArg => None end).

(** *** The output stream *)

(** [StreamState] *)
Record StreamState := MkStream { ss_kind : StreamKind; ss_text : string; ss_session_id : option string }.

(** [StreamState::new] *)
Definition stream_new (kind : StreamKind) (session_id : option string) : StreamState :=
  MkStream kind EmptyString session_id.

Definition set_text (t : string) (s : StreamState) : StreamState := MkStream (ss_kind s) t (ss_session_id s).
Definition set_stream_session (x : string) (s : StreamState) : StreamState :=
  MkStream (ss_kind s) (ss_text s) (Some x).

(** [value.get(k).and_then(Value::as_str)] *)
Definition get_str (k : string) (v : Value) : option string := value_get v k ≫= value_as_str.

(** The text of one content item, when it is a text item. *)
Definition content_text (item : Value) : option string :=
  if bool_decide (get_str "type" item = Some "text"%string) then get_str "text" item else None.

(** [StreamState::feed_claude] *)
Definition feed_claude (event : Value) (s : StreamState) : StreamState :=
  let s :=
    match ss_session_id s with
    | Some _ => s
    | None => match get_str "session_id" event with Some x => set_stream_session x s | None => s end
    end in
  match get_str "type" event with
  | Some t =>
      if String.eqb t "assistant" then
        match m ← value_get event "message"; c ← value_get m "content"; value_as_array c with
        | None => s
        | Some content =>
            let text := String.concat "" (omap content_text content) in
            if str_is_empty text then s else set_text text s
        end
      else if String.eqb t "result" then
        let s := match get_str "session_id" event with Some x => set_stream_session x s | None => s end in
        match get_str "result" event with
        | Some result =>
            if Nat.leb (length (chars (ss_text s))) (length (chars result)) then set_text result s else s
        | None => s
        end
      else s
  | None => s
  end.

(** [StreamState::feed_codex] *)
Definition feed_codex (event : Value) (s : StreamState) : StreamState :=
  let event_type := default EmptyString (get_str "type" event) in
  if String.eqb event_type "thread.started" then
    match get_str "thread_id" event with Some x => set_stream_session x s | None => s end
  else if negb (String.eqb event_type "item.completed") then s
  else
    let item := value_get event "item" in
    if negb (bool_decide (item ≫= get_str "type" = Some "agent_message"%string)) then s
    else
      let message := default EmptyString (item ≫= get_str "text") in
      if str_is_empty message then s
      else if str_is_empty (ss_text s) then set_text message s
      else set_text (ss_text s +:+ NEWLINE +:+ NEWLINE +:+ message) s.

(** [StreamState::feed] *)
Definition feed (line : string) (s : StreamState) : StreamState :=
  if str_is_empty (trim line) then s
  else
    match ss_kind s with
    | PlainLines =>
        set_text ((if str_is_empty (ss_text s) then EmptyString else ss_text s +:+ NEWLINE) +:+ line) s
    | ClaudeStreamJson => match json_from_str line with Some event => feed_claude event s | None => s end
    | CodexJsonl => match json_from_str line with Some event => feed_codex event s | None => s end
    end.

(** [for line in BufReader::new(output).lines()]: it stops at the first line
    that cannot be read. *)
Fixpoint feed_lines (lines : list (option string)) (s : StreamState) : StreamState :=
  match lines with
  | Some line :: rest => feed_lines rest (feed line s)
  | _ => s
  end.

(** The result of a child that ran: its output lines, exit code and stderr. *)
Definition child_result (def : EngineDef) (request : RunRequest) (lines : list (option string))
    (code : option Z) (stderr : string) : RunResult :=
  let state := feed_lines lines (stream_new (ed_kind def) (rq_session_id request)) in
  MkRunResult (ss_text state) (ss_session_id state) code None stderr.

(** The result of a child that could not be spawned. *)
Definition spawn_failed (request : RunRequest) (message : string) : RunResult :=
  MkRunResult EmptyString (rq_session_id request) None (Some message) EmptyString.

(** *** What is spawned *)

(** The prompt of a turn that carries its system prompt. *)
Definition turn (system prompt : string) : string :=
  ("[System instructions]" +:+ NEWLINE +:+ system +:+ NEWLINE +:+ NEWLINE +:+
   "[User message]" +:+ NEWLINE +:+ prompt)%string.

Lemma turn_replaced system prompt :
  contains "{{prompt}}" system = false ->
  replace "{{prompt}}" prompt (replace "{{system}}" system SYSTEM_PROMPT_TURN) = turn system prompt.
Proof.
  intros Hs. set (rest := (NEWLINE +:+ "[User message]" +:+ NEWLINE +:+ "{{prompt}}")%string).
  assert (replace "{{system}}" system SYSTEM_PROMPT_TURN =
    "[System instructions]" +:+ String "010" (system +:+ String "010" rest))%string as -> by reflexivity.
  rewrite (replace_past "010") // (replace_past "010") //.
  assert (replace "{{prompt}}" prompt rest = NEWLINE +:+ "[User message]" +:+ NEWLINE +:+ (prompt +:+ ""))%string as ->
    by reflexivity.
  rewrite str_app_nil_r. reflexivity.
Qed.

(** The prompt Codex is given: it has no system-prompt flag, and a resumed
    session already has its instructions. *)
Definition codex_prompt (session system : option string) (prompt : string) : string :=
  match session, system with
  | None, Some s => if str_is_empty (trim s) then prompt else turn s prompt
  | _, _ => prompt
  end.

Lemma claude_command request mode :
  rq_permission_mode request = Some mode -> plain mode = true ->
  inert_opt (rq_system_prompt request) = true -> plain_opt (rq_model request) = true ->
  plain_opt (rq_session_id request) = true ->
  spawn_command builtin_claude request =
    MkCommand (default "claude"%string (rq_bin request))
      (claude_args mode (rq_live_status request) (rq_system_prompt request) (rq_model request) (rq_session_id request))
      (rq_cwd request) [] (Some (rq_prompt request)).
Proof.
  intros Hp Hm Hs Hmo Hse. unfold spawn_command. change (apply_system_prompt builtin_claude request) with request.
  f_equal. unfold build_argv. rewrite Hp. by apply claude_argv.
Qed.

Lemma codex_command request mode :
  rq_permission_mode request = Some mode -> plain mode = true ->
  plain_opt (rq_model request) = true -> plain_opt (rq_effort request) = true ->
  plain_opt (rq_session_id request) = true ->
  (forall s, rq_system_prompt request = Some s -> contains "{{prompt}}" s = false) ->
  spawn_command builtin_codex request =
    MkCommand (default "codex"%string (rq_bin request))
      (codex_args mode (rq_model request) (rq_effort request) (rq_session_id request))
      (rq_cwd request) [] (Some (codex_prompt (rq_session_id request) (rq_system_prompt request) (rq_prompt request))).
Proof.
  intros Hp Hm Hmo He Hse Hs. destruct request as [prompt session model pmode system effort cwd live bin]. cbn in *. subst.
  unfold spawn_command, apply_system_prompt. cbn [ed_system_prompt_args builtin_codex is_some_b rq_session_id].
  destruct session as [x|]; cbn [is_some_b andb negb rq_system_prompt rq_prompt ed_kind builtin_codex codex_prompt].
  - change (negb (bool_decide (CodexJsonl = ClaudeStreamJson))) with true. cbn [andb].
    f_equal. unfold build_argv. by apply codex_argv.
  - destruct system as [s|].
    + destruct (str_is_empty (trim s)); unfold set_prompts; cbn [rq_prompt rq_bin rq_cwd].
      * f_equal. unfold build_argv. by apply codex_argv.
      * rewrite turn_replaced; [by apply Hs|]. f_equal. unfold build_argv. by apply codex_argv.
    + f_equal. unfold build_argv. by apply codex_argv.
Qed.

(** *** What Codex's output means *)

Definition event_of (line : string) : option Value :=
  if str_is_empty (trim line) then None else json_from_str line.

(** The agent message a line carries. *)
Definition agent_message (line : string) : option string :=
  event ← event_of line;
  if bool_decide (get_str "type" event = Some "item.completed"%string) then
    item ← value_get event "item";
    if bool_decide (get_str "type" item = Some "agent_message"%string) then
      message ← get_str "text" item;
      if str_is_empty message then None else Some message
    else None
  else None.

(** The thread a line starts. *)
Definition thread_started (line : string) : option string :=
  event ← event_of line;
  if bool_decide (get_str "type" event = Some "thread.started"%string) then get_str "thread_id" event else None.

Definition paragraphs (messages : list string) : string := String.concat (NEWLINE +:+ NEWLINE) messages.

Lemma default_eqb (o : option string) k :
  str_is_empty k = false -> String.eqb (default EmptyString o) k = bool_decide (o = Some k).
Proof.
  intros Hk. destruct o as [x|]; cbn.
  - case_bool_decide as H; [injection H as ->; apply String.eqb_refl|].
    apply String.eqb_neq. intros ->. by apply H.
  - rewrite bool_decide_eq_false_2; [done|]. by destruct k.
Qed.

(** One line of Codex: its message is appended, its thread is remembered. *)
Lemma feed_codex_line line text session :
  feed line (MkStream CodexJsonl text session) =
    MkStream CodexJsonl
      (match agent_message line with
       | Some m => if str_is_empty text then m else text +:+ NEWLINE +:+ NEWLINE +:+ m
       | None => text
       end)
      (match thread_started line with Some x => Some x | None => session end).
Proof.
  unfold feed, agent_message, thread_started, event_of. cbn [ss_kind].
  destruct (str_is_empty (trim line)); [done|]. destruct (json_from_str line) as [event|]; [|done]. cbn [mbind option_bind].
  unfold feed_codex. rewrite !default_eqb //.
  case_bool_decide as Ht; [rewrite Ht; rewrite bool_decide_eq_false_2; [done|]; by destruct (get_str "thread_id" event)|].
  case_bool_decide as Hi; [|done]. cbn [negb].
  destruct (value_get event "item") as [item|]; cbn [mbind option_bind]; [|done].
  case_bool_decide as Ha; [|done]. cbn [negb].
  destruct (get_str "text" item) as [m|]; cbn [default mbind option_bind from_option id str_is_empty]; [|done].
  destruct (str_is_empty m); [done|]. cbn [ss_text]. by destruct (str_is_empty text).
Qed.

Lemma agent_message_nonempty line m : agent_message line = Some m -> str_is_empty m = false.
Proof.
  unfold agent_message. intros (event & _ & H)%bind_Some. case_bool_decide; [|done].
  apply bind_Some in H as (item & _ & H). case_bool_decide; [|done]. apply bind_Some in H as (x & _ & H).
  destruct (str_is_empty x) eqn:Hx; by simplify_eq.
Qed.

(** Text followed by more paragraphs. *)
Definition continued (text : string) (messages : list string) : string :=
  match messages with
  | [] => text
  | _ => if str_is_empty text then paragraphs messages else text +:+ NEWLINE +:+ NEWLINE +:+ paragraphs messages
  end.

Lemma continued_cons text m ms :
  str_is_empty m = false ->
  continued (if str_is_empty text then m else text +:+ NEWLINE +:+ NEWLINE +:+ m) ms = continued text (m :: ms).
Proof.
  intros Hm. destruct ms as [|m2 ms]; cbn [continued]; [done|].
  assert (paragraphs (m :: m2 :: ms) = m +:+ NEWLINE +:+ NEWLINE +:+ paragraphs (m2 :: ms)) as ->.
  { unfold paragraphs. cbn [String.concat]. by rewrite !str_app_assoc. }
  destruct (str_is_empty text) eqn:Ht; [by rewrite Hm|].
  destruct text as [|x text]; [done|]. change (str_is_empty (String x text +:+ _)) with false. cbn iota.
  by rewrite !str_app_assoc.
Qed.

Lemma feed_lines_codex lines text session :
  feed_lines (Some <$> lines) (MkStream CodexJsonl text session) =
    MkStream CodexJsonl (continued text (omap agent_message lines))
      (match last (omap thread_started lines) with Some x => Some x | None => session end).
Proof.
  revert text session. induction lines as [|line lines IH]; intros text session; [done|].
  cbn [fmap list_fmap feed_lines]. rewrite feed_codex_line IH. cbn [omap list_omap]. f_equal.
  - destruct (agent_message line) as [m|] eqn:Hm; [|done]. apply continued_cons. by eapply agent_message_nonempty.
  - destruct (thread_started line) as [x|]; [|done]. rewrite last_cons. by destruct (last _).
Qed.

Lemma continued_nil messages : continued EmptyString messages = paragraphs messages.
Proof. by destruct messages. Qed.
End Process.
