(* ===== verification/NodeEngine.v ===== *)
(** The engine that runs the Claude and Codex programs on an execution node
    (crates/stackhour-node/src/engine.rs, [CliEngine]): its bookkeeping, what a
    dispatch and a cancellation do at once, and what the task that waits for a
    child process reports when it ends. A child process is its pid and, later,
    its [RunResult] (process.rs); both come from outside. *)
From S2P Require Import Prelude.
From S2P Require Import RustStr.
From S2P Require Import Platform.
From S2P Require Import Ids.
From S2P Require Import Entities.
From S2P Require Import Event.
From S2P Require Import Protocol.
From S2P Require Import Wire.
From S2P Require Import Outbox.
From S2P Require Import Process.

Local Open Scope Z_scope.

Section NodeEngine.
Context {P : Platform}.

(** [CliEngineConfig] *)
Record CliEngineConfig := MkCliConfig {
  cc_claude_bin : option string; cc_codex_bin : option string; cc_default_workspace : option string;
}.

(** [RunSpec] *)
Record RunSpec := MkRunSpec {
  rs_task_id : TaskId; rs_engine : string; rs_model : option string; rs_reasoning_effort : option string;
  rs_system_prompt : option string; rs_access_policy : AccessPolicy.t; rs_workspace : option string;
}.

(** [CliState]; a [RunningJob] is the index of its pid slot in [es_slots], the
    slot the job's own thread shares. *)
Record CliState := MkCliState {
  es_runs : gmap RunId RunSpec;
  es_sessions : gmap RunId string;
  es_jobs : gmap RunId nat;
  es_command_runs : gmap CommandId RunId;
  es_seen : gset CommandId;
  es_interrupted : gset RunId;
  es_slots : list (option Z);
  es_signalled : list Z;           (* the pids sent SIGTERM, in order *)
}.

(** [CliEngine::new] *)
Definition cli_new : CliState := MkCliState ∅ ∅ ∅ ∅ ∅ ∅ [] [].

(** The tasks a dispatch spawns; each acknowledges the command first. *)
Inductive EngineTask :=
| Task_ack (c : CommandId)
| Task_ack_emit (c : CommandId) (kind : EventKind) (t : TaskId) (r : RunId) (payload : Value)
| Task_job (c : CommandId) (r : RunId) (spec : RunSpec) (engine : string) (request : RunRequest) (slot : nat)
| Task_update (c : CommandId) (version : string).

Definition task_command (t : EngineTask) : CommandId :=
  match t with
  | Task_ack c | Task_ack_emit c _ _ _ _ | Task_job c _ _ _ _ _ | Task_update c _ => c
  end.

(** [RunningJob::terminate_if_running] *)
Definition terminate_if_running (slot : nat) (s : CliState) : bool * CliState :=
  match mjoin (es_slots s !! slot) with
  | Some pid =>
      (true, MkCliState (es_runs s) (es_sessions s) (es_jobs s) (es_command_runs s) (es_seen s)
               (es_interrupted s) (es_slots s) (es_signalled s ++ [pid]))
  | None => (false, s)
  end.

Definition set_interrupted (x : gset RunId) (s : CliState) : CliState :=
  MkCliState (es_runs s) (es_sessions s) (es_jobs s) (es_command_runs s) (es_seen s) x (es_slots s)
    (es_signalled s).

(** [CliEngine::stop_run] *)
Definition stop_run (r : RunId) (s : CliState) : CliState :=
  match es_jobs s !! r with
  | Some slot => snd (terminate_if_running slot (set_interrupted ({[ r ]} ∪ es_interrupted s) s))
  | None => s
  end.

Definition run_failed (c : CommandId) (t : TaskId) (r : RunId) (error : string) : EngineTask :=
  Task_ack_emit c RunFailed t r (value_object [("error", value_str error)]%string).

Definition known_engine (e : string) : bool := String.eqb e "claude" || String.eqb e "codex".

Definition permission_mode (p : AccessPolicy.t) : string :=
  match p with
  | AccessPolicy.FullAccess => "bypassPermissions"
  | AccessPolicy.Supervised | AccessPolicy.Automatic => "default"
  end.

(** The request of the [SendPrompt] arm. *)
Definition prompt_request (config : CliEngineConfig) (spec : RunSpec) (text : string)
    (session : option string) : RunRequest :=
  MkRunRequest text session (rs_model spec) (Some (permission_mode (rs_access_policy spec)))
    (rs_system_prompt spec) (rs_reasoning_effort spec) (rs_workspace spec) true
    (if String.eqb (rs_engine spec) "claude" then cc_claude_bin config
     else if String.eqb (rs_engine spec) "codex" then cc_codex_bin config else None).

(** [NodeWork::SendPrompt]; [pid] is the child's, or nothing when it cannot be spawned. *)
Definition dispatch_prompt (config : CliEngineConfig) (pid : option Z) (c : CommandId) (t : TaskId)
    (r : RunId) (text : string) (s : CliState) : CliState * EngineTask :=
  match es_runs s !! r with
  | None => (s, run_failed c t r "run is not initialized on this node")
  | Some spec =>
      if negb (known_engine (rs_engine spec))
      then (s, run_failed c t r ("unsupported engine: " +:+ rs_engine spec))
      else
        let slot := length (es_slots s) in
        (MkCliState (es_runs s) (es_sessions s) (<[r := slot]> (es_jobs s)) (<[c := r]> (es_command_runs s))
           (es_seen s) (es_interrupted s) (es_slots s ++ [pid]) (es_signalled s),
         Task_job c r spec (rs_engine spec) (prompt_request config spec text (es_sessions s !! r)) slot)
  end.

(** [CliEngine::dispatch] *)
Definition cli_dispatch (config : CliEngineConfig) (pid : option Z) (c : CommandId) (work : NodeWork)
    (s : CliState) : CliState * EngineTask :=
  if bool_decide (c ∈ es_seen s) then (s, Task_ack c)
  else
    let s := MkCliState (es_runs s) (es_sessions s) (es_jobs s) (es_command_runs s) ({[ c ]} ∪ es_seen s)
               (es_interrupted s) (es_slots s) (es_signalled s) in
    match work with
    | NW_StartRun r t engine model effort prompt policy workspace =>
        let spec := MkRunSpec t engine model effort prompt policy
                      (match workspace with Some w => Some w | None => cc_default_workspace config end) in
        (MkCliState (<[r := spec]> (es_runs s)) (es_sessions s) (es_jobs s) (es_command_runs s) (es_seen s)
           (es_interrupted s) (es_slots s) (es_signalled s), Task_ack c)
    | NW_SendPrompt t r text _ => dispatch_prompt config pid c t r text s
    | NW_InterruptRun r => (stop_run r s, Task_ack c)
    | NW_Update version => (s, Task_update c version)
    end.

(** [CliEngine::cancel] *)
Definition cli_cancel (c : CommandId) (s : CliState) : CliState :=
  match es_command_runs s !! c with
  | Some r => stop_run r s
  | None => s
  end.

(** [child.wait()] of the job's thread: its pid slot is cleared. *)
Definition child_exited (slot : nat) (s : CliState) : CliState :=
  MkCliState (es_runs s) (es_sessions s) (es_jobs s) (es_command_runs s) (es_seen s) (es_interrupted s)
    (<[slot := None]> (es_slots s)) (es_signalled s).

(** The critical section after [handle.join()]: whether the run was interrupted. *)
Definition close_job (c : CommandId) (r : RunId) (result : option RunResult) (s : CliState)
    : bool * CliState :=
  (bool_decide (r ∈ es_interrupted s),
   MkCliState (es_runs s)
     (match result ≫= rr_session_id with Some x => <[r := x]> (es_sessions s) | None => es_sessions s end)
     (delete r (es_jobs s)) (delete c (es_command_runs s)) (es_seen s) (es_interrupted s ∖ {[ r ]})
     (es_slots s) (es_signalled s)).

(** [format!("{:?}", code)] of an [Option<i32>]. *)
Definition debug_code (code : option Z) : string :=
  match code with Some z => "Some(" +:+ pretty z +:+ ")" | None => "None" end.

Definition failure_text (result : RunResult) : string :=
  match rr_error result with
  | Some e => e
  | None =>
      let stderr := trim (rr_stderr result) in
      if str_is_empty stderr then "engine exited with code " +:+ debug_code (rr_code result) else stderr
  end.

(** The events the job's task emits last, in order. *)
Definition job_report (now : Time) (node : NodeId) (t : TaskId) (r : RunId) (interrupted : bool)
    (result : option RunResult) : list EventDraft :=
  let event kind payload := emit_event now node kind t (Some r) payload in
  if interrupted then [event RunInterrupted (value_object [])]
  else
    match result with
    | Some result =>
        if bool_decide (rr_code result = Some 0) && bool_decide (rr_error result = None) then
          [set_session (rr_session_id result)
             (with_payload (value_object [("text", value_str (rr_text result))]%string)
                (with_run r (draft_new now MessageAssistantCompleted t node)));
           event RunCompleted (value_object [])]
        else
          [event RunFailed (value_object [("error", value_str (failure_text result));
                                          ("code", nullable value_i64 (rr_code result))]%string)]
    | None => [event RunFailed (value_object [("error", value_str "engine supervisor failed")]%string)]
    end.

(** *** The engine over time *)

Inductive CliCall :=
| Cli_dispatch (pid : option Z) (c : CommandId) (work : NodeWork)
| Cli_cancel (c : CommandId)
| Cli_exited (slot : nat)
| Cli_close (c : CommandId) (r : RunId) (result : option RunResult).

Definition cli_call (config : CliEngineConfig) (x : CliCall) (s : CliState) : CliState :=
  match x with
  | Cli_dispatch pid c work => (cli_dispatch config pid c work s).1
  | Cli_cancel c => cli_cancel c s
  | Cli_exited slot => child_exited slot s
  | Cli_close c r result => (close_job c r result s).2
  end.

Definition cli_run (config : CliEngineConfig) (xs : list CliCall) (s : CliState) : CliState :=
  foldl (fun s x => cli_call config x s) s xs.

Lemma stop_run_seen r s : es_seen (stop_run r s) = es_seen s.
Proof. unfold stop_run, terminate_if_running. by repeat case_match. Qed.

(** Nothing forgets a command. *)
Lemma cli_call_seen config x s : es_seen s ⊆ es_seen (cli_call config x s).
Proof.
  destruct x as [pid c work|c|slot|c r result]; cbn; [|unfold cli_cancel; case_match; by rewrite ?stop_run_seen|done..].
  unfold cli_dispatch. case_bool_decide; [done|].
  destruct work; cbn; rewrite ?stop_run_seen; cbn; [set_solver| |set_solver..].
  unfold dispatch_prompt. cbn. repeat case_match; cbn; set_solver.
Qed.

Lemma cli_run_seen config xs s : es_seen s ⊆ es_seen (cli_run config xs s).
Proof.
  revert s. induction xs as [|x xs IH]; intros s; cbn; [done|].
  etrans; [apply (cli_call_seen config x)|apply IH].
Qed.

Lemma cli_dispatch_seen config pid c work s : c ∈ es_seen (cli_dispatch config pid c work s).1.
Proof.
  unfold cli_dispatch. case_bool_decide; [done|].
  destruct work; cbn; rewrite ?stop_run_seen; cbn; [set_solver| |set_solver..].
  unfold dispatch_prompt. cbn. repeat case_match; cbn; set_solver.
Qed.

(** *** The processes of the jobs *)

(** The call stops this run. *)
Definition stops (config : CliEngineConfig) (x : CliCall) (s : CliState) (r : RunId) : Prop :=
  match x with
  | Cli_cancel c => es_command_runs s !! c = Some r
  | Cli_dispatch _ c (NW_InterruptRun r') => r' = r /\ c ∉ es_seen s
  | _ => False
  end.

(** One signal, to the live process of the run's job, or none. *)
Definition signals (P : RunId -> Prop) (s s' : CliState) : Prop :=
  es_signalled s' = es_signalled s \/
  exists r slot pid, P r /\ es_jobs s !! r = Some slot /\ es_slots s !! slot = Some (Some pid) /\
    es_signalled s' = es_signalled s ++ [pid].

Lemma stop_run_signals (Q : RunId -> Prop) r s : Q r -> signals Q s (stop_run r s).
Proof.
  intros Hr. unfold stop_run, terminate_if_running. destruct (es_jobs s !! r) as [slot|] eqn:Hj; [|by left]. cbn.
  destruct (es_slots s !! slot) as [[pid|]|] eqn:Hs; cbn; [|by left..].
  right. by exists r, slot, pid.
Qed.

Lemma stop_run_keeps r s : es_jobs (stop_run r s) = es_jobs s /\ es_slots (stop_run r s) = es_slots s.
Proof. unfold stop_run, terminate_if_running. by repeat case_match. Qed.

Lemma cli_call_signals config x s : signals (stops config x s) s (cli_call config x s).
Proof.
  destruct x as [pid c work|c|slot|c r result]; cbn [cli_call]; [| |by left..].
  - unfold cli_dispatch. case_bool_decide as Hc; [by left|].
    destruct work as [r t engine model effort prompt policy workspace|t r text at'|r|v]; cbn [fst]; [by left| | |by left].
    + unfold dispatch_prompt. cbn. repeat case_match; by left.
    + by apply (stop_run_signals (stops config (Cli_dispatch pid c (NW_InterruptRun r)) s) r (MkCliState _ _ _ _ _ _ _ _)).
  - unfold cli_cancel. destruct (es_command_runs s !! c) as [r|] eqn:Hr; [|by left]. by apply stop_run_signals.
Qed.

(** A slot, once allocated, is only ever cleared. *)
Definition slots_grow (s s' : CliState) : Prop :=
  (length (es_slots s) <= length (es_slots s'))%nat /\
  forall slot, es_slots s !! slot = Some None -> es_slots s' !! slot = Some None.

Lemma cli_call_slots config x s : slots_grow s (cli_call config x s).
Proof.
  destruct x as [pid c work|c|slot|c r result]; cbn [cli_call]; unfold slots_grow.
  - unfold cli_dispatch. case_bool_decide; [done|].
    destruct work as [r t engine model effort prompt policy workspace|t r text at'|r|v]; cbn [fst]; [done| | |done].
    + unfold dispatch_prompt. cbn. case_match; [|done]. case_match; cbn; [done|].
      split; [rewrite length_app; lia|]. intros slot Hs. by rewrite lookup_app Hs.
    + rewrite (proj2 (stop_run_keeps r _)). done.
  - unfold cli_cancel. case_match; [|done]. by rewrite (proj2 (stop_run_keeps _ _)).
  - cbn. rewrite length_insert. split; [done|]. intros k Hk.
    destruct (decide (k = slot)) as [->|Hne]; [|by rewrite list_lookup_insert_ne].
    apply list_lookup_insert_eq. by eapply lookup_lt_Some.
  - done.
Qed.

Lemma cli_run_slots config xs s : slots_grow s (cli_run config xs s).
Proof.
  revert s. induction xs as [|x xs IH]; intros s; cbn; [done|].
  destruct (cli_call_slots config x s) as [H1 H2]. destruct (IH (cli_call config x s)) as [H3 H4].
  unfold cli_run in *. split; [lia|]. auto.
Qed.

Lemma child_exited_clears slot s :
  (slot < length (es_slots s))%nat -> es_slots (child_exited slot s) !! slot = Some None.
Proof. intros H. by apply list_lookup_insert_eq. Qed.

Lemma cli_run_app config xs ys s : cli_run config (xs ++ ys) s = cli_run config ys (cli_run config xs s).
Proof. apply foldl_app. Qed.

(** *** What the job's last events are *)

Definition clean_exit (result : option RunResult) : bool :=
  match result with
  | Some r => bool_decide (rr_code r = Some 0) && bool_decide (rr_error r = None)
  | None => false
  end.

Definition outcome_kind (interrupted : bool) (result : option RunResult) : EventKind :=
  if interrupted then RunInterrupted else if clean_exit result then RunCompleted else RunFailed.

(** The last event is the run's one terminal event. *)
Lemma job_report_shape now node t r interrupted result :
  exists init final, job_report now node t r interrupted result = init ++ [final] /\
    d_kind final = outcome_kind interrupted result /\
    Forall (fun d => d_kind d = MessageAssistantCompleted) init /\
    (init <> [] <-> outcome_kind interrupted result = RunCompleted).
Proof.
  unfold job_report, outcome_kind, clean_exit. destruct interrupted.
  { by exists [], (emit_event now node RunInterrupted t (Some r) (value_object [])). }
  destruct result as [result|].
  - destruct (bool_decide (rr_code result = Some 0) && bool_decide (rr_error result = None)).
    + eexists [_], _. split; [done|]. split; [done|]. split; [by apply Forall_singleton|done].
    + by eexists [], _.
  - by eexists [], _.
Qed.

Lemma job_report_labels now node t r interrupted result :
  Forall (fun d => d_node_id d = node /\ d_task_id d = t /\ d_run_id d = Some r /\ d_occurred_at d = now)
    (job_report now node t r interrupted result).
Proof. unfold job_report. repeat case_match; by repeat constructor. Qed.

End NodeEngine.
