(* ===== verification/NodeLoop.v ===== *)
(** The execution node's connection (crates/stackhour-node/src/lib.rs): the
    handshake, the frames of the receive loop and where each goes, and the
    supervisor that redials with backoff. *)
From S2P Require Import Prelude.
From S2P Require Import RustStr.
From S2P Require Import Platform.
From S2P Require Import Ids.
From S2P Require Import Entities.
From S2P Require Import Event.
From S2P Require Import Protocol.
From S2P Require Import Wire.
From S2P Require Import Schema.
From S2P Require Import Store.
From S2P Require Import Settings.
From S2P Require Import HubState.
From S2P Require Import HubCommands.
From S2P Require Import Links.
From S2P Require Import Backoff.

Local Open Scope Z_scope.

Section NodeLoop.
Context {P : Platform}.

(** [NodeConfig]; durations in nanoseconds. *)
Record NodeConfig := MkNodeConfig {
  nc_hub_url : string; nc_node_id : NodeId; nc_token : string; nc_software_version : string;
  nc_capabilities : Value; nc_heartbeat_interval : Z; nc_heartbeat_timeout : Z;
  nc_backoff_base : Z; nc_backoff_max : Z;
}.

(** [NodeConfig::new]; [build_info] names the running build. *)
Definition node_config_new (hub_url : string) (node_id : NodeId) (token build_info : string) : NodeConfig :=
  MkNodeConfig hub_url node_id token build_info
    (value_object [("engines", value_array [value_str "claude"; value_str "codex"])]%string)
    (10 * nanos_per_second) (30 * nanos_per_second) (500 * 1000000) (16 * nanos_per_second).

(** [SessionEnd] *)
Inductive SessionEnd := Shutdown | Rejected (e : ProtocolError) | Disconnected (established : bool).

(** The first frame out. *)
Definition node_hello (config : NodeConfig) : NodeHello :=
  {| h_node_id := nc_node_id config; h_token := nc_token config;
     h_software_version := nc_software_version config; h_protocol_version := WIRE_PROTOCOL_VERSION;
     h_capabilities := nc_capabilities config; h_resume_after_sequence := None |}.

(** [msg_text] *)
Definition msg_text (m : Message) : string :=
  match m with Msg_Text t => t | _ => "" end.

(** [decode_text]: not text, or text that parses or does not. *)
Definition decode_text {A} (from_value : Value -> option A) (text : string) : option (option A) :=
  if str_is_empty text then None else Some (json_from_str text ≫= from_value).

(** The first frame in: the session goes on, or how it ends. *)
Definition read_welcome (frame : option Message) : option SessionEnd :=
  match frame with
  | Some msg =>
      match decode_text welcome_from_value (msg_text msg) with
      | Some (Some welcome) =>
          if w_accepted welcome then None
          else Some (Rejected (default Unauthenticated (w_error welcome)))
      | _ => Some (Disconnected false)
      end
  | None => Some (Disconnected false)
  end.

(** What a hub message makes the node do. *)
Inductive NodeAction :=
| Act_dispatch (c : CommandId) (work : NodeWork)
| Act_cancel (c : CommandId)
| Act_acknowledge (i : EventId)
| Act_pong
| Act_none.

(** [expires_at.timestamp()]: whole seconds. *)
Definition timestamp (t : Time) : Z := t / nanos_per_second.

(** [handle_hub_message]; [now_secs] is the node's clock, in seconds. *)
Definition handle_hub_message (now_secs : Z) (msg : HubToNode) : NodeAction :=
  match msg with
  | HN_DispatchCommand c expires_at work =>
      match expires_at with
      | Some e => if timestamp e <=? now_secs then Act_none else Act_dispatch c work
      | None => Act_dispatch c work
      end
  | HN_CancelCommand c => Act_cancel c
  | HN_EventAck i => Act_acknowledge i
  | HN_ApprovalDecision _ _ _ | HN_Heartbeat => Act_none
  end.

(** One turn of [receive_loop]: what to do, or nothing when the loop ends.
    [None] is silence past the timeout, a closed socket or its error. *)
Definition receive_frame (now_secs : Z) (frame : option Message) : option NodeAction :=
  match frame with
  | None => None
  | Some (Msg_Text t) =>
      match decode_text hub_to_node_from_value (msg_text (Msg_Text t)) with
      | Some (Some hub_msg) => Some (handle_hub_message now_secs hub_msg)
      | _ => Some Act_none
      end
  | Some Msg_Ping => Some Act_pong
  | Some Msg_Close => None
  | Some _ => Some Act_none
  end.

Definition u32_saturating_add (a b : Z) : Z := Z.min (a + b) (2 ^ 32 - 1).

(** One turn of [run_with_engine]: it returns, or waits and dials again. [nanos]
    is the clock's sub-second part when the delay is drawn. *)
Definition after_session (config : NodeConfig) (attempt nanos : Z) (e : SessionEnd)
    : Result unit + (Z * Z) :=
  match e with
  | Shutdown => inl (Ok tt)
  | Rejected err => inl (Err (Error_msg ("hub rejected node connection: " +:+ protocol_error_display err)))
  | Disconnected established =>
      let attempt := if established then 0 else attempt in
      let attempt := u32_saturating_add attempt 1 in
      inr (attempt, delay nanos attempt (nc_backoff_base config) (nc_backoff_max config))
  end.

(** [run_with_engine] over the sessions it goes through: the delays it waited and
    what it returned, if it did. A shutdown during a wait is the next session,
    ending by [Shutdown] before it dials. *)
Fixpoint supervise (config : NodeConfig) (attempt : Z) (sessions : list (SessionEnd * Z))
    : list Z * option (Result unit) :=
  match sessions with
  | [] => ([], None)
  | (e, nanos) :: rest =>
      match after_session config attempt nanos e with
      | inl r => ([], Some r)
      | inr (attempt', d) =>
          let '(ds, r) := supervise config attempt' rest in (d :: ds, r)
      end
  end.
End NodeLoop.
