(* ===== verification/ClaireText.v ===== *)
(** The texts the assistant supervisor reads and writes
    (crates/stackhour/src/control.rs): what is quoted to the engine, within its
    bounds, and the reading of the engine's answer, the envelope. The supervisor
    itself is in Claire.v. *)
From S2P Require Import Prelude.
From S2P Require Import RustStr.
From S2P Require Import Platform.
From S2P Require Import Ids.
From S2P Require Import Event.
From S2P Require Import Settings.
From S2P Require Import Process.
From Stdlib Require Import Ascii.

Local Open Scope Z_scope.

Definition MAX_MEMORY_CONTEXT_BYTES : N := 16 * 1024.
Definition MAX_CONVERSATION_HISTORY_BYTES : N := 16 * 1024.
Definition MAX_MEMORY_NOTE_CHARS : N := 280.

(** A literal with its double quotes spelled as carets. *)
Definition quoted (s : string) : string := replace "^" (String "034" EmptyString) s.

Definition paragraph : string := NEWLINE +:+ NEWLINE.

(** [lines.join("\n")] *)
Definition join_lines (lines : list string) : string := String.concat NEWLINE lines.

(** *** Bounds *)

Definition OMITTED : string := "[Earlier conversation omitted]" +:+ NEWLINE.

(** [while !text.is_char_boundary(start) { start += 1 }] *)
Fixpoint to_boundary (s : string) : string :=
  match s with
  | String a r => if is_char_boundary a then s else to_boundary r
  | EmptyString => EmptyString
  end.

(** [bounded_tail] *)
Definition bounded_tail (text : string) (max_bytes : N) : string :=
  if (str_len text <=? max_bytes)%N then text
  else
    let tail_bytes := (max_bytes - str_len OMITTED)%N in
    let start := (str_len text - tail_bytes)%N in
    OMITTED +:+ to_boundary (str_drop (N.to_nat start) text).

(** [validate_selector] *)
Definition selector_char (ch : N) : bool := is_ascii_alphanumeric ch || one_of "._-/:" ch.
Definition validate_selector (label value : string) : Result unit :=
  if str_is_empty value || (200 <? str_len value)%N || existsb (fun ch => negb (selector_char ch)) (chars value)
  then Err (Error_msg (label +:+ " contains unsupported characters")) else Ok tt.

(** [validate_effort] *)
Definition validate_effort (value : string) : Result unit :=
  if is_effort value then Ok tt else Err (Error_msg "reasoning effort must be low, medium, or high").

(** [string]: a blank setting is no setting; [required] *)
Definition config_string {P : Platform} (value : option Value) (key : string) : option string :=
  v ← value; s ← get_str key v; if str_is_empty (trim s) then None else Some s.
Definition config_required {P : Platform} (value : option Value) (key : string) : Result string :=
  ok_or (config_string value key) (Error_msg ("control." +:+ key +:+ " is required")).

(** What [save_memory_note] refuses to hand to OptMem. *)
Definition memory_note_check (note : string) : Result unit :=
  if str_is_empty (trim note) || (MAX_MEMORY_NOTE_CHARS <? N.of_nat (length (chars note)))%N
  then Err (Error_msg ("memory notes must be one non-empty line of at most "
                       +:+ pretty MAX_MEMORY_NOTE_CHARS +:+ " characters"))
  else if existsb is_control (chars note) then Err (Error_msg "memory notes must be one printable line")
  else Ok tt.

Section Texts.
Context {P : Platform}.

(** [short_task], [short_run] *)
Definition short_id {k} (i : Id k) : string := take_chars 8 (id_to_string i).

(** *** What the engine is told *)

Definition payload_line (label key : string) (e : Event) : option string :=
  (fun text => label +:+ text) <$> get_str key (e_payload e).

(** The closure of [worker_wake_context], and its text. *)
Definition worker_line (e : Event) : option string :=
  match e_kind e with
  | MessageUser => payload_line "Instruction: " "text" e
  | MessageAssistantCompleted => payload_line "Worker result: " "text" e
  | RunFailed => payload_line "Worker failure: " "error" e
  | RunCompleted => Some "Worker run completed."%string
  | _ => None
  end.
Definition worker_timeline (events : list Event) : string :=
  bounded_tail
    (match omap worker_line events with
     | [] => "No worker output was recorded."%string
     | lines => join_lines lines
     end) MAX_CONVERSATION_HISTORY_BYTES.

(** The closure of [conversation_history], and its text: the last twenty messages. *)
Definition history_line (e : Event) : option string :=
  match e_kind e with
  | MessageUser => payload_line "Nikita: " "text" e
  | MessageAssistantCompleted => payload_line "Claire: " "text" e
  | _ => None
  end.
Definition history_text (events : list Event) : string :=
  match take 20 (omap history_line (reverse events)) with
  | [] => "No earlier messages."%string
  | lines => bounded_tail (join_lines (reverse lines)) MAX_CONVERSATION_HISTORY_BYTES
  end.

(** The loop of [recent_task_context]: the last twelve lines. *)
Definition context_line (e : Event) : option string :=
  let task := short_id (e_task_id e) in
  match e_kind e with
  | TaskCreated => (fun title => task +:+ " created: " +:+ title) <$> get_str "title" (e_payload e)
  | RunStarted =>
      Some (task +:+ " run "
            +:+ match e_run_id e with Some r => short_id r | None => "unknown" end
            +:+ " started on " +:+ node_as_str (e_node_id e))
  | RunCompleted => Some (task +:+ " completed")
  | RunFailed => Some (task +:+ " failed")
  | RunInterrupted => Some (task +:+ " interrupted")
  | _ => None
  end.
Definition context_text (events : list Event) : string :=
  match take 12 (omap context_line (reverse events)) with
  | [] => "No task activity yet."%string
  | lines => join_lines (reverse lines)
  end.

(** The prompt of [submit_claire_prompt]. *)
Definition turn_prompt (context text : string) : string :=
  "[Current Stackhour context]" +:+ NEWLINE +:+ context +:+ paragraph
  +:+ "[Message from Nikita]" +:+ NEWLINE +:+ text.

(** The prompt of [wake_claire_for_pending_worker]. *)
Definition wake_prompt (event_id : EventId) (task_id : TaskId) (run_id : RunId) (kind : EventKind)
    (context : string) : string :=
  "Durable worker terminal wake " +:+ id_to_string event_id +:+ ": task " +:+ id_to_string task_id
  +:+ ", run " +:+ id_to_string run_id +:+ " ended as " +:+ kind_as_str kind +:+ "." +:+ paragraph
  +:+ "Worker timeline:" +:+ NEWLINE +:+ context +:+ paragraph
  +:+ "Assess the result. Decide the next Stackhour actions, if any, and what Nikita should be "
  +:+ "told. Do not merely repeat raw tool output.".

(** The follow-up prompt of [process_claire_event]. *)
Definition follow_up_prompt (results : list string) : string :=
  "Internal Stackhour action results:" +:+ NEWLINE +:+ join_lines results +:+ paragraph
  +:+ "Reassess now and make the final notify/reply decision. Do not claim "
  +:+ "anything beyond these results.".

(** [claire_system_prompt] *)
Definition answer_contract : string :=
  join_lines
    ["Return one JSON object and nothing else:";
     quoted ("{^notify^:true,^reply^:^natural Telegram reply^,"
             +:+ "^remember^:[^durable fact, <=280 chars^],^actions^:[...]}");
     "Supported actions:";
     quoted ("- {^type^:^create_task^,^title^:^...^,^prompt^:^...^,"
             +:+ "^node_id^:^optional^,^engine^:^claude|codex^,^model^:^optional^,"
             +:+ "^reasoning_effort^:^low|medium|high^,^workspace^:^optional absolute path^}");
     quoted "- {^type^:^send_message^,^task_id^:^uuid^,^run_id^:^uuid^,^text^:^...^}";
     quoted "- {^type^:^stop_run^,^run_id^:^uuid^}";
     "Use actions only when Nikita asked you to operate Stackhour. Never invent ids or report "
     +:+ "success before an action result is returned. Do not place secrets in memory. Administrative "
     +:+ "operations, credential changes, installs, deletion, backup restore, and approval decisions "
     +:+ "are not available in this first tool boundary. Set notify=false when no Telegram message "
     +:+ "is useful. You alone decide which worker progress, questions, tool results, and outcomes "
     +:+ "appear there."]%string.
Definition claire_system_prompt (settings : AssistantSettings) (memory history : string) : string :=
  as_personality settings +:+ paragraph
  +:+ "Your name is " +:+ as_name settings +:+ ". You are the persistent assistant; worker tasks are separate agents "
  +:+ "you coordinate through typed Stackhour actions." +:+ paragraph
  +:+ answer_contract +:+ paragraph
  +:+ "[OptMem]" +:+ NEWLINE +:+ memory +:+ paragraph
  +:+ "[Conversation before this provider run]" +:+ NEWLINE +:+ history.

(** *** The envelope *)

(** [ClaireAction] *)
Inductive ClaireAction :=
| Act_CreateTask (title prompt : string) (node_id engine model reasoning_effort workspace : option string)
| Act_SendMessage (task_id run_id text : string)
| Act_StopRun (run_id : string)
| Act_Unknown.

(** [ClaireEnvelope] *)
Record ClaireEnvelope := MkEnvelope {
  ce_notify : bool; ce_reply : string; ce_remember : list string; ce_actions : list ClaireAction;
  ce_malformed : bool;
}.

(** A struct is read from an object by key; serde reads one from an array too, by
    position. [exact] is whether the array must name every field. *)
Definition struct_fields (exact : bool) (names : list string) (v : Value) : option (string -> option Value) :=
  match value_as_object v with
  | Some _ => Some (value_get v)
  | None =>
      l ← value_as_array v;
      if (if exact then Nat.eqb else Nat.leb) (length l) (length names)
      then Some (fun k => assoc k (zip names l)) else None
  end.

Definition str_field (f : string -> option Value) (k : string) : option string := f k ≫= value_as_str.
Definition opt_field (f : string -> option Value) (k : string) : option (option string) :=
  match f k with
  | None => Some None
  | Some w => if value_is_null w then Some None else Some <$> value_as_str w
  end.

(** [#[serde(default)]] *)
Definition default_field {A} (d : A) (read : Value -> option A) (f : string -> option Value) (k : string)
    : option A :=
  match f k with None => Some d | Some w => read w end.

(** An internally tagged enum: the tag is the key [type], or the first element. *)
Definition action_parts (v : Value) : option (string * (list string -> option (string -> option Value))) :=
  match value_as_object v with
  | Some _ => tag ← get_str "type" v; Some (tag, fun names => struct_fields true names v)
  | None =>
      l ← value_as_array v;
      match l with
      | [] => None
      | first :: rest => tag ← value_as_str first; Some (tag, fun names => struct_fields true names (value_array rest))
      end
  end.

Definition action_from_value (v : Value) : option ClaireAction :=
  parts ← action_parts v;
  let '(tag, fields) := parts in
  if String.eqb tag "create_task" then
    f ← fields ["title"; "prompt"; "node_id"; "engine"; "model"; "reasoning_effort"; "workspace"]%string;
    title ← str_field f "title";
    prompt ← str_field f "prompt";
    node_id ← opt_field f "node_id";
    engine ← opt_field f "engine";
    model ← opt_field f "model";
    effort ← opt_field f "reasoning_effort";
    workspace ← opt_field f "workspace";
    Some (Act_CreateTask title prompt node_id engine model effort workspace)
  else if String.eqb tag "send_message" then
    f ← fields ["task_id"; "run_id"; "text"]%string;
    task_id ← str_field f "task_id";
    run_id ← str_field f "run_id";
    text ← str_field f "text";
    Some (Act_SendMessage task_id run_id text)
  else if String.eqb tag "stop_run" then
    f ← fields ["run_id"]%string; Act_StopRun <$> str_field f "run_id"
  else f ← fields []; Some Act_Unknown.

Definition list_from_value {A} (read : Value -> option A) (v : Value) : option (list A) :=
  l ← value_as_array v; mapM read l.

Definition envelope_from_value (v : Value) : option ClaireEnvelope :=
  f ← struct_fields false ["notify"; "reply"; "remember"; "actions"]%string v;
  notify ← default_field true value_as_bool f "notify";
  reply ← default_field EmptyString value_as_str f "reply";
  remember ← default_field [] (list_from_value value_as_str) f "remember";
  actions ← default_field [] (list_from_value action_from_value) f "actions";
  Some (MkEnvelope notify reply remember actions false).

Definition malformed_envelope : ClaireEnvelope := MkEnvelope false EmptyString [] [] true.

(** [parse_claire_envelope] *)
Definition unfenced (raw : string) : string :=
  let trimmed := trim raw in
  match strip_prefix "```json" trimmed ≫= strip_suffix "```" with
  | Some body => trim body
  | None => trimmed
  end.
Definition parse_claire_envelope (raw : string) : ClaireEnvelope :=
  default malformed_envelope (json_from_str (unfenced raw) ≫= envelope_from_value).
End Texts.

(** *** What [bounded_tail] keeps *)

Lemma byte_in_boundary a : byte_in 128 191 a = true -> is_char_boundary a = false.
Proof.
  unfold byte_in, is_char_boundary. intros [H1%N.leb_le H2%N.leb_le]%andb_true_iff.
  apply orb_false_iff. split; [apply N.ltb_ge|apply N.leb_gt]; lia.
Qed.
Lemma byte_in_narrow lo hi a : (128 <=? lo)%N = true -> (hi <=? 191)%N = true -> byte_in lo hi a = true -> byte_in 128 191 a = true.
Proof.
  unfold byte_in. intros Hl%N.leb_le Hh%N.leb_le [H1%N.leb_le H2%N.leb_le]%andb_true_iff.
  apply andb_true_iff. split; apply N.leb_le; lia.
Qed.
Lemma byte_in_lead lo hi a : (lo <=? hi)%N = true -> (192 <=? lo)%N = true -> byte_in lo hi a = true -> is_char_boundary a = true.
Proof.
  unfold byte_in, is_char_boundary. intros _ Hl%N.leb_le [H1%N.leb_le _]%andb_true_iff. apply orb_true_iff. right. apply N.leb_le. lia.
Qed.

(** The first scalar value of well-formed text: a boundary byte, up to three
    continuation bytes, and well-formed text. *)
Lemma utf8_first a s : utf8_valid (String a s) = true ->
  is_char_boundary a = true /\
  exists c r, s = c +:+ r /\ (String.length c <= 3)%nat /\ utf8_valid r = true /\
    forall n t, (n <= String.length c)%nat -> to_boundary (str_drop n c +:+ t) = to_boundary t.
Proof.
  cbn [utf8_valid]. destruct (byte_in 0 127 a) eqn:H0.
  { intros Hv. split.
    - unfold byte_in, is_char_boundary in *. apply andb_true_iff in H0 as [_ H0%N.leb_le]. apply orb_true_iff. left. apply N.ltb_lt. lia.
    - exists EmptyString, s. split_and!; [done|cbn; lia|done|]. intros n t _. by destruct n. }
  assert (forall c t, forallb (fun b => negb (is_char_boundary b)) (String.list_ascii_of_string c) = true ->
            to_boundary (c +:+ t) = to_boundary t) as Hskip.
  { intros c t. induction c as [|b c IH]; [done|]. cbn [String.list_ascii_of_string forallb].
    intros [Hb%negb_true_iff Hc]%andb_true_iff. change (String b c +:+ t) with (String b (c +:+ t)).
    cbn [to_boundary]. rewrite Hb. by apply IH. }
  assert (forall b, byte_in 128 191 b = true -> negb (is_char_boundary b) = true) as Hcont.
  { intros b Hb. by rewrite byte_in_boundary. }
  destruct s as [|a1 s]; [done|]. destruct (byte_in 194 223 a) eqn:H2.
  { intros [H1 Hv]%andb_true_iff. split; [by eapply (byte_in_lead 194 223)|].
    exists (String a1 EmptyString), s. split_and!; [done|cbn; lia|done|]. intros n t Hn. apply Hskip. cbn in Hn.
    destruct n as [|[|n]]; [|done|lia]. cbn. by rewrite Hcont. }
  destruct s as [|a2 s]; [done|]. destruct (byte_in 224 239 a) eqn:H3.
  { intros [[H1 Ha2]%andb_true_iff Hv]%andb_true_iff. split; [by eapply (byte_in_lead 224 239)|].
    apply byte_in_narrow in H1; [|by destruct (byte_in 224 224 a)|by destruct (byte_in 237 237 a)].
    exists (String a1 (String a2 EmptyString)), s. split_and!; [done|cbn; lia|done|]. intros n t Hn. apply Hskip. cbn in Hn.
    destruct n as [|[|[|n]]]; [| |done|lia]; cbn; by rewrite !Hcont. }
  destruct s as [|a3 s]; [done|]. intros [[[[H4 H1]%andb_true_iff Ha2]%andb_true_iff Ha3]%andb_true_iff Hv]%andb_true_iff.
  split; [by eapply (byte_in_lead 240 244)|].
  apply byte_in_narrow in H1; [|by destruct (byte_in 240 240 a)|by destruct (byte_in 244 244 a)].
  exists (String a1 (String a2 (String a3 EmptyString))), s. split_and!; [done|cbn; lia|done|]. intros n t Hn. apply Hskip. cbn in Hn.
  destruct n as [|[|[|[|n]]]]; [| | |done|lia]; cbn; by rewrite !Hcont.
Qed.

Lemma str_drop_app_l n c r : (n <= String.length c)%nat -> str_drop n (c +:+ r) = str_drop n c +:+ r.
Proof.
  revert c. induction n as [|n IH]; intros c; [by destruct c|]. destruct c as [|a c]; cbn [String.length]; [lia|].
  intros H. change (String a c +:+ r) with (String a (c +:+ r)). cbn [str_drop]. apply IH. lia.
Qed.
Lemma str_drop_app_r n c r : str_drop (String.length c + n) (c +:+ r) = str_drop n r.
Proof. induction c as [|a c IH]; [done|]. exact IH. Qed.

(** From any index of well-formed text, the next boundary is within three bytes and
    well-formed text follows it. *)
Lemma to_boundary_valid n s : utf8_valid s = true -> (n <= String.length s)%nat ->
  utf8_valid (to_boundary (str_drop n s)) = true /\
  (String.length (str_drop n s) <= String.length (to_boundary (str_drop n s)) + 3)%nat /\
  exists p, s = p +:+ to_boundary (str_drop n s).
Proof.
  remember (String.length s) as k eqn:Hk. revert n s Hk. induction k as [k IH] using lt_wf_ind. intros n s Hk Hv Hn.
  destruct s as [|a s].
  { assert (n = 0)%nat as -> by (cbn in *; lia). split_and!; [done|cbn; lia|by exists EmptyString]. }
  destruct (utf8_first a s Hv) as (Ha & c & r & -> & Hc & Hr & Hskip). destruct n as [|n].
  { cbn [str_drop to_boundary]. rewrite Ha. split_and!; [done|lia|by exists EmptyString]. }
  cbn [str_drop]. cbn [String.length] in Hk. rewrite str_length_app in Hk.
  destruct (le_lt_dec n (String.length c)) as [Hnc|Hnc].
  - rewrite str_drop_app_l // Hskip //. assert (to_boundary r = r) as Hb.
    { destruct r as [|b r]; [done|]. cbn [to_boundary]. by rewrite (proj1 (utf8_first b r Hr)). }
    rewrite Hb. split_and!; [done| |by exists (String a c)]. rewrite str_length_app str_drop_length. lia.
  - replace n with (String.length c + (n - String.length c))%nat by lia. rewrite str_drop_app_r.
    destruct (IH (String.length r) ltac:(lia) (n - String.length c)%nat r eq_refl Hr) as (H1 & H2 & p & Hp); [lia|].
    split_and!; [done|done|]. exists (String a (c +:+ p)). rewrite {1}Hp.
    change (String a (c +:+ p) +:+ ?t) with (String a ((c +:+ p) +:+ t)). by rewrite str_app_assoc.
Qed.
