(* ===== verification/Claire.v ===== *)
(** The hub-local assistant (crates/stackhour/src/control.rs): [ClaireRunner],
    which runs one engine process per turn, and the functions of the Telegram
    bridge that start, finish, follow up and recover the assistant's turns. Each
    of them holds the turn gate from its first line to its last, so each is one
    step here; the thread that waits for a turn's process does not, and is cut at
    its lock acquisitions. *)
From S2P Require Import Prelude.
From S2P Require Import RustStr.
From S2P Require Import Platform.
From S2P Require Import Ids.
From S2P Require Import Entities.
From S2P Require Import Event.
From S2P Require Import Protocol.
From S2P Require Import Wire.
From S2P Require Import Schema.
From S2P Require Import Store.
From S2P Require Import Settings.
From S2P Require Import HubState.
From S2P Require Import HubCommands.
From S2P Require Import EngineDef.
From S2P Require Import Process.
From S2P Require Import Outbox.
From S2P Require Import NodeEngine.
From S2P Require Import ClaireText.

Local Open Scope Z_scope.

(** What running a command comes to: it cannot be run, or it exits. *)
Inductive CommandOutput :=
| Output_error (error : string)
| Output_exit (success : bool) (stdout stderr status : string).

(** The world of the bridge: the n-th run of OptMem with its arguments and
    [MEMORY_DIR], and the configured binaries. *)
Class ClaireEnv := {
  optmem : nat -> string -> list string -> option string -> CommandOutput;
  claude_bin : option string;
  codex_bin : option string;
}.

(** How starting a turn's process and its thread goes: the child's pid unless it
    cannot be spawned, and the error of the thread if it cannot be. *)
Record Spawn := MkSpawn { sp_pid : option Z; sp_thread : option string }.

Section Claire.
Context {P : Platform} {E : Env P} {CE : ClaireEnv}.

(** Where the thread of a turn is. *)
Inductive Stage :=
| Sv_waiting
| Sv_session (result : RunResult)
| Sv_save (session : AssistantSession) (result : RunResult)
| Sv_message (result : RunResult)
| Sv_completed (result : RunResult)
| Sv_failed (provider_session_id : option string) (payload : Value)
| Sv_cleanup
| Sv_done.

Record Supervisor := MkSupervisor {
  sv_channel : string; sv_task : TaskId; sv_run : RunId; sv_slot : nat; sv_stage : Stage;
}.

(** The hub, [busy_claire], and [ClaireRunnerState]; a job is the index of its pid
    slot. The commands spawned and the pids signalled are kept for the record. *)
Record Claire := MkClaire {
  cl_hub : HubState;
  cl_busy : gset RunId;
  cl_jobs : gmap RunId nat;
  cl_interrupted : gset RunId;
  cl_slots : list (option Z);
  cl_supervisors : list Supervisor;
  cl_signalled : list Z;
  cl_commands : list Command;
  cl_optmem : nat;
}.

Definition set_cl_hub (x : HubState) (s : Claire) : Claire :=
  MkClaire x (cl_busy s) (cl_jobs s) (cl_interrupted s) (cl_slots s) (cl_supervisors s) (cl_signalled s)
    (cl_commands s) (cl_optmem s).
Definition set_cl_busy (x : gset RunId) (s : Claire) : Claire :=
  MkClaire (cl_hub s) x (cl_jobs s) (cl_interrupted s) (cl_slots s) (cl_supervisors s) (cl_signalled s)
    (cl_commands s) (cl_optmem s).
Definition set_cl_runner (jobs : gmap RunId nat) (interrupted : gset RunId) (s : Claire) : Claire :=
  MkClaire (cl_hub s) (cl_busy s) jobs interrupted (cl_slots s) (cl_supervisors s) (cl_signalled s)
    (cl_commands s) (cl_optmem s).
Definition set_cl_slots (slots : list (option Z)) (signalled : list Z) (s : Claire) : Claire :=
  MkClaire (cl_hub s) (cl_busy s) (cl_jobs s) (cl_interrupted s) slots (cl_supervisors s) signalled
    (cl_commands s) (cl_optmem s).
Definition set_cl_supervisors (x : list Supervisor) (s : Claire) : Claire :=
  MkClaire (cl_hub s) (cl_busy s) (cl_jobs s) (cl_interrupted s) (cl_slots s) x (cl_signalled s)
    (cl_commands s) (cl_optmem s).
Definition set_cl_commands (x : list Command) (s : Claire) : Claire :=
  MkClaire (cl_hub s) (cl_busy s) (cl_jobs s) (cl_interrupted s) (cl_slots s) (cl_supervisors s)
    (cl_signalled s) x (cl_optmem s).
Definition set_cl_optmem (x : nat) (s : Claire) : Claire :=
  MkClaire (cl_hub s) (cl_busy s) (cl_jobs s) (cl_interrupted s) (cl_slots s) (cl_supervisors s)
    (cl_signalled s) (cl_commands s) x.

(** The bridge over a freshly opened hub. *)
Definition claire_new (hub : HubState) : Claire := MkClaire hub ∅ ∅ ∅ [] [] [] [] 0.

(** A call of the hub. *)
Definition on_hub {A} (m : M HubState A) : M Claire A := fun s =>
  let '(r, h) := m (cl_hub s) in (r, set_cl_hub h s).

(** [let _ = ..] *)
Definition ignore {S A} (m : M S A) : M S unit := try m ≫= fun _ => mret tt.

(** [if let Ok(Some(session)) = state.assistant_session(channel)] *)
Definition session_now (channel : string) : M Claire (option AssistantSession) :=
  r ← try (on_hub (assistant_session channel)); mret (mjoin (res_ok r)).
Definition save_session (channel : string) (session : AssistantSession) : M Claire unit :=
  on_hub (save_assistant_session channel session).

Definition busy_insert (r : RunId) : M Claire unit := modify (fun s => set_cl_busy ({[ r ]} ∪ cl_busy s) s).
Definition busy_remove (r : RunId) : M Claire unit := modify (fun s => set_cl_busy (cl_busy s ∖ {[ r ]}) s).
Definition busy_remove_run (r : option RunId) : M Claire unit :=
  match r with Some r => busy_remove r | None => mret tt end.
Definition job_remove (r : RunId) : M Claire unit :=
  modify (fun s => set_cl_runner (delete r (cl_jobs s)) (cl_interrupted s) s).

(** The assignments to a session's fields. *)
Definition session_run (x : option RunId) (s : AssistantSession) : AssistantSession :=
  MkAssistantSession (ss_task_id s) x (ss_engine s) (ss_provider_session_id s) (ss_pending_wake_event_id s)
    (ss_pending_follow_up s) (ss_action_follow_up_in_progress s).
Definition session_engine (x : string) (s : AssistantSession) : AssistantSession :=
  MkAssistantSession (ss_task_id s) (ss_run_id s) x (ss_provider_session_id s) (ss_pending_wake_event_id s)
    (ss_pending_follow_up s) (ss_action_follow_up_in_progress s).
Definition session_provider (x : option string) (s : AssistantSession) : AssistantSession :=
  MkAssistantSession (ss_task_id s) (ss_run_id s) (ss_engine s) x (ss_pending_wake_event_id s)
    (ss_pending_follow_up s) (ss_action_follow_up_in_progress s).
Definition session_wake (x : option EventId) (s : AssistantSession) : AssistantSession :=
  MkAssistantSession (ss_task_id s) (ss_run_id s) (ss_engine s) (ss_provider_session_id s) x
    (ss_pending_follow_up s) (ss_action_follow_up_in_progress s).
Definition session_follow_up (x : option string) (in_progress : bool) (s : AssistantSession) : AssistantSession :=
  MkAssistantSession (ss_task_id s) (ss_run_id s) (ss_engine s) (ss_provider_session_id s)
    (ss_pending_wake_event_id s) x in_progress.

(** Everything of a turn but its task. *)
Definition session_cleared (s : AssistantSession) : AssistantSession :=
  session_follow_up None false (session_wake None (session_run None s)).

(** *** The runner *)

(** [ClaireTurn] *)
Record ClaireTurn := MkTurn { ct_session : AssistantSession; ct_system_prompt : option string; ct_prompt : string }.

Definition engine_definition (engine : string) : option EngineDef :=
  if String.eqb engine "claude" then Some builtin_claude
  else if String.eqb engine "codex" then Some builtin_codex else None.

(** The [RunRequest] of [ClaireRunner::start]. *)
Definition claire_request (settings : AssistantSettings) (turn : ClaireTurn) : RunRequest :=
  MkRunRequest (ct_prompt turn) (ss_provider_session_id (ct_session turn)) (assistant_model settings)
    (Some "default"%string) (ct_system_prompt turn) (Some (as_reasoning_effort settings))
    (as_workspace settings) true
    (if String.eqb (as_engine settings) "claude" then claude_bin else codex_bin).

(** [spawn_engine]: the job is a new pid slot. *)
Definition spawn_job (sp : Spawn) (def : EngineDef) (request : RunRequest) : M Claire nat := fun s =>
  (Ok (length (cl_slots s)),
   set_cl_slots (cl_slots s ++ [sp_pid sp]) (cl_signalled s)
     (set_cl_commands (cl_commands s ++ [spawn_command def request]) s)).

(** [RunningJob::terminate_if_running] *)
Definition terminate_job (slot : nat) : M Claire bool := fun s =>
  match mjoin (cl_slots s !! slot) with
  | Some pid => (Ok true, set_cl_slots (cl_slots s) (cl_signalled s ++ [pid]) s)
  | None => (Ok false, s)
  end.

Definition error_payload (error : string) : Value := value_object [("error", value_str error)]%string.

(** [ClaireRunner::start] *)
Definition runner_start (sp : Spawn) (channel : string) (settings : AssistantSettings) (turn : ClaireTurn)
    : M Claire unit :=
  let session := ct_session turn in
  run_id ← lift (ok_or (ss_run_id session) (Error_msg "Claire's hub-local run is missing"));
  job ← gets (fun s => cl_jobs s !! run_id);
  match job with
  | Some _ => fail (Error_msg "Claire already has a turn running")
  | None =>
      match engine_definition (as_engine settings) with
      | None => fail (Error_msg "Claire's engine must be claude or codex")
      | Some def =>
          slot ← spawn_job sp def (claire_request settings turn);
          modify (fun s => set_cl_runner (<[run_id := slot]> (cl_jobs s)) (cl_interrupted s) s) ≫= fun _ =>
          match sp_thread sp with
          | None =>
              modify (fun s => set_cl_supervisors
                (cl_supervisors s ++ [MkSupervisor channel (ss_task_id session) run_id slot Sv_waiting]) s)
          | Some error =>
              terminate_job slot ≫= fun _ =>
              job_remove run_id ≫= fun _ =>
              ignore (on_hub (append_hub_assistant_event RunFailed (ss_task_id session) run_id
                (ss_provider_session_id session)
                (error_payload ("cannot start Claire supervisor: " +:+ error)))) ≫= fun _ =>
              fail (Error_msg ("cannot start Claire supervisor: " +:+ error))
          end
      end
  end.

(** The critical section of [ClaireRunner::stop]. *)
Definition stop_job (run_id : RunId) : M Claire bool :=
  job ← gets (fun s => cl_jobs s !! run_id);
  match job with
  | None => mret false
  | Some slot =>
      live ← terminate_job slot;
      if (live : bool)
      then modify (fun s => set_cl_runner (cl_jobs s) ({[ run_id ]} ∪ cl_interrupted s) s) ≫= fun _ => mret true
      else mret false
  end.

(** [ClaireRunner::stop] *)
Definition runner_stop (session : AssistantSession) : M Claire bool :=
  match ss_run_id session with
  | None => mret false
  | Some run_id =>
      stopped ← stop_job run_id;
      if (stopped : bool) then
        on_hub (append_hub_assistant_event RunInterrupted (ss_task_id session) run_id
          (ss_provider_session_id session) (value_object [])) ≫= fun _ => mret true
      else mret false
  end.

(** [ClaireRunner::is_running] *)
Definition is_running (run_id : RunId) : M Claire bool :=
  gets (fun s => bool_decide (is_Some (cl_jobs s !! run_id))).

(** *** The thread of a turn *)

(** [child.wait()] returns: the pid slot is cleared. *)
Definition claire_child_exited (slot : nat) (s : Claire) : Claire :=
  set_cl_slots (<[slot := None]> (cl_slots s)) (cl_signalled s) s.

(** What the thread does with the result of a turn that was not interrupted. *)
Definition stage_of_result (result : option RunResult) : Stage :=
  match result with
  | Some r =>
      if bool_decide (rr_code r = Some 0) && bool_decide (rr_error r = None) then Sv_session r
      else Sv_failed (rr_session_id r)
             (value_object [("error", value_str (failure_text r)); ("code", nullable value_i64 (rr_code r))]%string)
  | None => Sv_failed None (error_payload "Claire engine supervisor failed")
  end.

(** The next step of the thread, which [result] has joined. *)
Definition supervisor_stage (result : option RunResult) (v : Supervisor) : M Claire Stage :=
  match sv_stage v with
  | Sv_waiting =>
      interrupted ← gets (fun s => bool_decide (sv_run v ∈ cl_interrupted s));
      modify (fun s => set_cl_runner (cl_jobs s) (cl_interrupted s ∖ {[ sv_run v ]}) s) ≫= fun _ =>
      mret (if (interrupted : bool) then Sv_cleanup else stage_of_result result)
  | Sv_session r =>
      session ← session_now (sv_channel v);
      mret (match session with
            | Some x => if bool_decide (ss_run_id x = Some (sv_run v))
                        then Sv_save (session_provider (rr_session_id r) x) r else Sv_message r
            | None => Sv_message r
            end)
  | Sv_save session r => ignore (save_session (sv_channel v) session) ≫= fun _ => mret (Sv_message r)
  | Sv_message r =>
      ignore (on_hub (append_hub_assistant_event MessageAssistantCompleted (sv_task v) (sv_run v)
        (rr_session_id r) (value_object [("text", value_str (rr_text r))]%string))) ≫= fun _ =>
      mret (Sv_completed r)
  | Sv_completed r =>
      ignore (on_hub (append_hub_assistant_event RunCompleted (sv_task v) (sv_run v) (rr_session_id r)
        (value_object []))) ≫= fun _ => mret Sv_cleanup
  | Sv_failed session payload =>
      ignore (on_hub (append_hub_assistant_event RunFailed (sv_task v) (sv_run v) session payload)) ≫= fun _ =>
      mret Sv_cleanup
  | Sv_cleanup => job_remove (sv_run v) ≫= fun _ => mret Sv_done
  | Sv_done => mret Sv_done
  end.

Definition set_stage (x : Stage) (v : Supervisor) : Supervisor :=
  MkSupervisor (sv_channel v) (sv_task v) (sv_run v) (sv_slot v) x.

(** The [i]-th thread takes its next step. *)
Definition supervisor_step (i : nat) (result : option RunResult) : M Claire unit :=
  found ← gets (fun s => cl_supervisors s !! i);
  match found with
  | None => mret tt
  | Some v =>
      stage ← supervisor_stage result v;
      modify (fun s => set_cl_supervisors (<[i := set_stage stage v]> (cl_supervisors s)) s)
  end.

(** *** OptMem *)

(** [String::from_utf8_lossy(&bytes[..bytes.len().min(MAX)]).trim()] *)
Definition memory_text (bytes : string) : string :=
  trim (from_utf8_lossy (String.substring 0 (N.to_nat (N.min (str_len bytes) MAX_MEMORY_CONTEXT_BYTES)) bytes)).

(** [run_optmem] *)
Definition run_optmem (settings : AssistantSettings) (args : list string) : M Claire string :=
  executable ← lift (ok_or (as_memory_command settings) (Error_msg "OptMem command is not configured"));
  if negb (path_is_absolute executable) then fail (Error_msg "OptMem command must be an absolute path")
  else
    n ← gets cl_optmem;
    modify (set_cl_optmem (S n)) ≫= fun _ =>
    match optmem n executable args (as_memory_dir settings) with
    | Output_error error => fail (Error_msg ("cannot run OptMem: " +:+ error))
    | Output_exit success stdout stderr status =>
        let text := memory_text (if success then stdout else stderr) in
        if success then mret text
        else fail (Error_msg (if str_is_empty text then "OptMem exited with " +:+ status else text))
    end.

(** [load_memory_context] *)
Definition load_memory_context (settings : AssistantSettings) : M Claire string :=
  if negb (as_memory_enabled settings) then mret "OptMem is disabled."%string
  else run_optmem settings ["wake"%string].

(** [save_memory_note] *)
Definition save_memory_note (settings : AssistantSettings) (note : string) : M Claire unit :=
  if negb (as_memory_enabled settings) then fail (Error_msg "OptMem is disabled")
  else
    lift (memory_note_check note) ≫= fun _ =>
    run_optmem settings ["note"%string; note] ≫= fun _ => mret tt.

(** *** Starting a turn *)

Definition unwrap_or_else {A} (r : Result A) (f : Error -> A) : A :=
  match r with Ok a => a | Err e => f e end.

(** [conversation_history], [recent_task_context], [worker_wake_context] *)
Definition conversation_history (task_id : TaskId) : M Claire string :=
  events ← on_hub (task_events task_id); mret (history_text events).
Definition recent_task_context : M Claire string :=
  events ← on_hub (read_recent_events 200); mret (context_text events).
Definition worker_wake_context (wake : AssistantWake) : M Claire string :=
  events ← on_hub (task_events (aw_task_id wake)); mret (worker_timeline events).

(** [build_claire_system_prompt] *)
Definition build_claire_system_prompt (settings : AssistantSettings) (task_id : TaskId) : M Claire string :=
  memory ← try (load_memory_context settings);
  let memory := unwrap_or_else memory (fun e => "OptMem is unavailable for this turn: " +:+ err_msg e) in
  history ← conversation_history task_id;
  mret (claire_system_prompt settings memory history).

(** [ensure_accepted] *)
Definition ensure_accepted (receipt : HubToClient) : M Claire Z :=
  match receipt with
  | HC_CommandReceipt _ true (Some sequence) _ _ => mret sequence
  | HC_CommandReceipt _ _ _ _ error => fail (Error_msg ("hub rejected command: " +:+ env_debug_error error))
  | _ => fail (Error_msg "hub returned an invalid command receipt")
  end.

(** [event_for_receipt] *)
Definition event_for_receipt (receipt : HubToClient) : M Claire Event :=
  sequence ← ensure_accepted receipt;
  events ← on_hub (read_events_after (sequence - 1));
  lift (ok_or (List.find (fun e => e_sequence e =? sequence) events)
          (Error_msg "accepted command event is missing")).

(** The session of [submit_claire_prompt]: the channel's, or one on a new task. *)
Definition session_or_new (channel : string) (settings : AssistantSettings) : M Claire AssistantSession :=
  found ← on_hub (assistant_session channel);
  match found with
  | Some session => mret session
  | None =>
      command_id ← on_hub fresh_id;
      receipt ← on_hub (submit_command (CC_CreateTask command_id (as_name settings +:+ " · Telegram")));
      event ← event_for_receipt receipt;
      mret (MkAssistantSession (e_task_id event) None (as_engine settings) None None None false)
  end.

(** The branch of [submit_claire_prompt] on [needs_run]. *)
Definition ensure_run (channel : string) (settings : AssistantSettings) (prompt_contract : string)
    (session : AssistantSession) : M Claire AssistantSession :=
  let engine_changed := negb (String.eqb (ss_engine session) (as_engine settings)) in
  if bool_decide (ss_run_id session = None) || engine_changed then
    run_id ← on_hub (start_hub_assistant_run (ss_task_id session) (as_engine settings)
      (assistant_model settings) (Some (as_reasoning_effort settings)) prompt_contract (as_workspace settings));
    let session := session_engine (as_engine settings) (session_run (Some run_id) session) in
    let session := if engine_changed then session_provider None session else session in
    save_session channel session ≫= fun _ => mret session
  else mret session.

(** [submit_claire_prompt] *)
Definition submit_claire_prompt (channel text : string) : M Claire ClaireTurn :=
  settings ← on_hub assistant_settings;
  session ← session_or_new channel settings;
  prompt_contract ← build_claire_system_prompt settings (ss_task_id session);
  session ← ensure_run channel settings prompt_contract session;
  run_id ← lift (ok_or (ss_run_id session) (Error_msg "Claire's run was not created"));
  context ← recent_task_context;
  let prompt := turn_prompt context text in
  on_hub (append_hub_assistant_message (ss_task_id session) run_id prompt) ≫= fun _ =>
  mret (MkTurn session (Some prompt_contract) prompt).

Definition terminal_kind (k : EventKind) : bool :=
  match k with RunCompleted | RunFailed | RunInterrupted => true | _ => false end.

(** Whether the task's events hold a terminal one of the run. *)
Definition terminal_is_durable (task_id : TaskId) (run_id : RunId) : M Claire bool :=
  events ← try (on_hub (task_events task_id));
  mret (match events with
        | Ok events => existsb (fun e => bool_decide (e_run_id e = Some run_id) && terminal_kind (e_kind e)) events
        | Err _ => false
        end).

(** [append_claire_start_failure] *)
Definition append_claire_start_failure (session : AssistantSession) (error : string) : M Claire unit :=
  match ss_run_id session with
  | None => mret tt
  | Some run_id =>
      already_terminal ← terminal_is_durable (ss_task_id session) run_id;
      if (already_terminal : bool) then mret tt
      else ignore (on_hub (append_hub_assistant_event RunFailed (ss_task_id session) run_id
             (ss_provider_session_id session) (error_payload error)))
  end.

(** [start_claire_turn] *)
Definition start_claire_turn (sp : Spawn) (channel prompt : string) : M Claire (option string) :=
  turn ← submit_claire_prompt channel prompt;
  let session := ct_session turn in
  match ss_run_id session with Some r => busy_insert r | None => mret tt end ≫= fun _ =>
  settings ← try (on_hub assistant_settings);
  match settings with
  | Err error =>
      match ss_run_id session with
      | Some r =>
          busy_remove r ≫= fun _ =>
          ignore (on_hub (append_hub_assistant_event RunFailed (ss_task_id session) r
            (ss_provider_session_id session) (error_payload (err_msg error))))
      | None => mret tt
      end ≫= fun _ => fail error
  | Ok settings =>
      started ← try (runner_start sp channel settings turn);
      match started with
      | Err error =>
          busy_remove_run (ss_run_id session) ≫= fun _ =>
          append_claire_start_failure session (err_msg error) ≫= fun _ => fail error
      | Ok _ => mret None
      end
  end.

(** [defer_session_wake] *)
Definition defer_session_wake (channel : string) (session : AssistantSession) (reason : string) : M Claire unit :=
  match ss_pending_wake_event_id session with
  | None => mret tt
  | Some wake =>
      ignore (on_hub (hub_defer_assistant_wake wake reason)) ≫= fun _ =>
      current ← session_now channel;
      match current with
      | Some current =>
          if bool_decide (ss_pending_wake_event_id current = Some wake)
          then ignore (save_session channel (session_wake None current)) else mret tt
      | None => mret tt
      end
  end.

(** [clear_current_run] *)
Definition clear_current_run (channel engine : string) : M Claire unit :=
  found ← on_hub (assistant_session channel);
  match found with
  | None => mret tt
  | Some session =>
      defer_session_wake channel session "assistant configuration changed" ≫= fun _ =>
      save_session channel (session_cleared (session_provider None (session_engine engine session)))
  end.

(** [recover_hub_local_assistant] *)
Definition recover_hub_local_assistant (channel : string) : M Claire unit :=
  found ← on_hub (assistant_session channel);
  match found with
  | None => mret tt
  | Some session =>
      match ss_run_id session with
      | Some run_id =>
          on_hub (append_hub_assistant_event RunInterrupted (ss_task_id session) run_id
            (ss_provider_session_id session) (value_object [("reason", value_str "hub restarted")]%string))
      | None => mret tt
      end ≫= fun _ =>
      match ss_pending_wake_event_id session with
      | Some wake => on_hub (hub_defer_assistant_wake wake "hub restarted during assessment") ≫= fun _ => mret tt
      | None => mret tt
      end ≫= fun _ =>
      save_session channel (session_wake None (session_run None session))
  end.

(** *** What the user says *)

Definition help_text : string :=
  join_lines
    ["I'm Claire. Talk to me normally, or use:";
     "/claude · /codex — switch my engine";
     "/model [name] — show or change this engine's model";
     "/where — show my current configuration";
     "/tasks — recent Stackhour task activity";
     "/remember <fact> — save a durable OptMem note";
     "/new — start a fresh conversation";
     "/stop — interrupt my current turn"]%string.
Definition busy_text : string :=
  "I'm still working on the previous message. Let me finish that turn first.".

(** [settings.model().map(|m| format!(..)).unwrap_or_default()] *)
Definition model_suffix (prefix : string) (settings : AssistantSettings) : string :=
  match assistant_model settings with Some model => prefix +:+ model | None => EmptyString end.

Definition where_text (settings : AssistantSettings) : string :=
  as_name settings +:+ " · " +:+ as_engine settings +:+ model_suffix " / " settings
  +:+ " · effort " +:+ as_reasoning_effort settings +:+ " · hub-local · memory "
  +:+ (if as_memory_enabled settings then "OptMem" else "off").

(** [settings.engine = engine] *)
Definition settings_engine (x : string) (s : AssistantSettings) : AssistantSettings :=
  MkAssistantSettings (as_name s) (as_personality s) x (as_claude_model s) (as_codex_model s)
    (as_reasoning_effort s) (as_workspace s) (as_memory_enabled s) (as_memory_command s) (as_memory_dir s).
(** The engine's own model is the one that changes. *)
Definition settings_model (x : string) (s : AssistantSettings) : AssistantSettings :=
  let is_claude := String.eqb (as_engine s) "claude" in
  MkAssistantSettings (as_name s) (as_personality s) (as_engine s)
    (if is_claude then Some x else as_claude_model s) (if is_claude then as_codex_model s else Some x)
    (as_reasoning_effort s) (as_workspace s) (as_memory_enabled s) (as_memory_command s) (as_memory_dir s).

(** [/claude], [/codex] *)
Definition input_engine (channel engine : string) : M Claire (option string) :=
  settings ← on_hub assistant_settings;
  let settings := settings_engine engine settings in
  on_hub (save_assistant_settings settings) ≫= fun _ =>
  clear_current_run channel engine ≫= fun _ =>
  mret (Some ("Switched to " +:+ engine +:+ model_suffix " using " settings +:+ ".")).

(** [/new] *)
Definition input_new (channel : string) : M Claire (option string) :=
  found ← on_hub (assistant_session channel);
  match found with
  | Some session => defer_session_wake channel session "conversation reset"
  | None => mret tt
  end ≫= fun _ =>
  on_hub (clear_assistant_session channel) ≫= fun _ =>
  mret (Some "Fresh conversation. What are we doing?"%string).

(** [/stop] *)
Definition input_stop (channel : string) : M Claire (option string) :=
  found ← on_hub (assistant_session channel);
  match found with
  | None => mret (Some "Nothing is running."%string)
  | Some session =>
      stopped ← runner_stop session;
      if (stopped : bool) then
        defer_session_wake channel session "assessment stopped by user" ≫= fun _ =>
        busy_remove_run (ss_run_id session) ≫= fun _ =>
        save_session channel (session_cleared (session_provider None session)) ≫= fun _ =>
        mret (Some "I asked the current turn to stop."%string)
      else mret (Some "Nothing is running."%string)
  end.

(** [/model] without and with a name *)
Definition input_show_model : M Claire (option string) :=
  settings ← on_hub assistant_settings;
  mret (Some (match assistant_model settings with
              | Some model => as_engine settings +:+ " uses " +:+ model +:+ "."
              | None => as_engine settings +:+ " uses its CLI default model."
              end)).
Definition input_model (channel model : string) : M Claire (option string) :=
  lift (validate_selector "model" model) ≫= fun _ =>
  settings ← on_hub assistant_settings;
  on_hub (save_assistant_settings (settings_model model settings)) ≫= fun _ =>
  clear_current_run channel (as_engine settings) ≫= fun _ =>
  mret (Some (as_engine settings +:+ " will use " +:+ model +:+ " on the next turn.")).

(** [/remember] *)
Definition input_remember (note : string) : M Claire (option string) :=
  settings ← on_hub assistant_settings;
  save_memory_note settings note ≫= fun _ => mret (Some "Remembered."%string).

Definition tasks_prompt : string :=
  "Review current Stackhour task activity and decide what is useful to tell Nikita.".

(** The [match trimmed] of [handle_claire_input]. *)
Definition input_command (sp : Spawn) (channel trimmed : string) : M Claire (option string) :=
  if String.eqb trimmed "/help" || String.eqb trimmed "/start" then mret (Some help_text)
  else if String.eqb trimmed "/where" then
    settings ← on_hub assistant_settings; mret (Some (where_text settings))
  else if String.eqb trimmed "/claude" || String.eqb trimmed "/codex" then
    input_engine channel (trim_start_matches "/" trimmed)
  else if String.eqb trimmed "/new" then input_new channel
  else if String.eqb trimmed "/stop" then input_stop channel
  else if String.eqb trimmed "/tasks" then start_claire_turn sp channel tasks_prompt
  else if String.eqb trimmed "/model" then input_show_model
  else if starts_with "/model " trimmed then
    input_model channel (trim (trim_start_matches "/model " trimmed))
  else if starts_with "/remember " trimmed then
    input_remember (trim (trim_start_matches "/remember " trimmed))
  else if starts_with "/" trimmed then
    mret (Some "I don't know that command. Use /help, or just talk to me."%string)
  else start_claire_turn sp channel trimmed.

(** Whether the session's run is in [busy_claire]. *)
Definition current_turn_is_busy (channel : string) : M Claire bool :=
  found ← on_hub (assistant_session channel);
  busy ← gets cl_busy;
  mret (match found ≫= ss_run_id with Some r => bool_decide (r ∈ busy) | None => false end).

(** [handle_claire_input] *)
Definition handle_claire_input (sp : Spawn) (channel text : string) : M Claire (option string) :=
  let trimmed := trim text in
  busy ← current_turn_is_busy channel;
  if (busy : bool) && negb (String.eqb trimmed "/stop" || String.eqb trimmed "/where")
  then mret (Some busy_text)
  else input_command sp channel trimmed.

(** *** Actions *)

(** [check_opt]: [if let Some(value) = value.as_deref() { validate(value)? }] *)
Definition check_selector (label : string) (value : option string) : Result unit :=
  match value with Some v => validate_selector label v | None => Ok tt end.

(** The checks of [ClaireAction::CreateTask], in order; the engine and the effort
    they settle on. *)
Definition create_task_checks (settings : AssistantSettings)
    (node_id engine model reasoning_effort workspace : option string) : Result (string * string) :=
  let engine := default (as_engine settings) engine in
  validate_selector "engine" engine ≫= fun _ =>
  if negb (String.eqb engine "claude" || String.eqb engine "codex")
  then Err (Error_msg "worker engine must be claude or codex")
  else
    check_selector "model" model ≫= fun _ =>
    let effort := default (as_reasoning_effort settings) reasoning_effort in
    validate_effort effort ≫= fun _ =>
    check_selector "node id" node_id ≫= fun _ =>
    match workspace with
    | Some path => if path_is_absolute path then Ok tt
                   else Err (Error_msg "worker workspace must be an absolute path")
    | None => Ok tt
    end ≫= fun _ => Ok (engine, effort).

(** [submit_task] *)
Definition submit_task (title prompt channel : string) (node_id : option NodeId) (engine : string)
    (model reasoning_effort workspace_path : option string) : M Claire (TaskId * RunId) :=
  on_hub (create_worker_task (take_chars 100 title) prompt (Some channel) node_id engine model reasoning_effort
            workspace_path).

(** [ClaireAction::CreateTask] *)
Definition action_create_task (channel : string) (settings : AssistantSettings) (title prompt : string)
    (node_id engine model reasoning_effort workspace : option string) : M Claire string :=
  checked ← lift (create_task_checks settings node_id engine model reasoning_effort workspace);
  let '(engine, effort) := (checked : string * string) in
  ids ← submit_task title prompt channel (MkNodeId <$> node_id) engine model (Some effort)
          (match workspace with Some w => Some w | None => as_workspace settings end);
  let '(task_id, run_id) := (ids : TaskId * RunId) in
  mret ("Started task " +:+ short_id task_id +:+ " (run " +:+ short_id run_id +:+ ").").

(** [TaskId::from_str(..).map_err(..)?] *)
Definition parse_id {k} (label s : string) : Result (Id k) :=
  match id_from_str s with Ok i => Ok i | Err e => Err (Error_msg ("bad " +:+ label +:+ " id: " +:+ err_msg e)) end.

(** [ClaireAction::SendMessage] *)
Definition action_send_message (channel task_id run_id text : string) : M Claire string :=
  task ← lift (parse_id "task" task_id : Result TaskId);
  run ← lift (parse_id "run" run_id : Result RunId);
  on_hub (track_assistant_worker channel task run) ≫= fun _ =>
  command_id ← on_hub fresh_id;
  client_message_id ← on_hub fresh_id;
  receipt ← on_hub (submit_command (CC_SendUserMessage command_id task (Some run) text
                                      (id_to_string (client_message_id : CommandId))));
  ensure_accepted receipt ≫= fun _ =>
  mret ("Sent a follow-up to task " +:+ short_id task +:+ ".").

(** [ClaireAction::StopRun] *)
Definition action_stop_run (run_id : string) : M Claire string :=
  run ← lift (parse_id "run" run_id : Result RunId);
  command_id ← on_hub fresh_id;
  receipt ← on_hub (submit_command (CC_InterruptRun command_id run));
  ensure_accepted receipt ≫= fun _ =>
  mret ("Stopped run " +:+ short_id run +:+ ".").

(** [execute_claire_action] *)
Definition execute_claire_action (channel : string) (settings : AssistantSettings) (action : ClaireAction)
    : M Claire string :=
  match action with
  | Act_CreateTask title prompt node_id engine model effort workspace =>
      action_create_task channel settings title prompt node_id engine model effort workspace
  | Act_SendMessage task_id run_id text => action_send_message channel task_id run_id text
  | Act_StopRun run_id => action_stop_run run_id
  | Act_Unknown => fail (Error_msg "unsupported Claire action")
  end.

(** *** What the engine answers *)

(** [ClaireProjection] *)
Record ClaireProjection := MkProjection {
  cp_reply : option string; cp_wake_event_id : option EventId; cp_awaiting_follow_up : bool;
}.
Definition quiet : ClaireProjection := MkProjection None None false.

(** The two refusals of [process_claire_event]: the turn ends without its answer. *)
Definition refuse_answer (channel reason reply : string) : M Claire ClaireProjection :=
  session ← session_now channel;
  match session with
  | None => mret false
  | Some session =>
      let session := session_follow_up None false session in
      ignore (save_session channel session) ≫= fun _ =>
      defer_session_wake channel session reason ≫= fun _ =>
      mret (bool_decide (is_Some (ss_pending_wake_event_id session)))
  end ≫= fun was_worker_wake : bool =>
  mret (MkProjection (if was_worker_wake then None else Some reply) None false).

(** The loops over the notes and the actions: the results to report back. *)
Fixpoint remember_notes (settings : AssistantSettings) (notes : list string) : M Claire (list string) :=
  match notes with
  | [] => mret []
  | note :: notes' =>
      saved ← try (save_memory_note settings note);
      rest ← remember_notes settings notes';
      mret (match saved with Ok _ => rest | Err e => ("Memory action failed: " +:+ err_msg e) :: rest end)
  end.
Fixpoint execute_actions (channel : string) (settings : AssistantSettings) (actions : list ClaireAction)
    : M Claire (list string) :=
  match actions with
  | [] => mret []
  | action :: actions' =>
      result ← try (execute_claire_action channel settings action);
      rest ← execute_actions channel settings actions';
      mret (unwrap_or_else result (fun e => "Action failed: " +:+ err_msg e) :: rest)
  end.

Definition has_internal_work (envelope : ClaireEnvelope) : bool :=
  match ce_remember envelope, ce_actions envelope with [], [] => false | _, _ => true end.

(** [match state.assistant_settings() { .. }] *)
Definition internal_work (channel : string) (envelope : ClaireEnvelope) : M Claire (list string) :=
  settings ← try (on_hub assistant_settings);
  match settings with
  | Ok settings =>
      notes ← remember_notes settings (ce_remember envelope);
      results ← execute_actions channel settings (ce_actions envelope);
      mret (notes ++ results)
  | Err e =>
      mret (if has_internal_work envelope
            then ["Internal settings unavailable; no requested action ran: " +:+ err_msg e] else [])
  end.

(** [envelope.notify.then_some(envelope.reply).filter(..)] *)
Definition envelope_reply (envelope : ClaireEnvelope) : option string :=
  if ce_notify envelope && negb (str_is_empty (trim (ce_reply envelope))) then Some (ce_reply envelope) else None.

(** The answer of a turn that may act. *)
Definition perform_envelope (channel : string) (envelope : ClaireEnvelope) : M Claire ClaireProjection :=
  results ← internal_work channel envelope;
  match results with
  | [] => mret (envelope_reply envelope)
  | _ =>
      session ← session_now channel;
      match session with
      | Some session =>
          ignore (save_session channel
            (session_follow_up (Some (follow_up_prompt results)) (ss_action_follow_up_in_progress session) session))
      | None => mret tt
      end ≫= fun _ => mret None
  end ≫= fun reply =>
  session ← session_now channel;
  mret (MkProjection reply (session ≫= ss_pending_wake_event_id)
          (match results with [] => false | _ => true end)).

(** [EventKind::MessageAssistantCompleted] *)
Definition process_answer (channel : string) (event : Event) : M Claire ClaireProjection :=
  let envelope := parse_claire_envelope (default EmptyString (get_str "text" (e_payload event))) in
  if ce_malformed envelope then
    refuse_answer channel "Claire returned a malformed envelope"
      "Claire returned an invalid response. Please try again."
  else
    session ← session_now channel;
    let follow_up_in_progress :=
      match session with Some s => ss_action_follow_up_in_progress s | None => false end in
    if follow_up_in_progress && has_internal_work envelope then
      refuse_answer channel "Claire requested another action during final disclosure"
        "Claire couldn't finalize that turn. Please try again."
    else
      (if follow_up_in_progress then
         session ← session_now channel;
         match session with
         | Some s => ignore (save_session channel (session_follow_up (ss_pending_follow_up s) false s))
         | None => mret tt
         end
       else mret tt) ≫= fun _ => perform_envelope channel envelope.

(** [EventKind::RunFailed], [RunInterrupted]: what a turn of this run leaves is cleared. *)
Definition close_turn (channel : string) (event : Event) (reason : string) : M Claire (bool * bool) :=
  busy_remove_run (e_run_id event) ≫= fun _ =>
  session ← session_now channel;
  match session with
  | Some session =>
      if bool_decide (ss_run_id session = e_run_id event) then
        match ss_pending_wake_event_id session with
        | Some wake => ignore (on_hub (hub_defer_assistant_wake wake reason))
        | None => mret tt
        end ≫= fun _ =>
        ignore (save_session channel (session_cleared session)) ≫= fun _ =>
        mret (true, bool_decide (is_Some (ss_pending_wake_event_id session)))
      else mret (false, false)
  | None => mret (false, false)
  end.

(** [process_claire_event] *)
Definition process_claire_event (channel : string) (event : Event) : M Claire ClaireProjection :=
  match e_kind event with
  | MessageAssistantCompleted => process_answer channel event
  | RunFailed =>
      closed ← close_turn channel event (default "Unknown engine error."%string (get_str "error" (e_payload event)));
      let '(matched_session, was_worker_wake) := (closed : bool * bool) in
      mret (MkProjection
              (if matched_session && negb was_worker_wake
               then Some "Claire couldn't finish that turn. Please try again."%string else None) None false)
  | RunInterrupted => close_turn channel event "assessment interrupted" ≫= fun _ => mret quiet
  | RunCompleted =>
      busy_remove_run (e_run_id event) ≫= fun _ =>
      session ← session_now channel;
      match session with
      | Some session =>
          if bool_decide (ss_run_id session = e_run_id event)
          then ignore (save_session channel (session_run None session)) else mret tt
      | None => mret tt
      end ≫= fun _ => mret quiet
  | _ => mret quiet
  end.

(** The session's mark of the wake is removed. *)
Definition forget_wake (channel : string) (wake : EventId) : M Claire unit :=
  session ← session_now channel;
  match session with
  | Some session =>
      if bool_decide (ss_pending_wake_event_id session = Some wake)
      then ignore (save_session channel (session_wake None session)) else mret tt
  | None => mret tt
  end.

(** What becomes of the wake once the reply was sent, or not. *)
Definition settle_wake (channel : string) (delivered : bool) (projection : ClaireProjection) : M Claire unit :=
  if delivered && negb (cp_awaiting_follow_up projection) then
    match cp_wake_event_id projection with
    | Some wake => ignore (on_hub (hub_complete_assistant_wake wake)) ≫= fun _ => forget_wake channel wake
    | None => mret tt
    end
  else if negb delivered then
    match cp_wake_event_id projection with
    | Some wake =>
        ignore (on_hub (hub_defer_assistant_wake wake "Telegram delivery failed")) ≫= fun _ =>
        forget_wake channel wake
    | None => mret tt
    end
  else mret tt.

(** [handle_claire_event]; [send] is the delivery of a Telegram message, and what
    was handed to it is returned. *)
Definition handle_claire_event (channel : string) (send : string -> bool) (event : Event)
    : M Claire (option string) :=
  projection ← process_claire_event channel event;
  let delivered := match cp_reply projection with Some reply => send reply | None => true end in
  settle_wake channel delivered projection ≫= fun _ => mret (cp_reply projection).

(** *** The polling loop *)

Definition vanished_text : string := "assistant process exited without a durable terminal event".

(** [reconcile_claire_runner] *)
Definition reconcile_claire_runner (channel : string) : M Claire unit :=
  found ← session_now channel;
  match found with
  | None => mret tt
  | Some session =>
      match ss_run_id session with
      | None => mret tt
      | Some run_id =>
          busy ← gets (fun s => bool_decide (run_id ∈ cl_busy s));
          running ← is_running run_id;
          if negb busy || (running : bool) then mret tt
          else
            durable ← terminal_is_durable (ss_task_id session) run_id;
            if (durable : bool) then mret tt
            else
              match ss_pending_wake_event_id session with
              | Some _ => defer_session_wake channel session vanished_text
              | None => mret tt
              end ≫= fun _ =>
              ignore (on_hub (append_hub_assistant_event RunFailed (ss_task_id session) run_id
                (ss_provider_session_id session) (error_payload vanished_text)))
      end
  end.

(** The failure branch of [start_pending_claire_follow_up]; the text it sends, if any. *)
Definition follow_up_failed (channel : string) (session : AssistantSession) (error : Error)
    : M Claire (option string) :=
  current ← session_now channel;
  match current with
  | None => mret false
  | Some current =>
      match ss_run_id current with
      | None => mret false
      | Some run_id =>
          append_claire_start_failure current (err_msg error) ≫= fun _ =>
          terminal_is_durable (ss_task_id current) run_id
      end ≫= fun terminal_is_durable : bool =>
      ignore (save_session channel (session_follow_up None false current)) ≫= fun _ =>
      mret terminal_is_durable
  end ≫= fun terminal_is_durable : bool =>
  if bool_decide (is_Some (ss_pending_wake_event_id session))
  then defer_session_wake channel session "action-result follow-up failed to start" ≫= fun _ => mret None
  else mret (if terminal_is_durable then None
             else Some "Claire couldn't finalize that turn. Please try again."%string).

(** [start_pending_claire_follow_up] *)
Definition start_pending_claire_follow_up (sp : Spawn) (channel : string) : M Claire (option string) :=
  busy ← gets cl_busy;
  if negb (bool_decide (busy = ∅)) then mret None
  else
    found ← session_now channel;
    match found with
    | None => mret None
    | Some session =>
        match ss_pending_follow_up session with
        | None => mret None
        | Some prompt =>
            let session := session_follow_up None true session in
            saved ← try (save_session channel session);
            match saved with
            | Err _ => mret None
            | Ok _ =>
                started ← try (start_claire_turn sp channel prompt);
                match started with
                | Ok _ => mret None
                | Err error => follow_up_failed channel session error
                end
            end
        end
    end.

(** [wake_claire_for_pending_worker], once the wake is chosen. *)
Definition assess_wake (sp : Spawn) (channel : string) (wake : AssistantWake) : M Claire unit :=
  context ← try (worker_wake_context wake);
  let context :=
    unwrap_or_else context (fun e => "Worker history could not be loaded: " +:+ err_msg e) in
  turn ← try (submit_claire_prompt channel
    (wake_prompt (aw_event_id wake) (aw_task_id wake) (aw_run_id wake) (aw_kind wake) context));
  match turn with
  | Err e => ignore (on_hub (hub_defer_assistant_wake (aw_event_id wake) (err_msg e)))
  | Ok turn =>
      let session := session_wake (Some (aw_event_id wake)) (ct_session turn) in
      let turn := MkTurn session (ct_system_prompt turn) (ct_prompt turn) in
      saved ← try (save_session channel session);
      match saved with
      | Err e => ignore (on_hub (hub_defer_assistant_wake (aw_event_id wake) (err_msg e)))
      | Ok _ =>
          match ss_run_id session with
          | None => defer_session_wake channel session "Claire run was not created"
          | Some run_id =>
              busy_insert run_id ≫= fun _ =>
              settings ← try (on_hub assistant_settings);
              match settings with
              | Err e => busy_remove run_id ≫= fun _ => defer_session_wake channel session (err_msg e)
              | Ok settings =>
                  started ← try (runner_start sp channel settings turn);
                  match started with
                  | Ok _ => mret tt
                  | Err e =>
                      busy_remove run_id ≫= fun _ =>
                      append_claire_start_failure session (err_msg e) ≫= fun _ =>
                      defer_session_wake channel session (err_msg e)
                  end
              end
          end
      end
  end.

(** [wake_claire_for_pending_worker] *)
Definition wake_claire_for_pending_worker (sp : Spawn) (channel : string) : M Claire unit :=
  busy ← gets cl_busy;
  if negb (bool_decide (busy = ∅)) then mret tt
  else
    wakes ← try (on_hub (hub_pending_assistant_wakes channel));
    match wakes with
    | Ok (wake :: _) => assess_wake sp channel wake
    | _ => mret tt
    end.

(** [is_claire]: the event belongs to the conversation. *)
Definition is_claire (event : Event) (session : option AssistantSession) : bool :=
  match session with
  | Some s =>
      bool_decide (ss_task_id s = e_task_id event)
      && (bool_decide (e_run_id event = None) || bool_decide (e_run_id event = ss_run_id s))
  | None => false
  end.

(** One event of the output thread. *)
Definition observe_event (channel : string) (send : string -> bool) (event : Event) : M Claire (option string) :=
  session ← session_now channel;
  if is_claire event session then handle_claire_event channel send event else mret None.

(** The text a Telegram update gives the input thread. *)
Definition update_text (chat_id : Z) (update : Value) : option string :=
  message ← match value_get update "message" with
            | Some m => Some m
            | None => value_get update "edited_message"
            end;
  if negb (bool_decide ((value_get message "chat" ≫= fun c => value_get c "id" ≫= value_as_i64) = Some chat_id))
  then None
  else if bool_decide ((value_get message "from" ≫= fun f => value_get f "is_bot" ≫= value_as_bool) = Some true)
  then None
  else get_str "text" message.

(** What the input thread sends back for a text. *)
Definition input_reply (r : Result (option string)) : option string :=
  match r with
  | Ok reply => reply
  | Err _ => Some "Claire could not accept that message. Please try again."%string
  end.
End Claire.
