(* ===== verification/ClaireFacts.v ===== *)
(** Facts about the assistant supervisor of Claire.v: which calls leave the
    channel's session alone, how the session reads after a write, and what each
    function of the bridge does to the busy runs and the session. *)
From S2P Require Import Prelude.
From S2P Require Import RustStr.
From S2P Require Import Platform.
From S2P Require Import Ids.
From S2P Require Import Entities.
From S2P Require Import Event.
From S2P Require Import Protocol.
From S2P Require Import Wire.
From S2P Require Import Schema.
From S2P Require Import Store.
From S2P Require Import StoreInv.
From S2P Require Import StoreStep.
From S2P Require Import StoreFlows.
From S2P Require Import Settings.
From S2P Require Import HubState.
From S2P Require Import HubCommands.
From S2P Require Import HubInv.
From S2P Require Import Links.
From S2P Require Import HubSystem.
From S2P Require Import HubFacts.
From S2P Require Import EngineDef.
From S2P Require Import Process.
From S2P Require Import NodeEngine.
From S2P Require Import ClaireText.
From S2P Require Import Claire.

Local Open Scope Z_scope.

(** Walk through a method and the methods it calls. *)
Ltac head t := match t with ?f _ => head f | _ => t end.
Ltac walk_in :=
  repeat first [walk1 | match goal with |- preserves _ ?m => let h := head m in progress unfold h end].

(** ** Running a computation to a postcondition on its result and final state *)
Section Wp.
Context {S : Type}.

Definition wp {A} (m : M S A) (Q : Result A -> S -> Prop) (s : S) : Prop :=
  let '(r, s') := m s in Q r s'.

Lemma wp_bind {A B} (m : M S A) (f : A -> M S B) Q s :
  wp m (fun r s' => match r with Ok a => wp (f a) Q s' | Err e => Q (Err e) s' end) s -> wp (m ≫= f) Q s.
Proof. unfold wp, mbind, M_bind. by destruct (m s) as [[a|e] s']. Qed.

Lemma wp_try {A} (m : M S A) (Q : Result (Result A) -> S -> Prop) s :
  wp m (fun r s' => Q (Ok r) s') s -> wp (try m) Q s.
Proof. unfold wp, try. by destruct (m s). Qed.

Lemma wp_ignore {A} (m : M S A) (Q : Result unit -> S -> Prop) s :
  wp m (fun _ s' => Q (Ok tt) s') s -> wp (ignore m) Q s.
Proof. unfold ignore. intros H. by apply wp_bind, wp_try. Qed.

Lemma wp_mono {A} (m : M S A) (Q Q' : Result A -> S -> Prop) s :
  wp m Q s -> (forall r s', Q r s' -> Q' r s') -> wp m Q' s.
Proof. unfold wp. destruct (m s). auto. Qed.

Lemma wp_frame {A} (R : relation S) (m : M S A) (Q : Result A -> S -> Prop) s :
  preserves R m -> (forall r s', R s s' -> Q r s') -> wp m Q s.
Proof. unfold wp. intros Hm HQ. specialize (Hm s). destruct (m s). auto. Qed.

Lemma wp_call {A} (m : M S A) (Q : Result A -> S -> Prop) s : (forall r s', m s = (r, s') -> Q r s') -> wp m Q s.
Proof. unfold wp. destruct (m s). auto. Qed.

Lemma wp_run {A} (m : M S A) (Q : Result A -> S -> Prop) s r s' : m s = (r, s') -> wp m Q s -> Q r s'.
Proof. unfold wp. by intros ->. Qed.
End Wp.

(** ** Store methods along a relation *)
Section StoreWalk.
Context {P : Platform} (R : relation Db) `{!PreOrder R}.

Lemma db_transaction {A} (m : M Db A) : preserves R m -> preserves R (transaction m).
Proof. intros Hm d. specialize (Hm d). unfold transaction. destruct (m d) as [[a|e] d']; [done|]. cbn. reflexivity. Qed.
Lemma db_read {A} (m : M Db A) : (forall d, snd (m d) = d) -> preserves R m.
Proof. intros Hm d. rewrite Hm. reflexivity. Qed.
Lemma db_insert {T} (t : Table Db T) clash col r :
  (forall d, R d (tbl_set t (tbl_get t d ++ [r]) d)) -> preserves R (sql_insert t clash col r).
Proof. intros Ht d. unfold sql_insert. case_match; [cbn; reflexivity|apply Ht]. Qed.
Lemma db_update {T} (t : Table Db T) (p : T -> bool) (f : T -> T) :
  (forall d, R d (tbl_set t (map (fun r => if p r then f r else r) (tbl_get t d)) d)) -> preserves R (sql_update t p f).
Proof. intros Ht d. apply Ht. Qed.
Lemma db_upsert {T} (t : Table Db T) clash f r :
  (forall l d, R d (tbl_set t l d)) -> preserves R (sql_upsert t clash f r).
Proof. intros Ht d. unfold sql_upsert. case_match; apply Ht. Qed.
Lemma db_insert_event q i c draft now :
  (forall l d, R d (tbl_set events_t l d)) -> preserves R (insert_event q i c draft now).
Proof. intros Ht d. unfold insert_event. repeat case_match; [cbn; reflexivity..|apply Ht]. Qed.
End StoreWalk.

(** A table the relation does not look at. *)
Ltac db_leaf := intros; first [done | hnf; let H := fresh in intros H; exact H].
Ltac db_walk1 :=
  match goal with
  | |- preserves _ (match ?x with _ => _ end) => destruct x eqn:?
  | |- preserves _ (_ ≫= _) => apply preserves_bind; [apply _| |intros ?]
  | |- preserves _ (transaction _) => apply db_transaction; [apply _|]
  | |- preserves _ (insert_event _ _ _ _ _) => apply db_insert_event; [apply _|db_leaf]
  | |- preserves _ (sql_insert _ _ _ _) => apply db_insert; [apply _|db_leaf]
  | |- preserves _ (sql_update _ _ _) => apply db_update; db_leaf
  | |- preserves _ (sql_upsert _ _ _ _) => apply db_upsert; db_leaf
  | |- preserves _ (mret _) => apply preserves_ret; apply _
  | |- preserves _ (lift _) => apply preserves_lift; apply _
  | |- preserves _ (gets _) => apply preserves_gets; apply _
  | |- preserves _ (fail _) => apply preserves_fail; apply _
  | |- preserves _ _ => apply db_read; [apply _|solve [done | eauto]]
  end.
Ltac db_walk := repeat db_walk1.
Ltac unfold_append :=
  unfold append_command_bundle, append_node_event, find_receipt, query_row, next_sequence, write_entity, write_dispatch,
    insert_task_row, insert_run_row, apply_terminal_lifecycle_and_wake, update_run_status, update_task_status, query_row.

Lemma read_approval {P : Platform} i d : snd (get_approval i d) = d.
Proof. unfold get_approval. apply read_map_row. Qed.

(** ** The settings table *)
Section SettingsTable.
Context {P : Platform} {PL : PlatformLaws P}.

Definition same_rows (d d' : Db) : Prop := db_settings d' = db_settings d.
#[export] Instance same_rows_preorder : PreOrder same_rows.
Proof. split; [done|]. intros x y z H1 H2. unfold same_rows in *. congruence. Qed.

Lemma rows_append_command now fresh c draft entity x :
  preserves same_rows (append_command_bundle now fresh c draft entity x).
Proof. unfold_append. db_walk. Qed.
Lemma rows_append_node_event now i draft : preserves same_rows (append_node_event now i draft).
Proof. unfold_append. db_walk. Qed.
Lemma rows_worker now ch t : preserves same_rows (register_assistant_worker now ch t).
Proof. unfold register_assistant_worker. db_walk. Qed.
Lemma rows_complete now i : preserves same_rows (complete_assistant_wake now i).
Proof. unfold complete_assistant_wake. db_walk. Qed.
Lemma rows_defer now i e : preserves same_rows (defer_assistant_wake now i e).
Proof. unfold defer_assistant_wake, query_row. db_walk. Qed.
Lemma rows_resolve i dec actor now : preserves same_rows (resolve_approval i dec actor now).
Proof. pose proof read_approval. unfold resolve_approval. db_walk. Qed.
Lemma rows_ack now c n : preserves same_rows (acknowledge_dispatch_from now c n).
Proof. unfold acknowledge_dispatch_from. db_walk. Qed.
Lemma rows_node node : preserves same_rows (upsert_node node).
Proof. unfold upsert_node. db_walk. Qed.
End SettingsTable.

(** ** One setting, across the hub's methods *)
Section OneSetting.
Context {P : Platform} {PL : PlatformLaws P} {E : Env P}.
Context (key : string).

Definition setting_row (s : HubState) : option SettingRow :=
  List.find (has_key sr_key key) (db_settings (hs_hub s)).
Definition same_setting (s s' : HubState) : Prop := setting_row s' = setting_row s.

#[export] Instance same_setting_preorder : PreOrder same_setting.
Proof. split; [done|]. intros x y z H1 H2. unfold same_setting in *. congruence. Qed.

Lemma setting_with_hub {A} (f : M Db A) : preserves same_rows f -> preserves same_setting (with_hub f).
Proof.
  intros Hf s. rewrite with_hub_snd. unfold same_setting, setting_row. cbn [hs_hub set_hub]. by rewrite (Hf (hs_hub s)).
Qed.
Lemma setting_read {A} (f : M Db A) : (forall d, snd (f d) = d) -> preserves same_setting (with_hub f).
Proof. intros Hf. by apply setting_with_hub, (db_read same_rows). Qed.

Lemma setting_put now k v : k <> key -> preserves same_setting (with_hub (put_setting now k v)).
Proof.
  intros Hk s. rewrite with_hub_snd. unfold put_setting. rewrite sql_upsert_snd. unfold same_setting, setting_row.
  cbn [hs_hub set_hub settings_t tbl_set tbl_get db_settings].
  set (row := MkSettingRow _ _ _). assert (has_key sr_key key row = false) as Hrow.
  { unfold has_key. cbn. by apply String.eqb_neq. }
  destruct (existsb _ _).
  - induction (db_settings (hs_hub s)) as [|r rows IH]; cbn [map List.find]; [done|].
    destruct (has_key sr_key k r) eqn:Hr; [|by rewrite IH].
    apply String.eqb_eq in Hr. assert (has_key sr_key key r = false) as ->.
    { unfold has_key. rewrite Hr. by apply String.eqb_neq. }
    by rewrite Hrow IH.
  - induction (db_settings (hs_hub s)) as [|r rows IH]; cbn [app List.find]; [by rewrite Hrow|]. by rewrite IH.
Qed.

Lemma setting_node_disconnect n :
  preserves same_setting (with_hub (
    found ← get_node n;
    match found with
    | Some node =>
        upsert_node (MkNode (n_id node) (n_label node) ConnectionStatus.Disconnected
                       (n_software_version node) (n_capabilities node) (n_last_seen_sequence node))
    | None => mret tt
    end)).
Proof.
  apply setting_with_hub, preserves_bind; [apply _|apply (db_read same_rows), read_get_node|].
  intros [node|]; [apply rows_node|apply preserves_ret; apply _].
Qed.

Lemma setting_quiet {A} (m : M HubState A) : (forall s, hs_hub (snd (m s)) = hs_hub s) -> preserves same_setting m.
Proof. intros H s. unfold same_setting, setting_row. by rewrite H. Qed.
Lemma setting_now : preserves same_setting utc_now.
Proof. by apply setting_quiet. Qed.
Lemma setting_fresh {k} : preserves same_setting (fresh_id (k := k)).
Proof. by apply setting_quiet. Qed.
Lemma setting_bus e : preserves same_setting (bus_send e).
Proof. by apply setting_quiet. Qed.
Lemma setting_send c m : preserves same_setting (channel_send c m).
Proof. apply setting_quiet. intros s. unfold channel_send. by repeat case_match. Qed.
Lemma setting_route n m : preserves same_setting (route_to_node n m).
Proof. apply setting_quiet. intros s. apply route_hub. Qed.
Lemma setting_register n c : preserves same_setting (register_node n c).
Proof. by apply setting_quiet. Qed.
Lemma setting_unregister n c : preserves same_setting (unregister_node n c).
Proof. apply setting_quiet. intros s. unfold unregister_node. by repeat case_match. Qed.
Lemma setting_channel : preserves same_setting unbounded_channel.
Proof. by apply setting_quiet. Qed.
Lemma setting_drop c : preserves same_setting (drop_receiver c).
Proof. by apply setting_quiet. Qed.
Lemma setting_remember r n t : preserves same_setting (remember_run r n t).
Proof. by apply setting_quiet. Qed.

Lemma setting_link nl sent : preserves same_setting (node_outbound nl sent).
Proof.
  apply setting_quiet. intros s. unfold node_outbound. destruct (hs_channels s !! _) as [[o [|w q]]|]; try done.
Qed.

#[local] Hint Resolve setting_now setting_fresh setting_bus setting_send setting_route setting_register
  setting_unregister setting_channel setting_drop setting_remember setting_node_disconnect setting_link
  same_setting_preorder : hub.
#[local] Hint Extern 1 (preserves same_setting (with_hub _)) =>
  apply setting_with_hub; first
    [ apply rows_append_command | apply rows_append_node_event | apply rows_worker | apply rows_complete
    | apply rows_defer | apply rows_resolve | apply rows_ack | apply rows_node
    | apply (db_read same_rows); first
        [ done | exact (read_get_run _) | exact (read_outcome _) | exact (read_setting _) | exact (read_recent _)
        | exact (read_tail _ _) | exact (read_fetch _) ] ] : hub.

Lemma setting_hub_put k v : k <> key -> preserves same_setting (hub_put_setting k v).
Proof. intros Hk. pose proof (fun now => setting_put now k v Hk). unfold hub_put_setting. walk. Qed.

Lemma setting_updates v t cs : preserves same_setting (send_updates v t cs).
Proof. induction cs as [|c cs IH]; cbn [send_updates]; walk. Qed.
#[local] Hint Resolve setting_hub_put setting_updates : hub.

(** The methods the bridge calls. *)
Lemma setting_session ch : preserves same_setting (assistant_session ch).
Proof. walk_in. Qed.
Lemma setting_settings : preserves same_setting assistant_settings.
Proof. walk_in. Qed.
Lemma setting_task_events t : preserves same_setting (task_events t).
Proof. walk_in. Qed.
Lemma setting_recent n : preserves same_setting (read_recent_events n).
Proof. walk_in. Qed.
Lemma setting_after a : preserves same_setting (read_events_after a).
Proof. walk_in. Qed.
Lemma setting_submit cmd : preserves same_setting (submit_command cmd).
Proof. walk_in. Qed.
Lemma setting_worker_task ti pr ch pn e m re w : preserves same_setting (create_worker_task ti pr ch pn e m re w).
Proof. walk_in. Qed.
Lemma setting_track ch t r : preserves same_setting (track_assistant_worker ch t r).
Proof. walk_in. Qed.
Lemma setting_assistant_run t e m re sp w : preserves same_setting (start_hub_assistant_run t e m re sp w).
Proof. walk_in. Qed.
Lemma setting_assistant_message t r x : preserves same_setting (append_hub_assistant_message t r x).
Proof. walk_in. Qed.
Lemma setting_assistant_event k t r ps pl : preserves same_setting (append_hub_assistant_event k t r ps pl).
Proof. walk_in. Qed.
Lemma setting_pending ch : preserves same_setting (hub_pending_assistant_wakes ch).
Proof. walk_in. Qed.
Lemma setting_hub_complete i : preserves same_setting (hub_complete_assistant_wake i).
Proof. walk_in. Qed.
Lemma setting_hub_defer i e : preserves same_setting (hub_defer_assistant_wake i e).
Proof. walk_in. Qed.

(** The setting a call writes. *)
Definition writes_setting (c : HubCall) : option string :=
  match c with
  | Call_save_settings _ => Some ASSISTANT_SETTINGS_KEY
  | Call_save_updates _ => Some UPDATE_SETTINGS_KEY
  | Call_save_session ch _ | Call_clear_session ch => Some (session_key ch)
  | Call_set_channel _ => Some ACTIVE_CHANNEL_KEY
  | _ => None
  end.

(** Every other call of the hub leaves the setting as it is. *)
Lemma setting_hub_call c s : writes_setting c <> Some key -> same_setting s (hub_call c s).
Proof.
  intros Hw.
  assert (forall k v, writes_setting c = Some k -> preserves same_setting (hub_put_setting k v)) as Hput.
  { intros k v Hk. apply setting_hub_put. congruence. }
  destruct c; cbn [hub_call];
    match goal with |- same_setting s (snd (?m s)) => enough (preserves same_setting m) as H by apply H end;
    cbn [writes_setting] in Hput; try pose proof (fun v => Hput _ v eq_refl); clear Hput; walk_in.
Qed.
End OneSetting.

(** ** The channel's session *)
Section Session.
Context {P : Platform} {PL : PlatformLaws P} {E : Env P}.
Context (channel : string).

(** The session the channel's readers see. *)
Definition session_of (s : HubState) : option AssistantSession :=
  mjoin (res_ok (fst (assistant_session channel s))).

(** What the stored row decodes to. *)
Definition decode_session (row : option SettingRow) : Result (option AssistantSession) :=
  match row with
  | None => Ok None
  | Some r =>
      match json_from_str (sr_value r) with
      | None => Err (Error_msg ("bad control setting " +:+ debug_str (session_key channel) +:+ ": " +:+ json_error (sr_value r)))
      | Some v =>
          if value_is_null v then Ok None
          else match session_from_value v with
               | Some x => Ok (Some x)
               | None => Err (Error_msg ("bad assistant session: " +:+ value_error v))
               end
      end
  end.

Lemma assistant_session_eq s :
  assistant_session channel s = (decode_session (setting_row (session_key channel) s), s).
Proof.
  unfold assistant_session, mbind, M_bind, with_hub, get_setting, query_row, setting_row. run_m.
  destruct (List.find _ _) as [r|]; [|by destruct s]. cbn [decode_session].
  destruct (json_from_str _) as [v|]; cbn; [|by destruct s]. destruct (value_is_null v); [by destruct s|].
  destruct (session_from_value v); by destruct s.
Qed.

Lemma assistant_session_row s s' :
  same_setting (session_key channel) s s' -> fst (assistant_session channel s') = fst (assistant_session channel s).
Proof. intros H. by rewrite !assistant_session_eq H. Qed.

Lemma saved_session_reads x s :
  fst (save_assistant_session channel x s) = Ok tt /\
  session_of (snd (save_assistant_session channel x s)) = Some x.
Proof.
  split.
  - unfold save_assistant_session, hub_put_setting, put_setting, mbind, M_bind, utc_now, with_hub, sql_upsert.
    cbn [hs_hub set_draws]. by destruct (existsb _ _).
  - unfold session_of, assistant_session, mbind at 1, M_bind. unfold save_assistant_session.
    rewrite saved_setting_reads.
    assert (value_is_null (session_to_value x) = false) as ->.
    { unfold session_to_value, object_of. apply is_null_object. }
    by rewrite session_roundtrip.
Qed.

Lemma cleared_session_reads s : session_of (snd (clear_assistant_session channel s)) = None.
Proof.
  unfold session_of, assistant_session, mbind at 1, M_bind. unfold clear_assistant_session.
  by rewrite saved_setting_reads is_null_null.
Qed.

(** *** The bridge *)

Context {CE : ClaireEnv}.

Definition session_in (s : Claire) : option AssistantSession := session_of (cl_hub s).

(** Neither the busy runs nor the session change. *)
Record keeps (s s' : Claire) : Prop := {
  keeps_busy : cl_busy s' = cl_busy s;
  keeps_setting : same_setting (session_key channel) (cl_hub s) (cl_hub s');
}.
#[export] Instance keeps_preorder : PreOrder keeps.
Proof. split; [done|]. intros x y z [] []. split; [congruence|by etrans]. Qed.

Lemma keeps_session s s' : keeps s s' -> session_in s' = session_in s.
Proof. intros [_ H]. unfold session_in, session_of. by rewrite (assistant_session_row _ _ H). Qed.

Lemma on_hub_state {A} (m : M HubState A) s : cl_hub (snd (on_hub m s)) = snd (m (cl_hub s)).
Proof. unfold on_hub. by destruct (m (cl_hub s)). Qed.

Lemma keeps_on_hub {A} (m : M HubState A) : preserves (same_setting (session_key channel)) m -> preserves keeps (on_hub m).
Proof.
  intros Hm s. specialize (Hm (cl_hub s)). unfold on_hub. destruct (m (cl_hub s)) as [r h]. done.
Qed.

Lemma keeps_modify (f : Claire -> Claire) :
  (forall s, cl_busy (f s) = cl_busy s /\ cl_hub (f s) = cl_hub s) -> preserves keeps (modify f).
Proof. intros H s. destruct (H s) as [H1 H2]. split; [done|]. cbn. by rewrite H2. Qed.

Lemma keeps_ignore {A} (m : M Claire A) : preserves keeps m -> preserves keeps (ignore m).
Proof. intros Hm. unfold ignore. apply preserves_bind; [apply _|by apply preserves_try|]. intros _. apply preserves_ret, _. Qed.
Lemma keeps_spawn sp def rq : preserves keeps (spawn_job sp def rq).
Proof. done. Qed.
Lemma keeps_terminate slot : preserves keeps (terminate_job slot).
Proof. intros s. unfold terminate_job. by destruct (mjoin _). Qed.
Lemma keeps_job_remove r : preserves keeps (job_remove r).
Proof. by apply keeps_modify. Qed.

#[local] Hint Resolve setting_session setting_settings setting_task_events setting_recent setting_after setting_submit
  setting_worker_task setting_track setting_assistant_run setting_assistant_message setting_assistant_event
  setting_pending setting_hub_complete setting_hub_defer setting_fresh keeps_preorder
  keeps_spawn keeps_terminate keeps_job_remove : hub.
#[local] Hint Extern 1 (preserves keeps (on_hub _)) => apply keeps_on_hub : hub.
#[local] Hint Extern 1 (preserves keeps (modify _)) => apply keeps_modify; done : hub.

Lemma keeps_session_now : preserves keeps (session_now channel).
Proof. walk_in. Qed.
Lemma keeps_runner_start sp settings turn : preserves keeps (runner_start sp channel settings turn).
Proof. walk_in. Qed.
Lemma keeps_runner_stop session : preserves keeps (runner_stop session).
Proof. walk_in. Qed.
Lemma keeps_optmem settings args : preserves keeps (run_optmem settings args).
Proof. walk_in. Qed.
Lemma keeps_system_prompt settings t : preserves keeps (build_claire_system_prompt settings t).
Proof. walk_in. Qed.
Lemma keeps_start_failure session error : preserves keeps (append_claire_start_failure session error).
Proof. walk_in. Qed.
Lemma keeps_session_or_new settings : preserves keeps (session_or_new channel settings).
Proof. walk_in. Qed.
Lemma keeps_terminal t r : preserves keeps (terminal_is_durable t r).
Proof. walk_in. Qed.
Lemma keeps_context : preserves keeps recent_task_context.
Proof. walk_in. Qed.
Lemma keeps_wake_context w : preserves keeps (worker_wake_context w).
Proof. walk_in. Qed.
Lemma keeps_action settings a : preserves keeps (execute_claire_action channel settings a).
Proof. walk_in. Qed.
Lemma keeps_notes settings notes : preserves keeps (remember_notes settings notes).
Proof. induction notes as [|n notes IH]; cbn [remember_notes]; walk_in. Qed.
#[local] Hint Resolve keeps_action keeps_notes : hub.
Lemma keeps_actions settings actions : preserves keeps (execute_actions channel settings actions).
Proof. induction actions as [|a actions IH]; cbn [execute_actions]; walk_in. Qed.
#[local] Hint Resolve keeps_actions : hub.
Lemma keeps_work envelope : preserves keeps (internal_work channel envelope).
Proof. walk_in. Qed.
End Session.

(** ** One turn at a time *)
Section Turns.
Context {P : Platform} {PL : PlatformLaws P} {E : Env P} {CE : ClaireEnv}.
Context (channel : string).

Abbreviation session_in := (session_in channel).
Abbreviation keeps := (keeps channel).

(** The run the session points to. *)
Definition run_of (s : Claire) : option RunId := session_in s ≫= ss_run_id.

(** A busy run is the session's. *)
Definition turn_inv (s : Claire) : Prop := forall r, r ∈ cl_busy s -> run_of s = Some r.

Lemma session_now_eq s : session_now channel s = (Ok (session_in s), s).
Proof.
  unfold session_now, try, on_hub, mbind, M_bind, session_in, session_of. rewrite assistant_session_eq. by destruct s.
Qed.

Lemma found_session_eq s : exists r,
  on_hub (assistant_session channel) s = (r, s) /\ session_in s = mjoin (res_ok r).
Proof.
  unfold on_hub, session_in, session_of. rewrite assistant_session_eq. eexists. split; [by destruct s|done].
Qed.

Lemma save_session_eq x s : exists s',
  save_session channel x s = (Ok tt, s') /\ session_in s' = Some x /\
  cl_busy s' = cl_busy s /\ cl_commands s' = cl_commands s.
Proof.
  unfold save_session, on_hub, session_in. destruct (saved_session_reads channel x (cl_hub s)) as [H1 H2].
  destruct (save_assistant_session channel x (cl_hub s)) as [r h]. cbn in *. subst r. by eexists.
Qed.

(** *** Computations that keep the busy runs, and perhaps the session's run *)

Definition same_busy (s s' : Claire) : Prop := cl_busy s' = cl_busy s.
#[export] Instance same_busy_preorder : PreOrder same_busy.
Proof. split; [done|]. intros x y z H1 H2. unfold same_busy in *. congruence. Qed.

(** The busy runs and one optional field of the session. *)
Definition same_field {X} (f : AssistantSession -> option X) (s s' : Claire) : Prop :=
  cl_busy s' = cl_busy s /\ session_in s' ≫= f = session_in s ≫= f.
#[export] Instance same_field_preorder {X} (f : AssistantSession -> option X) : PreOrder (same_field f).
Proof. split; [done|]. intros x y z [] []. split; congruence. Qed.
Abbreviation same_run := (same_field ss_run_id).

Lemma keeps_same_field {X} (f : AssistantSession -> option X) {A} (m : M Claire A) :
  preserves keeps m -> preserves (same_field f) m.
Proof. intros Hm s. split; [apply (keeps_busy channel), Hm|]. by rewrite (keeps_session channel _ _ (Hm s)). Qed.

Lemma turn_inv_run s s' : same_run s s' -> turn_inv s -> turn_inv s'.
Proof. intros [Hb Hr] H r. unfold run_of. rewrite Hb Hr. apply H. Qed.

Lemma turn_inv_idle s : cl_busy s = ∅ -> turn_inv s.
Proof. intros H r. rewrite H. set_solver. Qed.

Lemma turn_inv_none s : turn_inv s -> run_of s = None -> cl_busy s = ∅.
Proof. intros H Hr. apply set_eq. intros r. split; [intros Hin; apply H in Hin; congruence|set_solver]. Qed.

(** The session's run is the only one that can be busy. *)
Lemma turn_inv_only s r : turn_inv s -> run_of s = Some r -> cl_busy s ∖ {[ r ]} = ∅.
Proof. intros H Hr. apply set_eq. intros q. split; [|set_solver]. intros [Hq Hne]%elem_of_difference. apply H in Hq. set_solver. Qed.

(** A save that keeps the field. *)
Lemma same_field_ignored {X} (f : AssistantSession -> option X) x s :
  f x = session_in s ≫= f -> same_field f s (snd (ignore (save_session channel x) s)).
Proof.
  intros Hx. destruct (save_session_eq x s) as (s' & Hs & H1 & H2 & _).
  unfold ignore, try, mbind at 1, M_bind at 1. rewrite Hs. split; [done|]. cbn. by rewrite H1.
Qed.

#[local] Hint Resolve keeps_session_now keeps_runner_start keeps_runner_stop keeps_optmem keeps_system_prompt
  keeps_start_failure keeps_session_or_new keeps_terminal keeps_context keeps_wake_context keeps_action keeps_notes
  keeps_actions keeps_work setting_session setting_settings setting_task_events setting_recent setting_after
  setting_submit setting_worker_task setting_track setting_assistant_run setting_assistant_message
  setting_assistant_event setting_pending setting_hub_complete setting_hub_defer setting_fresh
  keeps_preorder same_field_preorder same_busy_preorder : hub.
#[local] Hint Extern 1 (preserves (ClaireFacts.keeps _) (on_hub _)) => apply keeps_on_hub : hub.
#[local] Hint Extern 1 (preserves (ClaireFacts.keeps _) (ignore _)) => apply keeps_ignore : hub.
#[local] Hint Extern 1 (preserves (ClaireFacts.keeps _) (modify _)) => apply keeps_modify; done : hub.
#[local] Hint Extern 2 (preserves (same_field _) _) => apply keeps_same_field : hub.

(** [let session = state.assistant_session(..)], then a save that keeps the field. *)
Lemma same_field_update {X} (f : AssistantSession -> option X) {A} (k : option AssistantSession -> M Claire A) :
  (forall s, same_field f s (snd (k (session_in s) s))) -> preserves (same_field f) (session_now channel ≫= k).
Proof. intros H s. unfold mbind, M_bind. rewrite session_now_eq. apply H. Qed.

(** From one state: the rest of the computation keeps the field too. *)
Lemma same_field_bind {X} (f : AssistantSession -> option X) {A B} (m : M Claire A) (k : A -> M Claire B) s :
  same_field f s (snd (m s)) -> (forall a, preserves (same_field f) (k a)) -> same_field f s (snd ((m ≫= k) s)).
Proof.
  intros Hm Hk. unfold mbind, M_bind. destruct (m s) as [[a|e] s1]; [|done]. etrans; [exact Hm|apply Hk].
Qed.

(** The end of such an update. *)
Ltac close_update :=
  match goal with
  | |- context [match session_in ?s with _ => _ end] =>
      let Hx := fresh in
      destruct (session_in s) eqn:Hx; [|done]; try (case_bool_decide; [|done]); apply same_field_ignored; by rewrite Hx
  end.

Lemma defer_session_wake_field {X} (f : AssistantSession -> option X) session reason :
  (forall o y, f (session_wake o y) = f y) -> preserves (same_field f) (defer_session_wake channel session reason).
Proof.
  intros Hf. unfold defer_session_wake. walk1; [|walk_in].
  walk1; [apply keeps_same_field, keeps_ignore, keeps_on_hub; walk_in|]. apply same_field_update. intros s.
  destruct (session_in s) as [x|] eqn:Hx; [|done]. case_bool_decide; [|done].
  apply same_field_ignored. by rewrite Hx Hf.
Qed.
Lemma defer_session_wake_run session reason : preserves same_run (defer_session_wake channel session reason).
Proof. by apply defer_session_wake_field. Qed.

Lemma forget_wake_run wake : preserves same_run (forget_wake channel wake).
Proof. unfold forget_wake. apply same_field_update. intros s. close_update. Qed.
#[local] Hint Resolve defer_session_wake_run forget_wake_run : hub.

Lemma refuse_answer_run reason reply : preserves same_run (refuse_answer channel reason reply).
Proof.
  unfold refuse_answer. apply same_field_update. intros s. apply same_field_bind; [|intros b; walk].
  destruct (session_in s) as [x|] eqn:Hx; [|done]. apply same_field_bind; [|intros []; walk].
  apply same_field_ignored. by rewrite Hx.
Qed.

(** What the follow-up's mark and text do not touch. *)
Definition apart_from_follow_up {X} (f : AssistantSession -> option X) : Prop :=
  forall o b x, f (session_follow_up o b x) = f x.

Lemma perform_envelope_field {X} (f : AssistantSession -> option X) envelope :
  apart_from_follow_up f -> preserves (same_field f) (perform_envelope channel envelope).
Proof.
  intros Hf. unfold perform_envelope. walk1; [walk|]. walk1; [|walk]. destruct a as [|r rs]; [walk|].
  apply same_field_update. intros s. apply same_field_bind; [|intros; walk].
  destruct (session_in s) as [x|] eqn:Hx; [|done]. apply same_field_ignored. by rewrite Hx Hf.
Qed.

Lemma clear_in_progress_field {X} (f : AssistantSession -> option X) (b : bool) :
  apart_from_follow_up f ->
  preserves (same_field f)
    (if b then
       session ← session_now channel;
       match session with
       | Some s => ignore (save_session channel (session_follow_up (ss_pending_follow_up s) false s))
       | None => mret tt
       end
     else mret tt).
Proof.
  intros Hf. destruct b; [|walk]. apply same_field_update. intros s. destruct (session_in s) as [x|] eqn:Hx; [|done].
  apply same_field_ignored. by rewrite Hx Hf.
Qed.

Lemma process_answer_run event : preserves same_run (process_answer channel event).
Proof.
  pose proof refuse_answer_run. unfold process_answer. walk1; [auto|]. walk1; [walk|]. walk1; [auto|]. walk1.
  - by apply clear_in_progress_field.
  - by apply perform_envelope_field.
Qed.

(** *** Computations after which no run is busy *)

Lemma busy_on_hub {A} (m : M HubState A) : preserves same_busy (on_hub m).
Proof. intros s. unfold on_hub. by destruct (m (cl_hub s)). Qed.
Lemma busy_terminate slot : preserves same_busy (terminate_job slot).
Proof. intros s. unfold terminate_job. by destruct (mjoin _). Qed.
#[local] Hint Resolve busy_on_hub busy_terminate : hub.
#[local] Hint Extern 1 (preserves same_busy (modify _)) => apply preserves_modify; done : hub.

Lemma busy_notes settings notes : preserves same_busy (remember_notes settings notes).
Proof. intros s. apply (keeps_busy channel), keeps_notes. Qed.
Lemma busy_actions settings actions : preserves same_busy (execute_actions channel settings actions).
Proof. intros s. apply (keeps_busy channel), keeps_actions. Qed.
#[local] Hint Resolve busy_notes busy_actions : hub.

Lemma idle_inv {A} (m : M Claire A) s : preserves same_busy m -> cl_busy s = ∅ -> turn_inv (snd (m s)).
Proof. intros Hm Hs. apply turn_inv_idle. by rewrite (Hm s). Qed.

Lemma busy_remove_run_inv o s : turn_inv s -> turn_inv (snd (busy_remove_run o s)).
Proof. intros H. destruct o as [r|]; [|done]. intros q Hq. change (q ∈ cl_busy s ∖ {[ r ]}) in Hq.
  apply elem_of_difference in Hq as [Hq _]. by apply H.
Qed.

(** Taking the session's run off empties the busy set. *)
Lemma busy_remove_run_idle s : turn_inv s -> cl_busy (snd (busy_remove_run (run_of s) s)) = ∅.
Proof.
  intros H. destruct (run_of s) as [r|] eqn:Hr; [by apply turn_inv_only|]. by apply turn_inv_none.
Qed.

(** A terminal event of a run: what is left is a valid state, whichever run it was. *)
Lemma remove_then_inv {A} o (k : option AssistantSession -> M Claire A) s :
  turn_inv s ->
  (forall x, session_in s = Some x -> ss_run_id x = o -> preserves same_busy (k (Some x))) ->
  (forall y s1, session_in s1 = y -> (forall x, y = Some x -> ss_run_id x <> o) -> same_run s1 (snd (k y s1))) ->
  turn_inv (snd ((busy_remove_run o ≫= fun _ => session_now channel ≫= k) s)).
Proof.
  intros Hinv Hmatch Hother. set (s1 := snd (busy_remove_run o s)).
  assert ((busy_remove_run o ≫= fun _ => session_now channel ≫= k) s = k (session_in s) s1) as ->.
  { unfold mbind at 1, M_bind. assert (busy_remove_run o s = (Ok tt, s1)) as -> by by destruct o.
    unfold mbind, M_bind. rewrite session_now_eq. by destruct o. }
  assert (session_in s1 = session_in s) as Hs1 by by destruct o.
  assert ((forall x, session_in s = Some x -> ss_run_id x <> o) -> turn_inv (snd (k (session_in s) s1))) as Hne.
  { intros Hne. eapply turn_inv_run; [|exact (busy_remove_run_inv o s Hinv)]. by apply Hother. }
  destruct (session_in s) as [x|] eqn:Hx; [|by apply Hne].
  destruct (decide (ss_run_id x = o)) as [Ho|Ho]; [|apply Hne; by intros ? [= <-]].
  apply idle_inv; [by apply Hmatch|].
  assert (o = run_of s) as Hrun by by unfold run_of; rewrite Hx -Ho.
  unfold s1. rewrite Hrun. by apply busy_remove_run_idle.
Qed.

Lemma close_turn_inv event reason s : turn_inv s -> turn_inv (snd (close_turn channel event reason s)).
Proof.
  intros Hinv. unfold close_turn. apply remove_then_inv; [done| |].
  - intros x _ Ho. rewrite bool_decide_eq_true_2 //. walk_in.
  - intros y s1 _ Hne. destruct y as [x|]; [|done]. rewrite bool_decide_eq_false_2; [by eapply Hne|done].
Qed.

Lemma inv_bind {A B} (m : M Claire A) (k : A -> M Claire B) s :
  turn_inv (snd (m s)) -> (forall a, preserves same_run (k a)) -> turn_inv (snd ((m ≫= k) s)).
Proof.
  intros Hm Hk. unfold mbind, M_bind. destruct (m s) as [[a|e] s1]; [|done]. eapply turn_inv_run; [apply Hk|done].
Qed.

Lemma process_claire_event_inv event s : turn_inv s -> turn_inv (snd (process_claire_event channel event s)).
Proof.
  intros Hinv. unfold process_claire_event. destruct (e_kind event); try exact Hinv.
  - apply inv_bind; [by apply close_turn_inv|]. intros. walk.
  - apply remove_then_inv; [done| |].
    + intros x _ Ho. cbn. rewrite bool_decide_eq_true_2 //. walk_in.
    + intros y s1 _ Hne. apply same_field_bind; [|intros; walk].
      destruct y as [x|]; [|done]. rewrite bool_decide_eq_false_2; [by eapply Hne|done].
  - apply inv_bind; [by apply close_turn_inv|]. intros [? ?]. walk.
  - eapply turn_inv_run; [apply process_answer_run|done].
Qed.

Lemma handle_claire_event_inv send event s :
  turn_inv s -> turn_inv (snd (handle_claire_event channel send event s)).
Proof.
  intros Hinv. unfold handle_claire_event. apply inv_bind; [by apply process_claire_event_inv|].
  intros projection. unfold settle_wake. walk1; [|walk]. walk; apply keeps_same_field, keeps_ignore, keeps_on_hub; eauto with hub.
Qed.

Lemma observe_event_inv send event s : turn_inv s -> turn_inv (snd (observe_event channel send event s)).
Proof.
  intros Hinv. unfold observe_event, mbind, M_bind. rewrite session_now_eq.
  case_match; [by apply handle_claire_event_inv|done].
Qed.

(** *** Starting a turn *)

(** A successful run of the rest, when the first part keeps the busy runs and the session. *)
Lemma keeps_bind_ok {A B} (m : M Claire A) (k : A -> M Claire B) s b s' :
  preserves keeps m -> (m ≫= k) s = (Ok b, s') ->
  exists a s1, m s = (Ok a, s1) /\ session_in s1 = session_in s /\ k a s1 = (Ok b, s').
Proof.
  intros Hm (a & s1 & Ha & Hk)%m_bind_ok. exists a, s1. split; [done|]. split; [|done].
  pose proof (Hm s) as H. rewrite Ha in H. by apply (keeps_session channel) in H.
Qed.

Lemma session_or_new_ok settings s x s' :
  session_or_new channel settings s = (Ok x, s') -> session_in s' = Some x \/ ss_run_id x = None.
Proof.
  unfold session_or_new. intros (found & s1 & Hf & H)%m_bind_ok.
  destruct (found_session_eq s) as (r & Hr & Hs). rewrite Hr in Hf. injection Hf as -> <-.
  destruct found as [y|]; [apply m_ret_ok in H as [-> ->]; by left|right].
  do 3 apply m_bind_ok in H as (? & ? & _ & H). by apply m_ret_ok in H as [-> _].
Qed.

Lemma ensure_run_ok settings contract x s x' s' :
  ensure_run channel settings contract x s = (Ok x', s') ->
  session_in s = Some x \/ ss_run_id x = None -> session_in s' = Some x'.
Proof.
  unfold ensure_run. intros H Hx. destruct (bool_decide _ || _) eqn:Hneed.
  - apply m_bind_ok in H as (r & s1 & _ & H). cbv zeta in H.
    apply m_bind_ok in H as ([] & s2 & Hsave & H). apply m_ret_ok in H as [-> ->].
    match type of Hsave with save_session _ ?y _ = _ => destruct (save_session_eq y s1) as (s3 & H3 & Hin & _) end.
    rewrite H3 in Hsave. by injection Hsave as <-.
  - apply orb_false_iff in Hneed as [Hrun _]. apply bool_decide_eq_false in Hrun.
    apply m_ret_ok in H as [-> ->]. by destruct Hx.
Qed.

(** The prompt is submitted without touching the busy runs; the turn is the session's. *)
Lemma submit_claire_prompt_busy text : preserves same_busy (submit_claire_prompt channel text).
Proof. walk_in. Qed.

Lemma submit_claire_prompt_ok text s turn s' :
  submit_claire_prompt channel text s = (Ok turn, s') -> session_in s' = Some (ct_session turn).
Proof.
  unfold submit_claire_prompt. intros H.
  apply keeps_bind_ok in H as (settings & s1 & _ & _ & H); [|walk_in].
  apply m_bind_ok in H as (x & s2 & Hx%session_or_new_ok & H).
  apply keeps_bind_ok in H as (contract & s3 & _ & Hs3 & H); [|walk].
  apply m_bind_ok in H as (x' & s4 & Hx'%ensure_run_ok & H); [|by rewrite Hs3].
  apply keeps_bind_ok in H as (r & s5 & _ & Hs5 & H); [|walk].
  apply keeps_bind_ok in H as (c & s6 & _ & Hs6 & H); [|walk].
  apply keeps_bind_ok in H as ([] & s7 & _ & Hs7 & H); [|walk].
  apply m_ret_ok in H as [-> ->]. cbn. by rewrite Hs7 Hs6 Hs5.
Qed.

(** The busy runs are at most this one, and it is the session's. *)
Definition marked (o : option RunId) (s : Claire) : Prop :=
  turn_inv s /\ cl_busy (snd (busy_remove_run o s)) = ∅.

Lemma marked_keeps {A} o (m : M Claire A) s : preserves keeps m -> marked o s -> marked o (snd (m s)).
Proof.
  intros Hm [H1 H2]. specialize (keeps_same_field ss_run_id m Hm s) as Hs. split; [by eapply turn_inv_run|].
  destruct Hs as [Hb _]. destruct o as [r|]; cbn in *; by rewrite Hb.
Qed.

Lemma marked_wp {A} o (m : M Claire A) (Q : Result A -> Claire -> Prop) s :
  preserves keeps m -> marked o s -> (forall r s', marked o s' -> Q r s') -> wp m Q s.
Proof. intros Hm Hs HQ. pose proof (marked_keeps o m s Hm Hs) as H. unfold wp. destruct (m s). by apply HQ. Qed.

(** Marking the run of the session just saved, when nothing is busy. *)
Lemma marked_insert r s : cl_busy s = ∅ -> run_of s = Some r -> marked (Some r) (snd (busy_insert r s)).
Proof.
  intros Hb Hr. split.
  - intros q Hq. change (q ∈ {[ r ]} ∪ cl_busy s) in Hq. rewrite Hb right_id_L in Hq.
    by apply elem_of_singleton in Hq as ->.
  - cbn. by rewrite Hb right_id_L difference_diag_L.
Qed.

Lemma marked_idle o s : cl_busy s = ∅ -> marked o s.
Proof. intros Hb. split; [by apply turn_inv_idle|]. destruct o; cbn; rewrite Hb; [apply subseteq_empty_difference_L, empty_subseteq|done]. Qed.

(** The failure path of a start: the mark is taken off, then only reports follow. *)
Lemma unmark_wp {A} o (k : M Claire A) (Q : Result A -> Claire -> Prop) s :
  marked o s -> preserves same_busy k -> (forall r s', cl_busy s' = ∅ -> Q r s') ->
  wp (busy_remove_run o ≫= fun _ => k) Q s.
Proof.
  intros [_ H] Hk HQ. apply wp_bind, wp_call. intros r s1 H1. rewrite H1 in H. cbn in H.
  assert (r = Ok tt) as -> by by destruct o; injection H1.
  apply (wp_frame same_busy); [done|]. intros r' s2 H2. apply HQ. by rewrite H2.
Qed.

(** With nothing busy, whatever a started turn leaves busy is the session's run;
    an error leaves nothing busy. *)
Lemma start_claire_turn_inv sp prompt s :
  cl_busy s = ∅ ->
  wp (start_claire_turn sp channel prompt) (fun r s' => turn_inv s' /\ (is_ok r = false -> cl_busy s' = ∅)) s.
Proof.
  intros Hidle. unfold start_claire_turn. apply wp_bind, wp_call. intros [turn|e] s1 H1;
    pose proof (submit_claire_prompt_busy prompt s) as Hb; rewrite H1 in Hb; cbn in Hb; rewrite /same_busy Hidle in Hb.
  2:{ split; [by apply turn_inv_idle|done]. }
  apply submit_claire_prompt_ok in H1. set (x := ct_session turn) in *. apply wp_bind.
  assert (wp (match ss_run_id x with Some r => busy_insert r | None => mret tt end)
            (fun r s' => r = Ok tt /\ marked (ss_run_id x) s') s1) as Hmark.
  { destruct (ss_run_id x) as [r|] eqn:Hr; split; try done; [|by apply marked_idle].
    apply marked_insert; [done|]. unfold run_of. by rewrite H1. }
  eapply wp_mono; [exact Hmark|]. intros r s2 [-> Hs2]. apply wp_bind.
  apply wp_try, (marked_wp (ss_run_id x)); [walk|done|]. intros [settings|e] s3 Hs3.
  - apply wp_bind, wp_try, (marked_wp (ss_run_id x)); [walk|done|]. intros [[]|e] s4 Hs4; [split; [apply Hs4|done]|].
    apply unmark_wp; [done|walk_in|]. intros r' s5 H5. split; [by apply turn_inv_idle|done].
  - destruct (ss_run_id x) as [r|] eqn:Hr.
    + apply wp_bind, (unmark_wp (Some r)); [done|walk_in|]. intros r' s5 H5.
      destruct r'; (split; [by apply turn_inv_idle|done]).
    + split; [apply Hs3|]. intros _. apply (proj2 Hs3).
Qed.

(** *** The functions of the polling loop *)

Lemma follow_up_failed_busy session error : preserves same_busy (follow_up_failed channel session error).
Proof. walk_in. Qed.

Lemma start_follow_up_inv sp s : turn_inv s -> turn_inv (snd (start_pending_claire_follow_up sp channel s)).
Proof.
  intros Hinv. unfold start_pending_claire_follow_up, mbind at 1, M_bind at 1. cbn [gets].
  case_bool_decide as Hidle; cbn [negb]; [|done]. unfold mbind at 1, M_bind at 1. rewrite session_now_eq.
  destruct (session_in s) as [x|]; [|done]. destruct (ss_pending_follow_up x) as [prompt|]; [|done].
  set (y := session_follow_up None true x). destruct (save_session_eq y s) as (s1 & Hs1 & _ & Hb & _).
  unfold mbind at 1, M_bind at 1, try at 1. rewrite Hs1. rewrite Hidle in Hb.
  unfold mbind at 1, M_bind at 1, try at 1.
  pose proof (start_claire_turn_inv sp prompt s1 Hb) as H. unfold wp in H.
  destruct (start_claire_turn sp channel prompt s1) as [[o|e] s2]; [apply H|].
  apply idle_inv; [apply follow_up_failed_busy|by apply H].
Qed.

Lemma assess_wake_inv sp wake s : cl_busy s = ∅ -> turn_inv (snd (assess_wake sp channel wake s)).
Proof.
  intros Hidle. enough (wp (assess_wake sp channel wake) (fun _ => turn_inv) s) as H.
  { unfold wp in H. by destruct (assess_wake sp channel wake s). }
  unfold assess_wake. apply wp_bind, wp_try, (wp_frame same_busy); [walk_in|]. intros c s1 Hb1.
  rewrite /same_busy Hidle in Hb1. apply wp_bind, wp_try, wp_call. intros [turn|e] s2 H2;
    match type of H2 with submit_claire_prompt _ ?p _ = _ => pose proof (submit_claire_prompt_busy p s1) as Hb end;
    rewrite H2 in Hb; cbn in Hb; rewrite /same_busy Hb1 in Hb.
  2:{ apply (wp_frame same_busy); [walk_in|]. intros r s3 H3. apply turn_inv_idle. by rewrite H3. }
  set (x := session_wake _ _). apply wp_bind, wp_try, wp_call. intros r s3 H3.
  destruct (save_session_eq x s2) as (s3' & H3' & Hin & Hb3 & _). rewrite H3 in H3'. injection H3' as -> <-.
  destruct (ss_run_id x) as [run|] eqn:Hrun.
  2:{ apply (wp_frame same_busy); [walk_in|]. intros r s4 H4. apply turn_inv_idle. by rewrite H4 Hb3. }
  apply wp_bind, wp_call. intros r s4 H4.
  assert (r = Ok tt /\ marked (Some run) s4) as [-> Hs4].
  { split; [by injection H4|]. pose proof (marked_insert run s3) as Hm. rewrite H4 in Hm. apply Hm; [by rewrite Hb3|].
    unfold run_of. by rewrite Hin. }
  apply wp_bind, wp_try, (marked_wp (Some run)); [walk|done|]. intros [settings|e] s5 Hs5.
  - apply wp_bind, wp_try, (marked_wp (Some run)); [walk|done|]. intros [[]|e] s6 Hs6; [apply Hs6|].
    apply (unmark_wp (Some run)); [done|walk_in|]. intros r' s7 H7. by apply turn_inv_idle.
  - apply (unmark_wp (Some run)); [done|walk_in|]. intros r' s7 H7. by apply turn_inv_idle.
Qed.

Lemma wake_claire_inv sp s : turn_inv s -> turn_inv (snd (wake_claire_for_pending_worker sp channel s)).
Proof.
  intros Hinv. unfold wake_claire_for_pending_worker, mbind at 1, M_bind at 1. cbn [gets].
  case_bool_decide as Hidle; cbn [negb]; [|done]. unfold mbind at 1, M_bind at 1, try.
  pose proof (busy_on_hub (hub_pending_assistant_wakes channel) s) as Hb.
  destruct (on_hub (hub_pending_assistant_wakes channel) s) as [r s1]. cbn in Hb. rewrite /same_busy Hidle in Hb.
  destruct r as [[|wake wakes]|e]; [by apply turn_inv_idle| |by apply turn_inv_idle]. by apply assess_wake_inv.
Qed.

Lemma reconcile_run : preserves same_run (reconcile_claire_runner channel).
Proof. unfold reconcile_claire_runner. walk; apply keeps_same_field; walk_in. Qed.

(** *** The input *)

(** What [current_turn_is_busy] computes: whether anything is busy. *)
Lemma current_turn_is_busy_spec s :
  turn_inv s ->
  exists r, current_turn_is_busy channel s = (r, s) /\
    (r = Ok false -> cl_busy s = ∅) /\ (cl_busy s <> ∅ -> r = Ok true).
Proof.
  intros Hinv. unfold current_turn_is_busy, mbind at 1, M_bind at 1.
  destruct (found_session_eq s) as (r & -> & Hs). destruct r as [found|e].
  - change (session_in s = found) in Hs. eexists. split; [reflexivity|]. unfold turn_inv, run_of in Hinv. rewrite Hs in Hinv.
    destruct (found ≫= ss_run_id) as [q|].
    + split; intros Hq.
      * injection Hq as Hq%bool_decide_eq_false. apply set_eq. intros x. split; [|set_solver].
        intros Hx. pose proof (Hinv x Hx) as [= ->]. done.
      * apply set_choose_L in Hq as [x Hx]. pose proof (Hinv x Hx) as [= ->]. by rewrite bool_decide_eq_true_2.
    + assert (cl_busy s = ∅) as Hidle; [|by split].
      apply set_eq. intros x. split; [|set_solver]. intros Hx. by apply Hinv in Hx.
  - cbn in Hs. eexists. split; [reflexivity|]. split; [done|]. intros Hne.
    apply set_choose_L in Hne as [x Hx]. apply Hinv in Hx. unfold run_of in Hx. by rewrite Hs in Hx.
Qed.

Lemma input_stop_inv s : turn_inv s -> turn_inv (snd (input_stop channel s)).
Proof.
  intros Hinv. unfold input_stop, mbind at 1, M_bind at 1. destruct (found_session_eq s) as (r & -> & Hs).
  destruct r as [[x|]|e]; [|done..].
  assert (run_of s = ss_run_id x) as Hrun by by unfold run_of; rewrite Hs.
  unfold mbind at 1, M_bind at 1. pose proof (keeps_same_field ss_run_id _ (keeps_runner_stop channel x) s) as H1.
  destruct (runner_stop x s) as [[[]|e] s1]; cbn in H1; [|by eapply turn_inv_run..].
  unfold mbind at 1, M_bind at 1. pose proof (defer_session_wake_run x "assessment stopped by user" s1) as H2.
  destruct (defer_session_wake channel x "assessment stopped by user" s1) as [[[]|e] s2]; cbn in H2;
    assert (same_run s s2) as H by (by etrans); [|by eapply turn_inv_run].
  pose proof (turn_inv_run _ _ H Hinv) as Hinv2. destruct H as [_ Hr2]. change (run_of s2 = run_of s) in Hr2. rewrite Hrun in Hr2. rewrite -Hr2.
  unfold mbind at 1, M_bind at 1. pose proof (busy_remove_run_idle s2 Hinv2) as Hidle.
  destruct (busy_remove_run (run_of s2) s2) as [[[]|e] s3]; cbn in Hidle; [|by apply turn_inv_idle].
  apply idle_inv; [|done]. walk_in.
Qed.

Lemma input_command_inv sp trimmed s :
  turn_inv s -> cl_busy s = ∅ \/ trimmed = "/stop"%string \/ trimmed = "/where"%string ->
  turn_inv (snd (input_command sp channel trimmed s)).
Proof.
  intros Hinv [Hidle|[->| ->]]; [|by apply input_stop_inv|].
  - assert (forall p, turn_inv (snd (start_claire_turn sp channel p s))) as Hstart.
    { intros p. pose proof (start_claire_turn_inv sp p s Hidle) as H. unfold wp in H.
      destruct (start_claire_turn sp channel p s). by destruct H. }
    unfold input_command. repeat case_match; first
      [ apply Hstart | exact Hinv | by apply input_stop_inv | apply idle_inv; [solve [walk_in]|exact Hidle] ].
  - change (input_command sp channel "/where") with
      (settings ← on_hub assistant_settings; mret (M := M Claire) (Some (where_text settings))).
    eapply turn_inv_run; [|done]. apply keeps_same_field. walk.
Qed.

Lemma handle_claire_input_inv sp text s : turn_inv s -> turn_inv (snd (handle_claire_input sp channel text s)).
Proof.
  intros Hinv. unfold handle_claire_input, mbind at 1, M_bind at 1.
  destruct (current_turn_is_busy_spec s Hinv) as (r & -> & Hfalse & _). destruct r as [b|e]; [|done].
  destruct b; cbn [andb]; [|apply input_command_inv; [done|left; by apply Hfalse]].
  destruct (String.eqb_spec (trim text) "/stop"); cbn [orb negb]; [apply input_command_inv; auto|].
  destruct (String.eqb_spec (trim text) "/where"); cbn [orb negb]; [apply input_command_inv; auto|done].
Qed.

(** *** The thread *)

Lemma supervisor_step_inv i result s :
  (forall v x r, cl_supervisors s !! i = Some v -> sv_stage v = Sv_save x r -> run_of s = ss_run_id x) ->
  (forall v, cl_supervisors s !! i = Some v -> sv_channel v = channel) ->
  turn_inv s -> turn_inv (snd (supervisor_step i result s)).
Proof.
  intros Hsave Hch Hinv. unfold supervisor_step, mbind at 1, M_bind at 1. cbn [gets].
  destruct (cl_supervisors s !! i) as [v|] eqn:Hv; [|done]. specialize (Hch v eq_refl).
  eapply turn_inv_run; [|done]. apply same_field_bind; [|intros; apply keeps_same_field; walk_in].
  unfold supervisor_stage. destruct (sv_stage v) as [|r|x r|r|r|o p| |] eqn:Hst; try solve [apply keeps_same_field; walk_in].
  pose proof (Hsave v x r eq_refl Hst) as Hrun. apply same_field_bind; [|intros; walk]. rewrite Hch. by apply same_field_ignored.
Qed.
End Turns.
