(* ===== verification/ClaireSystem.v ===== *)
(** The assistant supervisor as a transition system: the input and output threads
    of the bridge, the threads of its turns, their processes, and everything else
    that calls the hub, in any order. *)
From S2P Require Import Prelude.
From S2P Require Import RustStr.
From S2P Require Import Platform.
From S2P Require Import Ids.
From S2P Require Import Entities.
From S2P Require Import Event.
From S2P Require Import Settings.
From S2P Require Import HubState.
From S2P Require Import HubCommands.
From S2P Require Import HubInv.
From S2P Require Import HubSystem.
From S2P Require Import Process.
From S2P Require Import NodeEngine.
From S2P Require Import ClaireText.
From S2P Require Import Claire.
From S2P Require Import ClaireFacts.
From S2P Require Import Protocol.
From S2P Require Import Schema.
From S2P Require Import Store.
From S2P Require Import StoreInv.
From S2P Require Import StoreStep.
From S2P Require Import Links.
From S2P Require Import HubFacts.

Local Open Scope Z_scope.

(** ** Processes started *)
Section Spawns.
Context {P : Platform} {PL : PlatformLaws P} {E : Env P} {CE : ClaireEnv}.
Context (channel : string).

Definition same_commands (s s' : Claire) : Prop := cl_commands s' = cl_commands s.
#[export] Instance same_commands_preorder : PreOrder same_commands.
Proof. split; [done|]. intros x y z H1 H2. unfold same_commands in *. congruence. Qed.

(** At most [n] processes. *)
Definition spawned (n : nat) (s s' : Claire) : Prop :=
  exists l, cl_commands s' = cl_commands s ++ l /\ (length l <= n)%nat.
Definition spawns {A} (n : nat) (m : M Claire A) : Prop := forall s, spawned n s (snd (m s)).

Lemma spawns_same {A} n (m : M Claire A) : preserves same_commands m -> spawns n m.
Proof. intros Hm s. exists []. rewrite app_nil_r (Hm s). cbn. split; [done|lia]. Qed.

Lemma spawns_bind_l {A B} n (m : M Claire A) (f : A -> M Claire B) :
  preserves same_commands m -> (forall a, spawns n (f a)) -> spawns n (m ≫= f).
Proof.
  intros Hm Hf s. unfold mbind, M_bind. pose proof (Hm s) as H. destruct (m s) as [[a|e] s1]; cbn in H.
  - destruct (Hf a s1) as (l & Hl & Hn). exists l. by rewrite Hl H.
  - exists []. rewrite app_nil_r. cbn. split; [done|lia].
Qed.

Lemma spawns_bind_r {A B} n (m : M Claire A) (f : A -> M Claire B) :
  spawns n m -> (forall a, preserves same_commands (f a)) -> spawns n (m ≫= f).
Proof.
  intros Hm Hf s. unfold mbind, M_bind. destruct (Hm s) as (l & Hl & Hn).
  destruct (m s) as [[a|e] s1]; cbn in Hl; exists l; [|done]. by rewrite (Hf a s1) Hl.
Qed.

Lemma spawns_try {A} n (m : M Claire A) : spawns n m -> spawns n (try m).
Proof. intros Hm s. specialize (Hm s). unfold try. by destruct (m s). Qed.

Lemma commands_on_hub {A} (m : M HubState A) : preserves same_commands (on_hub m).
Proof. intros s. unfold on_hub. by destruct (m (cl_hub s)). Qed.
Lemma commands_terminate slot : preserves same_commands (terminate_job slot).
Proof. intros s. unfold terminate_job. by destruct (mjoin _). Qed.
#[local] Hint Resolve commands_on_hub commands_terminate same_commands_preorder : hub.
#[local] Hint Extern 1 (preserves same_commands (modify _)) => apply preserves_modify; done : hub.

Lemma commands_notes settings notes : preserves same_commands (remember_notes settings notes).
Proof. induction notes as [|n notes IH]; cbn [remember_notes]; walk_in. Qed.
Lemma commands_actions settings actions : preserves same_commands (execute_actions channel settings actions).
Proof. induction actions as [|a actions IH]; cbn [execute_actions]; walk_in. Qed.
#[local] Hint Resolve commands_notes commands_actions : hub.

Lemma commands_event send event : preserves same_commands (observe_event channel send event).
Proof. walk_in. Qed.
Lemma commands_reconcile : preserves same_commands (reconcile_claire_runner channel).
Proof. walk_in. Qed.
Lemma commands_thread i result : preserves same_commands (supervisor_step i result).
Proof. walk_in. Qed.
Lemma commands_stop : preserves same_commands (input_stop channel).
Proof. walk_in. Qed.

Lemma spawns_start sp settings turn : spawns 1 (runner_start sp channel settings turn).
Proof.
  unfold runner_start. apply spawns_bind_l; [walk|intros r]. apply spawns_bind_l; [walk|intros [job|]];
    [apply spawns_same; walk|]. destruct (engine_definition _); [|apply spawns_same; walk].
  apply spawns_bind_r; [|intros; walk_in]. intros s. by exists [spawn_command e (claire_request settings turn)].
Qed.

Lemma spawns_turn sp prompt : spawns 1 (start_claire_turn sp channel prompt).
Proof.
  unfold start_claire_turn. apply spawns_bind_l; [walk_in|intros turn]. apply spawns_bind_l; [walk_in|intros _].
  apply spawns_bind_l; [walk_in|intros [settings|e]]; [|apply spawns_same; walk_in].
  apply spawns_bind_r; [apply spawns_try, spawns_start|intros; walk_in].
Qed.

Lemma spawns_follow_up sp : spawns 1 (start_pending_claire_follow_up sp channel).
Proof.
  unfold start_pending_claire_follow_up. apply spawns_bind_l; [walk|intros busy]. case_match; [apply spawns_same; walk|].
  apply spawns_bind_l; [walk_in|intros [session|]]; [|apply spawns_same; walk].
  case_match; [|apply spawns_same; walk]. cbv zeta. apply spawns_bind_l; [walk_in|intros [[]|e]]; [|apply spawns_same; walk].
  apply spawns_bind_r; [apply spawns_try, spawns_turn|intros; walk_in].
Qed.

Lemma spawns_wake sp : spawns 1 (wake_claire_for_pending_worker sp channel).
Proof.
  unfold wake_claire_for_pending_worker. apply spawns_bind_l; [walk|intros busy]. case_match; [apply spawns_same; walk|].
  apply spawns_bind_l; [walk_in|intros [[|wake wakes]|e]]; [apply spawns_same; walk| |apply spawns_same; walk].
  unfold assess_wake. apply spawns_bind_l; [walk_in|intros c]. apply spawns_bind_l; [walk_in|intros [turn|e]];
    [|apply spawns_same; walk_in]. apply spawns_bind_l; [walk_in|intros [[]|e]]; [|apply spawns_same; walk_in].
  case_match; [|apply spawns_same; walk_in]. apply spawns_bind_l; [walk_in|intros _].
  apply spawns_bind_l; [walk_in|intros [settings|e]]; [|apply spawns_same; walk_in].
  apply spawns_bind_r; [apply spawns_try, spawns_start|intros; walk_in].
Qed.

Lemma spawns_input sp text : spawns 1 (handle_claire_input sp channel text).
Proof.
  unfold handle_claire_input. apply spawns_bind_l; [walk_in|intros busy]. case_match; [apply spawns_same; walk|].
  unfold input_command. repeat case_match; first [apply spawns_turn | apply spawns_same; solve [walk_in]].
Qed.
End Spawns.

(** ** The system *)
Section System.
Context {P : Platform} {PL : PlatformLaws P} {E : Env P} {CE : ClaireEnv}.
Context (channel : string).

(** The copy of the session a thread is about to write back still names the run
    the session has: no turn was started or ended since it was read. *)
Definition write_back_current (v : Supervisor) (s : Claire) : Prop :=
  forall x r, sv_stage v = Sv_save x r -> run_of channel s = ss_run_id x.

Inductive claire_step (s : Claire) : Claire -> Prop :=
| Step_input sp text : claire_step s (snd (handle_claire_input sp channel text s))
| Step_event send event : claire_step s (snd (observe_event channel send event s))
| Step_reconcile : claire_step s (snd (reconcile_claire_runner channel s))
| Step_follow_up sp : claire_step s (snd (start_pending_claire_follow_up sp channel s))
| Step_wake sp : claire_step s (snd (wake_claire_for_pending_worker sp channel s))
| Step_exit slot : claire_step s (claire_child_exited slot s)
| Step_thread i v result :
    cl_supervisors s !! i = Some v -> sv_channel v = channel -> write_back_current v s ->
    claire_step s (snd (supervisor_step i result s))
| Step_hub c :
    writes_setting c <> Some (session_key channel) ->
    claire_step s (set_cl_hub (hub_call c (cl_hub s)) s).

Definition claire_steps : relation Claire := rtc claire_step.

Lemma claire_step_inv s s' : claire_step s s' -> turn_inv channel s -> turn_inv channel s'.
Proof.
  intros Hs Hinv. destruct Hs as [sp text|send event| |sp|sp|slot|i v result Hv Hch Hw|c Hc].
  - by apply handle_claire_input_inv.
  - by apply observe_event_inv.
  - eapply turn_inv_run; [apply reconcile_run|done].
  - by apply start_follow_up_inv.
  - by apply wake_claire_inv.
  - done.
  - apply supervisor_step_inv; [|by intros v'; rewrite Hv; intros [= <-]|done].
    intros v' x r. rewrite Hv. intros [= <-]. by apply Hw.
  - eapply turn_inv_run; [|done]. split; [done|]. unfold run_of, session_in, session_of. cbn [cl_hub set_cl_hub].
    by rewrite (assistant_session_row channel _ _ (setting_hub_call _ c (cl_hub s) Hc)).
Qed.

Lemma claire_steps_inv h s : claire_steps (claire_new h) s -> turn_inv channel s.
Proof.
  intros H. remember (claire_new h) as s0 eqn:H0. assert (turn_inv channel s0) as Hinv.
  { subst. by apply turn_inv_idle. }
  clear H0. induction H as [|s0 s1 s2 Hs _ IH]; [done|]. by eapply IH, claire_step_inv.
Qed.

(** While a turn is busy nothing starts another. *)
Lemma busy_spawns_nothing s s' : turn_inv channel s -> cl_busy s <> ∅ -> claire_step s s' -> same_commands s s'.
Proof.
  intros Hinv Hbusy Hs. destruct Hs as [sp text|send event| |sp|sp|slot|i v result Hv Hch Hw|c Hc].
  - unfold handle_claire_input, mbind at 1, M_bind at 1.
    destruct (current_turn_is_busy_spec channel s Hinv) as (r & -> & _ & Htrue). rewrite (Htrue Hbusy). cbn [andb].
    destruct (String.eqb_spec (trim text) "/stop") as [->|]; cbn [orb negb]; [apply commands_stop|].
    destruct (String.eqb_spec (trim text) "/where") as [->|]; cbn [orb negb]; [|done].
    change (input_command sp channel "/where") with
      (settings ← on_hub assistant_settings; mret (M := M Claire) (Some (where_text settings))).
    apply preserves_bind; [apply _|apply commands_on_hub|]. intros. apply preserves_ret, _.
  - apply commands_event.
  - apply commands_reconcile.
  - unfold start_pending_claire_follow_up, mbind at 1, M_bind at 1. cbn [gets].
    by rewrite bool_decide_eq_false_2.
  - unfold wake_claire_for_pending_worker, mbind at 1, M_bind at 1. cbn [gets].
    by rewrite bool_decide_eq_false_2.
  - done.
  - apply commands_thread.
  - done.
Qed.

(** A step starts one process at most. *)
Lemma step_spawns_one s s' : claire_step s s' -> spawned 1 s s'.
Proof.
  assert (forall x y, same_commands x y -> spawned 1 x y) as Hsame.
  { intros x y H. exists []. rewrite app_nil_r H. cbn. split; [done|lia]. }
  intros Hs. destruct Hs as [sp text|send event| |sp|sp|slot|i v result Hv Hch Hw|c Hc].
  - apply spawns_input.
  - apply Hsame, commands_event.
  - apply Hsame, commands_reconcile.
  - apply spawns_follow_up.
  - apply spawns_wake.
  - by apply Hsame.
  - apply Hsame, commands_thread.
  - by apply Hsame.
Qed.
End System.

(** What becomes of a worker's wake: nothing but the delivered final answer of the
    turn that assesses it closes it. *)

(** ** The store *)
Section StoreWakes.
Context {P : Platform} {PL : PlatformLaws P}.
Context (i : EventId).

(** The wake is recorded and not processed. *)
Definition open_wake (d : Db) : bool := existsb (wake_open i) (db_wakes d).
Definition stays_open (d d' : Db) : Prop := open_wake d = true -> open_wake d' = true.
#[export] Instance stays_open_preorder : PreOrder stays_open.
Proof. split; [by unfold stays_open; intros d|]. intros x y z H1 H2 H. by apply H2, H1. Qed.

Lemma existsb_map_keep {A} (p : A -> bool) (f : A -> A) l :
  (forall x, p x = true -> p (f x) = true) -> existsb p l = true -> existsb p (map f l) = true.
Proof.
  intros Hf. rewrite !existsb_exists. intros (x & Hx & Hp). exists (f x). split; [by apply in_map|by apply Hf].
Qed.

Lemma open_append_command now fresh c draft entity x :
  preserves stays_open (append_command_bundle now fresh c draft entity x).
Proof. unfold_append. db_walk. Qed.
Lemma open_append_node_event now e draft : preserves stays_open (append_node_event now e draft).
Proof.
  unfold_append. db_walk. apply db_insert; [apply _|]. intros d. unfold stays_open, open_wake. cbn.
  rewrite existsb_app. by intros ->.
Qed.
Lemma open_worker now ch t : preserves stays_open (register_assistant_worker now ch t).
Proof. unfold register_assistant_worker. db_walk. Qed.
Lemma open_resolve a dec actor now : preserves stays_open (resolve_approval a dec actor now).
Proof. pose proof read_approval. unfold resolve_approval. db_walk. Qed.
Lemma open_ack now c n : preserves stays_open (acknowledge_dispatch_from now c n).
Proof. unfold acknowledge_dispatch_from. db_walk. Qed.
Lemma open_node node : preserves stays_open (upsert_node node).
Proof. unfold upsert_node. db_walk. Qed.
Lemma open_setting now k v : preserves stays_open (put_setting now k v).
Proof. unfold put_setting. db_walk. Qed.

(** A deferred wake is still open. *)
Lemma open_defer now j e : preserves stays_open (defer_assistant_wake now j e).
Proof.
  unfold defer_assistant_wake, query_row. db_walk. apply db_update. intros d. unfold stays_open, open_wake. cbn.
  apply existsb_map_keep. intros r Hr. by destruct (wake_open j r).
Qed.

(** Completing a wake leaves the others open. *)
Lemma open_complete now j : j <> i -> preserves stays_open (complete_assistant_wake now j).
Proof.
  intros Hj. unfold complete_assistant_wake. db_walk. apply db_update. intros d. unfold stays_open, open_wake. cbn.
  apply existsb_map_keep. intros r Hr. destruct (wake_open j r) eqn:Hjr; [|done]. exfalso. apply Hj.
  unfold wake_open in *. apply andb_true_iff in Hr as [Hr _], Hjr as [Hjr _].
  apply String.eqb_eq in Hr, Hjr. apply id_to_string_inj. congruence.
Qed.
End StoreWakes.

(** ** The hub *)
Section HubWakes.
Context {P : Platform} {PL : PlatformLaws P} {E : Env P}.
Context (i : EventId).

Definition hub_open (s s' : HubState) : Prop := stays_open i (hs_hub s) (hs_hub s').
#[export] Instance hub_open_preorder : PreOrder hub_open.
Proof. split; [by unfold hub_open, stays_open; intros s|]. intros x y z. unfold hub_open. apply stays_open_preorder. Qed.

Lemma wake_with_hub {A} (f : M Db A) : preserves (stays_open i) f -> preserves hub_open (with_hub f).
Proof. intros Hf s. rewrite with_hub_snd. apply Hf. Qed.

Lemma wake_quiet {A} (m : M HubState A) : (forall s, hs_hub (snd (m s)) = hs_hub s) -> preserves hub_open m.
Proof. intros H s. unfold hub_open. rewrite H. by unfold stays_open. Qed.

Lemma wake_disconnect n :
  preserves hub_open (with_hub (
    found ← get_node n;
    match found with
    | Some node =>
        upsert_node (MkNode (n_id node) (n_label node) ConnectionStatus.Disconnected
                       (n_software_version node) (n_capabilities node) (n_last_seen_sequence node))
    | None => mret tt
    end)).
Proof.
  apply wake_with_hub, preserves_bind; [apply _|apply db_read; [apply _|apply read_get_node]|].
  intros [node|]; [apply open_node|apply preserves_ret; apply _].
Qed.

#[local] Hint Resolve hub_open_preorder wake_disconnect : hub.
#[local] Hint Extern 1 (preserves hub_open utc_now) => by apply wake_quiet : hub.
#[local] Hint Extern 1 (preserves hub_open fresh_id) => by apply wake_quiet : hub.
#[local] Hint Extern 1 (preserves hub_open (bus_send _)) => by apply wake_quiet : hub.
#[local] Hint Extern 1 (preserves hub_open (channel_send _ _)) =>
  apply wake_quiet; intros ?; unfold channel_send; by repeat case_match : hub.
#[local] Hint Extern 1 (preserves hub_open (route_to_node _ _)) => apply wake_quiet; intros ?; apply route_hub : hub.
#[local] Hint Extern 1 (preserves hub_open (register_node _ _)) => by apply wake_quiet : hub.
#[local] Hint Extern 1 (preserves hub_open (unregister_node _ _)) =>
  apply wake_quiet; intros ?; unfold unregister_node; by repeat case_match : hub.
#[local] Hint Extern 1 (preserves hub_open unbounded_channel) => by apply wake_quiet : hub.
#[local] Hint Extern 1 (preserves hub_open (drop_receiver _)) => by apply wake_quiet : hub.
#[local] Hint Extern 1 (preserves hub_open (remember_run _ _ _)) => by apply wake_quiet : hub.
#[local] Hint Extern 1 (preserves hub_open (node_outbound _ _)) =>
  apply wake_quiet; intros ?; unfold node_outbound; by repeat case_match : hub.
#[local] Hint Extern 1 (preserves hub_open (with_hub _)) =>
  apply wake_with_hub; first
    [ apply open_append_command | apply open_append_node_event | apply open_worker | apply open_defer
    | apply open_resolve | apply open_ack | apply open_node | apply open_setting
    | apply db_read; [apply _|]; first
        [ done | exact (read_get_run _) | exact (read_outcome _) | exact (read_setting _) | exact (read_recent _)
        | exact (read_tail _ _) | exact (read_fetch _) ] ] : hub.

Lemma wake_updates v t cs : preserves hub_open (send_updates v t cs).
Proof. induction cs as [|c cs IH]; cbn [send_updates]; walk. Qed.
#[local] Hint Resolve wake_updates : hub.

(** Every call but its own completion leaves the wake open. *)
Lemma wake_hub_call c s : c <> Call_complete_wake i -> hub_open s (hub_call c s).
Proof.
  intros Hc. destruct c; cbn [hub_call];
    match goal with |- hub_open s (snd (?m s)) => enough (preserves hub_open m) as H by apply H end;
    try solve [walk_in].
  unfold hub_complete_assistant_wake. walk1; [walk|]. apply wake_with_hub, open_complete. congruence.
Qed.

(** *** The bridge *)

Context {CE : ClaireEnv}.
Context (channel : string).

Definition claire_open (s s' : Claire) : Prop := hub_open (cl_hub s) (cl_hub s').
#[export] Instance claire_open_preorder : PreOrder claire_open.
Proof. split; [intros s; unfold claire_open; reflexivity|]. intros x y z H1 H2. unfold claire_open in *. by etrans. Qed.

Lemma open_on_hub {A} (m : M HubState A) : preserves hub_open m -> preserves claire_open (on_hub m).
Proof. intros Hm s. specialize (Hm (cl_hub s)). unfold on_hub, claire_open. by destruct (m (cl_hub s)). Qed.
Lemma open_modify (f : Claire -> Claire) : (forall s, cl_hub (f s) = cl_hub s) -> preserves claire_open (modify f).
Proof. intros H s. unfold claire_open. cbn. rewrite H. reflexivity. Qed.
Lemma open_terminate slot : preserves claire_open (terminate_job slot).
Proof. intros s. unfold terminate_job, claire_open. destruct (mjoin _); cbn; reflexivity. Qed.
Lemma open_spawn sp def rq : preserves claire_open (spawn_job sp def rq).
Proof. intros s. unfold claire_open. cbn. reflexivity. Qed.

#[local] Hint Resolve claire_open_preorder open_terminate open_spawn : hub.
#[local] Hint Extern 1 (preserves claire_open (modify _)) => by apply open_modify : hub.

Ltac claire_walk :=
  repeat first
    [ match goal with |- preserves claire_open (on_hub _) => apply open_on_hub end
    | walk1
    | match goal with |- preserves _ ?m => let h := head m in progress unfold h end ].

Lemma open_notes settings notes : preserves claire_open (remember_notes settings notes).
Proof. induction notes as [|n notes IH]; cbn [remember_notes]; claire_walk. Qed.
Lemma open_actions settings actions : preserves claire_open (execute_actions channel settings actions).
Proof. induction actions as [|a actions IH]; cbn [execute_actions]; claire_walk. Qed.
#[local] Hint Resolve open_notes open_actions : hub.

Lemma open_input sp text : preserves claire_open (handle_claire_input sp channel text).
Proof. claire_walk. Qed.
Lemma open_follow_up sp : preserves claire_open (start_pending_claire_follow_up sp channel).
Proof. claire_walk. Qed.
Lemma open_wake_turn sp : preserves claire_open (wake_claire_for_pending_worker sp channel).
Proof. claire_walk. Qed.
Lemma open_reconcile : preserves claire_open (reconcile_claire_runner channel).
Proof. claire_walk. Qed.
Lemma open_thread k result : preserves claire_open (supervisor_step k result).
Proof. claire_walk. Qed.
Lemma open_process event : preserves claire_open (process_claire_event channel event).
Proof. claire_walk. Qed.
Lemma open_forget wake : preserves claire_open (forget_wake channel wake).
Proof. claire_walk. Qed.

(** Settling a turn closes at most its own wake, delivered and with nothing to follow. *)
Lemma settle_wake_open delivered projection :
  ~ (delivered = true /\ cp_awaiting_follow_up projection = false /\ cp_wake_event_id projection = Some i) ->
  preserves claire_open (settle_wake channel delivered projection).
Proof.
  intros Hnot. pose proof open_forget. unfold settle_wake.
  destruct (cp_wake_event_id projection) as [w|], delivered, (cp_awaiting_follow_up projection); cbn [andb negb];
    try solve [claire_walk].
  walk1; [|auto]. unfold ignore. walk1; [|walk]. apply preserves_try, open_on_hub.
  unfold hub_complete_assistant_wake. walk1; [walk|]. apply wake_with_hub, open_complete. intros ->. by apply Hnot.
Qed.
End HubWakes.

(** ** Which answer closes a wake *)
Section Closing.
Context {P : Platform} {PL : PlatformLaws P} {E : Env P} {CE : ClaireEnv}.
Context (channel : string).

Definition answer_of (event : Event) : ClaireEnvelope :=
  parse_claire_envelope (default EmptyString (get_str "text" (e_payload event))).

(** Every action reports. *)
Lemma execute_actions_length settings actions s results s' :
  execute_actions channel settings actions s = (Ok results, s') -> length results = length actions.
Proof.
  revert s results s'. induction actions as [|a actions IH]; cbn [execute_actions]; intros s results s' H.
  - by apply m_ret_ok in H as [-> _].
  - apply m_bind_ok in H as (r & s1 & _ & H). apply m_bind_ok in H as (rest & s2 & Hrest%IH & H).
    apply m_ret_ok in H as [-> _]. cbn. by rewrite Hrest.
Qed.

Lemma internal_work_none envelope s s' :
  internal_work channel envelope s = (Ok [], s') -> ce_actions envelope = [].
Proof.
  unfold internal_work. intros H. apply m_bind_ok in H as ([settings|e] & s1 & _ & H).
  - apply m_bind_ok in H as (notes & s2 & _ & H). apply m_bind_ok in H as (results & s3 & Hr%execute_actions_length & H).
    apply m_ret_ok in H as [H _]. symmetry in H. apply app_eq_nil in H as [_ ->]. by destruct (ce_actions envelope).
  - apply m_ret_ok in H as [H _]. unfold has_internal_work in H.
    destruct (ce_remember envelope), (ce_actions envelope); done.
Qed.

(** An answer that names a wake to close asked for no action; the wake is the session's. *)
Lemma perform_envelope_wake envelope s pr s' w :
  perform_envelope channel envelope s = (Ok pr, s') -> cp_wake_event_id pr = Some w ->
  session_in channel s ≫= ss_pending_wake_event_id = Some w /\
  (cp_awaiting_follow_up pr = false -> ce_actions envelope = [] /\ cp_reply pr = envelope_reply envelope).
Proof.
  intros H Hw. pose proof (perform_envelope_field channel ss_pending_wake_event_id envelope (fun _ _ _ => eq_refl) s) as [_ Hf].
  rewrite H in Hf. cbn [snd] in Hf. rewrite -Hf. clear Hf.
  unfold perform_envelope in H. apply m_bind_ok in H as (results & s1 & Hres & H).
  apply m_bind_ok in H as (reply & s2 & Hreply & H). apply m_bind_ok in H as (x & s3 & Hx & H).
  rewrite session_now_eq in Hx. injection Hx as <- <-. apply m_ret_ok in H as [-> ->]. cbn in Hw |- *.
  split; [done|]. destruct results as [|r results]; [|done]. intros _.
  apply internal_work_none in Hres. by apply m_ret_ok in Hreply as [-> _].
Qed.

Lemma process_event_wake event s pr s' w :
  process_claire_event channel event s = (Ok pr, s') -> cp_wake_event_id pr = Some w ->
  session_in channel s ≫= ss_pending_wake_event_id = Some w /\ e_kind event = MessageAssistantCompleted /\
  ce_malformed (answer_of event) = false /\
  (cp_awaiting_follow_up pr = false -> ce_actions (answer_of event) = [] /\ cp_reply pr = envelope_reply (answer_of event)).
Proof.
  unfold process_claire_event. intros H Hw. destruct (e_kind event) eqn:Hkind;
    try (apply m_ret_ok in H as [-> _]; done).
  - exfalso. apply m_bind_ok in H as (? & s1 & _ & H). by apply m_ret_ok in H as [-> _].
  - exfalso. apply m_bind_ok in H as ([] & s1 & _ & H). apply m_bind_ok in H as (x & s2 & _ & H).
    apply m_bind_ok in H as ([] & s3 & _ & H). by apply m_ret_ok in H as [-> _].
  - exfalso. apply m_bind_ok in H as ([? ?] & s1 & _ & H). by apply m_ret_ok in H as [-> _].
  - unfold process_answer in H. fold (answer_of event) in H.
    assert (forall reason reply s0, refuse_answer channel reason reply s0 = (Ok pr, s') -> False) as Hrefuse.
    { unfold refuse_answer. intros reason reply s0 Hr. apply m_bind_ok in Hr as (x & s1 & _ & Hr).
      apply m_bind_ok in Hr as (b & s2 & _ & Hr). by apply m_ret_ok in Hr as [-> _]. }
    destruct (ce_malformed (answer_of event)); [by apply Hrefuse in H|].
    apply m_bind_ok in H as (x & s1 & Hx & H). rewrite session_now_eq in Hx. injection Hx as <- <-.
    destruct (_ && _); [by apply Hrefuse in H|]. apply m_bind_ok in H as ([] & s2 & H2 & H).
    pose proof (clear_in_progress_field channel ss_pending_wake_event_id
      (match session_in channel s with Some y => ss_action_follow_up_in_progress y | None => false end)
      (fun _ _ _ => eq_refl) s) as [_ Hf]. rewrite H2 in Hf. cbn [snd] in Hf. rewrite -Hf.
    destruct (perform_envelope_wake _ _ _ _ _ H Hw) as [H1 H3]. done.
Qed.

Section OneWake.
Context (i : EventId).
Implicit Types s : Claire.

Definition wake_is_open (s : Claire) : bool := open_wake i (hs_hub (cl_hub s)).

(** What closed the wake, when a step did. *)
Definition closed_by_answer (s s' : Claire) : Prop :=
  exists send event x,
    s' = snd (observe_event channel send event s) /\
    session_in channel s = Some x /\ is_claire event (Some x) = true /\ ss_pending_wake_event_id x = Some i /\
    e_kind event = MessageAssistantCompleted /\ ce_malformed (answer_of event) = false /\
    ce_actions (answer_of event) = [] /\
    (forall reply, envelope_reply (answer_of event) = Some reply -> send reply = true).

Lemma open_kept {A} (m : M Claire A) s :
  preserves (claire_open i) m -> wake_is_open s = true -> wake_is_open (snd (m s)) = true.
Proof. intros Hm. apply (Hm s). Qed.

Lemma handle_event_closes send event x s :
  session_in channel s = Some x -> is_claire event (Some x) = true ->
  wake_is_open s = true -> wake_is_open (snd (observe_event channel send event s)) = false ->
  closed_by_answer s (snd (observe_event channel send event s)).
Proof.
  intros Hx Hc Ho Hclosed.
  assert (observe_event channel send event s = handle_claire_event channel send event s) as Hobs.
  { unfold observe_event, mbind, M_bind. by rewrite session_now_eq Hx Hc. }
  exists send, event, x. split; [done|]. rewrite Hobs in Hclosed. clear Hobs.
  unfold handle_claire_event, mbind at 1, M_bind at 1 in Hclosed.
  destruct (process_claire_event channel event s) as [[pr|e] s1] eqn:Hp.
  2:{ pose proof (open_kept _ s (open_process i channel event) Ho) as H. rewrite Hp in H. cbn in *. congruence. }
  pose proof (open_kept _ s (open_process i channel event) Ho) as Ho1. rewrite Hp in Ho1. cbn in Ho1.
  set (delivered := match cp_reply pr with Some reply => send reply | None => true end) in Hclosed.
  assert (delivered = true /\ cp_awaiting_follow_up pr = false /\ cp_wake_event_id pr = Some i) as (Hd & Ha & Hw).
  { destruct (decide (delivered = true /\ cp_awaiting_follow_up pr = false /\ cp_wake_event_id pr = Some i)) as [H|H];
      [done|exfalso]. pose proof (open_kept _ s1 (settle_wake_open i channel delivered pr H) Ho1) as Hs.
    unfold mbind, M_bind in Hclosed. destruct (settle_wake channel delivered pr s1) as [[[]|e] s2]; cbn in *; congruence. }
  destruct (process_event_wake _ _ _ _ _ Hp Hw) as (Hpend & Hkind & Hwf & Hans).
  destruct (Hans Ha) as [Hact Hreply]. rewrite Hx in Hpend. split_and!; try done.
  intros reply Hr. unfold delivered in Hd. by rewrite Hreply Hr in Hd.
Qed.

(** A wake that a step closes was closed by such an answer, or by a caller of the
    hub's own completion. *)
Lemma step_closes s s' :
  claire_step channel s s' -> wake_is_open s = true -> wake_is_open s' = false ->
  closed_by_answer s s' \/ s' = set_cl_hub (hub_call (Call_complete_wake i) (cl_hub s)) s.
Proof.
  intros Hs Ho Hc.
  assert (forall A (m : M Claire A), preserves (claire_open i) m -> s' = snd (m s) -> False) as Hno.
  { intros A m Hm ->. pose proof (open_kept m s Hm Ho). congruence. }
  destruct Hs as [sp text|send event| |sp|sp|slot|j v result Hv Hch Hw|c Hcall].
  - exfalso. by eapply Hno; [apply open_input|].
  - left. destruct (session_in channel s) as [x|] eqn:Hx; [destruct (is_claire event (Some x)) eqn:Hcl|].
    + by eapply handle_event_closes.
    + exfalso. revert Hc. unfold observe_event, mbind, M_bind. rewrite session_now_eq Hx Hcl. cbn. by rewrite Ho.
    + exfalso. revert Hc. unfold observe_event, mbind, M_bind. rewrite session_now_eq Hx. cbn. by rewrite Ho.
  - exfalso. by eapply Hno; [apply open_reconcile|].
  - exfalso. by eapply Hno; [apply open_follow_up|].
  - exfalso. by eapply Hno; [apply open_wake_turn|].
  - unfold wake_is_open in *. cbn in Hc. congruence.
  - exfalso. by eapply Hno; [apply open_thread|].
  - right. assert (c = Call_complete_wake i \/ c <> Call_complete_wake i) as [->|Hne]; [|done|exfalso].
    { destruct c; try by right. destruct (decide (i0 = i)) as [->|Hj]; [by left|right; congruence]. }
    pose proof (wake_hub_call i c (cl_hub s) Hne Ho). unfold wake_is_open in Hc. cbn in Hc. congruence.
Qed.
End OneWake.
End Closing.
