(* ===== verification/ActivityTheorems.v ===== *)
(** The properties of the activity tracker's parts: the calendar, the agent's
    queue, the credit model with its timeline segments, and file-save
    reattribution. *)
From S2P Require Import Prelude.
From S2P Require Import RustStr.
From S2P Require Import Platform.
From S2P Require Import TestPlatform.
From S2P Require Import Float64.
From S2P Require Import Credits.
From S2P Require Import Reattribute.
From S2P Require Import AgentQueue.
From S2P Require Import Calendar.

Local Open Scope Z_scope.

(** The calendar arithmetic is the Gregorian calendar: day numbers and valid
    dates correspond one to one in both directions, 1970-01-01 is day 0, and the
    day after a date is the next day of its month, or the first of the next month,
    or the first of the next year, with leap years every 4 years but centuries not
    divisible by 400; and the date part of the text of any instant from year 0 to
    9999 parses back to the number of its UTC day. *)
Theorem calendar_exact :
  civil_from_days 0 = (1970, 1, 1) /\
  (forall x, valid_date x -> civil_from_days (days_from_civil x.1.1 x.1.2 x.2) = x) /\
  (forall z, let x := civil_from_days z in valid_date x /\ days_from_civil x.1.1 x.1.2 x.2 = z) /\
  (forall z, civil_from_days (z + 1) = next_day (civil_from_days z)) /\
  (forall ms y m d, Z.abs ms <= MAX_DATE_MS -> civil_from_days (ms / 86400000) = (y, m, d) -> 0 <= y <= 9999 ->
     parse_bare_date_days (String.substring 0 10 (js_to_iso_string ms)) = Some (ms / 86400000)).
Proof.
  split_and!.
  - reflexivity.
  - apply civil_of_days.
  - apply days_of_civil.
  - intros z. destruct (days_of_civil z) as [Hv Hz]. set (x := civil_from_days z) in *.
    rewrite -Hz -(next_day_days x Hv). apply civil_of_days. by apply next_day_valid.
  - intros ms y m d Hms Hc Hy. rewrite (iso_date_text ms y m d) //.
    destruct (days_of_civil (ms / 86400000)) as [Hv Hz]. rewrite Hc in Hv Hz. cbn [fst snd] in Hz.
    rewrite date_text_parses //. by rewrite Hz.
Qed.

Section Queue.
Context {P : Platform} {PL : PlatformLaws P} {W : Watchers}.
Context (machine : string).

(** The agent loses no heartbeat: from any state in which the queue file's
    lines are complete and nothing is missing, however often ticks run, wherever
    each is cut short, whichever of its later writes fail and whatever becomes of
    its request, as long as a tick that goes on past the append has written it,
    every row the watchers ever handed over before their saved state is, stamped
    with the machine, readable in the queue file or in the server's hands. *)
Theorem no_heartbeat_lost (d d' : Disk) row :
  framed (dk_queue d) ->
  (forall r, r ∈ map (stamp machine) (covered (dk_state d)) -> r ∈ read_queue (dk_queue d) \/ r ∈ dk_server d) ->
  rtc (agent_step machine) d d' ->
  framed (dk_queue d') /\
  (row ∈ covered (dk_state d') ->
   stamp machine row ∈ read_queue (dk_queue d') \/ stamp machine row ∈ dk_server d').
Proof.
  intros Hf Hk Hs. destruct (agent_steps_safe machine d d' (Build_safe machine d Hf Hk) Hs) as [Hf' Hk'].
  split; [done|]. intros Hr. apply Hk'. apply list_elem_of_fmap. by exists row.
Qed.

(** The queue drains: with no new activity and the server answering, as many
    ticks as there are queued rows empty the queue, and the server has received
    exactly those rows, in order; each request holds at least one row, is within
    the size budget unless it is a single row, and takes as many rows as fit. *)
Theorem queue_drains (t : nat) (d : Disk) :
  (forall t st, (watchers_run t st).1 = []) ->
  let d' := quiet_ticks machine t (length (read_queue (dk_queue d))) d in
  (read_queue (dk_queue d') = [] /\ dk_server d' = dk_server d ++ read_queue (dk_queue d)) /\
  forall row rest budget, exists k,
    take_send_batch (row :: rest) budget = N.of_nat (S k) /\ (k <= length rest)%nat /\
    (k <> 0%nat -> (body_bytes (row :: take k rest) <= budget)%N) /\
    ((k < length rest)%nat -> (budget < body_bytes (row :: take (S k) rest))%N).
Proof.
  intros Hq. cbv zeta. split; [by apply quiet_ticks_drain|]. apply batch_spec.
Qed.

(** A fragment left at the end of the file by an append that was cut short takes
    the next row appended with it. *)
Lemma torn_tail_swallows_row text fragment row :
  framed (Some (text +:+ String LF EmptyString)) -> utf8_valid fragment = true -> byte_free LF fragment = true ->
  json_from_str (fragment +:+ json_to_string row) = None ->
  read_queue (append_queue (Some ((text +:+ String LF EmptyString) +:+ fragment)) [row]) =
    read_queue (Some (text +:+ String LF EmptyString)).
Proof.
  intros [Hu _] Hfu Hff Hj. unfold append_queue, read_queue. cbn [default from_option id]. rewrite Hu.
  assert (str_is_empty (fragment +:+ json_to_string row) = false) as Hne.
  { pose proof (str_nonempty_json row). by destruct fragment. }
  rewrite str_app_assoc utf8_valid_app //.
  { apply utf8_valid_app; [done|apply encode_utf8]. }
  rewrite full_lines_ended omap_app. unfold encode. cbn [encode_rows]. rewrite -str_app_assoc.
  rewrite (full_lines_app LF (fragment +:+ json_to_string row)).
  rewrite (full_lines_one LF (fragment +:+ json_to_string row)) //; [by rewrite byte_free_app Hff json_one_line|].
  cbn. by rewrite Hj !app_nil_r.
Qed.

(** When the append fails, the watchers' state is saved all the same: the rows are
    gone once the request fails too. *)
Lemma failed_append_forgets t d :
  dk_queue d = None -> (watchers_run t (dk_state d)).1 <> [] ->
  let d' := tick machine t false true Unreached true Whole d in
  dk_queue d' = None /\ dk_server d' = dk_server d /\ dk_state d' = (watchers_run t (dk_state d)).2.
Proof.
  intros Hq Hw. unfold tick, fresh_rows, persist_rows, send_pending. rewrite -Hq.
  by destruct (_ ++ map _ _).
Qed.
End Queue.

(** C20: The credit model: crediting keeps exactly the rows it was given; a stream is
    a machine, source and actor, and for agents also a project, and what the rows of
    a stream earn depends on that stream alone: taken by time, with rows of the same
    instant in their input order, each earns the gap to the next one, at most the
    cap, and the last one the fixed credit. *)
Theorem credits_exact (rows : list Heartbeat) (cap_s last_s : f64) :
  map cr_row (compute_credits rows cap_s last_s) ≡ₚ rows /\
  (forall a b, stream_of a = stream_of b <->
     hr_machine a = hr_machine b /\ hr_source a = hr_source b /\ hr_actor a = hr_actor b /\
     (hr_actor a = "agent"%string -> hr_project a = hr_project b)) /\
  (forall k i, earned k (compute_credits rows cap_s last_s) !! i =
     let stream := sort_by by_time (of_stream k rows) in
     (fun r => MkCredited r
        match stream !! S i with Some next => f64_min (f64_sub (hr_time next) (hr_time r)) cap_s | None => last_s end)
     <$> stream !! i) /\
  (Forall timed rows -> forall k, ordered by_time (sort_by by_time (of_stream k rows))) /\
  (f64_is_nan cap_s = false ->
     Forall (fun c => cr_credit c = last_s \/ f64_le (cr_credit c) cap_s = true) (compute_credits rows cap_s last_s)).
Proof.
  split_and!.
  - apply compute_credits_rows.
  - apply stream_of_iff.
  - intros k i. rewrite earned_compute. apply credit_stream_lookup.
  - intros Hall k. apply by_time_ordered, Forall_forall. intros r [_ Hr]%list_elem_of_filter.
    exact (proj1 (Forall_forall _ _) Hall r Hr).
  - apply compute_credits_capped.
Qed.

(** A timeline's segments are the maximal runs: for each project and actor, the
    rows in time order are cut exactly where the gap to the previous row exceeds the
    join gap, every row falls in one run, and the segments with that project and
    actor are what those runs amount to, one for each. *)
Theorem segments_are_maximal_runs (rows : list Credited) (join_gap : f64) (k : string * string) :
  let group := sort_by credited_by_time (filter (fun c => row_key c = k) rows) in
  let rs := runs_of join_gap group in
  filter (fun s => segment_key s = k) (build_segments rows join_gap) ≡ₚ omap (segment_of k.1 k.2) rs /\
  concat rs = group /\ Forall (chained join_gap) rs /\ separated join_gap rs.
Proof.
  cbv zeta. split; [apply build_segments_runs|]. split; [apply runs_of_concat|apply runs_of_gaps].
Qed.

(** C21: File-save reattribution does what it describes, by binary search over
    grouped edits: a row from the editor-files watcher becomes the agent's, with the
    source of the last agent write to the same file on the same machine before it or
    of the first one at or after it, whichever is closer and within the window, the
    earlier one when they are equally close; every other row is unchanged, and the
    order and number of the rows are kept. *)
Theorem reattribution_exact (rows : list Heartbeat) (window_s : f64) :
  Forall timed rows ->
  reattribute_file_saves rows window_s = map (fun r => apply_patch r (expected_patch rows window_s r)) rows.
Proof. apply reattribute_expected. Qed.

(** ** Instances *)

Lemma calendar_exact_witness :
  civil_from_days (11016 + 1) = next_day (civil_from_days 11016) /\ civil_from_days 11016 = (2000, 2, 29) /\
  parse_bare_date_days "2000-02-29" = Some 11016 /\
  iso_ts_for_filename 951782400123 = "2000-02-29T00-00-00-123Z"%string.
Proof.
  destruct calendar_exact as (_ & _ & _ & H4 & H5). split; [apply H4|]. split; [reflexivity|]. split; [|reflexivity].
  apply (H5 951782400123 2000 2 29); [cbv; discriminate|reflexivity|lia].
Defined.

(** Watchers that hand over one row on the first tick only. *)
Definition s_row : @Value test_platform := value_object [("time", value_i64 1)]%string.
#[export] Instance s_watchers : Watchers (P := test_platform) := {|
  WState := list (@Value test_platform);
  watchers_run t st := match t with O => ([s_row], st ++ [s_row]) | _ => ([], st ++ []) end;
  covered st := st;
  covered_run t st := match t with O => eq_refl | _ => eq_refl end;
|}.

Definition s_disk0 : Disk := MkDisk None [] [].
Definition s_disk1 : Disk := tick "mac" 0 true true Unreached true Whole s_disk0.
Definition s_disk2 : Disk := tick "mac" 1 true true Confirmed true After_append s_disk1.

Lemma no_heartbeat_lost_witness :
  stamp "mac" s_row ∈ read_queue (dk_queue s_disk2) \/ stamp "mac" s_row ∈ dk_server s_disk2.
Proof.
  destruct (no_heartbeat_lost "mac" s_disk0 s_disk2 s_row) as [_ H].
  - exact I.
  - intros r Hr. by apply not_elem_of_nil in Hr.
  - eapply rtc_l; [by exists 0%nat, true, true, Unreached, true, Whole|].
    apply rtc_once. by exists 1%nat, true, true, Confirmed, true, After_append.
  - apply H. by left.
Defined.

(** Quiet watchers, and two rows left in the queue. *)
Definition s_quiet : Watchers (P := test_platform) := {|
  WState := unit; watchers_run _ st := ([], st); covered _ := []; covered_run _ _ := eq_refl;
|}.
Definition s_queued : Disk (W := s_quiet) := MkDisk (W := s_quiet) (Some (encode [s_row; value_null])) tt [].

Lemma queue_drains_witness :
  dk_server (quiet_ticks (W := s_quiet) "mac" 0 2 s_queued) = [s_row; value_null] /\
  take_send_batch [s_row; value_null] 3 = 1%N.
Proof.
  destruct (queue_drains (W := s_quiet) "mac" 0 s_queued) as [[_ H] _]; [done|].
  assert (read_queue (dk_queue s_queued) = [s_row; value_null]) as Hr by apply (read_saved (P := test_platform) [s_row; value_null]).
  rewrite Hr in H. split; [exact H|]. vm_refl.
Defined.

(** A save between two edits of the same file, and an unrelated row. *)
Definition s_row_at (time : Z) (source entity actor : string) : Heartbeat :=
  MkHeartbeat 0 (f64_of_Z time) "mac" source "alpha" entity "file" "coding" None None 1 actor 0 0 f64_zero f64_zero.
Definition s_rows : list Heartbeat :=
  [s_row_at 130 "claude-code" "/a.js" "agent"; s_row_at 100 "editor-files" "/a.js" "human";
   s_row_at 70 "codex-cli" "/a.js" "agent"; s_row_at 90 "zed" "/b.js" "human"]%string.

Lemma credits_exact_witness :
  ordered by_time (sort_by by_time (of_stream (MkStreamKey "mac" "zed" "human" "") s_rows)) /\
  Forall (fun c => cr_credit c = f64_of_Z 60 \/ f64_le (cr_credit c) (f64_of_Z 120) = true)
    (compute_credits s_rows (f64_of_Z 120) (f64_of_Z 60)).
Proof.
  destruct (credits_exact s_rows (f64_of_Z 120) (f64_of_Z 60)) as (_ & _ & _ & H3 & H4). split.
  - apply H3. repeat constructor.
  - apply H4. reflexivity.
Defined.

Lemma reattribution_exact_witness :
  map hr_source (reattribute_file_saves s_rows (f64_of_Z 120)) = ["claude-code"; "codex-cli"; "codex-cli"; "zed"]%string.
Proof.
  rewrite (reattribution_exact s_rows (f64_of_Z 120)); [repeat constructor|]. vm_refl.
Defined.
