(* ===== verification/ServerTheorems.v ===== *)
(** The properties of the activity server: who a request is, what an ingest request
    does to the database, and that every heartbeat an agent hands over ends up
    stored exactly once. *)
From S2P Require Import Prelude.
From S2P Require Import RustStr.
From S2P Require Import Float64.
From S2P Require Import Platform.
From S2P Require Import TestPlatform.
From S2P Require Import JsNum.
From S2P Require Import Credits.
From S2P Require Import Schema.
From S2P Require Import Heartbeats.
From S2P Require Import Auth.
From S2P Require Import Ingest.
From S2P Require Import AgentQueue.
From S2P Require Import ActivityFlow.
From Stdlib Require Import Ascii SpecFloat.

Local Open Scope Z_scope.

Section Who.
Context (form_pairs : string -> list (string * string)).

(** C25: Authentication is exact: a request is let in anonymously only when no token
    at all is configured; otherwise only when the token it supplies is the text of a
    configured one, as the global principal for the global token, else as the first
    machine with that token; and an empty token matches nothing. *)
Theorem auth_exact headers query server_cfg :
  let token := get "token" server_cfg in
  let tokens := machine_tokens server_cfg in
  let supplied := request_token form_pairs headers query in
  match authenticate form_pairs headers query server_cfg with
  | Some Open => is_truthy token = false /\ tokens = []
  | Some Global => truthy_string token = Some supplied /\ supplied <> EmptyString
  | Some (Machine m) => first_machine supplied tokens m /\ truthy_string token <> Some supplied /\ supplied <> EmptyString
  | None =>
      (is_truthy token = true \/ tokens <> []) /\ truthy_string token <> Some supplied /\
      Forall (fun e => truthy_string (Some e.2) <> Some supplied) tokens
  end.
Proof.
  cbv zeta. unfold authenticate. destruct (negb _ && _) eqn:Hopen.
  - apply andb_true_iff in Hopen as [Ht%negb_true_iff Htok]. by destruct (machine_tokens server_cfg).
  - case_bool_decide as Hg; [split; [done|by eapply truthy_string_nonempty]|].
    pose proof (find_machine_spec (request_token form_pairs headers query) (machine_tokens server_cfg)) as Hf.
    destruct (find_machine _ _) as [p|].
    + destruct Hf as (m & -> & Hm). split_and!; [done|done|].
      destruct Hm as (before & v & after & _ & Hv & _). by eapply truthy_string_nonempty.
    + split_and!; [|done|done]. apply andb_false_iff in Hopen as [Ht%negb_false_iff|Ht]; [by left|right].
      by destruct (machine_tokens server_cfg).
Qed.

Lemma strip_colon_snoc t : strip_colon (t +:+ ":") = t.
Proof.
  induction t as [|a t IH]; [done|]. change (strip_colon (String a (t +:+ ":")) = String a t).
  destruct t as [|b t]; [by destruct a as [[] [] [] [] [] [] [] []]|].
  transitivity (String a (strip_colon (String b t +:+ ":"))); [|by rewrite IH].
  by destruct a as [[] [] [] [] [] [] [] []].
Qed.

Lemma strip_colon_none t : (forall u, t <> u +:+ ":") -> strip_colon t = t.
Proof.
  induction t as [|a t IH]; [done|]. intros Hn. destruct t as [|b t].
  - destruct (decide (a = ":"%char)) as [->|Ha]; [by destruct (Hn EmptyString)|].
    destruct a as [[] [] [] [] [] [] [] []]; done.
  - transitivity (String a (strip_colon (String b t))); [by destruct a as [[] [] [] [] [] [] [] []]|].
    rewrite IH //. intros u Hu. apply (Hn (String a u)). by rewrite Hu.
Qed.

(** However a client presents its token, the server sees that token: as a Bearer
    header, as a Basic header with the Base64 of the token or of the token and a
    colon, padded or not, or, without an authorization header, as the first api_key
    of the query. *)
Theorem token_forms headers query token pad :
  utf8_valid token = true ->
  (headers "authorization"%string = Some ("Bearer " +:+ token) -> request_token form_pairs headers query = token) /\
  (headers "authorization"%string = Some ("Basic " +:+ base64_encode pad (token +:+ ":")) ->
     request_token form_pairs headers query = token) /\
  ((forall u, token <> u +:+ ":") -> headers "authorization"%string = Some ("Basic " +:+ base64_encode pad token) ->
     request_token form_pairs headers query = token) /\
  (headers "authorization"%string = None -> assoc "api_key" (form_pairs query) = Some token ->
     request_token form_pairs headers query = token).
Proof.
  intros Hu. unfold request_token. split_and!.
  - intros ->. cbn [default from_option id]. by rewrite strip_prefix_app.
  - intros ->. cbn [default from_option id]. change (strip_prefix "Bearer " ("Basic " +:+ ?x)) with (@None string).
    rewrite strip_prefix_app base64_roundtrip from_utf8_lossy_valid; [by apply utf8_valid_app|]. apply strip_colon_snoc.
  - intros Hc ->. cbn [default from_option id]. change (strip_prefix "Bearer " ("Basic " +:+ ?x)) with (@None string).
    rewrite strip_prefix_app base64_roundtrip from_utf8_lossy_valid //. by apply strip_colon_none.
  - intros -> Hq. cbn. by rewrite Hq.
Qed.
End Who.

Section Server.
Context {P : Platform} {PL : PlatformLaws P}.
Context (form_pairs : string -> list (string * string)) (raw : JsonTree).

(** C24: An ingest request is all or nothing and stays within its scope: when it is
    answered 200, the request was admitted, its body is an array, and the database
    has kept every heartbeat and gained one for each key of the rows that was not
    there, and for no other; each comes from a row of the request, carries the
    moment of the request, and is stored for a machine the principal may write; the
    answer counts the rows and the heartbeats gained. Any other answer leaves the
    database as it was. Keys stay unique. *)
Theorem ingest_exact fault now r d res d' :
  table_ok (ad_heartbeats d) -> ingest_handler form_pairs raw fault now r d = (res, d') ->
  (rs_status res = 200 ->
     exists p parsed rows new, admitted form_pairs raw r = inl (p, parsed) /\ value_as_array parsed = Some rows /\
       rs_body res = ok_body (Z.of_nat (length new)) (Z.of_nat (length rows)) /\
       d' = set_heartbeats (ad_heartbeats d ++ new) d /\
       (forall k, k ∈ map hb_key (ad_heartbeats d') <-> k ∈ map hb_key (ad_heartbeats d) \/ Some k ∈ map row_key rows) /\
       Forall (fun h => hr_created_at h = now /\ may_store p (hr_machine h) /\
         exists row h', row ∈ rows /\ heartbeat_of now (value_tree row) = Some h' /\ same_but_moment h h') new) /\
  (rs_status res <> 200 -> d' = d) /\
  NoDup (map hb_key (ad_heartbeats d')).
Proof.
  intros Ht Hi. destruct (ingest_cases _ _ _ _ _ _ _ _ Ht Hi) as [(p & parsed & rows & new & H1 & H2 & -> & -> & Hn)|[-> Hst]].
  - split_and!; [|done|apply (ad_ok _ _ _ _ (ig_added _ _ _ _ _ Hn))]. intros _. exists p, parsed, rows, new.
    split_and!; try done; [apply (ad_key _ _ _ _ (ig_added _ _ _ _ _ Hn))|].
    apply Forall_forall. intros h Hh. split_and!.
    + exact (proj1 (Forall_forall _ _) (ad_moment _ _ _ _ (ig_added _ _ _ _ _ Hn)) h Hh).
    + exact (proj1 (Forall_forall _ _) (ig_scope _ _ _ _ _ Hn) h Hh).
    + exact (ad_from _ _ _ _ (ig_added _ _ _ _ _ Hn) h Hh).
  - split_and!; [|done|apply Ht]. intros H200. set_unfold in Hst. lia.
Qed.

(** The server between other requests. *)
Inductive db_step : ActivityDb -> ActivityDb -> Prop :=
| Step_post d fault now r : db_step d (ingest_handler form_pairs raw fault now r d).2
| Step_report d fault now r : db_step d (agent_status_handler form_pairs raw fault now r d).2.

Lemma db_step_keeps d d' :
  db_step d d' -> table_ok (ad_heartbeats d) ->
  table_ok (ad_heartbeats d') /\ exists new, ad_heartbeats d' = ad_heartbeats d ++ new.
Proof.
  intros [d0 fault now r|d0 fault now r] Ht; [by apply ingest_keeps|]. rewrite status_keeps. split; [done|].
  exists []. by rewrite app_nil_r.
Qed.

Lemma db_steps_keep d d' :
  rtc db_step d d' -> table_ok (ad_heartbeats d) ->
  table_ok (ad_heartbeats d') /\ exists new, ad_heartbeats d' = ad_heartbeats d ++ new.
Proof.
  induction 1 as [d|d d1 d2 Hs _ IH]; intros Ht; [split; [done|exists []; by rewrite app_nil_r]|].
  destruct (db_step_keeps _ _ Hs Ht) as [Ht1 (new1 & H1)]. destruct (IH Ht1) as [Ht2 (new2 & H2)].
  split; [done|]. exists (new1 ++ new2). by rewrite H2 H1 app_assoc.
Qed.

(** Sending a request again is harmless: once an ingest request was answered 200,
    the same request at any later time, whatever the server did in between, inserts
    nothing, is answered 200 again, and changes nothing. *)
Theorem ingest_idempotent fault now r d res d1 d2 fault' now' :
  table_ok (ad_heartbeats d) -> ingest_handler form_pairs raw fault now r d = (res, d1) -> rs_status res = 200 ->
  rtc db_step d1 d2 -> (forall j, fault' j = None) ->
  exists n, ingest_handler form_pairs raw fault' now' r d2 = (MkResponse 200 (ok_body 0 n), d2).
Proof.
  intros Ht Hi H200 Hs Hno.
  destruct (ingest_cases _ _ _ _ _ _ _ _ Ht Hi) as [(p & parsed & rows & new & H1 & H2 & -> & -> & Hn)|[-> Hst]];
    [|set_unfold in Hst; lia].
  destruct (db_steps_keep _ _ Hs (ad_ok _ _ _ _ (ig_added _ _ _ _ _ Hn))) as [Ht2 (new2 & Heq)].
  exists (Z.of_nat (length rows)). unfold ingest_handler in Hi |- *. rewrite H1 H2 in Hi |- *.
  destruct (existsb _ rows); [by injection Hi as <-|].
  rewrite insert_heartbeats_stored //. intros k Hk. rewrite Heq map_app elem_of_app. left.
  apply (ad_key _ _ _ _ (ig_added _ _ _ _ _ Hn)). by right.
Qed.

Section Agent.
Context {W : Watchers}.
Context (machine token : string).


(** C23: The queue reaches the database: with no new activity and a server that knows
    the agent's token, lets it write its rows and can take its batches, as many
    ticks as there are queued rows leave the queue empty and every queued row that
    is a heartbeat stored exactly once, in whatever state they started. *)
Theorem queue_reaches_database (clock : nat -> f64) (t : nat) (s : Net) :
  net_ok machine s -> takes form_pairs raw token (read_queue (dk_queue (nt_disk s))) ->
  (forall t st, (watchers_run t st).1 = []) ->
  let s' := net_ticks form_pairs raw machine token clock t (length (read_queue (dk_queue (nt_disk s)))) s in
  read_queue (dk_queue (nt_disk s')) = [] /\
  forall row k, row ∈ read_queue (dk_queue (nt_disk s)) -> row_key row = Some k ->
    length (stored_under k (nt_db s')) = 1%nat.
Proof.
  intros Hok Ht Hq. cbv zeta. set (n := length _). pose proof (net_ticks_steps form_pairs raw machine token clock n t s) as Hs.
  destruct (net_steps_ok _ _ _ _ _ _ Hok Hs) as [_ Ht' Hst]. rewrite net_ticks_disk // in Hst |- *.
  destruct (quiet_ticks_drain machine n t (nt_disk s) Hq) as [H1 H2]; [unfold n; lia|]. split; [done|].
  intros row k Hin Hrk. apply stored_once; [done|]. apply (Hst row); [|done]. rewrite H2 elem_of_app. by right.
Qed.

(** A queued row whose request is too large is never taken: every tick sends it
    first, alone, and is refused. *)
Lemma oversized_row_wedges t f s row rest :
  (watchers_run t (dk_state (nt_disk s))).1 = [] -> read_queue (dk_queue (nt_disk s)) = row :: rest ->
  take_send_batch (row :: rest) MAX_SEND_BYTES = 1%N -> (BODY_LIMIT < str_len (json_to_string (value_array [row])))%N ->
  let s' := net_tick form_pairs raw machine token t f s in
  dk_queue (nt_disk s') = dk_queue (nt_disk s) /\ nt_db s' = nt_db s.
Proof.
  intros Hq Hr Htake Hbig. cbv zeta.
  assert (batch_of machine t (nt_disk s) = [row]) as Hb.
  { unfold batch_of, pending_rows, fresh_rows. rewrite Hq Hr /= app_nil_r Htake. done. }
  assert (forall sent, sent = Unreached ->
    dk_queue (ticked machine t f sent (nt_disk s)) = dk_queue (nt_disk s)) as Hun.
  { intros sent ->. unfold ticked, tick, persist_rows, fresh_rows, send_pending. rewrite Hq Hr /=.
    by destruct (ft_upto f), (ft_appended f). }
  destruct (net_tick_cases form_pairs raw machine token t f s) as [->|(_ & res & db & Ha & ->)].
  - split; [by apply Hun|done].
  - assert (is_success res = false /\ db = nt_db s) as [Hf ->].
    { unfold answer in Ha. rewrite Hb in Ha. unfold ingest_handler, admitted in Ha.
      destruct (principal_or_401 form_pairs raw (ingest_request token [row])) as [p|e] eqn:Hp.
      - unfold read_json in Ha. cbn [rq_body ingest_request] in Ha.
        rewrite (proj2 (N.ltb_lt _ _) Hbig) in Ha. by injection Ha as <- <-.
      - injection Ha as <- <-. split; [|done]. unfold principal_or_401 in Hp. by case_match; simplify_eq. }
    unfold heard. rewrite Hf. split; [by apply Hun|done].
Qed.
End Agent.
End Server.

(** ** Instances *)

(** A server with a global token and one machine's, and its empty database. *)
Definition v_pairs (query : string) : list (string * string) := [("api_key"%string, query)].
Definition v_raw : JsonTree :=
  Json_object [("server"%string, Json_object [("token", Json_string "t0");
    ("tokens", Json_object [("mac", Json_string "t1")])])]%string.
Definition v_db : ActivityDb := MkActivityDb [] [] [].
Definition v_none (j : nat) : option SqlError := None.

Lemma v_table : table_ok (ad_heartbeats v_db).
Proof. constructor; [constructor|constructor|split; constructor]. Qed.

(** A heartbeat of that machine, and its request. *)
Definition v_row : @Value test_platform := value_object [("machine", value_str "mac"); ("time", value_i64 7)]%string.
Definition v_request : Request := ingest_request "t1" [v_row].

Lemma token_forms_witness :
  request_token v_pairs (fun _ => Some "Basic c2VjcmV0Og==") "" = "secret"%string /\
  request_token v_pairs (fun _ => None) "secret" = "secret"%string.
Proof.
  split.
  - destruct (token_forms v_pairs (fun _ => Some "Basic c2VjcmV0Og==") "" "secret" true eq_refl) as (_ & H & _).
    apply H. reflexivity.
  - destruct (token_forms v_pairs (fun _ => None) "secret" "secret" true eq_refl) as (_ & _ & _ & H). by apply H.
Defined.

Lemma ingest_exact_witness :
  exists new, (ingest_handler v_pairs v_raw v_none f64_zero v_request v_db).2 = set_heartbeats new v_db /\
    Forall (fun h => may_store (Machine "mac") (hr_machine h)) new.
Proof.
  destruct (ingest_exact v_pairs v_raw v_none f64_zero v_request v_db _ _ v_table (surjective_pairing _)) as [H _].
  destruct (H ltac:(vm_refl)) as (p & parsed & rows & new & Hp & _ & _ & Hd & _ & Hall).
  exists new. split; [exact Hd|].
  assert (p = Machine "mac") as ->.
  { assert (admitted v_pairs v_raw v_request = inl (Machine "mac", value_array [v_row])) as Ha by vm_refl.
    rewrite Ha in Hp. congruence. }
  eapply Forall_impl; [exact Hall|]. cbn beta. tauto.
Defined.

Definition v_served : ActivityDb := (ingest_handler v_pairs v_raw v_none f64_zero v_request v_db).2.

Lemma ingest_idempotent_witness :
  exists n, ingest_handler v_pairs v_raw v_none (f64_of_Z 9) v_request v_served = (MkResponse 200 (ok_body 0 n), v_served).
Proof.
  apply (ingest_idempotent v_pairs v_raw v_none f64_zero v_request v_db _ v_served v_served v_none (f64_of_Z 9) v_table
    (surjective_pairing _)).
  - vm_refl.
  - apply rtc_refl.
  - reflexivity.
Defined.


Definition v_key := (f64_key (f64_of_Z 7), ("mac", "unknown", "unknown", "unknown", "human")%string).


(** No new activity, one row in the queue. *)
Definition v_quiet : Watchers (P := test_platform) := {|
  WState := unit; watchers_run _ st := ([], st); covered _ := []; covered_run _ _ := eq_refl;
|}.
Definition v_full : Net (W := v_quiet) := MkNet (W := v_quiet) (MkDisk (W := v_quiet) (Some (encode [v_row])) tt []) v_db.

Lemma v_queue : read_queue (dk_queue (nt_disk v_full)) = [v_row].
Proof. exact (read_saved (P := test_platform) [v_row]). Qed.

Lemma v_takes : takes v_pairs v_raw "t1" [v_row].
Proof.
  split; [exists (Machine "mac"); split; [vm_refl|constructor; [vm_refl|constructor]]|].
  intros j k batch Hne _. unfold batch in *. destruct j as [|j].
  - destruct k as [|k]; [done|]. assert (firstn (S k) (skipn 0 [v_row]) = [v_row]) as -> by by destruct k.
    assert ((str_len (json_to_string (value_array [v_row])) <=? BODY_LIMIT)%N = true) as H by vm_refl. by apply N.leb_le in H.
  - exfalso. apply Hne. cbn [skipn]. rewrite skipn_nil. by destruct k.
Qed.

Lemma queue_reaches_database_witness :
  length (stored_under v_key (nt_db (net_ticks (W := v_quiet) v_pairs v_raw "mac" "t1" (fun _ => f64_zero) 0 1 v_full))) = 1%nat.
Proof.
  destruct (queue_reaches_database (W := v_quiet) v_pairs v_raw "mac" "t1" (fun _ => f64_zero) 0 v_full) as [_ H].
  - constructor; [constructor|exact v_table|].
    + split; [vm_refl|right; by eexists].
    + by intros r ?%not_elem_of_nil.
    + by intros r k ?%not_elem_of_nil.
  - rewrite v_queue. exact v_takes.
  - done.
  - rewrite v_queue in H. apply (H v_row); [by left|vm_refl].
Defined.
