(* ===== verification/ReadTheorems.v ===== *)
(** The properties of the read routes: who may read, and that each answer is what its
    description says. *)
From S2P Require Import Prelude.
From S2P Require Import RustStr.
From S2P Require Import Float64.
From S2P Require Import Platform.
From S2P Require Import TestPlatform.
From S2P Require Import JsNum.
From S2P Require Import JsonTrees.
From S2P Require Import Paths.
From S2P Require Import Config.
From S2P Require Import Credits.
From S2P Require Import Reattribute.
From S2P Require Import Heartbeats.
From S2P Require Import Auth.
From S2P Require Import Ingest.
From S2P Require Import Totals.
From S2P Require Import ReadApi.
From stdpp Require Import sorting.
From Stdlib Require Import SpecFloat Sorted.

Local Open Scope Z_scope.

(** ** Who may read *)




Section Guard.
Context {P : Platform}.
Context (form_pairs : string -> list (string * string)).
Context (date_text : Z -> option string).
Context (version : string) (storage : StoragePaths) (raw : JsonTree).

End Guard.

(** ** Totals *)

(** [totals_by] computes its description: one object for each label that occurs, whose
    numbers are the sums over the rows of that label, in their order, from the most
    rounded seconds to the least. *)
Theorem totals_exact rows keys :
  exists buckets,
    totals_by rows keys = map (fun b => (totals_value keys b).2) buckets /\ NoDup buckets.*1 /\
    StronglySorted (fun a b => js_round (tt_seconds b.2) <= js_round (tt_seconds a.2)) buckets /\
    forall k t, (k, t) ∈ buckets <->
      with_label keys k rows <> [] /\ t = fold_left totals_add (with_label keys k rows) no_totals.
Proof.
  exists (sorted_buckets rows keys). split; [apply totals_by_sorted|]. unfold sorted_buckets at 1 3.
  split; [|split; [apply sorted_buckets_ordered|]].
  - rewrite (sort_by_perm more_seconds). apply totals_buckets_NoDup.
  - intros k t. rewrite (sort_by_perm more_seconds). apply totals_buckets_spec.
Qed.

(** Equal but for the sign of a zero. *)
Definition same_number (a b : f64) : Prop := a = b \/ exists s t, a = S754_zero s /\ b = S754_zero t.

Lemma same_number_add a b x : same_number a b -> same_number (f64_add a x) (f64_add b x).
Proof.
  intros [->|(s & t & -> & ->)]; [by left|]. destruct x as [u| | |]; try by left.
  right. destruct s, t, u; by eexists _, _.
Qed.

Lemma same_number_fold l a b : same_number a b -> same_number (fold_left f64_add l a) (fold_left f64_add l b).
Proof. revert a b. induction l as [|x l IH]; intros a b H; [done|]. by apply IH, same_number_add. Qed.

Lemma same_number_round a b : same_number a b -> js_round a = js_round b.
Proof. intros [->|(s & t & -> & ->)]; [done|]. by destruct s, t. Qed.

Lemma totals_seconds rows t :
  tt_seconds (fold_left totals_add rows t) = fold_left f64_add (map cr_credit rows) (tt_seconds t).
Proof. revert t. induction rows as [|c rows IH]; intros t; [done|]. cbn [fold_left map]. by rewrite IH. Qed.

Lemma bucket_seconds rows : js_round (tt_seconds (fold_left totals_add rows no_totals)) = total_of rows.
Proof.
  rewrite totals_seconds. unfold total_of, f64_sum. apply same_number_round, same_number_fold. right. by eexists _, _.
Qed.

Lemma filter_list {A} (f : A -> bool) (Q : A -> Prop) `{!forall x, Decision (Q x)} l :
  (forall x, f x = true <-> Q x) -> List.filter f l = filter Q l.
Proof.
  intros Hiff. induction l as [|x l IH]; [done|]. cbn [List.filter]. rewrite filter_cons IH. destruct (f x) eqn:Hf.
  - rewrite decide_True; [by apply Hiff|done].
  - rewrite decide_False; [|done]. intros Hq%Hiff. congruence.
Qed.

(** What the summary shows as the seconds of a label, the detail view shows as the total
    of that label, for the same rows. *)
Lemma label_field dim b :
  dim ∈ GROUP_FIELDS ->
  get dim (totals_value [dim] b).2 = (Json_string <$> head b.1) /\
  get "seconds" (totals_value [dim] b).2 = Some (js_f64 (f64_of_Z (js_round (tt_seconds b.2)))).
Proof.
  intros Hd. destruct b as [[|v parts] t]; unfold totals_value, with_labels; cbn [combine fold_left fst snd head get].
  - split; [|done]. repeat (apply elem_of_cons in Hd as [->|Hd]; [done|]). by apply not_elem_of_nil in Hd.
  - rewrite !assoc_insert String.eqb_refl. split; [done|].
    repeat (apply elem_of_cons in Hd as [->|Hd]; [done|]). by apply not_elem_of_nil in Hd.
Qed.

(** C40: The summary and the detail view agree: for the same rows, the seconds the summary
    lists for a label of a field are the total the detail view shows when that field and
    label are selected. *)
Theorem detail_agrees_with_summary date_text from to rows credited dim tz totals o value join_gap :
  dim ∈ GROUP_FIELDS -> value <> EmptyString ->
  get "totals" (summary_body date_text from to rows credited [dim] tz) = Some (Json_array totals) -> o ∈ totals ->
  get dim o = Some (Json_string value) ->
  exists seconds, get "seconds" o = Some (js_f64 (f64_of_Z seconds)) /\
    get "total" (build_body from to dim value rows credited join_gap) = Some (js_i64 seconds).
Proof.
  intros Hd Hv Ht Ho Hl. injection Ht as <-. rewrite totals_by_sorted in Ho.
  apply list_elem_of_fmap in Ho as ([k t] & -> & Hb). destruct (label_field dim (k, t) Hd) as [Hlabel ->].
  rewrite Hlabel in Hl. unfold sorted_buckets in Hb. rewrite (sort_by_perm more_seconds) totals_buckets_spec in Hb.
  destruct Hb as [Hne ->]. eexists. split; [done|]. cbn [snd]. rewrite bucket_seconds.
  assert (k = [value]) as ->.
  { unfold with_label in Hne. destruct (filter _ credited) as [|c cs] eqn:Hf; [done|].
    assert (c ∈ filter (fun c => labels (cr_row c) [dim] = k) credited) as [Hc _]%list_elem_of_filter by (rewrite Hf; left).
    rewrite -Hc. rewrite -Hc in Hl. cbn in Hl |- *. by injection Hl as ->. }
  change (get "total" (build_body from to dim value rows credited join_gap))
    with (Some (js_i64 (total_of (List.filter (fun c => detail_matches (cr_row c) dim value) credited)))). do 3 f_equal. unfold with_label. apply filter_list. intros c.
  unfold detail_matches. destruct value; [done|]. cbn [str_is_empty]. rewrite String.eqb_eq. cbn [labels map].
  split; [by intros ->|by intros [= ->]].
Qed.

(** ** What is active now *)

(** The latest of the rows of one key: later than those before it, and no earlier than
    those after it. *)
Definition latest_of (r : Heartbeat) (rows : list Heartbeat) : Prop :=
  exists before after, rows = before ++ r :: after /\
    Forall (fun x => f64_lt (hr_time x) (hr_time r) = true) before /\
    Forall (fun x => f64_le (hr_time x) (hr_time r) = true) after.

Lemma latest_kept rows : Forall timed rows -> rows <> [] ->
  exists r, entry_value (fun r => r) (fun prev r => keep_later r prev) rows = Some r /\ latest_of r rows.
Proof.
  intros Ht. induction rows as [|x rows IH] using rev_ind; [done|]. intros _. apply Forall_app in Ht as [Ht Hx].
  apply Forall_cons in Hx as [Hx _]. rewrite entry_value_snoc. destruct rows as [|y rows'].
  { cbn. unfold keep_later. rewrite f64_le_refl; [exact Hx|]. exists x. split; [done|]. by exists [], []. }
  set (rows := y :: rows') in *. destruct (IH Ht) as (r & -> & before & after & Heq & Hb & Ha); [done|].
  cbn [default from_option id]. unfold keep_later.
  assert (Forall timed (before ++ r :: after)) as Ht' by (by rewrite -Heq).
  apply Forall_app in Ht' as [Htb [Hr Hta]%Forall_cons]. destruct (f64_le (hr_time x) (hr_time r)) eqn:Hle.
  - exists r. split; [done|]. exists before, (after ++ [x]). rewrite Heq -app_assoc. split; [done|]. split; [done|].
    apply Forall_app. by split; [|apply Forall_singleton].
  - exists x. split; [done|]. exists rows, []. split; [done|]. split; [|done].
    rewrite f64_le_lt // in Hle. apply negb_false_iff in Hle. rewrite Heq.
    assert (forall z, timed z -> f64_lt (hr_time r) (hr_time z) = false -> f64_lt (hr_time z) (hr_time x) = true) as Hlt.
    { intros z Hz Hzr. destruct (f64_lt (hr_time z) (hr_time x)) eqn:H; [done|].
      pose proof (f64_ge_trans (hr_time x) (hr_time z) (hr_time r) Hx Hz Hr H Hzr). congruence. }
    apply Forall_app. split; [|apply Forall_cons; split; [done|]]; apply Forall_forall; intros z Hz.
    + rewrite !Forall_forall in Hb Htb. apply Hlt; [by apply Htb|]. apply f64_lt_asym; [by apply Htb|done|by apply Hb].
    + rewrite !Forall_forall in Ha Hta. apply Hlt; [by apply Hta|]. specialize (Ha _ Hz).
      rewrite f64_le_lt // in Ha; [by apply Hta|]. by apply negb_true_iff in Ha.
Qed.

Lemma total_lt_asym a b : f64_is_nan a = false -> f64_is_nan b = false -> total_lt a b = true -> total_lt b a = false.
Proof.
  intros Ha Hb. unfold total_lt. intros [H|H]%orb_true_iff.
  - rewrite (f64_lt_asym a b) //. by destruct a as [[]|[]| |[]], b as [[]|[]| |[]].
  - by destruct a as [[]|[]| |[]], b as [[]|[]| |[]].
Qed.
Lemma total_ge_trans a b c :
  f64_is_nan a = false -> f64_is_nan b = false -> f64_is_nan c = false ->
  total_lt b a = false -> total_lt c b = false -> total_lt c a = false.
Proof.
  unfold total_lt. intros Ha Hb Hc [H1 Z1]%orb_false_iff [H2 Z2]%orb_false_iff.
  rewrite (f64_ge_trans a b c) //. cbn [orb].
  by destruct c as [[]|[]| |[]], a as [[]|[]| |[]], b as [[]|[]| |[]].
Qed.

(** /api/now lists, for each actor, project, source and machine with a row in the
    window, exactly one row, the latest one and of several the first, from the latest to
    the earliest. *)
Theorem now_exact rows :
  Forall timed rows ->
  exists picked, now_rows rows = map now_view picked /\ NoDup (map now_key picked) /\
    (forall r, r ∈ rows -> now_key r ∈ map now_key picked) /\
    (forall r, r ∈ picked -> latest_of r (filter (fun x => now_key x = now_key r) rows)) /\
    ordered time_desc picked.
Proof.
  intros Ht. exists (sort_by time_desc (now_picked rows)). split; [done|].
  set (m := fold_left (fun seen r => index_entry (now_key r) r (keep_later r) seen) rows []).
  assert (forall k r, (k, r) ∈ m -> k = now_key r /\ latest_of r (filter (fun x => now_key x = now_key r) rows)) as Hm.
  { intros k r Hin. unfold m in Hin. rewrite (index_entry_spec now_key (fun r => r) (fun prev r => keep_later r prev)) in Hin.
    destruct (latest_kept (filter (fun x => now_key x = k) rows)) as (r' & Hr' & Hl).
    - apply Forall_forall. intros x [_ Hx]%list_elem_of_filter. rewrite Forall_forall in Ht. by apply Ht.
    - intros He. by rewrite He in Hin.
    - assert (r' = r) as -> by congruence. assert (now_key r = k) as Hk; [|by rewrite Hk].
      destruct Hl as (before & after & Heq & _). assert (r ∈ filter (fun x => now_key x = k) rows) as [? _]%list_elem_of_filter; [|done].
      rewrite Heq. apply elem_of_app. right. by left. }
  assert (map now_key (now_picked rows) = m.*1) as Hkeys.
  { unfold now_picked. fold m. clearbody m. rewrite map_map. induction m as [|[k r] m IH]; [done|]. cbn.
    destruct (Hm k r) as [-> _]; [by left|]. f_equal. apply IH. intros k' r' Hin. apply Hm. by right. }
  assert (m.*1 = (group_by now_key rows).*1) as Hg by exact (index_entry_keys now_key (fun r => r) (fun prev r => keep_later r prev) rows).
  split; [|split; [|split]].
  - rewrite (sort_by_perm time_desc). rewrite Hkeys Hg. apply group_by_NoDup.
  - intros r Hr. rewrite (sort_by_perm time_desc) Hkeys Hg. by apply (group_by_key now_key).
  - intros r Hr. rewrite (sort_by_perm time_desc) in Hr. unfold now_picked in Hr. fold m in Hr.
    apply list_elem_of_fmap in Hr as ([k r'] & -> & Hin). by destruct (Hm _ _ Hin).
  - apply (sort_by_ordered time_desc timed); unfold time_desc.
    + intros x y Hx Hy. by apply total_lt_asym.
    + intros x y z Hx Hy Hz H1 H2. by apply (total_ge_trans _ (hr_time y)).
    + apply Forall_forall. intros r Hr. unfold now_picked in Hr. fold m in Hr.
      apply list_elem_of_fmap in Hr as ([k r'] & -> & Hin). destruct (Hm _ _ Hin) as [_ (before & after & Heq & _)].
      rewrite Forall_forall in Ht. apply Ht.
      assert (r' ∈ filter (fun x => now_key x = now_key r') rows) as [_ ?]%list_elem_of_filter; [|done].
      rewrite Heq. apply elem_of_app. right. by left.
Qed.

(** ** The newest rows *)

Lemma last_kept (vs : list Heartbeat) a : entry_value (fun r => r) (fun _ r => r) vs = Some a -> a ∈ vs.
Proof.
  induction vs as [|v vs _] using rev_ind; [done|]. rewrite entry_value_snoc. intros [= <-]. apply elem_of_app. right. by left.
Qed.

Lemma by_id_elem id x l : (id, x) ∈ by_id l -> x ∈ l /\ hr_id x = id.
Proof.
  unfold by_id. rewrite (index_entry_spec hr_id (fun r => r) (fun _ r => r)). by intros [? ?]%last_kept%list_elem_of_filter.
Qed.

Lemma row_by_id_spec id l :
  match row_by_id id (by_id l) with
  | Some x => x ∈ l /\ hr_id x = id
  | None => Forall (fun x => hr_id x <> id) l
  end.
Proof.
  unfold row_by_id. destruct (List.find _ _) as [[k x]|] eqn:Hf; cbn.
  - apply List.find_some in Hf as [Hin%list_elem_of_In Hk%Z.eqb_eq]. cbn in Hk. subst k. by apply by_id_elem.
  - apply Forall_forall. intros x Hx Hid. pose proof (group_by_key hr_id l x Hx) as Hk.
    rewrite -(index_entry_keys hr_id (fun r => r) (fun _ r => r)) in Hk. fold (by_id l) in Hk.
    apply list_elem_of_fmap in Hk as ([k y] & Hk & Hin). cbn in Hk.
    pose proof (List.find_none _ _ Hf _ (proj1 (list_elem_of_In _ _) Hin)) as H. cbn in H. apply Z.eqb_neq in H. congruence.
Qed.

Lemma patch_id r p : hr_id (apply_patch r p) = hr_id r.
Proof. by destruct p. Qed.

Lemma context_rows selected window d x : x ∈ page_context selected window d -> x ∈ ad_heartbeats d.
Proof.
  unfold page_context, rows_in_range. rewrite (sort_by_perm by_time). 
  by intros [?%list_elem_of_In _]%list_elem_of_In%filter_In.
Qed.

Lemma page_rows limit d x : x ∈ recent_page limit d -> x ∈ ad_heartbeats d.
Proof.
  unfold recent_page. intros H. rewrite -(sort_by_perm newer (ad_heartbeats d)). destruct (limit <? 0); [done|].
  apply elem_of_take in H as (i & H & _). by eapply list_elem_of_lookup_2.
Qed.

(** The page of a table is its newest rows. *)
Lemma newer_key a b :
  finite_hb a -> finite_hb b ->
  newer a b = true <->
    key_lt (f64_key (hr_time b)) (f64_key (hr_time a)) \/ (f64_key (hr_time a) = f64_key (hr_time b) /\ hr_id b < hr_id a).
Proof.
  intros Ha%finite_not_nan Hb%finite_not_nan. unfold newer.
  rewrite orb_true_iff andb_true_iff f64_lt_key // f64_eq_key // bool_decide_eq_true Z.ltb_lt. done.
Qed.

Lemma newer_ordered rows : Forall finite_hb rows -> ordered newer (sort_by newer rows).
Proof.
  apply sort_by_ordered.
  - intros x y Hx Hy. rewrite newer_key // -not_true_iff_false newer_key //. unfold key_lt.
    destruct (f64_key (hr_time x)) as [[x1 x2] x3], (f64_key (hr_time y)) as [[y1 y2] y3]; cbn [fst snd].
    intros H1 H2. destruct H1 as [H1|[[= -> -> ->] H1]], H2 as [H2|[H2 H3]]; try lia. injection H2. lia.
  - intros x y z Hx Hy Hz. rewrite -!not_true_iff_false !newer_key //. unfold key_lt.
    destruct (f64_key (hr_time x)) as [[x1 x2] x3], (f64_key (hr_time y)) as [[y1 y2] y3], (f64_key (hr_time z)) as [[z1 z2] z3];
      cbn [fst snd]. rewrite !pair_equal_spec. lia.
Qed.

Lemma page_newest limit d :
  table_ok (ad_heartbeats d) -> 0 <= limit ->
  let page := recent_page limit d in
  length page = Nat.min (Z.to_nat limit) (length (ad_heartbeats d)) /\ ordered newer page /\
  (exists rest, page ++ rest ≡ₚ ad_heartbeats d /\ forall r x, r ∈ page -> x ∈ rest -> newer x r = false).
Proof.
  intros [Hf _ _] Hl page. pose proof (newer_ordered _ Hf) as Ho. unfold page, recent_page.
  rewrite (proj2 (Z.ltb_ge limit 0) Hl). rewrite length_firstn (Permutation_length (sort_by_perm newer (ad_heartbeats d))).
  set (rows := sort_by newer (ad_heartbeats d)) in *. unfold ordered in *.
  rewrite -(take_drop (Z.to_nat limit) rows) in Ho. apply StronglySorted_app in Ho as (Hx & Ho & _).
  split; [done|]. split; [done|]. exists (drop (Z.to_nat limit) rows). split; [rewrite take_drop; apply sort_by_perm|].
  intros r x Hr Hin. by apply Hx.
Qed.

Lemma id_unique rows a b : table_ok rows -> a ∈ rows -> b ∈ rows -> hr_id a = hr_id b -> a = b.
Proof.
  intros [_ _ [Hs _]] Ha Hb Hid. induction rows as [|r rows IH]; [by apply not_elem_of_nil in Ha|].
  cbn in Hs. apply StronglySorted_inv in Hs as [Hs Hall]. rewrite Forall_forall in Hall.
  assert (forall x, x ∈ rows -> hr_id r < hr_id x) as Hlt by (intros x Hx; apply Hall; apply list_elem_of_fmap; by exists x).
  apply elem_of_cons in Ha as [->|Ha], Hb as [->|Hb]; [done|specialize (Hlt _ Hb); lia|specialize (Hlt _ Ha); lia|by apply IH].
Qed.

#[export] Instance Heartbeat_eq_dec : EqDecision Heartbeat.
Proof. solve_decision. Defined.

(** The row of the page as the context shows it. *)
Definition in_context (context : list Heartbeat) (window : f64) (r : Heartbeat) : Heartbeat :=
  if decide (r ∈ context) then apply_patch r (expected_patch context window r) else r.

(** /api/recent answers as many rows as asked for, or all of them, none older than one
    it leaves out, from the newest to the oldest: each is the stored row, reattributed by
    the edits of the context where the context has it. *)
Theorem recent_exact limit window d :
  table_ok (ad_heartbeats d) -> 0 <= limit ->
  let page := recent_page limit d in
  recent_with_context limit window d = map (in_context (page_context page window d) window) page /\
  length page = Nat.min (Z.to_nat limit) (length (ad_heartbeats d)) /\ ordered newer page /\
  (exists rest, page ++ rest ≡ₚ ad_heartbeats d /\ forall r x, r ∈ page -> x ∈ rest -> newer x r = false).
Proof.
  intros Hd Hlimit page. split; [|by apply page_newest]. unfold recent_with_context. fold page. set (context := page_context page window d).
  assert (Forall timed context) as Ht.
  { apply Forall_forall. intros x Hx%context_rows. destruct Hd as [Hf _ _]. rewrite Forall_forall in Hf.
    by apply finite_not_nan, Hf. }
  assert (match page with [] => page | _ => map (fun r => default r (row_by_id (hr_id r) (by_id (reattribute_file_saves context window)))) page end =
          map (fun r => default r (row_by_id (hr_id r) (by_id (reattribute_file_saves context window)))) page) as -> by (by destruct page).
  rewrite (reattribute_expected _ _ Ht). apply map_ext_in. intros r Hr%list_elem_of_In%page_rows.
  set (l := map _ context).
  assert (forall x, x ∈ l -> hr_id x = hr_id r -> r ∈ context /\ x = apply_patch r (expected_patch context window r)) as Hl.
  { intros x (y & -> & Hy)%list_elem_of_fmap Hid. rewrite patch_id in Hid.
    assert (y = r) as ->; [|done]. apply (id_unique _ _ _ Hd); [by eapply context_rows|done|done]. }
  pose proof (row_by_id_spec (hr_id r) l) as Hs. unfold in_context. destruct (row_by_id _ _) as [x|]; cbn.
  - destruct Hs as [Hx Hid]. destruct (Hl _ Hx Hid) as [Hin ->]. by rewrite decide_True.
  - rewrite decide_False; [|done]. intros Hin. rewrite Forall_forall in Hs.
    apply (Hs (apply_patch r (expected_patch context window r))); [|apply patch_id].
    apply list_elem_of_fmap. by exists r.
Qed.

(** ** Instances *)

(** An agent's edit, the save the editor watcher reported for it, and other work. *)
Definition r_row (id time : Z) (source project actor : string) : Heartbeat :=
  MkHeartbeat id (f64_of_Z time) "mac" source project "/a.js" "file" "coding" None None 1 actor 5 7 f64_zero f64_zero.
Definition r_rows : list Heartbeat :=
  [r_row 1 100 "claude-code" "alpha" "agent"; r_row 2 130 "editor-files" "alpha" "human"; r_row 3 400 "zed" "beta" "human";
   r_row 4 410 "zed" "beta" "human"]%string.
Definition r_db : ActivityDb := MkActivityDb r_rows [] [].
Definition r_credits : list Credited := compute_credits r_rows (f64_of_Z 120) (f64_of_Z 60).
Definition r_dates (_ : Z) : option string := None.
Definition r_pairs (query : string) : list (string * string) := [("api_key"%string, query)].
Definition r_raw (token : JsonTree) : JsonTree := Json_object [("server", Json_object [("token", token)])]%string.
Definition r_storage : StoragePaths := resolve_storage_paths (fun _ => None) "/home/n".

Lemma r_table : table_ok (ad_heartbeats r_db).
Proof.
  constructor.
  - repeat constructor.
  - apply (bool_decide_unpack _). vm_compute. exact I.
  - split; repeat constructor.
Qed.


(** A legacy token that is an empty array: requests have to authenticate, which none can,
    and yet the read routes answer everyone. *)
Lemma array_token_opens_reads :
  let cfg := views r_storage (r_raw (Json_array [])) in
  authenticate r_pairs (fun _ => None) "" (default Json_null (get "server" (cf_raw cfg))) = None /\
  read_guard r_pairs cfg (fun _ => None) None = None.
Proof. by split. Qed.

Example detail_agrees_with_summary_witness :
  let o := Json_object [("seconds", js_f64 (f64_of_Z 70)); ("tokens", js_f64 (f64_of_Z 24)); ("cost", js_f64 f64_zero);
                         ("project", Json_string "beta")]%string in
  exists seconds, get "seconds" o = Some (js_f64 (f64_of_Z seconds)) /\
    get "total" (build_body f64_zero (f64_of_Z 500) "project" "beta" r_rows r_credits (f64_of_Z 300)) = Some (js_i64 seconds).
Proof.
  intros o. apply (detail_agrees_with_summary r_dates f64_zero (f64_of_Z 500) r_rows r_credits "project" f64_zero
    (totals_by r_credits ["project"%string]) o "beta" (f64_of_Z 300)).
  - left.
  - discriminate.
  - reflexivity.
  - assert (totals_by r_credits ["project"%string] !! 1%nat = Some o) as H by (vm_compute; reflexivity).
    exact (list_elem_of_lookup_2 _ _ _ H).
  - reflexivity.
Defined.

Example now_exact_witness :
  exists picked, now_rows r_rows = map now_view picked /\ NoDup (map now_key picked).
Proof.
  destruct (now_exact r_rows) as (picked & H1 & H2 & _); [repeat constructor|]. exists picked. exact (conj H1 H2).
Defined.

Example recent_exact_witness :
  map hr_source (recent_with_context 3 (f64_of_Z 120) r_db) = ["zed"; "zed"; "claude-code"]%string /\
  length (recent_page 3 r_db) = 3%nat.
Proof.
  destruct (recent_exact 3 (f64_of_Z 120) r_db r_table) as (H1 & H2 & _); [discriminate|]. rewrite H1. split; [|exact H2].
  vm_compute. reflexivity.
Defined.
