(* ===== verification/ClaireTheorems.v ===== *)
(** The properties of the hub-local assistant: one turn at a time, what an answer
    may do, when a worker's result counts as told, how a dead turn is recovered,
    what is run and what is sent. *)
From S2P Require Import Prelude.
From S2P Require Import RustStr.
From S2P Require Import Platform.
From S2P Require Import Ids.
From S2P Require Import Entities.
From S2P Require Import Event.
From S2P Require Import Protocol.
From S2P Require Import Wire.
From S2P Require Import TestPlatform.
From S2P Require Import Schema.
From S2P Require Import Store.
From S2P Require Import StoreInv.
From S2P Require Import StoreStep.
From S2P Require Import StoreLog.
From S2P Require Import StoreTyped.
From S2P Require Import Settings.
From S2P Require Import HubState.
From S2P Require Import HubCommands.
From S2P Require Import HubInv.
From S2P Require Import HubSystem.
From S2P Require Import HubFacts.
From S2P Require Import EngineDef.
From S2P Require Import Process.
From S2P Require Import NodeEngine.
From S2P Require Import Samples.
From S2P Require Import ClaireText.
From S2P Require Import Claire.
From S2P Require Import ClaireFacts.
From S2P Require Import ClaireSystem.
From Stdlib Require Import Ascii.

Local Open Scope Z_scope.

(** ** Recovery of a turn whose process is gone *)
Section Recovery.
Context {P : Platform} {PL : PlatformLaws P} {E : Env P} {EO : EnvOk} {CE : ClaireEnv}.
Context (channel : string).

(** A report with an unused id is the next event of the log and of the bus. *)
Lemma append_report_new base i draft s :
  good base s -> draft_times_ok draft -> zlen (base ++ hs_events s) < i64_max ->
  (forall e, e ∈ base ++ hs_events s -> e_event_id e <> i) ->
  exists o s' e, append_and_broadcast_node_event i draft s = (Ok o, s') /\
    hs_events s' = hs_events s ++ [e] /\ e_kind e = d_kind draft /\ e_task_id e = d_task_id draft /\
    e_run_id e = d_run_id draft.
Proof.
  intros [Hwf Hty Hrep] Hdr Hmax Hnew. unfold append_and_broadcast_node_event.
  unfold mbind at 1, M_bind at 1, utc_now. unfold mbind at 1, M_bind at 1, with_hub at 1. cbn [hs_hub set_draws].
  pose proof (append_node_event_refines _ _ (env_now (hs_ticks s)) i draft Hwf Hrep (env_now_ok _) Hdr) as H.
  pose proof (append_node_step (env_now (hs_ticks s)) i draft _ Hwf) as [Hwf' _].
  unfold spec_append_node_event in H. destruct (List.find _ _) as [e|] eqn:Hf.
  { apply List.find_some in Hf as [Hin Hid%bool_decide_eq_true]. apply list_elem_of_In, Hnew in Hin. done. }
  destruct H as [(d' & Happ & Hrep' & _)|(_ & Hov & _)]; [|lia]. rewrite Happ in Hwf' |- *.
  unfold broadcast_created. cbn [o_created o_sequence]. unfold mbind, M_bind, with_hub. cbn [hs_hub set_hub].
  rewrite (fetch_created d' _ _ Hwf' Hrep'). by eexists _, _, _.
Qed.

(** Calls that append nothing and draw no id. *)
Record calm (s s' : Claire) : Prop := {
  calm_good base : good base (cl_hub s) -> good base (cl_hub s');
  calm_events : hs_events (cl_hub s') = hs_events (cl_hub s);
  calm_draws : hs_draws (cl_hub s') = hs_draws (cl_hub s);
  calm_rest : s' = set_cl_hub (cl_hub s') s;
}.
#[export] Instance calm_preorder : PreOrder calm.
Proof.
  split; [by intros []; constructor|]. intros x y z [] [? ? ? Hz]. constructor; [auto|congruence..|].
  rewrite Hz calm_rest0. by destruct x.
Qed.

Lemma calm_on_hub {A} (m : M HubState A) :
  preserves evolves m -> (forall h, hs_events (snd (m h)) = hs_events h /\ hs_draws (snd (m h)) = hs_draws h) ->
  preserves calm (on_hub m).
Proof.
  intros Hm Hq s. unfold on_hub. destruct (Hq (cl_hub s)) as [H1 H2]. specialize (Hm (cl_hub s)).
  destruct (m (cl_hub s)) as [r h]. by constructor; [apply (ev_good _ _ Hm)|..].
Qed.

Lemma calm_save x : preserves calm (save_session channel x).
Proof.
  apply calm_on_hub; [apply preserves_hub_put|]. intros h.
  unfold save_assistant_session, hub_put_setting, put_setting, mbind, M_bind, utc_now, with_hub, sql_upsert.
  by destruct (existsb _ _).
Qed.
Lemma calm_defer w reason : preserves calm (on_hub (hub_defer_assistant_wake w reason)).
Proof.
  apply calm_on_hub; [apply preserves_hub_defer|]. intros h.
  unfold hub_defer_assistant_wake, defer_assistant_wake, query_row, mbind, M_bind, utc_now, with_hub, gets. cbn.
  by destruct (List.find _ _).
Qed.
Lemma calm_session_now : preserves calm (session_now channel).
Proof. intros s. rewrite session_now_eq. cbn. reflexivity. Qed.

Lemma calm_defer_session_wake x reason : preserves calm (defer_session_wake channel x reason).
Proof.
  pose proof calm_defer. pose proof calm_save. pose proof calm_session_now. pose proof calm_preorder.
  unfold defer_session_wake, ignore. repeat first [walk1 | by auto | apply preserves_ret; apply _].
Qed.

Lemma ignore_ok {A} (m : M Claire A) s : ignore m s = (Ok tt, snd (m s)).
Proof. unfold ignore, try, mbind, M_bind. by destruct (m s). Qed.

Lemma defer_session_wake_ok x reason s :
  defer_session_wake channel x reason s = (Ok tt, snd (defer_session_wake channel x reason s)).
Proof.
  unfold defer_session_wake. destruct (ss_pending_wake_event_id x) as [w|]; [|done].
  unfold mbind at 1 3, M_bind at 1 3. rewrite ignore_ok. unfold mbind, M_bind. rewrite session_now_eq.
  destruct (session_in _ _) as [y|]; [|done]. case_bool_decide; [|done]. by rewrite ignore_ok.
Qed.

Lemma terminal_is_durable_eq t r s :
  terminal_is_durable t r s =
    (Ok (match fst (task_events t (cl_hub s)) with
         | Ok events => existsb (fun e => bool_decide (e_run_id e = Some r) && terminal_kind (e_kind e)) events
         | Err _ => false
         end), s).
Proof.
  unfold terminal_is_durable, try, on_hub, task_events, mbind, M_bind, with_hub.
  pose proof (read_tail t 200 (hs_hub (cl_hub s))) as Hd.
  destruct (task_events_tail t 200 (hs_hub (cl_hub s))) as [[events|e] d]; cbn in Hd; subst d; by destruct s as [[]].
Qed.

(** The task's stored events hold no terminal event of the run. *)
Definition unreported (t : TaskId) (r : RunId) (h : HubState) : Prop :=
  exists events, fst (task_events t h) = Ok events /\
    forall e, e ∈ events -> e_run_id e = Some r -> terminal_kind (e_kind e) = false.

Lemma unreported_durable t r s : unreported t r (cl_hub s) -> terminal_is_durable t r s = (Ok false, s).
Proof.
  intros (events & He & Hno). rewrite terminal_is_durable_eq He. f_equal. f_equal.
  apply not_true_is_false. rewrite existsb_exists. intros (e & Hin & [Hr%bool_decide_eq_true Hk]%andb_true_iff).
  apply list_elem_of_In in Hin. rewrite (Hno e Hin Hr) in Hk. done.
Qed.

(** What [reconcile_claire_runner] does to a busy run without a process and
    without a terminal event. *)
Lemma reconcile_reports base s x r :
  good base (cl_hub s) -> zlen (base ++ hs_events (cl_hub s)) < i64_max ->
  (forall e, e ∈ base ++ hs_events (cl_hub s) -> e_event_id e <> id_new (env_uuid (hs_draws (cl_hub s)))) ->
  session_in channel s = Some x -> ss_run_id x = Some r -> r ∈ cl_busy s -> cl_jobs s !! r = None ->
  unreported (ss_task_id x) r (cl_hub s) ->
  exists e y, let s' := snd (reconcile_claire_runner channel s) in
    hs_events (cl_hub s') = hs_events (cl_hub s) ++ [e] /\ e_kind e = RunFailed /\
    e_task_id e = ss_task_id x /\ e_run_id e = Some r /\ cl_busy s' = cl_busy s /\
    session_in channel s' = Some y /\ ss_task_id y = ss_task_id x /\ ss_run_id y = Some r.
Proof.
  intros Hgood Hmax Hnew Hx Hr Hbusy Hjob Hdur.
  set (m := match ss_pending_wake_event_id x with
            | Some _ => defer_session_wake channel x vanished_text
            | None => mret tt
            end : M Claire unit).
  assert (exists s1, m s = (Ok tt, s1) /\ calm s s1 /\ same_field channel ss_run_id s s1 /\
            same_field channel (fun y => Some (ss_task_id y)) s s1) as (s1 & Hm & [Hg Hev Hdraw _] & [Hb1 Hrun1] & [_ Htask1]).
  { unfold m. destruct (ss_pending_wake_event_id x); [|exists s; split_and!; [done|reflexivity..]].
    eexists. rewrite defer_session_wake_ok.
    split_and!; [done|apply calm_defer_session_wake|by apply defer_session_wake_field..]. }
  rewrite Hx in Hrun1, Htask1. cbn in Hrun1, Htask1. rewrite Hr in Hrun1.
  destruct (session_in channel s1) as [y|] eqn:Hy; [|done]. cbn in Hrun1, Htask1. injection Htask1 as Htask1.
  set (h := cl_hub s1) in *. set (payload := error_payload vanished_text).
  set (report := append_hub_assistant_event RunFailed (ss_task_id x) r (ss_provider_session_id x) payload).
  assert (reconcile_claire_runner channel s = (Ok tt, snd (on_hub report s1))) as ->.
  { unfold reconcile_claire_runner, mbind, M_bind. rewrite session_now_eq Hx Hr. unfold is_running, gets.
    rewrite (bool_decide_eq_true_2 _ Hbusy) (bool_decide_eq_false_2 (is_Some (cl_jobs s !! r))); [rewrite Hjob; by intros [? ?]|].
    cbn [negb orb]. rewrite (unreported_durable _ _ _ Hdur). fold m. rewrite Hm. apply ignore_ok. }
  set (draft := set_session (ss_provider_session_id x) (with_payload payload
          (with_run r (draft_new (env_now (hs_ticks h)) RunFailed (ss_task_id x) hub_node)))).
  set (h0 := set_draws (S (hs_ticks h)) (S (hs_draws h)) h).
  assert (report h = (append_and_broadcast_node_event (id_new (env_uuid (hs_draws h))) draft ≫= fun _ => mret tt) h0)
    as Happ by reflexivity.
  destruct (append_report_new base (id_new (env_uuid (hs_draws h))) draft h0) as (o & h' & e & Hok & Hevs & Hk & Ht & Hrid).
  { destruct (Hg base Hgood). by constructor. }
  { apply env_now_ok. }
  { cbn [h0 hs_events set_draws]. by rewrite Hev. }
  { cbn [h0 hs_events set_draws]. rewrite Hev Hdraw. exact Hnew. }
  assert (on_hub report s1 = (Ok tt, set_cl_hub h' s1)) as Hrep.
  { unfold on_hub. fold h. rewrite Happ. unfold mbind, M_bind. by rewrite Hok. }
  exists e, y. rewrite Hrep. cbn [snd cl_hub set_cl_hub cl_busy]. rewrite Hevs. cbn [h0 hs_events set_draws]. rewrite Hev.
  split_and!; try done.
  pose proof (keeps_on_hub channel report (setting_assistant_event _ _ _ _ _ _) s1) as Hk1.
  apply (keeps_session channel) in Hk1. by rewrite Hrep Hy in Hk1.
Qed.
(** A failed run of the session, observed: the run is free and the session has none. *)
Lemma observe_failed send e y r s :
  session_in channel s = Some y -> ss_run_id y = Some r -> ss_task_id y = e_task_id e ->
  e_kind e = RunFailed -> e_run_id e = Some r ->
  let s' := snd (observe_event channel send e s) in
  cl_busy s' = cl_busy s ∖ {[ r ]} /\ session_in channel s' = Some (session_cleared y).
Proof.
  intros Hy Hr Ht Hk He. set (s1 := set_cl_busy (cl_busy s ∖ {[ r ]}) s).
  set (defer := match ss_pending_wake_event_id y with
                | Some wake => ignore (on_hub (hub_defer_assistant_wake wake
                    (default "Unknown engine error."%string (get_str "error" (e_payload e)))))
                | None => mret tt
                end : M Claire unit).
  assert (exists s2, defer s1 = (Ok tt, s2) /\ cl_busy s2 = cl_busy s1) as (s2 & Hs2 & Hb2).
  { unfold defer. destruct (ss_pending_wake_event_id y) as [w|]; [|by exists s1]. eexists. rewrite ignore_ok.
    split; [done|]. apply busy_on_hub. }
  destruct (save_session_eq channel (session_cleared y) s2) as (s3 & Hs3 & Hin & Hb3 & _).
  assert (snd (observe_event channel send e s) = s3) as ->.
  { assert (is_claire e (Some y) = true) as Hc.
    { unfold is_claire. rewrite Ht He Hr.
      by rewrite (bool_decide_eq_true_2 (e_task_id e = _)) // (bool_decide_eq_true_2 (Some r = Some r)) // orb_true_r. }
    assert (exists b, close_turn channel e (default "Unknown engine error."%string (get_str "error" (e_payload e))) s =
              (Ok (true, b), s3)) as (b & Hclose).
    { unfold close_turn. rewrite He. cbn [busy_remove_run]. unfold mbind, M_bind, busy_remove, modify. fold s1.
      rewrite session_now_eq. assert (session_in channel s1 = Some y) as -> by exact Hy.
      rewrite Hr bool_decide_eq_true_2 //. fold defer. rewrite Hs2 ignore_ok Hs3. by eexists. }
    unfold observe_event, handle_claire_event, process_claire_event, mbind, M_bind.
    rewrite session_now_eq Hy Hc Hk Hclose. unfold settle_wake. cbn [andb negb cp_reply cp_wake_event_id cp_awaiting_follow_up].
    destruct b; cbn; [done|]. by destruct (send _). }
  cbv zeta. split; [|done]. by rewrite Hb3 Hb2.
Qed.

(** C35: A turn whose process is gone is failed and freed. When the session's run
    is busy, its process has left the runner and no terminal event of it is
    stored, the next pass of [reconcile_claire_runner] appends one event, a
    failure of that run in that conversation; when the output thread reads it,
    the run is no longer busy and the session has no run, no wake and no
    follow-up, so the next message starts a new turn. *)
Theorem vanished_turn_is_freed (base : list Event) (s : Claire) (x : AssistantSession) (r : RunId) :
  good base (cl_hub s) -> zlen (base ++ hs_events (cl_hub s)) < i64_max ->
  (forall e, e ∈ base ++ hs_events (cl_hub s) -> e_event_id e <> id_new (env_uuid (hs_draws (cl_hub s)))) ->
  session_in channel s = Some x -> ss_run_id x = Some r -> r ∈ cl_busy s -> cl_jobs s !! r = None ->
  unreported (ss_task_id x) r (cl_hub s) ->
  exists e, let s1 := snd (reconcile_claire_runner channel s) in
    hs_events (cl_hub s1) = hs_events (cl_hub s) ++ [e] /\
    e_kind e = RunFailed /\ e_task_id e = ss_task_id x /\ e_run_id e = Some r /\
    forall send, let s2 := snd (observe_event channel send e s1) in
      (r ∉ cl_busy s2) /\
      exists y, session_in channel s2 = Some y /\ ss_run_id y = None /\ ss_pending_wake_event_id y = None /\
        ss_pending_follow_up y = None /\ ss_action_follow_up_in_progress y = false.
Proof.
  intros Hgood Hmax Hnew Hx Hr Hbusy Hjob Hdur.
  destruct (reconcile_reports base s x r Hgood Hmax Hnew Hx Hr Hbusy Hjob Hdur)
    as (e & y & Hev & Hk & Ht & He & Hb & Hy & Hty & Hry).
  exists e. cbv zeta. split_and!; [done..|]. intros send.
  destruct (observe_failed send e y r _ Hy Hry (eq_trans Hty (eq_sym Ht)) Hk He) as [Hb2 Hin].
  rewrite Hb2. split; [by intros [_ []%not_elem_of_singleton]%elem_of_difference|]. by exists (session_cleared y).
Qed.
End Recovery.

(** ** Properties *)
Section Properties.
Context {P : Platform} {PL : PlatformLaws P} {E : Env P} {EO : EnvOk} {CE : ClaireEnv}.
Context (channel : string).


(** C34: A worker's result counts as told only when it was. If a step of the bridge
    closes a pending wake, the step is the output thread reading the answer of
    the turn that assesses this very wake, the answer was well formed and asked
    for no action, and the message it had for the user, if any, was delivered;
    else the hub was asked to complete that wake directly. *)
Theorem wake_closed_when_told (i : EventId) (s s' : Claire) :
  claire_step channel s s' -> wake_is_open i s = true -> wake_is_open i s' = false ->
  closed_by_answer channel i s s' \/ s' = set_cl_hub (hub_call (Call_complete_wake i) (cl_hub s)) s.
Proof. apply step_closes. Qed.

(** The two fixed texts a refused answer is replaced with. *)
Definition refusal (envelope : ClaireEnvelope) : string :=
  if ce_malformed envelope then "Claire returned an invalid response. Please try again."
  else "Claire couldn't finalize that turn. Please try again.".

Definition refused (envelope : ClaireEnvelope) (x : AssistantSession) : bool :=
  ce_malformed envelope || (ss_action_follow_up_in_progress x && has_internal_work envelope).

Lemma refuse_answer_eq reason reply x s :
  session_in channel s = Some x ->
  exists s', refuse_answer channel reason reply s =
      (Ok (MkProjection (if bool_decide (is_Some (ss_pending_wake_event_id x)) then None else Some reply) None false), s') /\
    calm s s' /\ session_in channel s' = Some (session_wake None (session_follow_up None false x)).
Proof.
  intros Hx. set (y := session_follow_up None false x).
  destruct (save_session_eq channel y s) as (s1 & Hs1 & Hin1 & _).
  pose proof (calm_save channel y s) as Hc1. rewrite Hs1 in Hc1. cbn in Hc1.
  set (s2 := snd (defer_session_wake channel y reason s1)). exists s2. split_and!.
  - unfold refuse_answer, mbind, M_bind. rewrite session_now_eq Hx ignore_ok -/y Hs1. cbn [snd].
    by rewrite defer_session_wake_ok.
  - etrans; [exact Hc1|]. by apply calm_defer_session_wake.
  - unfold s2, defer_session_wake. destruct (ss_pending_wake_event_id y) as [w|] eqn:Hw.
    + unfold mbind at 1, M_bind at 1. rewrite ignore_ok. unfold mbind, M_bind. rewrite session_now_eq.
      pose proof (keeps_on_hub channel _ (setting_hub_defer (session_key channel) w reason) s1) as Hk.
      apply (keeps_session channel) in Hk. rewrite Hk Hin1 bool_decide_eq_true_2 // ignore_ok. cbn [snd].
      destruct (save_session_eq channel (session_wake None y) (snd (on_hub (hub_defer_assistant_wake w reason) s1)))
        as (s3 & Hs3 & Hin3 & _). by rewrite Hs3.
    + cbn. rewrite Hin1. f_equal. unfold y in *. destruct x. cbn in *. by subst.
Qed.

(** C36: A refused answer has no effect but the end of its turn. When the engine's
    answer is not an envelope, or asks for more work where its last word was due,
    nothing is appended to the log, no memory is written, no process is started;
    the raw text is not sent: the user gets one of two fixed sentences, or
    nothing when the turn assessed a worker; and the session has no follow-up
    left and no wake marked. *)
Theorem refused_answer_does_nothing (event : Event) (x : AssistantSession) (s : Claire) :
  e_kind event = MessageAssistantCompleted -> session_in channel s = Some x -> refused (answer_of event) x = true ->
  exists s', process_claire_event channel event s =
      (Ok (MkProjection (if bool_decide (is_Some (ss_pending_wake_event_id x)) then None
                         else Some (refusal (answer_of event))) None false), s') /\
    hs_events (cl_hub s') = hs_events (cl_hub s) /\ cl_optmem s' = cl_optmem s /\ cl_commands s' = cl_commands s /\
    cl_busy s' = cl_busy s /\
    session_in channel s' = Some (session_wake None (session_follow_up None false x)).
Proof.
  intros Hk Hx Hr. unfold process_claire_event. rewrite Hk. unfold process_answer. fold (answer_of event).
  unfold refused, refusal in *. destruct (ce_malformed (answer_of event)).
  - destruct (refuse_answer_eq "Claire returned a malformed envelope"
      "Claire returned an invalid response. Please try again." x s Hx) as (s' & -> & [_ Hev _ Hrest] & Hin).
    exists s'. rewrite Hrest in Hin |- *. by split_and!.
  - cbn [orb] in Hr. unfold mbind at 1, M_bind at 1. rewrite session_now_eq Hx Hr.
    destruct (refuse_answer_eq "Claire requested another action during final disclosure"
      "Claire couldn't finalize that turn. Please try again." x s Hx) as (s' & -> & [_ Hev _ Hrest] & Hin).
    exists s'. rewrite Hrest in Hin |- *. by split_and!.
Qed.

(** C37: What is quoted to the engine is bounded and is the end of the text. Text
    within the bound is kept whole; longer text becomes the notice and the
    longest end of it that fits and starts at a character: still well formed,
    never over the bound, and at most three bytes under it. *)
Theorem bounded_tail_exact (text : string) (max : N) :
  utf8_valid text = true -> (str_len OMITTED <= max)%N ->
  if (str_len text <=? max)%N then bounded_tail text max = text
  else exists p tail, text = p +:+ tail /\ bounded_tail text max = OMITTED +:+ tail /\ utf8_valid tail = true /\
         (str_len (bounded_tail text max) <= max <= str_len (bounded_tail text max) + 3)%N.
Proof.
  intros Hv Hmax. unfold bounded_tail. destruct (N.leb_spec (str_len text) max) as [|Hlong]; [done|].
  set (start := N.to_nat (str_len text - (max - str_len OMITTED))). unfold str_len in *.
  destruct (to_boundary_valid start text Hv) as (H1 & H2 & p & Hp); [lia|].
  exists p, (to_boundary (str_drop start text)). split_and!; [done|done|done|..].
  - rewrite str_length_app. apply (f_equal String.length) in Hp. rewrite str_length_app in Hp.
    rewrite str_drop_length in H2. assert (String.length (to_boundary (str_drop start text)) <= String.length (str_drop start text))%nat.
    { clear. induction (str_drop start text) as [|a s IH]; [done|]. cbn [to_boundary]. destruct (is_char_boundary a); cbn; lia. }
    rewrite str_drop_length in H. lia.
  - rewrite str_length_app. rewrite str_drop_length in H2. lia.
Qed.

(** A selector: one to 200 bytes of letters, digits and a few signs. *)
Definition selector (v : string) : Prop :=
  (1 <= str_len v <= 200)%N /\ Forall (fun ch => selector_char ch = true) (chars v).

Lemma validate_selector_ok label v : validate_selector label v = Ok tt <-> selector v.
Proof.
  unfold validate_selector, selector.
  assert (existsb (fun ch => negb (selector_char ch)) (chars v) = false <->
          Forall (fun ch => selector_char ch = true) (chars v)) as Hch.
  { induction (chars v) as [|c l IH]; cbn; [done|]. rewrite orb_false_iff Forall_cons negb_false_iff IH. done. }
  destruct v as [|a v]; [split; [done|intros [[H _] _]; unfold str_len in H; cbn in H; lia]|]. cbn [str_is_empty orb].
  destruct (N.ltb_spec 200 (str_len (String a v))); cbn [orb]; [split; [done|intros [[_ ?] _]; lia]|].
  destruct (existsb _ _); [split; [done|intros [_ Hf]; by apply Hch in Hf]|].
  split; [|done]. intros _. split; [|by apply Hch]. split; [unfold str_len; cbn [String.length]; lia|done].
Qed.

(** A worker the assistant creates is checked first. Either one of the checks
    fails, and then the action is an error that changes nothing at all; or the
    engine is claude or codex, the effort is low, medium or high, the model and
    the node id, when given, are plain selectors, a workspace is an absolute
    path, and the action is the hub's own worker creation for this channel with
    exactly these values. *)
Theorem created_workers_are_checked (settings : AssistantSettings) (title prompt : string)
    (node_id engine model effort workspace : option string) (s : Claire) :
  let action := Act_CreateTask title prompt node_id engine model effort workspace in
  match create_task_checks settings node_id engine model effort workspace with
  | Err e => execute_claire_action channel settings action s = (Err e, s)
  | Ok (engine', effort') =>
      engine' = default (as_engine settings) engine /\ (engine' = "claude" \/ engine' = "codex")%string /\
      effort' = default (as_reasoning_effort settings) effort /\ is_effort effort' = true /\
      (forall m, model = Some m -> selector m) /\ (forall n, node_id = Some n -> selector n) /\
      (forall w, workspace = Some w -> path_is_absolute w = true) /\
      execute_claire_action channel settings action s =
        (ids ← submit_task title prompt channel (MkNodeId <$> node_id) engine' model (Some effort')
                 (match workspace with Some w => Some w | None => as_workspace settings end);
         let '(task_id, run_id) := (ids : TaskId * RunId) in
         mret ("Started task " +:+ short_id task_id +:+ " (run " +:+ short_id run_id +:+ ").")) s
  end.
Proof.
  cbv zeta. cbn [execute_claire_action]. unfold action_create_task.
  destruct (create_task_checks settings node_id engine model effort workspace) as [[e' f']|e] eqn:Hc; [|done].
  unfold create_task_checks in Hc. set (e0 := default (as_engine settings) engine) in *.
  set (f0 := default (as_reasoning_effort settings) effort) in *.
  apply bind_ok in Hc as ([] & _ & Hc).
  destruct (String.eqb_spec e0 "claude") as [He|He], (String.eqb_spec e0 "codex") as [He'|He']; cbn [orb negb] in Hc; try done;
    (apply bind_ok in Hc as ([] & Hm & Hc); apply bind_ok in Hc as ([] & Hf & Hc); apply bind_ok in Hc as ([] & Hn & Hc);
     apply bind_ok in Hc as ([] & Hw & Hc); injection Hc as <- <-; split_and!; try by auto).
  all: try (unfold validate_effort in Hf; by destruct (is_effort f0)).
  all: intros v ->; first
    [ by apply validate_selector_ok in Hm | by apply validate_selector_ok in Hn | by destruct (path_is_absolute v) ].
Qed.

(** *** What a restart and a reserved name leave open *)

(** A restart ends the turn but not its follow-up mark. *)
Lemma recovery_keeps_follow_up_mark x s s' :
  session_in channel s = Some x -> recover_hub_local_assistant channel s = (Ok tt, s') ->
  exists y, session_in channel s' = Some y /\ ss_run_id y = None /\
    ss_action_follow_up_in_progress y = ss_action_follow_up_in_progress x.
Proof.
  intros Hx H. unfold recover_hub_local_assistant in H. apply m_bind_ok in H as (found & s1 & Hf & H).
  destruct (found_session_eq channel s) as (r & Hr & Hs). rewrite Hr in Hf. injection Hf as -> <-.
  rewrite Hx in Hs. destruct found as [y|]; [|done]. cbn in Hs. injection Hs as <-.
  apply m_bind_ok in H as ([] & s2 & _ & H). apply m_bind_ok in H as ([] & s3 & _ & H).
  match type of H with save_session _ ?z _ = _ => destruct (save_session_eq channel z s3) as (s4 & H4 & Hin & _) end.
  rewrite H4 in H. injection H as <-. by eexists.
Qed.

(** A node that calls itself by the hub's own name reports on the assistant's runs. *)
Lemma node_named_hub_is_accepted draft r s v s' :
  owns_run s hub_node r (d_task_id draft) -> d_node_id draft = hub_node -> d_run_id draft = Some r ->
  accepts_node_event hub_node draft s = (Ok v, s') -> v = true.
Proof.
  intros Ho Hn Hr H. apply accepts_node_event_spec in H as (_ & _ & _ & _ & Hv). apply Hv. split; [done|]. by exists r.
Qed.
End Properties.

(** ** Instances *)
Section Instances.

#[local] Instance s_claire_env : ClaireEnv := {
  optmem _ _ _ _ := Output_error "none";
  claude_bin := None;
  codex_bin := None;
}.

Definition s_channel : string := "telegram.1".

(** The first message of a user, on an empty hub. *)
Definition s_claire0 : Claire := claire_new s_hub0.



(** A worker of the channel completed, and a turn of the assistant assesses it. *)
Definition s_worker_hub : HubState :=
  hub_call s_call4 (hub_call (Call_track s_channel s_task3 s_run3) s_hub3).
Definition s_turn : RunId := an_id "9".
Definition s_home : TaskId := an_id "8".
Definition s_assessing : AssistantSession :=
  MkAssistantSession s_home (Some s_turn) "claude" None (Some (an_id "e4")) None false.
Definition s_assess : Claire :=
  set_cl_busy {[ s_turn ]} (snd (save_session s_channel s_assessing (claire_new s_worker_hub))).
Definition s_answer (text : string) : Event :=
  MkEvent 20 (an_id "e20") None MessageAssistantCompleted s_home (Some s_turn) None hub_node 1 9 9
    (value_object [("text", value_str text)])%string.
Definition s_done : string :=
  json_to_string (Platform := test_platform) (value_object [("reply", value_str "done")])%string.
Definition s_told : Claire := snd (observe_event s_channel (fun _ => true) (s_answer s_done) s_assess).

Example s_wake_undelivered :
  wake_is_open (an_id "e4") (snd (observe_event s_channel (fun _ => false) (s_answer s_done) s_assess)) = true.
Proof. vm_refl. Qed.

Lemma wake_closed_when_told_witness :
  wake_is_open (an_id "e4") s_assess = true /\ wake_is_open (an_id "e4") s_told = false /\
  (closed_by_answer s_channel (an_id "e4") s_assess s_told \/
   s_told = set_cl_hub (hub_call (Call_complete_wake (an_id "e4")) (cl_hub s_assess)) s_assess).
Proof.
  assert (wake_is_open (an_id "e4") s_assess = true) as H1 by vm_refl.
  assert (wake_is_open (an_id "e4") s_told = false) as H2 by vm_refl.
  split; [exact H1|]. split; [exact H2|].
  apply (wake_closed_when_told s_channel (an_id "e4") s_assess s_told); [apply Step_event|exact H1|exact H2].
Defined.

(** The same turn answers with something that is no envelope. *)
Definition s_prose : Event := s_answer "I will look into it.".

Lemma refused_answer_does_nothing_witness :
  refused (answer_of s_prose) s_assessing = true /\
  exists s', process_claire_event s_channel s_prose s_assess = (Ok (MkProjection None None false), s') /\
    hs_events (cl_hub s') = hs_events (cl_hub s_assess).
Proof.
  assert (refused (answer_of s_prose) s_assessing = true) as H by vm_refl. split; [exact H|].
  destruct (refused_answer_does_nothing s_channel s_prose s_assessing s_assess) as (s' & H1 & H2 & _);
    [reflexivity|vm_refl|exact H|].
  exists s'. split; [rewrite H1; reflexivity|exact H2].
Defined.

(** A two-byte character is not cut in half. *)
Definition s_long : string :=
  "this text is longer than the bound it is given: " +:+ String "195" (String "169" "!").

Lemma bounded_tail_exact_witness :
  utf8_valid s_long = true /\ (str_len OMITTED <= str_len OMITTED + 2)%N /\
  bounded_tail s_long (str_len OMITTED + 2) = OMITTED +:+ "!" /\
  exists p tail, s_long = p +:+ tail /\ bounded_tail s_long (str_len OMITTED + 2) = OMITTED +:+ tail.
Proof.
  assert (utf8_valid s_long = true) as H1 by vm_refl.
  assert (str_len OMITTED <= str_len OMITTED + 2)%N as H2 by lia.
  split; [exact H1|]. split; [exact H2|]. split; [vm_refl|].
  pose proof (bounded_tail_exact s_long (str_len OMITTED + 2)%N H1 H2) as H.
  assert ((str_len s_long <=? str_len OMITTED + 2)%N = false) as H3 by vm_refl. rewrite H3 in H.
  destruct H as (p & tail & Hp & Ht & _). by exists p, tail.
Defined.

(** A worker on the default engine, and one whose workspace is no absolute path. *)
Definition s_settings : AssistantSettings :=
  MkAssistantSettings "Claire" "kind" "claude" None None "high" None false None None.

Lemma created_workers_are_checked_witness :
  create_task_checks s_settings None None (Some "opus") None (Some "/srv")%string = Ok ("claude", "high")%string /\
  is_effort "high" = true /\
  execute_claire_action s_channel s_settings
    (Act_CreateTask "t" "p" None None (Some "opus") None (Some "work"))%string s_claire0 =
    (Err (Error_msg "worker workspace must be an absolute path"), s_claire0).
Proof.
  split; [vm_refl|]. split.
  - pose proof (created_workers_are_checked s_channel s_settings "t" "p" None None (Some "opus"%string) None
      (Some "/srv"%string) s_claire0) as H.
    assert (create_task_checks s_settings None None (Some "opus") None (Some "/srv")%string = Ok ("claude", "high")%string)
      as Hc by vm_refl. cbv zeta in H. rewrite Hc in H. apply H.
  - pose proof (created_workers_are_checked s_channel s_settings "t" "p" None None (Some "opus"%string) None
      (Some "work"%string) s_claire0) as H. cbv zeta in H.
    assert (create_task_checks s_settings None None (Some "opus") None (Some "work")%string =
            Err (Error_msg "worker workspace must be an absolute path")) as Hc by vm_refl.
    rewrite Hc in H. exact H.
Defined.

(** A turn whose process and thread are gone, and nothing reported. *)
Definition s_lost_calls : list HubCall :=
  [Call_submit (CC_CreateTask (an_id "c1") "Claire");
   Call_assistant_run (an_id "1") "claude" None None "hello" None;
   Call_save_session s_channel (MkAssistantSession (an_id "1") (Some (an_id "3")) "claude" None None None false)]%string.
Definition s_lost_hub : HubState := foldl (fun h c => hub_call c h) s_hub0 s_lost_calls.
Definition s_lost : Claire := set_cl_busy {[ an_id "3" ]} (claire_new s_lost_hub).

Lemma s_lost_good : good [] (cl_hub s_lost).
Proof.
  change (cl_hub s_lost) with s_lost_hub. unfold s_lost_hub, s_lost_calls. cbn [foldl].
  do 3 (eapply ev_good; [by apply hub_call_evolves|]). exact s_good0.
Qed.

Definition s_lost_session : AssistantSession :=
  MkAssistantSession (an_id "1") (Some (an_id "3")) "claude" None None None false.
Example s_lost_found : session_in s_channel s_lost = Some s_lost_session.
Proof. vm_refl. Qed.
Example s_lost_new :
  forallb (fun e => negb (bool_decide (e_event_id e = id_new (env_uuid (hs_draws s_lost_hub))))) (hs_events s_lost_hub) = true.
Proof. vm_refl. Qed.
Example s_lost_unreported :
  match fst (task_events (an_id "1") s_lost_hub) with
  | Ok events => existsb (fun e => terminal_kind (e_kind e)) events
  | Err _ => true
  end = false.
Proof. vm_refl. Qed.
Example s_lost_read : is_ok (fst (task_events (an_id "1") s_lost_hub)) = true.
Proof. vm_refl. Qed.

Lemma s_lost_new_id e :
  e ∈ [] ++ hs_events (cl_hub s_lost) -> e_event_id e <> id_new (env_uuid (hs_draws (cl_hub s_lost))).
Proof.
  change (cl_hub s_lost) with s_lost_hub.
  cbn [app]. intros Hin%list_elem_of_In He. pose proof s_lost_new as H. rewrite forallb_forall in H.
  specialize (H e Hin). apply negb_true_iff in H. apply bool_decide_eq_false in H. exact (H He).
Qed.

Lemma s_lost_not_reported : unreported (an_id "1") (an_id "3") (cl_hub s_lost).
Proof.
  change (cl_hub s_lost) with s_lost_hub.
  pose proof s_lost_unreported as H. pose proof s_lost_read as Hr. unfold unreported.
  destruct (fst (task_events (an_id "1") s_lost_hub)) as [events|]; [|discriminate Hr].
  exists events. split; [done|]. intros e Hin%list_elem_of_In _. destruct (terminal_kind (e_kind e)) eqn:Hk; [|done].
  rewrite -not_true_iff_false existsb_exists in H. exfalso. apply H. by exists e.
Qed.

Lemma vanished_turn_is_freed_witness :
  (an_id "3" ∈ cl_busy s_lost) /\ cl_jobs s_lost !! an_id "3" = None /\
  exists e, let s1 := snd (reconcile_claire_runner s_channel s_lost) in
    hs_events (cl_hub s1) = hs_events (cl_hub s_lost) ++ [e] /\ e_kind e = RunFailed /\
    (an_id "3" ∉ cl_busy (snd (observe_event s_channel (fun _ => true) e s1))).
Proof.
  assert (an_id "3" ∈ cl_busy s_lost) as Hbusy by exact (proj2 (elem_of_singleton (an_id "3") (an_id "3")) eq_refl).
  assert (cl_jobs s_lost !! an_id "3" = None) as Hjob by reflexivity.
  assert (zlen ([] ++ hs_events (cl_hub s_lost)) < i64_max) as Hmax by (apply Z.ltb_lt; vm_refl).
  split; [exact Hbusy|]. split; [exact Hjob|].
  destruct (vanished_turn_is_freed s_channel [] s_lost s_lost_session (an_id "3") s_lost_good Hmax s_lost_new_id
    s_lost_found eq_refl Hbusy Hjob s_lost_not_reported) as (e & H1 & H2 & _ & _ & H3).
  exists e. cbv zeta. split; [exact H1|]. split; [exact H2|]. apply (H3 (fun _ => true)).
Defined.
End Instances.
