(* ===== verification/CoreTheorems.v ===== *)
(** The properties of the core library: pricing, configuration merging, the token
    commands and the enrollment codes. *)
From S2P Require Import Prelude.
From S2P Require Import RustStr.
From S2P Require Import Float64.
From S2P Require Import Platform.
From S2P Require Import TestPlatform.
From S2P Require Import JsNum.
From S2P Require Import JsonTrees.
From S2P Require Import Pricing.
From S2P Require Import Paths.
From S2P Require Import Modules.
From S2P Require Import Config.
From S2P Require Import Auth.
From S2P Require Import Tokens.
From S2P Require Import TokenFacts.
From Stdlib Require Import Ascii.

Local Open Scope Z_scope.

(** ** Pricing *)

(** The loop of [price_for] computes the best match: the price of an entry whose key
    occurs in the lower-cased model id and is longer than every key before it that does
    and at least as long as every key after it; and the table's default, or the built-in
    one, exactly when no key but an empty one occurs in the id. *)
Theorem price_for_exact to_lowercase model table :
  let id := to_lowercase model in
  let pricing := default default_pricing table in
  (exists entry, best_entry id pricing entry /\ price_for to_lowercase model table = entry.2) \/
  (unmatched id pricing /\
     price_for to_lowercase model table = default BUILT_IN_DEFAULT (assoc "default" pricing)).
Proof.
  intros id pricing. unfold price_for. fold id pricing.
  destruct (price_loop id (default BUILT_IN_DEFAULT (assoc "default" pricing)) pricing) as [[Hno ->]|(e & He & ->)];
    [by right|]. left. by exists e.
Qed.

(** ** Configuration *)

(** [deep_merge] of a user's configuration over a base: the keys of the base keep
    their order and the user's new keys follow in theirs; a value is the user's, merged
    into the base's one where the user's is an object; and merging the result over the
    base again changes nothing. *)
Theorem config_merge_exact base user :
  tree_ok base = true -> tree_ok user = true ->
  exists m, deep_merge base user = Json_object m /\ NoDup m.*1 /\
    m.*1 = (spread_into_map base).*1 ++
             List.filter (fun k => negb (contains_key k (spread_into_map base))) (spread_into_map user).*1 /\
    (forall k, assoc k m =
       match assoc k (spread_into_map user) with
       | Some v => Some (merge_value v (assoc k (spread_into_map base)))
       | None => assoc k (spread_into_map base)
       end) /\
    deep_merge base (deep_merge base user) = deep_merge base user.
Proof.
  intros Hb Hu. unfold deep_merge. rewrite (merge_idempotent user base) //. rewrite merge_entries.
  pose proof (spread_NoDup _ Hb) as Nb. pose proof (spread_NoDup _ Hu) as Nu.
  eexists. split; [done|]. split; [by apply put_all_NoDup|]. split; [by apply put_all_keys|].
  split; [|done]. intros k. by apply put_all_assoc.
Qed.

Definition sample_base : JsonTree :=
  Json_object [("server", Json_object [("port", Json_number (Num_int 4200)); ("token", Json_string "")]);
               ("pricing", Json_object [])]%string.
Definition sample_user : JsonTree :=
  Json_object [("modules", Json_null); ("server", Json_object [("port", Json_number (Num_int 80))])]%string.
Example config_merge_witness :
  exists m, deep_merge sample_base sample_user = Json_object m /\ NoDup m.*1 /\ m.*1 = ["server"; "pricing"; "modules"]%string.
Proof.
  destruct (config_merge_exact sample_base sample_user eq_refl eq_refl) as (m & Hm & Hn & Hk & _).
  exists m. split; [exact Hm|]. split; [exact Hn|]. rewrite Hk. reflexivity.
Defined.

(** ** Tokens *)

Section TokenTheorems.
Context {J : JsonText} {JL : JsonTextLaws J}.
Context (form_pairs : string -> list (string * string)).


(** after [revoke_machine_token] the file parses, everything outside the server
    section and every other machine's token is as it was, and the server started with it
    refuses a secret only that machine had -- or, when it was the last token and there is
    no global one, admits everyone, as a server without tokens does. *)
Theorem revoked_token_refused machine text config server tokens name file' secret home host storage headers query :
  server_file text config server -> normal_tokens server = Some tokens -> machine_name machine = Ok name ->
  revoke_machine_token None machine (Ok text) = (Ok tt, file') ->
  headers "authorization"%string = Some ("Bearer " +:+ secret) ->
  truthy_string (assoc "token" server) <> Some secret ->
  (forall m v, (m, v) ∈ tokens -> truthy_string (Some v) = Some secret -> m = name) ->
  exists text' config' section tokens',
    file' = Ok text' /\ tree_from_str text' = Some config' /\
    (forall k, k <> "server"%string -> get k config' = get k config) /\
    get "server" (merged_raw home host storage config') = Some (Json_object section) /\
    assoc "tokens" section = Some (Json_object tokens') /\ contains_key name tokens' = false /\
    (forall m, m <> name -> assoc m tokens' = assoc m tokens) /\
    authenticate form_pairs headers query (Json_object section) =
      (if negb (is_truthy (assoc "token" section)) && match tokens' with [] => true | _ => false end
       then Some Open else None).
Proof.
  intros Hsf Htoks Hname Hr Hh Hglobal Honly.
  destruct (revoke_ok _ _ _ _ _ Hsf Hr) as (l & tokens0 & name0 & Htok & Hname0 & _ & ->).
  assert (tokens0 = tokens) as -> by (pose proof (ht_tokens _ _ _ _ Htok); congruence).
  assert (name0 = name) as -> by congruence. clear Hname0.
  pose proof (read_ok _ _ (sf_text _ _ _ Hsf)) as Hok.
  assert (entries_ok (shift_remove name tokens)) as Hnew by (apply remove_ok; by eapply tokens_ok).
  destruct (changed_file _ _ _ _ _ Hok Htok Hnew) as (Hread & Hok' & (l' & server' & Htok' & Ht' & Hg') & Hother).
  destruct (loaded_server home host storage _ _ _ _ Hok' Htok' Ht') as (section & Hsect & Hst & Hsg).
  eexists _, _, section, _.
  split_and!; [done|exact Hread|exact Hother|exact Hsect|exact Hst|by apply contains_removed| |].
  { intros m Hm. rewrite assoc_remove. by rewrite (proj2 (String.eqb_neq m name)). }
  unfold authenticate, machine_tokens. cbn [get]. rewrite Hst.
  destruct (negb _ && _); [done|].
  assert (request_token form_pairs headers query = secret) as ->.
  { unfold request_token. rewrite Hh. cbn [default from_option]. by rewrite strip_prefix_app. }
  rewrite Hsg Hg'. rewrite bool_decide_false; [by destruct (assoc "token" server)|]. apply find_machine_none.
  intros m v Hin%removed_elem Hv. destruct Hin as [Hin Hm]. by apply Hm, (Honly _ _ Hin).
Qed.

(** Creating or revoking a token is all or nothing: whatever the error -- a bad name,
    a file that cannot be read or parsed, a name taken, an empty or duplicate secret, a
    write the file system refused -- the file is as it was. *)
Theorem token_errors_keep_file refused generated machine token force :
  keeps_on_error (create_machine_token refused generated machine token force) /\
  keeps_on_error (revoke_machine_token refused machine).
Proof.
  split; unfold create_machine_token, revoke_machine_token; (apply keeps_bind; [done|]); intros name;
    (apply keeps_bind; [done|]); intros loaded.
  - destruct (_ && _); [apply keeps_fail|]. cbv zeta. destruct (str_is_empty _); [apply keeps_fail|].
    destruct (assigned_elsewhere _ _ _); [apply keeps_fail|]. apply write_then_keeps.
  - destruct (negb _); [apply keeps_fail|]. apply write_keeps.
Qed.
End TokenTheorems.

(** ** Enrollment *)

Section EnrollTheorems.
Context {J : JsonText} {JL : JsonTextLaws J}.
Context (url_parse : string -> option (string * string)).

(** a code that [create_enrollment] made and that is within the parser's bound is read
    back: the machine and the token as they were trimmed, and the server URL as the second
    cleaning leaves the one that was put in. *)
Theorem enrollment_round_trip server_url machine token code :
  (forall clean, valid_url url_parse server_url = Ok clean -> utf8_valid clean = true) ->
  utf8_valid machine = true -> utf8_valid token = true ->
  create_enrollment url_parse server_url machine token = Ok code -> (str_len code <= 16384)%N ->
  exists clean_url, valid_url url_parse server_url = Ok clean_url /\
    parse_enrollment url_parse code =
      (url ← valid_url url_parse clean_url; Ok (MkEnrollment url (js_trim machine) (js_trim token))).
Proof.
  intros Hparse Hm Ht Hc Hlen. unfold create_enrollment in Hc. apply bind_ok in Hc as (clean & Hclean & Hc).
  exists clean. split; [done|].
  specialize (Hparse _ Hclean).
  destruct (str_is_empty (js_trim machine)) eqn:Hme; [done|]. destruct (str_is_empty (js_trim token)) eqn:Hte; [done|].
  injection Hc as <-. set (payload := enrollment_payload clean (js_trim machine) (js_trim token)) in *.
  assert (tree_ok payload = true) as Hok by (apply payload_ok; [done|by apply trim_valid..]).
  unfold parse_enrollment, code_ok. rewrite code_text encode_nonempty; [by apply compact_text|].
  rewrite (proj2 (N.leb_le _ _) Hlen) base64url_roundtrip. cbn [negb andb].
  rewrite from_utf8_lossy_valid; [by apply compact_utf8|]. rewrite read_compact //.
  cbn [payload enrollment_payload assoc String.eqb Ascii.eqb Bool.eqb].
  change (f64_eq _ _) with true. cbv iota. cbn [js_display].
  rewrite !field_trim_text. unfold js_trim. by rewrite !trim_twice.
Qed.
End EnrollTheorems.

(** *** At concrete inputs *)

Definition sample_config : JsonTree :=
  Json_object [("server", Json_object [("token", Json_string ""); ("tokens", Json_object [("desk", Json_string "d")])]);
               ("note", Json_bool true)]%string.
Definition sample_server : list (string * JsonTree) :=
  [("token", Json_string ""); ("tokens", Json_object [("desk", Json_string "d")])]%string.
Definition sample_text : string := tree_to_pretty sample_config +:+ String LF EmptyString.
Definition sample_storage : StoragePaths := resolve_storage_paths (fun _ => None) "/home/n".
Definition bearer (secret : string) : Headers :=
  fun k => if String.eqb k "authorization" then Some ("Bearer " +:+ secret) else None.
Definition no_pairs (_ : string) : list (string * string) := [].

Lemma sample_file : server_file sample_text sample_config sample_server.
Proof. constructor; vm_compute; reflexivity. Qed.


Example revoked_token_refused_witness :
  exists section, authenticate no_pairs (bearer "d") "" (Json_object section) = Some Open.
Proof.
  destruct (revoked_token_refused no_pairs "desk" sample_text sample_config sample_server
              [("desk", Json_string "d")]%string "desk"
              (revoke_machine_token None "desk" (Ok sample_text)).2 "d" "/home/n" "pc" sample_storage
              (bearer "d") "" sample_file) as (text' & config' & section & tokens' & Hf & Hr & _ & Hs & Ht & _ & _ & Ha).
  - reflexivity.
  - reflexivity.
  - vm_compute. reflexivity.
  - reflexivity.
  - vm_compute. congruence.
  - intros m v [= -> ->]%list_elem_of_singleton _. reflexivity.
  - exists section. vm_compute in Hf. injection Hf as <-. vm_compute in Hr. injection Hr as <-.
    vm_compute in Hs. injection Hs as <-. vm_compute. reflexivity.
Defined.

Definition plain_url (u : string) : option (string * string) := Some ("http"%string, u).
Example enrollment_round_trip_witness :
  exists code, parse_enrollment plain_url code = Ok (MkEnrollment "http://h" "pc" "s").
Proof.
  destruct (create_enrollment plain_url "http://h/" " pc" "s ") as [code|e] eqn:Hc; [|vm_compute in Hc; discriminate].
  exists code. destruct (enrollment_round_trip plain_url "http://h/" " pc" "s " code) as (clean & Hclean & Hp).
  - intros clean [= <-]. reflexivity.
  - reflexivity.
  - reflexivity.
  - exact Hc.
  - vm_compute in Hc. injection Hc as <-. vm_compute. discriminate.
  - injection Hclean as <-. exact Hp.
Defined.

(** What [token create] does when the URL it is given is no URL: the file holds the new
    secret, which the error does not show. *)
Lemma bad_url_loses_secret :
  let args := ["create"; "pc"; "--server-url=nowhere"]%string in
  let '(r, file') := run_token_into (fun _ => None) None "g" args (Ok sample_text) in
  r = Err (Error_msg "server URL must be a valid http(s) URL") /\ file' <> Ok sample_text.
Proof. vm_compute. split; [reflexivity|discriminate]. Qed.
