(* ===== verification/AgentTheorems.v ===== *)
(** The properties of the agent's watchers: what the followed logs yield and are
    charged, and how activity finds its project. *)
From S2P Require Import Prelude.
From S2P Require Import RustStr.
From S2P Require Import Float64.
From S2P Require Import Platform.
From S2P Require Import TestPlatform.
From S2P Require Import JsNum.
From S2P Require Import JsonTrees.
From S2P Require Import Pricing.
From S2P Require Import Paths.
From S2P Require Import Project.
From S2P Require Import ProjectFacts.
From S2P Require Import Tail.
From S2P Require Import WatchClaude.
From S2P Require Import WatchClaudeFacts.
From S2P Require Import WatchCodex.
From S2P Require Import WatchFiles.
From S2P Require Import WatchApps.
From S2P Require Import WatchZed.
From S2P Require Import Config.
From S2P Require Import Watchers.
From S2P Require Import WatcherFacts.
From Stdlib Require Import Ascii.

Local Open Scope Z_scope.

(** ** Token accounting *)


(** A log that a message streams into over two ticks. *)
Section ClaudeSample.
Definition log_text (lines : list JsonTree) : string :=
  String.concat "" (map (fun v => tree_to_string v +:+ String LF EmptyString) lines).
End ClaudeSample.




(** ** Followed logs *)

(** C27: A log first seen at some length and then appended to, read by one tick after
    each append, yields the parsed complete lines of what was appended, each once and in
    order, wherever the appends cut lines or characters, as long as no tick finds more
    than five mebibytes; what was there before is not replayed. *)
Theorem appended_lines_once {J : JsonText} name offsets content appended :
  assoc name offsets ≫= as_u64 = None -> paced "" appended ->
  (tail_ticks name offsets (content :: growing content appended)).1 = parse_complete (String.concat "" appended).
Proof.
  intros Hnew Hp. cbn [tail_ticks]. unfold read_new_lines at 1. cbn [fv_size view_of]. rewrite Hnew.
  pose proof (ticks_growing name appended (object_insert name (json_int (Z.of_nat (String.length content))) offsets) content "") as H.
  rewrite str_app_nil_r in H. destruct (tail_ticks _ _ (growing content appended)) as [rows offsets'] eqn:Ht. cbn [fst].
  change rows with (rows, offsets').1. apply H; [|done|done].
  rewrite assoc_insert String.eqb_refl. cbn. by rewrite (proj2 (Z.leb_le 0 _)); [lia|].
Qed.

Lemma appended_lines_once_witness :
  let text := log_text [Json_bool true; Json_null] in
  let n := (String.length text - 3)%nat in
  let appended := [String.substring 0 n text; str_drop n text] in
  (tail_ticks "/l" [] ("old" :: growing "old" appended)).1 = [Json_bool true; Json_null].
Proof.
  intros text n appended. unfold appended. rewrite (appended_lines_once "/l" [] "old").
  - done.
  - cbn [paced]. unfold MAX_READ_PER_FILE. split_and!; [vm_compute; done|vm_compute; done|done].
  - vm_refl.
Defined.

(** ** Projects *)

(** The walk from a location to the root of its repository ends, at the first of the
    location's directory and its ancestors, nearest first, that has a git directory. *)
Theorem repository_root_exact fs cwd location :
  exists stack, Forall ProjectFacts.name stack /\ walk_start fs cwd location = path_of stack /\
    repository_root fs cwd location = List.find (has_git_dir fs cwd) (ancestors stack).
Proof.
  destruct (walk_start_stack fs cwd location) as (stack & Hs & He). exists stack. split_and!; [done..|].
  by apply repository_root_find.
Qed.

(** C31: Activity anywhere in any checkout of a repository, on any machine, is named
    after the owner and the repository of its remote, in whichever spelling the git
    configuration has it and whatever name was suggested, unless an alias applies. *)
Theorem every_checkout_one_project fs cwd url_parse to_lowercase location root git_dir config url host owner repo aliases fallback :
  identity host owner repo -> spelling url_parse host owner repo url ->
  absolute_root fs cwd (trim location) = Some root -> git_dir_for fs cwd root = Some git_dir ->
  read_text fs (common_git_dir fs cwd git_dir +:+ "/config") = Some config -> remote_from_config config = Some url ->
  alias_for to_lowercase aliases
    (project_candidates fs cwd url_parse to_lowercase (trim location) (Some root)
       (project_name (trim location) fallback (Some root))) = None ->
  resolve_project fs cwd url_parse to_lowercase location aliases fallback = owner +:+ "/" +:+ repo.
Proof.
  intros Hid Hsp Hroot Hgit Hcfg Hurl Halias. unfold resolve_project, resolve_project_with_root. rewrite Hroot Halias.
  cbn [mbind option_bind]. unfold git_remote_for_root. rewrite Hgit. cbn [mbind option_bind]. rewrite Hcfg. cbn [mbind option_bind].
  rewrite Hurl. cbn [mbind option_bind]. rewrite (remote_normal _ _ host owner repo Hid) //. cbn. by apply (owner_repo_exact host).
Qed.

(** C32: Naming activity under a root never looks above it: two machines whose files
    under the root are the same, and whose git pointers there stay inside, name every
    location under the root alike, whatever repositories enclose it. *)
Theorem boundary_hides_outside b cwd fs1 fs2 url_parse to_lowercase location aliases fallback :
  same_within b fs1 fs2 -> pointers_inside b fs1 cwd -> path_starts_with (trim location) b = true ->
  resolve_project_within fs1 cwd url_parse to_lowercase location b aliases fallback =
    resolve_project_within fs2 cwd url_parse to_lowercase location b aliases fallback.
Proof.
  intros Hsame Hptr Hloc. unfold resolve_project_within. rewrite (root_same b cwd fs1 fs2 Hsame _ Hloc).
  destruct (within b _) as [root|] eqn:Hw; [|done].
  assert (git_remote_for_root fs1 cwd url_parse to_lowercase root = git_remote_for_root fs2 cwd url_parse to_lowercase root) as Hr.
  { rewrite -(root_same b cwd fs1 fs2 Hsame _ Hloc) in Hw. destruct (root_stack b cwd fs1 _ _ Hw) as (stack & Hs & -> & Hb).
    by apply (remote_same b cwd fs1 fs2 Hsame). }
  unfold resolve_project_with_root, project_candidates. cbn [mbind option_bind]. by rewrite Hr.
Qed.

(** A checkout, with another repository in the directory above it or not. *)
Section CheckoutSample.
Definition checkout_config : string :=
  "[remote " +:+ String QUOTE ("origin" +:+ String QUOTE ("]" +:+ String LF "  url = git@github.com:Acme/widget.git")).
Definition checkout (enclosed : bool) : Files :=
  MkFiles
    (fun p => if String.eqb p "/p/x/.git" then Some Dir
              else if enclosed && String.eqb p "/.git" then Some Dir else None)
    (fun p => if String.eqb p "/p/x/.git/config" then Some checkout_config else None).
Lemma widget_identity : identity "github.com" "Acme" "widget".
Proof. by repeat constructor. Qed.
Lemma widget_spelling parse : spelling parse "github.com" "Acme" "widget" "git@github.com:Acme/widget.git".
Proof. by refine (Scp_user parse "github.com" "Acme" "widget" "git" ".git" Git _). Qed.
End CheckoutSample.

Lemma every_checkout_one_project_witness :
  resolve_project (checkout true) "/" (fun _ => None) id " /p/x/src " [] (Some "shown"%string) = "Acme/widget"%string.
Proof.
  apply (every_checkout_one_project (checkout true) "/" (fun _ => None) id " /p/x/src " "/p/x" "/p/x/.git" checkout_config
           "git@github.com:Acme/widget.git" "github.com" "Acme" "widget" [] (Some "shown"%string)).
  - exact widget_identity.
  - exact (widget_spelling _).
  - vm_refl.
  - vm_refl.
  - vm_refl.
  - vm_refl.
  - vm_refl.
Defined.

Lemma boundary_hides_outside_witness :
  resolve_project_within (checkout true) "/" (fun _ => None) id "/p/y" "/p" [] None =
    resolve_project_within (checkout false) "/" (fun _ => None) id "/p/y" "/p" [] None.
Proof.
  apply (boundary_hides_outside "/p" "/" (checkout true) (checkout false)).
  - intros p Hp. split; [|done]. cbn. destruct (String.eqb p "/p/x/.git"); [done|].
    destruct (String.eqb_spec p "/.git") as [->|]; [by vm_compute in Hp|done].
  - intros stack gd Hs Hp Hg. unfold git_dir_for, checkout, fs_kind in Hg. rewrite stem_trimmed // in Hg.
    destruct (String.eqb_spec (stem stack +:+ "/.git") "/p/x/.git") as [He|_].
    { rewrite He in Hg. apply (inj Some) in Hg as <-. split; vm_refl. }
    destruct (String.eqb_spec (stem stack +:+ "/.git") "/.git") as [He|_].
    { destruct stack as [|x stack]; [by vm_compute in Hp|]. exfalso. apply (f_equal String.length) in He.
      rewrite str_length_app in He. change (String.length (stem _)) with (S (String.length (String.concat "/" (reverse (x :: stack))))) in He.
      lia. }
    done.
  - vm_refl.
Defined.

(** ** The watchers *)

(** A small machine with everything on. *)
Section AgentSample.
Definition scan_machine : Machine :=
  MkMachine (checkout false) "/" (fun _ => None) id
    (fun p => if String.eqb p "/r" then Some [("a.rs"%string, Some File)] else None) (fun _ => no_file).
Definition sample_agent : AgentCfg :=
  MkAgentCfg "http://h" "t" "m" (f64_of_Z 20) ["/r"%string] [] (MkWatchCfg true true true true true true) [] (f64_of_Z 300) []
    (f64_of_Z 8).
Definition sample_world : World :=
  MkWorld scan_machine (fun _ => Some (f64_of_Z 995)) "/logs" "/sessions" true false (Some ["0"%string]) (fun _ => Some (f64_of_Z 990))
    (fun _ => Some "/p/x"%string) (fun _ _ => None) (Ok "0"%string) (Err (Error_msg "no display")) (fun _ => None)
    (fun _ => Err (Error_msg "no database")) "/home/u".
Definition sample_timing : Timing := MkTiming (f64_of_Z 1000) f64_zero (f64_of_Z 1001).
Definition sample_thread (id updated : string) : list SqlValue := [Sql_text id; Sql_text updated].
Definition sample_threads (rows : list (list SqlValue)) : Connection :=
  MkConnection (Ok ["threads"%string]) (fun _ => Some ["id"; "updated_at"]%string) (fun _ => Ok rows).
End AgentSample.

(** C28: A pass over the six watchers emits the rows of every watcher that succeeded, in
    the registered order, whatever happened to the others, and afterwards the health
    entry of each records its own outcome on what the entry held before: a gated,
    failed or successful watcher changes no other entry. *)
Theorem failing_watcher_is_isolated {P : Platform} {J : JsonText} wd cfg pricing timings state :
  length timings = 6%nat ->
  let watchers := zip (default_watchers wd cfg pricing) timings in
  let outcomes := pass_outcomes watchers state in
  (run_watchers watchers state).1 = concat (map outcome_rows outcomes) /\
  (forall i w, default_watchers wd cfg pricing !! i = Some w -> exists o, outcomes !! i = Some o /\
     health_of (w_name w) (run_watchers watchers state).2 = outcome_health o (health_of (w_name w) state)).
Proof.
  intros Hl watchers outcomes.
  assert (Forall (fun e => keeps_health e.1) watchers) as Hk.
  { pose proof (default_keep wd cfg pricing) as Hd. apply Forall_lookup. intros i [w tm] Hi.
    apply lookup_zip_with_Some in Hi as (w' & tm' & [= <- <-] & Hw & _). by eapply Forall_lookup_1 in Hd. }
  assert (map (fun e => w_name e.1) watchers = ["files"; "claude"; "codex"; "macApps"; "ssh"; "zed"]%string) as Hn.
  { unfold watchers. do 6 (destruct timings as [|? timings]; [done|]). by destruct timings. }
  split; [by apply pass_rows|]. intros i w Hw.
  destruct (lookup_lt_is_Some_2 timings i) as [tm Htm]; [rewrite Hl; by apply lookup_lt_Some in Hw|].
  destruct (pass_health watchers i state w tm Hk) as (o & Ho & He).
  - rewrite Hn. apply (bool_decide_unpack _). done.
  - unfold watchers. by rewrite lookup_zip_with Hw /= Htm.
  - by exists o.
Qed.

(** Over any passes, the health entry of a watcher counts in consecutiveErrors the
    passes that failed since the last that succeeded, and in unmatchedInputRuns the
    successful passes with new input and no rows since the last with rows; a gated pass
    leaves both. *)
Theorem health_streaks_exact outcomes :
  Z.of_nat (length outcomes) < 2 ^ 53 - 1 ->
  let health := fold_left (fun h o => outcome_health o h) outcomes [] in
  count_at "consecutiveErrors" health = f64_of_Z (streak failed succeeded outcomes) /\
  count_at "unmatchedInputRuns" health = f64_of_Z (streak unmatched productive outcomes).
Proof.
  induction outcomes as [|o outcomes IH] using rev_ind; [done|]. rewrite length_app fold_left_app. cbn [fold_left length].
  intros Hl. rewrite !streak_snoc. apply counts_step; [| |apply IH; lia].
  - pose proof (streak_range failed succeeded outcomes). lia.
  - pose proof (streak_range unmatched productive outcomes). lia.
Qed.

(** C29: A file saved once is reported by exactly one scan, the first at or after its
    time of modification, as long as the clock does not go back and its time is not
    shown before it has come. *)
Theorem save_reported_once cfg file t start ticks state :
  f64_is_finite t = true -> f64_is_finite start = true -> f64_lt start t = true ->
  assoc "filesLastScan" state = Some (json_f64 start) -> forward start ticks -> Forall (shows cfg file t) ticks ->
  reported file t (scans cfg ticks state).1 = if existsb (fun k => f64_le t (sn_now k)) ticks then 1%nat else 0%nat.
Proof. intros Ht Hs Hlt Hstate Hf Hsh. by apply (scans_before cfg file t Ht ticks start state). Qed.

(** A file whose time is ahead of the clock, within the minute that is tolerated, is
    reported again by every scan until the clock has passed it. *)
Example early_file_reported_again :
  let tick now := MkScan scan_machine (fun _ => Some (f64_of_Z 1050)) (f64_of_Z now) in
  reported "/r/a.rs" (f64_of_Z 1050)
    (scans sample_agent [tick 1000; tick 1020; tick 1040] [("filesLastScan"%string, json_f64 (f64_of_Z 990))]).1 = 3%nat.
Proof. intros tick. vm_refl. Qed.

(** C30: A read of Zed's threads after an earlier one reports exactly the threads that
    are new or were updated in between; the very first read reports none. *)
Theorem threads_reported_on_change now1 now2 db1 db2 signature1 signature2 state threads1 threads2 :
  threads_in db1 = Some threads1 -> NoDup (map td_key threads1) ->
  threads_in db2 = Some threads2 -> NoDup (map td_key threads2) ->
  let first := read_threads now1 db1 signature1 state in
  (assoc "zedThreads" state = None -> assoc "zedInitDone" state = None -> first.1 = Ok []) /\
  (read_threads now2 db2 signature2 first.2).1 =
    Ok (map (thread_row now2)
          (List.filter (fun t => negb (existsb (fun t1 => String.eqb (td_key t) (td_key t1) && String.eqb (td_updated t1) (td_updated t)) threads1))
             threads2)).
Proof.
  intros H1 Hn1 H2 Hn2 first.
  assert (forall now db signature s threads, threads_in db = Some threads ->
    read_threads now db signature s =
      (let previous := object_at "zedThreads" s in
       let init_done := match assoc "zedInitDone" s with Some v => js_truthy v | None => false end in
       let '(next, news) := fold_left (thread_step now previous init_done) threads ([], []) in
       (Ok news, record_signature signature
                   (object_insert "zedInitDone" (Json_bool true) (object_insert "zedThreads" (Json_object next) s))))) as Hread.
  { intros now db signature s threads. unfold threads_in, read_threads. destruct (cn_tables db); [|done]. cbn [map_err].
    destruct (find_table _ _) as [[table cols]|]; [|done]. cbn [mbind option_bind].
    destruct (cn_query _ _); [|done]. intros [= <-]. done. }
  subst first. rewrite (Hread now1 db1 signature1 state threads1 H1). cbv zeta.
  pose proof (thread_loop now1 (object_at "zedThreads" state)
    (match assoc "zedInitDone" state with Some v => js_truthy v | None => false end) threads1 Hn1) as Hloop1.
  destruct (fold_left _ threads1 _) as [next1 news1]. destruct Hloop1 as [Hnews1 Hnext1]. cbn [fst snd]. split.
  - intros Hz Hi. f_equal. rewrite Hnews1 Hi. unfold object_at. rewrite Hz. cbn [mbind option_bind default from_option].
    clear. induction threads1 as [|x l IH]; [done|exact IH].
  - set (s1 := record_signature _ _). rewrite (Hread now2 db2 signature2 s1 threads2 H2). cbv zeta.
    assert (object_at "zedThreads" s1 = next1 /\ assoc "zedInitDone" s1 = Some (Json_bool true)) as [-> ->].
    { unfold s1, object_at, record_signature. by rewrite !assoc_remove !assoc_insert. }
    pose proof (thread_loop now2 next1 true threads2 Hn2) as Hloop2. cbn [js_truthy].
    destruct (fold_left _ threads2 _) as [next2 news2]. destruct Hloop2 as [-> _]. cbn [fst]. do 2 f_equal.
    apply List.filter_ext. intros t. unfold is_news. rewrite Hnext1. clear -Hn1.
    induction threads1 as [|x l IH]; [done|]. cbn [map] in Hn1. apply NoDup_cons in Hn1 as [Hx Hn1]. cbn [List.find existsb].
    destruct (String.eqb_spec (td_key t) (td_key x)) as [He|Hne]; [|by apply IH]. cbn [andb fmap option_fmap option_map compose as_str].
    assert (existsb (fun t1 => String.eqb (td_key t) (td_key t1) && String.eqb (td_updated t1) (td_updated t)) l = false) as ->.
    { apply not_true_is_false. intros (y & Hy & [Hk%String.eqb_eq _]%andb_true_iff)%existsb_exists. apply Hx.
      rewrite -He Hk. by apply list_elem_of_fmap_2, list_elem_of_In. }
    by rewrite orb_false_r.
Qed.

Lemma failing_watcher_is_isolated_witness :
  let watchers := zip (default_watchers sample_world sample_agent None) (repeat sample_timing 6) in
  (run_watchers watchers []).1 = concat (map outcome_rows (pass_outcomes watchers [])) /\
  length (run_watchers watchers []).1 = 2%nat.
Proof.
  intros watchers. split; [|vm_refl]. by apply (failing_watcher_is_isolated sample_world sample_agent None (repeat sample_timing 6) []).
Defined.

Lemma health_streaks_exact_witness :
  let failure := Failed sample_timing (Error_msg "x") in
  count_at "consecutiveErrors" (fold_left (fun h o => outcome_health o h)
    [failure; Succeeded sample_timing true []; failure; Gated false false "off"; failure] []) = f64_of_Z 2.
Proof.
  intros failure.
  destruct (health_streaks_exact [failure; Succeeded sample_timing true []; failure; Gated false false "off"; failure]) as [-> _];
    [cbn; lia|done].
Defined.

Lemma save_reported_once_witness :
  let tick now := MkScan scan_machine (fun f => if f64_le (f64_of_Z 995) (f64_of_Z now) then Some (f64_of_Z 995) else None) (f64_of_Z now) in
  reported "/r/a.rs" (f64_of_Z 995)
    (scans sample_agent [tick 990; tick 1000; tick 1020] [("filesLastScan"%string, json_f64 (f64_of_Z 980))]).1 = 1%nat.
Proof.
  intros tick. rewrite (save_reported_once sample_agent "/r/a.rs" (f64_of_Z 995) (f64_of_Z 980)); try done.
  repeat (apply Forall_cons; split); [..|done]; unfold shows.
  - change (f64_le (f64_of_Z 995) (sn_now (tick 990))) with false. by cbn.
  - change (f64_le (f64_of_Z 995) (sn_now (tick 1000))) with true. split; vm_refl.
  - change (f64_le (f64_of_Z 995) (sn_now (tick 1020))) with true. split; vm_refl.
Defined.

Lemma threads_reported_on_change_witness :
  let first := read_threads f64_zero (sample_threads [sample_thread "a" "1"; sample_thread "b" "1"]) "s1" [] in
  first.1 = Ok [] /\
  (read_threads f64_zero (sample_threads [sample_thread "a" "1"; sample_thread "b" "2"; sample_thread "c" "1"]) "s2" first.2).1 =
    Ok (map (thread_row f64_zero) [MkThread "b" "2" "thread b"; MkThread "c" "1" "thread c"]).
Proof.
  intros first.
  destruct (threads_reported_on_change f64_zero f64_zero (sample_threads [sample_thread "a" "1"; sample_thread "b" "1"])
    (sample_threads [sample_thread "a" "1"; sample_thread "b" "2"; sample_thread "c" "1"]) "s1" "s2" []
    [MkThread "a" "1" "thread a"; MkThread "b" "1" "thread b"]
    [MkThread "a" "1" "thread a"; MkThread "b" "2" "thread b"; MkThread "c" "1" "thread c"]) as [H1 H2].
  - vm_refl.
  - by apply (bool_decide_unpack _).
  - vm_refl.
  - by apply (bool_decide_unpack _).
  - split; [by apply H1|]. exact H2.
Defined.
