(* ===== verification/NodeTheorems.v ===== *)
(** The properties of the execution node, alone and with the hub at the other
    end of its link. *)
From S2P Require Import Prelude.
From S2P Require Import RustStr.
From S2P Require Import Platform.
From S2P Require Import Ids.
From S2P Require Import Entities.
From S2P Require Import Event.
From S2P Require Import Protocol.
From S2P Require Import Wire.
From S2P Require Import TestPlatform.
From S2P Require Import Schema.
From S2P Require Import Store.
From S2P Require Import StoreInv.
From S2P Require Import Samples.
From S2P Require Import Settings.
From S2P Require Import HubState.
From S2P Require Import HubCommands.
From S2P Require Import HubInv.
From S2P Require Import Links.
From S2P Require Import HubSystem.
From S2P Require Import HubFacts.
From S2P Require Import Backoff.
From S2P Require Import Outbox.
From S2P Require Import NodeDelivery.
From S2P Require Import HubContract.
From S2P Require Import EngineDef.
From S2P Require Import Process.
From S2P Require Import NodeEngine.
From S2P Require Import NodeLoop.

Local Open Scope Z_scope.

(** ** The node with a hub *)
Section Delivery.
Context {P : Platform} {PL : PlatformLaws P} {E : Env P} {EO : EnvOk}.
Context (n : NodeId) (base : list Event).

(** The events of the hub's log, by id. *)
Definition hub_log (s : Sys (H := hub_side n base)) : list string :=
  map er_event_id (db_events (hs_hub (sy_hub s))).

Lemma refuses_not_owned d s : refuses n d s = true -> ~ owned s n d.
Proof.
  unfold refuses. destruct (accepts_node_event n d s) as [[[]|e] s'] eqn:Ha; cbn; try done. intros _ [Hn Ho].
  destruct (accepts_node_event_spec _ _ _ _ _ Ha) as (_ & _ & _ & _ & Hiff).
  by discriminate (proj2 Hiff (conj Hn Ho)).
Qed.

(** C17: No event of a node is lost: whatever the link loses, reorders, delays or
    closes, however often node and hub reconnect, resend and serve others, every
    event the node ever emitted is still held by the node, in the order of
    emission, or is in the hub's log, or was refused by the hub because its run
    is not the node's; and the log holds no event twice. *)
Theorem node_event_never_lost (h : HubState) (s : Sys (H := hub_side n base)) :
  good base h -> rtc sys_step (sys_start (H := hub_side n base) h) s ->
  (held s).*1 `sublist_of` (sy_emitted s).*1 /\
  (forall i, i ∈ (sy_emitted s).*1 ->
     i ∈ (held s).*1 \/ id_to_string i ∈ hub_log s \/ i ∈ sy_refused s) /\
  NoDup (hub_log s) /\
  (forall d h', refuses n d h' = true -> ~ owned h' n d).
Proof.
  intros Hg Hs. pose proof (sys_reached_inv (H := hub_side n base) h s Hg Hs) as Hi. split_and!.
  - pose proof (fmap_sublist fst _ _ (si_held s Hi)) as Hsub. by rewrite -list_fmap_compose in Hsub.
  - intros i Hin. destruct (si_safe s Hi i Hin) as [?|[?|?]]; [by left|by right; left|by right; right].
  - apply wf_event_ids, (good_wf base), (si_hub s Hi).
  - intros d h'. apply refuses_not_owned.
Qed.

End Delivery.

(** ** The engine and the connection *)
Section Engine.
Context {P : Platform}.


(** Only live processes of the run that is stopped are signalled: a call of
    the engine sends at most one signal, only when it stops a run, and to the
    process of that run's current job; and once a job's process has been waited
    for, no later call ever signals it. *)
Theorem engine_signals_live_children config x s xs slot :
  signals (stops config x s) s (cli_call config x s) /\
  ((slot < length (es_slots s))%nat ->
   let s' := cli_run config xs (child_exited slot s) in
   es_slots s' !! slot = Some None /\
   forall r pid, es_jobs s' !! r = Some slot -> stop_run r s' = set_interrupted ({[ r ]} ∪ es_interrupted s') s' /\
     es_slots s' !! slot <> Some (Some pid)).
Proof.
  split; [apply cli_call_signals|]. intros Hlt. cbv zeta.
  pose proof (proj2 (cli_run_slots config xs (child_exited slot s)) slot (child_exited_clears slot s Hlt)) as Hs.
  split; [done|]. intros r pid Hj. split; [|by rewrite Hs].
  unfold stop_run, terminate_if_running. rewrite Hj. cbn. by rewrite Hs.
Qed.

(** A job ends in exactly one terminal event, and the right one: when the
    task that waited for the process closes the job, the report it emits is some
    assistant messages followed by one terminal event, interrupted when the run
    was stopped, completed when the process exited with code 0 and no error, and
    failed otherwise; an answer is reported exactly when the run completed; every
    event is labelled with the node, the task and the run, so the hub takes them
    as the node's own wherever the run is bound to it; and the engine is ready
    for the run's next prompt, which resumes the session the process reported. *)
Theorem job_outcome {E : Env P} config now node t r c result s s' interrupted :
  close_job c r result s = (interrupted, s') ->
  let report : list EventDraft := job_report now node t r interrupted result in
  (exists init final, report = init ++ [final] /\
     d_kind final = outcome_kind interrupted result /\ is_Some (terminal_effect (d_kind final)) /\
     Forall (fun d => terminal_effect (d_kind d) = None) init /\
     (init <> [] <-> d_kind final = RunCompleted)) /\
  (interrupted = true <-> r ∈ es_interrupted s) /\
  Forall (fun d => forall h, owned h node d <-> owns_run h node r t) report /\
  es_jobs s' !! r = None /\ es_command_runs s' !! c = None /\ (r ∉ es_interrupted s') /\
  (forall spec pid c' t' text, es_runs s !! r = Some spec -> known_engine (rs_engine spec) = true ->
     let session := match result ≫= rr_session_id with Some x => Some x | None => es_sessions s !! r end in
     exists slot, (dispatch_prompt config pid c' t' r text s').2 =
       Task_job c' r spec (rs_engine spec) (prompt_request config spec text session) slot).
Proof.
  intros [= <- <-]. cbv zeta. cbn.
  destruct (job_report_shape now node t r (bool_decide (r ∈ es_interrupted s)) result)
    as (init & final & Heq & Hk & Hinit & Hiff). split; [|split; [|split; [|split_and!]]].
  - exists init, final. rewrite Hk. split_and!; try done.
    + unfold outcome_kind. by case_bool_decide; [|destruct (clean_exit result)].
    + eapply Forall_impl; [exact Hinit|]. by intros d ->.
  - by rewrite bool_decide_eq_true.
  - eapply Forall_impl; [apply job_report_labels|]. intros d (Hn & Ht & Hr & _) h. unfold owned.
    rewrite Hn Ht Hr. split; [by intros (_ & run & [= <-] & Ho)|]. intros Ho. eauto.
  - apply lookup_delete_eq.
  - apply lookup_delete_eq.
  - apply not_elem_of_difference. right. by apply elem_of_singleton.
  - intros spec pid c' t' text Hspec Hknown. unfold dispatch_prompt. cbn. rewrite Hspec Hknown. cbn.
    eexists. f_equal. f_equal.
    destruct (result ≫= rr_session_id); [by rewrite lookup_insert_eq|done].
Qed.

(** An engine is started with exactly the documented command: for a prompt of a
    run prepared on the node, when the model, effort and session id hold no brace
    and the system prompt none of the placeholders replaced after it, Claude and
    Codex are spawned with the configured binary, in the run's workspace, with the
    arguments of the closed forms below and the prompt on stdin; each value is one
    argument of its own, and the system prompt reaches the engine exactly once: as
    Claude's flag, or in the first prompt of a Codex session. *)
Theorem engine_command_exact config spec text session :
  inert_opt (rs_system_prompt spec) = true -> plain_opt (rs_model spec) = true ->
  plain_opt (rs_reasoning_effort spec) = true -> plain_opt session = true ->
  let mode := permission_mode (rs_access_policy spec) in
  let request := prompt_request config spec text session in
  (rs_engine spec = "claude"%string ->
     spawn_command builtin_claude request =
       MkCommand (default "claude"%string (cc_claude_bin config))
         (claude_args mode true (rs_system_prompt spec) (rs_model spec) session)
         (rs_workspace spec) [] (Some text)) /\
  (rs_engine spec = "codex"%string ->
     (forall s, rs_system_prompt spec = Some s -> contains "{{prompt}}" s = false) ->
     spawn_command builtin_codex request =
       MkCommand (default "codex"%string (cc_codex_bin config))
         (codex_args mode (rs_model spec) (rs_reasoning_effort spec) session)
         (rs_workspace spec) [] (Some (codex_prompt session (rs_system_prompt spec) text))).
Proof.
  intros Hs Hm He Hx. cbv zeta.
  assert (plain (permission_mode (rs_access_policy spec)) = true) as Hp by by destruct (rs_access_policy spec).
  split.
  - intros Hen. rewrite (claude_command _ (permission_mode (rs_access_policy spec))) //.
    unfold prompt_request. by rewrite Hen.
  - intros Hen Hf. rewrite (codex_command _ (permission_mode (rs_access_policy spec))) //.
    unfold prompt_request. by rewrite Hen.
Qed.

(** What Codex answered is read off its output exactly: whatever lines the
    process prints, JSON or not, the result's text is the agent messages of its
    completed items in order, separated by blank lines, and its session is the last
    thread it started, or the one it was resumed with. *)
Theorem codex_answer_exact request lines code stderr :
  child_result builtin_codex request (Some <$> lines) code stderr =
    MkRunResult (paragraphs (omap agent_message lines))
      (match last (omap thread_started lines) with Some x => Some x | None => rq_session_id request end)
      code None stderr.
Proof. unfold child_result, stream_new. cbn [ed_kind builtin_codex]. by rewrite feed_lines_codex continued_nil. Qed.

(** A system prompt that mentions a later placeholder is not passed on as it is. *)
Lemma system_prompt_expanded :
  claude_args "default" true (Some "use {{effort}} here"%string) None None <>
    assemble_argv builtin_claude (MkArgvVars None None (Some "default"%string) (Some "use {{effort}} here"%string)
      (Some "low"%string) [] [] true) /\
  In "use low here"%string
    (assemble_argv builtin_claude (MkArgvVars None None (Some "default"%string) (Some "use {{effort}} here"%string)
      (Some "low"%string) [] [] true)).
Proof. split; [by vm_compute|]. vm_compute. tauto. Qed.

(** *** Two corners of the engine *)

(** A run prompted again before its first job ended: once the first job has
    closed, the second one's process, still live, is no longer signalled by an
    interrupt of the run. *)
Lemma second_prompt_unstoppable config pid1 pid2 c1 c2 c t r spec text1 text2 result s :
  es_runs s !! r = Some spec -> known_engine (rs_engine spec) = true ->
  let s1 := (dispatch_prompt config (Some pid1) c1 t r text1 s).1 in
  let s2 := (dispatch_prompt config (Some pid2) c2 t r text2 s1).1 in
  let s3 := (close_job c1 r result s2).2 in
  c ∉ es_seen s3 ->
  (exists slot, es_jobs s2 !! r = Some slot /\ es_slots s3 !! slot = Some (Some pid2)) /\
  es_signalled (cli_dispatch config None c (NW_InterruptRun r) s3).1 = es_signalled s.
Proof.
  intros Hr Hk. cbv zeta. unfold dispatch_prompt. rewrite Hr Hk /= Hr Hk /=. intros Hc. split.
  - eexists. split; [apply lookup_insert_eq|]. by rewrite list_lookup_middle.
  - unfold cli_dispatch. rewrite bool_decide_eq_false_2 //. unfold stop_run. cbn. by rewrite lookup_delete_eq.
Qed.

(** A run interrupted after its process has exited, but before its job closed, is
    reported as interrupted, whatever the process answered. *)
Lemma late_interrupt_discards_answer now node t r c slot result s :
  es_jobs s !! r = Some slot -> (slot < length (es_slots s))%nat ->
  let s' := stop_run r (child_exited slot s) in
  es_signalled s' = es_signalled s /\
  job_report now node t r (close_job c r (Some result) s').1 (Some result) =
    [emit_event now node RunInterrupted t (Some r) (value_object [])].
Proof.
  intros Hj Hlt. cbv zeta. unfold stop_run, terminate_if_running. cbn. rewrite Hj /=.
  rewrite (list_lookup_insert_eq _ _ _ Hlt) /=. split; [done|]. rewrite bool_decide_eq_true_2; [|done].
  apply elem_of_union. left. by apply elem_of_singleton.
Qed.

(** *** The connection *)

(** The capped exponential step of the [attempt]-th consecutive loss, in milliseconds. *)
Definition step_ms (config : NodeConfig) (attempt : Z) : Z :=
  Z.min (as_millis_u64 (nc_backoff_base config) * 2 ^ Z.min (attempt - 1) 32) (as_millis_u64 (nc_backoff_max config)).

(** What a session that is not just lost makes the supervisor return. *)
Definition verdict (e : SessionEnd) : option (Result unit) :=
  match e with
  | Shutdown => Some (Ok tt)
  | Rejected err => Some (Err (Error_msg ("hub rejected node connection: " +:+ protocol_error_display err)))
  | Disconnected _ => None
  end.

Definition lost_sessions (lost : list (bool * Z)) : list (SessionEnd * Z) :=
  (fun x => (Disconnected x.1, x.2)) <$> lost.

Lemma after_lost config attempt nanos (established : bool) :
  0 < as_millis_u64 (nc_backoff_base config) -> 0 < as_millis_u64 (nc_backoff_max config) -> 0 <= attempt ->
  exists d, let attempt' := Z.min ((if established then 0 else attempt) + 1) (2 ^ 32 - 1) in
    after_session config attempt nanos (Disconnected established) = inr (attempt', d) /\
    from_millis (step_ms config attempt' / 2) <= d <= from_millis (step_ms config attempt') /\ 1 <= attempt'.
Proof.
  intros Hb Hm Ha. cbn [after_session]. unfold u32_saturating_add. eexists. split; [done|].
  set (a := Z.min _ _). assert (1 <= a) as Ha1 by (unfold a; destruct established; lia).
  pose proof (delay_bounds nanos a _ _ Hb Hm) as Hd. cbv zeta in Hd.
  rewrite capped_ms_eq in Hd; [done|apply as_millis_bounds|]. split; [exact Hd|done].
Qed.

Lemma step_ms_range config attempt :
  1 <= attempt -> 0 < as_millis_u64 (nc_backoff_base config) ->
  Z.min (as_millis_u64 (nc_backoff_base config)) (as_millis_u64 (nc_backoff_max config)) <= step_ms config attempt
    <= as_millis_u64 (nc_backoff_max config).
Proof.
  intros Ha Hb. unfold step_ms. split; [|lia].
  assert (1 <= 2 ^ Z.min (attempt - 1) 32) by (apply (Z.pow_le_mono_r 2 0); lia).
  apply Z.min_glb; [|lia]. nia.
Qed.

(** The node reconnects at a bounded pace and stops only when told: a lost
    session counts one more consecutive failure, or the first when the session had
    been established, and the wait before redialling lies in the upper half of
    min(base * 2^(failures - 1), max), the exponent stopping at 32; over any
    sequence of lost sessions the supervisor keeps redialling, every wait is
    between half of min(base, max) and max, and the first session that ends by
    shutdown or rejection ends it, with that verdict, after one wait per loss. *)
Theorem reconnect_paced config attempt lost last rest :
  0 < as_millis_u64 (nc_backoff_base config) -> 0 < as_millis_u64 (nc_backoff_max config) ->
  0 <= nc_backoff_max config -> 0 <= attempt -> is_Some (verdict last.1) ->
  (forall (established : bool) nanos, exists d,
     let attempt' := Z.min ((if established then 0 else attempt) + 1) (2 ^ 32 - 1) in
     after_session config attempt nanos (Disconnected established) = inr (attempt', d) /\
     from_millis (step_ms config attempt' / 2) <= d <= from_millis (step_ms config attempt')) /\
  exists ds, supervise config attempt (lost_sessions lost ++ last :: rest) = (ds, verdict last.1) /\
    length ds = length lost /\
    let least := Z.min (as_millis_u64 (nc_backoff_base config)) (as_millis_u64 (nc_backoff_max config)) in
    Forall (fun d => from_millis (least / 2) <= d <= nc_backoff_max config) ds.
Proof.
  intros Hb Hm Hmax Ha Hv. split.
  { intros established nanos. destruct (after_lost config attempt nanos established Hb Hm Ha) as (d & H1 & H2 & _).
    exists d. by split. }
  revert attempt Ha. induction lost as [|[established nanos] lost IH]; intros attempt Ha;
    cbn [supervise lost_sessions fmap list_fmap app fst snd].
  - exists []. destruct last as [e x]. cbn in *. destruct e; cbn in *; [done..|]. by destruct Hv.
  - destruct (after_lost config attempt nanos established Hb Hm Ha) as (d & Hd & Hr & Ha').
    cbv zeta in *. rewrite Hd. destruct (IH _ (Z.le_trans _ _ _ Z.le_0_1 Ha')) as (ds & Hs & Hlen & Hall).
    unfold lost_sessions in Hs. rewrite Hs. exists (d :: ds). split_and!; [done|cbn; lia|].
    constructor; [|done]. destruct (step_ms_range config _ Ha' Hb) as [H1 H2].
    pose proof (as_millis_le _ Hmax). unfold from_millis in *.
    pose proof (Z.div_le_mono _ _ 2 eq_refl H1). lia.
Qed.
End Engine.

(** ** The link is transparent *)
Section Transparent.
Context {P : Platform} {PL : PlatformLaws P} {E : Env P}.

Lemma json_text_nonempty v : str_is_empty (json_to_string v) = false.
Proof.
  destruct (json_to_string v) eqn:Hs; [|done]. pose proof (json_roundtrip v) as H. by rewrite Hs json_empty in H.
Qed.

Lemma decode_frame {A} (from_value : Value -> option A) v :
  decode_text from_value (json_to_string v) = Some (from_value v).
Proof. unfold decode_text. by rewrite json_text_nonempty json_roundtrip. Qed.

(** The two ends of a node's link agree, as if they called each other: the hub
    reads exactly the hello the node sends; the node's session opens when the
    hub's secret is the node's token, and otherwise ends rejected as
    unauthenticated, so that the supervisor stops; every frame the hub writes
    makes the node do what [handle_hub_message] does with that very message, a
    dispatch reaching the engine unless its expiry has passed; and every frame the
    node writes is handled by the hub as that very message. *)
Theorem link_is_transparent (config : NodeConfig) (s : HubState) :
  (forall rest, recv_json hello_from_value (to_frame (hello_to_value (node_hello config)) :: rest)
     = Some (node_hello config, rest)) /\
  (let welcome := negotiate_node (node_hello config) s in
   read_welcome (Some (to_frame (welcome_to_value welcome))) =
     (if String.eqb (nc_token config) (hs_node_secret s) then None else Some (Rejected Unauthenticated)) /\
   (w_accepted welcome = true <-> nc_token config = hs_node_secret s)) /\
  (forall m now, hub_to_node_times_ok m ->
     receive_frame now (Some (to_frame (hub_to_node_to_value m))) = Some (handle_hub_message now m)) /\
  (forall c expires work now, handle_hub_message now (HN_DispatchCommand c expires work) =
     (if match expires with Some e => bool_decide (timestamp e <= now) | None => false end
      then Act_none else Act_dispatch c work)) /\
  (forall m nl now, (forall i d, m = NH_NodeEvent i d -> draft_times_ok d) ->
     node_incoming nl now (Some (to_frame (node_to_hub_to_value m))) s =
       (node_message (nl_node nl) m ≫= fun _ => mret (Some (nl_seen now nl))) s).
Proof.
  split_and!.
  - intros rest. cbn. by rewrite json_roundtrip /= hello_roundtrip.
  - cbn [read_welcome to_frame msg_text]. rewrite decode_frame welcome_roundtrip. unfold negotiate_node. cbn.
    destruct (String.eqb_spec (nc_token config) (hs_node_secret s)); cbn; (split; [done|split; congruence]).
  - intros m now Hm. cbn [receive_frame to_frame msg_text]. by rewrite decode_frame hub_to_node_roundtrip.
  - intros c [e|] work now; cbn; [|done]. destruct (Z.leb_spec (timestamp e) now); case_bool_decide; by try lia.
  - intros m nl now Hm. cbn. by rewrite json_roundtrip /= node_to_hub_roundtrip.
Qed.
End Transparent.

(** ** Instances *)

(** The node of Samples.v reports its run: its event crosses the link. *)
Definition s_event : NodeToHub := NH_NodeEvent (an_id "e4") s_report.
Definition s_node_side (sending : list (nat * list NodeToHub)) (queue : list Outgoing) : NodeSide :=
  MkNodeSide (MkOutbox (Some 0%nat) [(an_id "e4", s_event)]) [MkLink true queue] sending.
Definition s_sys (sending : list (nat * list NodeToHub)) (queue : list Outgoing) (up : list NodeToHub)
    (down : list HubToNode) (h : HubState) : Sys (H := hub_side s_node []) :=
  MkSys (H := hub_side s_node []) (s_node_side sending queue) up down h [(an_id "e4", s_report)] [].

Definition s_attached := s_sys [(0%nat, [s_event])] [] [] [] s_hub3.
Definition s_arrived := s_sys [(0%nat, [])] [] [] [HN_EventAck (an_id "e4")] s_hub4.

Definition s_held (links : list LinkChannel) : Sys (H := hub_side s_node []) :=
  MkSys (H := hub_side s_node []) (MkNodeSide (MkOutbox None [(an_id "e4", s_event)]) links []) [] [] s_hub3
    [(an_id "e4", s_report)] [].

Lemma s_attach_steps : rtc sys_step (sys_start (H := hub_side s_node []) s_hub3) s_attached.
Proof.
  apply (rtc_l _ _ (s_held [])).
  { apply (step_emit (H := hub_side s_node []) (an_id "e4") s_report (sys_start (H := hub_side s_node []) s_hub3));
      [apply not_elem_of_nil|exact s_report_ok]. }
  apply (rtc_l _ _ (s_held [MkLink true []])); [apply (step_open (H := hub_side s_node []) (s_held []))|].
  apply rtc_once, (step_attach (H := hub_side s_node []) 0 (s_held [MkLink true []])).
Qed.

Lemma s_deliver_steps : rtc sys_step s_attached s_arrived.
Proof.
  apply (rtc_l _ _ (s_sys [(0%nat, [])] [Out_Protocol s_event] [] [] s_hub3));
    [apply (step_poll (H := hub_side s_node []) 0 s_attached)|].
  apply (rtc_l _ _ (s_sys [(0%nat, [])] [] [s_event] [] s_hub3)); [by apply (step_write (H := hub_side s_node []) 0 s_event (s_node_side [(0%nat, [])] [])
      (s_sys [(0%nat, [])] [Out_Protocol s_event] [] [] s_hub3))|].
  apply rtc_once, (step_hub_to (H := hub_side s_node []) [] s_event [] (s_sys [(0%nat, [])] [] [s_event] [] s_hub3)
    s_hub4 [HN_EventAck (an_id "e4")] []); [reflexivity|vm_refl|vm_refl].
Qed.

Lemma node_event_never_lost_witness :
  (an_id "e4" ∈ (held s_arrived).*1 \/ "e4"%string ∈ hub_log s_node [] s_arrived \/ an_id "e4" ∈ sy_refused s_arrived) /\
  NoDup (hub_log s_node [] s_arrived).
Proof.
  destruct (node_event_never_lost s_node [] s_hub3 s_arrived s_good3) as (_ & H2 & H3 & _).
  - etrans; [exact s_attach_steps|exact s_deliver_steps].
  - split; [|exact H3]. apply (H2 (an_id "e4")). by left.
Defined.


(** A run is prepared and prompted; its process 77 is interrupted, then exits. *)
Definition s_cli_config : CliEngineConfig := MkCliConfig None None (Some "/srv/work"%string).
Definition s_cli_start : NodeWork := NW_StartRun s_run3 s_task3 "claude" None None None AccessPolicy.Supervised None.
Definition s_cli_prompt : NodeWork := NW_SendPrompt s_task3 s_run3 "go" "m1".
Definition s_cli1 : CliState := (cli_dispatch s_cli_config None (an_id "c2") s_cli_start cli_new).1.
Definition s_cli2 : CliState := (cli_dispatch s_cli_config (Some 77) (an_id "c3") s_cli_prompt s_cli1).1.
Definition s_cli3 : CliState := (cli_dispatch s_cli_config None (an_id "c4") (NW_InterruptRun s_run3) s_cli2).1.


Lemma engine_signals_live_children_witness :
  es_signalled s_cli3 = [77] /\ signals (eq s_run3) s_cli2 s_cli3 /\
  es_slots (cli_cancel (an_id "c3") (child_exited 0 s_cli3)) !! 0%nat = Some None /\
  es_signalled (cli_cancel (an_id "c3") (child_exited 0 s_cli3)) = [77].
Proof.
  split; [vm_refl|]. split.
  - destruct (engine_signals_live_children s_cli_config (Cli_dispatch None (an_id "c4") (NW_InterruptRun s_run3))
      s_cli2 [] 0) as [[H|(r & slot & pid & [Hr _] & H)] _]; [by left|right; by exists r, slot, pid].
  - destruct (engine_signals_live_children s_cli_config (Cli_exited 0) s_cli3 [Cli_cancel (an_id "c3")] 0) as [_ H].
    split; [|vm_refl]. apply H. vm_compute. lia.
Defined.

Definition s_result : RunResult := MkRunResult "done" (Some "sess-1"%string) (Some 0) None "".
Definition s_cli_closed : CliState := (close_job (an_id "c3") s_run3 (Some s_result) s_cli2).2.

Lemma job_outcome_witness :
  (exists init final, job_report (P := test_platform) 9 s_node s_task3 s_run3 false (Some s_result) = init ++ [final] /\
     d_kind final = RunCompleted /\ init <> []) /\
  (exists slot, (dispatch_prompt s_cli_config (Some 80) (an_id "c5") s_task3 s_run3 "more" s_cli_closed).2 =
     Task_job (an_id "c5") s_run3
       (MkRunSpec s_task3 "claude" None None None AccessPolicy.Supervised (Some "/srv/work"%string)) "claude"
       (MkRunRequest "more" (Some "sess-1"%string) None (Some "default"%string) None None (Some "/srv/work"%string) true None)
       slot).
Proof.
  destruct (job_outcome s_cli_config 9 s_node s_task3 s_run3 (an_id "c3") (Some s_result) s_cli2 s_cli_closed false)
    as ((init & final & H1 & H2 & _ & _ & H3) & _ & _ & _ & _ & _ & H4).
  - vm_refl.
  - split.
    + exists init, final. split; [exact H1|]. split; [exact H2|]. by apply H3.
    + apply (H4 (MkRunSpec s_task3 "claude" None None None AccessPolicy.Supervised (Some "/srv/work"%string)));
        vm_refl.
Defined.

Definition s_node_config : NodeConfig := node_config_new "wss://hub.example/ws" s_node "secret" "1.0".

Lemma reconnect_paced_witness : exists ds,
  supervise s_node_config 0 ([(Disconnected false, 5); (Disconnected true, 7)] ++ [(Rejected Unauthenticated, 0)])
    = (ds, verdict (Rejected Unauthenticated)) /\ length ds = 2%nat /\
  Forall (fun d => from_millis 250 <= d <= 16 * nanos_per_second) ds.
Proof.
  destruct (reconnect_paced s_node_config 0 [(false, 5); (true, 7)] (Rejected Unauthenticated, 0) [])
    as (_ & ds & H1 & H2 & H3); [reflexivity|reflexivity|discriminate|reflexivity|by eexists|].
  exists ds. split; [exact H1|]. split; [exact H2|exact H3].
Defined.

Lemma link_is_transparent_witness :
  receive_frame 0 (Some (to_frame (hub_to_node_to_value (HN_EventAck (an_id "e4"))))) =
    Some (Act_acknowledge (an_id "e4")) /\
  node_incoming s_link1 0 (Some (to_frame (node_to_hub_to_value NH_Heartbeat))) s_hub1 =
    (Ok (Some (nl_seen 0 s_link1)), s_hub1).
Proof.
  destruct (link_is_transparent s_node_config s_hub1) as (_ & _ & H3 & _ & H5). split.
  - exact (H3 (HN_EventAck (an_id "e4")) 0 I).
  - apply (H5 NH_Heartbeat s_link1 0). by intros ??.
Defined.

(** Claude with instructions in braces, Codex resumed. *)
Definition s_spec (engine : string) : RunSpec :=
  MkRunSpec s_task3 engine (Some "opus"%string) (Some "high"%string) (Some "answer as {json}"%string)
    AccessPolicy.FullAccess (Some "/srv/work"%string).

Lemma engine_command_exact_witness :
  cmd_args (spawn_command builtin_claude (prompt_request s_cli_config (s_spec "claude") "go" None)) =
    ["-p"; "--output-format"; "stream-json"; "--verbose"; "--include-partial-messages"; "--permission-mode";
     "bypassPermissions"; "--append-system-prompt"; "answer as {json}"; "--model"; "opus"]%string /\
  cmd_args (spawn_command builtin_codex (prompt_request s_cli_config (s_spec "codex") "go" (Some "t1"%string))) =
    ["exec"; "resume"; "--json"; "--skip-git-repo-check"; "--dangerously-bypass-approvals-and-sandbox";
     "--model"; "opus"; "-c"; "model_reasoning_effort=" +:+ QUOTE +:+ "high" +:+ QUOTE; "t1"; "-"]%string.
Proof.
  destruct (engine_command_exact s_cli_config (s_spec "claude") "go" None) as [H1 _]; [reflexivity..|].
  destruct (engine_command_exact s_cli_config (s_spec "codex") "go" (Some "t1"%string)) as [_ H2]; [reflexivity..|].
  split; [by rewrite (H1 eq_refl)|]. rewrite (H2 eq_refl); [|reflexivity].
  intros s [= <-]. reflexivity.
Defined.
