(* ===== verification/HubTheorems.v ===== *)
(** The properties of the hub's shared state and of its two links. *)
From S2P Require Import Prelude.
From S2P Require Import RustStr.
From S2P Require Import Platform.
From S2P Require Import Ids.
From S2P Require Import Entities.
From S2P Require Import Event.
From S2P Require Import Protocol.
From S2P Require Import Wire.
From S2P Require Import TestPlatform.
From S2P Require Import Schema.
From S2P Require Import Store.
From S2P Require Import StoreInv.
From S2P Require Import StoreStep.
From S2P Require Import StoreLog.
From S2P Require Import StoreTyped.
From S2P Require Import StoreFlows.
From S2P Require Import Samples.
From S2P Require Import Settings.
From S2P Require Import HubState.
From S2P Require Import HubCommands.
From S2P Require Import HubInv.
From S2P Require Import Links.
From S2P Require Import ClientDelivery.
From S2P Require Import HubSystem.
From S2P Require Import HubFacts.

Local Open Scope Z_scope.

Section HubTheorems.
Context {P : Platform} {PL : PlatformLaws P} {E : Env P} {EO : EnvOk}.


(** C4: A client misses nothing and sees nothing twice: after any mix of hub
    activity, live deliveries, lags and resynchronizations, the events sent to a
    subscribed client are exactly the log from its start (its cursor, or the
    head if the cursor was past it) up to its last delivered sequence; and a
    client that has drained the bus has received everything appended so far. *)
Theorem client_no_gap_no_duplicate base (s0 s : HubState) position sub now sent out cl s' cr :
  good base s0 -> client_attach s0 = (Ok position, s0) -> rtc hub_step s0 s ->
  client_subscribe position sub now sent s = (Ok (out, Some cl), s') ->
  rtc client_step (MkClientRun s' cl (delivered_events out)) cr ->
  let head := zlen (base ++ hs_events s) in
  let log := base ++ hs_events (cr_hub cr) in
  let last := cl_last_delivered (cr_link cr) in
  cr_delivered cr = drop (start_of sub head) (take (Z.to_nat last) log) /\
  head <= last <= zlen log /\
  (cl_lagged (cr_link cr) = false -> cl_position (cr_link cr) = length (hs_events (cr_hub cr)) ->
   cr_delivered cr = drop (start_of sub head) log).
Proof.
  intros Hg Hatt Hs Hsub Hrun head log last.
  destruct (client_subscribe_inv base s0 s position sub now sent out cl s' Hg Hatt (hub_steps_evolves _ _ Hs) Hsub)
    as (-> & Hld & _ & Hinv).
  pose proof (client_steps_inv _ _ _ _ Hinv Hrun) as [_ Hst Hbus Hpos Hcur Hdel].
  pose proof (client_steps_cursor _ _ Hrun) as Hmono. cbn in Hmono. rewrite Hld in Hmono.
  split; [exact Hdel|]. split; [done|]. intros Hl Hp. specialize (Hpos Hl). rewrite Hdel.
  rewrite Hp in Hpos. rewrite take_ge; [rewrite length_app; lia|done].
Qed.

(** C7: Every command is answered: applying a client command always returns,
    with a receipt carrying that command's id; the receipt is accepted exactly
    when it assigns a sequence and an event id, and node work goes out only with
    an accepted receipt. *)
Theorem command_always_answered (cmd : ClientCommand) (s : HubState) :
  exists ef s', apply_command cmd s = (Ok ef, s') /\
  exists accepted sequence event_id error,
    ef_receipt ef = HC_CommandReceipt (command_id cmd) accepted sequence event_id error /\
    (accepted = true <-> is_Some sequence) /\ (accepted = true <-> is_Some event_id) /\
    (accepted = true -> error = None) /\ (is_Some (ef_dispatch ef) -> accepted = true).
Proof. apply (returns_apply_inner cmd None s). Qed.

(** C6: A retried command is applied once: after a command was accepted, any
    later command with the same id, whatever the hub did in between, gets the
    same sequence and event id, dispatches nothing and changes nothing. *)
Theorem retried_command_applied_once base (s s1 s2 : HubState) cmd cmd' ef sequence event_id error :
  good base s -> apply_command cmd s = (Ok ef, s1) ->
  ef_receipt ef = HC_CommandReceipt (command_id cmd) true (Some sequence) (Some event_id) error ->
  rtc hub_step s1 s2 -> command_id cmd' = command_id cmd ->
  apply_command cmd' s2 = (Ok (MkEffect (accepted_receipt (command_id cmd) sequence event_id) None), s2).
Proof.
  intros [Hwf _ _] Happ Hr Hs Hid.
  pose proof (apply_inner_stands cmd None s Hwf) as Hst. unfold apply_command in Happ. rewrite Happ in Hst.
  destruct Hst as (Hwf1 & Hrec & _).
  apply (replay_later _ _ _ s1); [done|by apply hub_steps_evolves|done|by eapply Hrec].
Qed.

(** C10: Work is durable before it leaves: when applying a command yields a
    dispatch, the store already holds that very message for that node,
    unacknowledged, under the command's id. *)
Theorem dispatch_durable_before_routing base (s s' : HubState) cmd ef n m :
  good base s -> apply_command cmd s = (Ok ef, s') -> ef_dispatch ef = Some (n, m) ->
  exists now, dispatch_of (command_id cmd) (hs_hub s') = Some (dispatch_row (command_id cmd) n m now).
Proof.
  intros [Hwf _ _] Happ Hd. pose proof (apply_inner_stands cmd None s Hwf) as Hst.
  unfold apply_command in Happ. rewrite Happ in Hst. destruct Hst as (_ & _ & Hdis). by eapply Hdis.
Qed.

(** A run starts only where it can execute: the node a StartRun command is
    dispatched to is connected, advertises the requested engine and accepts
    tasks, and is the requested node when one was named. *)
Theorem run_starts_on_eligible_node (s s' : HubState) cid task_id node_id engine model effort prompt
    policy workspace ef n :
  apply_command (CC_StartRun cid task_id node_id engine model effort prompt policy workspace) s = (Ok ef, s') ->
  target ef = Some n -> hub_wf s -> schedulable s engine node_id n.
Proof.
  intros Happ Ht Hwf. unfold apply_command in Happ.
  match type of Happ with apply_command_inner ?cmd _ _ = _ =>
    pose proof (apply_command_inner_cases cmd None s Hwf) as Hc end. rewrite Happ in Hc.
  destruct (List.find _ _) as [r|]; [by destruct Hc as (i & _ & [= -> ->])|].
  symmetry in Hc. by eapply start_run_target.
Qed.

(** The assistant's own runs never leave the hub: no user message and no
    interrupt is ever dispatched to the hub's own node. *)
Theorem hub_runs_never_dispatched (s s' : HubState) cmd ef :
  hub_wf s -> apply_command cmd s = (Ok ef, s') ->
  match cmd with
  | CC_SendUserMessage _ _ _ _ _ | CC_InterruptRun _ _ => target ef <> Some hub_node
  | _ => True
  end.
Proof.
  intros Hwf Happ. pose proof (apply_command_inner_cases cmd None s Hwf) as Hc.
  unfold apply_command in Happ. rewrite Happ in Hc.
  destruct cmd; [done| |done| |done];
    (destruct (List.find _ _) as [r|]; [by destruct Hc as (i & _ & [= -> ->])|]);
    symmetry in Hc; intros Ht; [by eapply message_target|by eapply interrupt_target].
Qed.

(** C12: A node speaks only for its own runs: whatever message a node sends, the
    event log changes only when it is an event labelled with that node, for a
    run bound to that node and to the event's task. *)
Theorem node_events_only_from_owner (s s' : HubState) n m r :
  node_message n m s = (r, s') -> db_events (hs_hub s') <> db_events (hs_hub s) ->
  exists i draft run, m = NH_NodeEvent i draft /\ d_node_id draft = n /\ d_run_id draft = Some run /\
    owns_run s n run (d_task_id draft).
Proof.
  intros Hm Hne. destruct m as [i draft|c|].
  - destruct (node_event_cases n i draft s) as (v & s1 & Hv & Hh & _ & _ & Heq).
    rewrite Hm in Heq. destruct v as [[]|e].
    + pose proof (accepts_node_event_spec _ _ _ _ _ Hv) as (_ & _ & _ & _ & Hiff).
      destruct (proj1 Hiff eq_refl) as (Hn & run & Hrun & Ho). by exists i, draft, run.
    + exfalso. apply Hne. injection Heq as _ ->. by rewrite route_hub Hh.
    + exfalso. apply Hne. injection Heq as _ ->. by rewrite Hh.
  - exfalso. apply Hne. assert (s' = snd (node_message n (NH_CommandAck c) s)) as -> by by rewrite Hm.
    apply hub_ack_events.
  - exfalso. apply Hne. by injection Hm as _ <-.
Qed.

(** A node event is settled and answered: handling an event from a node's
    link queues its acknowledgement on that node's open link; by then the log
    holds the event if the run is the node's own, and the store and the bus are
    untouched if it is not. *)
Theorem node_event_settled_and_acknowledged base (s : HubState) n i draft :
  good base s -> draft_times_ok draft -> zlen (base ++ hs_events s) < i64_max ->
  exists s', node_message n (NH_NodeEvent i draft) s = (Ok tt, s') /\
    queued s s' n (HN_EventAck i) /\
    (owned s n draft -> id_to_string i ∈ map er_event_id (db_events (hs_hub s'))) /\
    (~ owned s n draft -> hs_hub s' = hs_hub s /\ hs_events s' = hs_events s).
Proof. apply node_event_settled. Qed.

(** A superseded link is silent when it dies: once a node has reconnected,
    closing its old link removes nothing from the registry, records no
    departure and appends no event; only its own channel closes. *)
Theorem stale_close_is_silent (s s1 s2 : HubState) h sent now w old new :
  nl_node old = h_node_id h -> nl_connection old <> hs_next_node_connection_id s ->
  node_open h sent now s = (Ok (w, Some new), s1) ->
  node_close old s1 = (Ok tt, s2) ->
  hs_nodes s2 !! h_node_id h = Some (MkConnection (nl_connection new) (nl_rx new)) /\
  hs_nodes s2 = hs_nodes s1 /\ hs_hub s2 = hs_hub s1 /\ hs_events s2 = hs_events s1.
Proof.
  intros Hn Hid Hopen Hclose.
  destruct (node_open_registry _ _ _ _ _ _ _ Hopen) as (_ & _ & Hc & _ & Hnodes & _).
  rewrite (node_close_stale old s1) in Hclose.
  - intros c. rewrite Hnodes Hn lookup_insert_eq. intros [= <-]. cbn. congruence.
  - injection Hclose as <-. cbn. by rewrite Hnodes lookup_insert_eq.
Qed.

(** The door is the secret and the version: a node's link is opened only
    when it presented the shared secret and speaks the hub's protocol version,
    and a refusal says which of the two failed. *)
Theorem node_admission (s s' : HubState) h sent now w link :
  node_open h sent now s = (Ok (w, link), s') ->
  (w_accepted w = true <-> h_token h = hs_node_secret s /\ h_protocol_version h = WIRE_PROTOCOL_VERSION) /\
  (is_Some link -> w_accepted w = true) /\
  (w_accepted w = false -> s' = s /\
     w_error w = Some (if String.eqb (h_token h) (hs_node_secret s)
                       then VersionMismatch (h_protocol_version h) WIRE_PROTOCOL_VERSION
                       else Unauthenticated)).
Proof.
  intros H. apply m_bind_ok in H as (w' & s1 & Hw & H). injection Hw as <- <-.
  assert (w = negotiate_node h s) as ->.
  { destruct (_ || _); [by apply m_ret_ok in H as [[= -> ->] ->]|].
    do 4 (apply m_bind_ok in H as (? & ? & _ & H)). by apply m_ret_ok in H as [[= -> ->] ->]. }
  unfold negotiate_node in *. destruct (String.eqb_spec (h_token h) (hs_node_secret s)) as [Heq|Hne]; cbn [negb] in *.
  - pose proof (negotiate_spec (h_protocol_version h)) as (_ & Hacc & _).
    split; [rewrite Hacc; by split; [|intros [_ ?]]|]. destruct (w_accepted (negotiate _)) eqn:Hw.
    + split; [done|done].
    + rewrite orb_true_r in H. apply m_ret_ok in H as [[= ->] ->]. split; [by intros []|].
      intros _. split; [done|]. unfold negotiate in *. by destruct (_ =? _).
  - rewrite orb_true_r in H. apply m_ret_ok in H as [[= ->] ->]. cbn.
    split; [by split; [|intros []]|]. split; [by intros []|done].
Qed.

(** Settings are validated on both sides: saving fails without a write when
    the settings are invalid; what was saved is what is read back; and settings
    that are read back are always valid. *)
Theorem settings_validated (s : HubState) (x : AssistantSettings) (u : UpdateSettings) :
  (validate_assistant x = Ok tt ->
     let s' := snd (save_assistant_settings x s) in assistant_settings s' = (Ok x, s')) /\
  (forall e, validate_assistant x = Err e -> save_assistant_settings x s = (Err e, s)) /\
  (validate_update u = Ok tt ->
     let s' := snd (save_update_settings u s) in update_settings s' = (Ok u, s')) /\
  (forall e, validate_update u = Err e -> save_update_settings u s = (Err e, s)) /\
  (forall s' x', assistant_settings s = (Ok x', s') -> validate_assistant x' = Ok tt) /\
  (forall s' u', update_settings s = (Ok u', s') -> 1 <= us_interval_hours u' <= 168).
Proof.
  split_and!.
  - intros Hv. cbv zeta. unfold save_assistant_settings, assistant_settings.
    rewrite Hv. unfold lift, mbind, M_bind. rewrite (saved_setting_reads ASSISTANT_SETTINGS_KEY).
    by rewrite assistant_roundtrip Hv.
  - intros e Hv. unfold save_assistant_settings. by rewrite Hv.
  - intros Hv. cbv zeta. unfold save_update_settings, update_settings.
    rewrite Hv. unfold lift, mbind, M_bind. rewrite (saved_setting_reads UPDATE_SETTINGS_KEY).
    rewrite update_roundtrip; [apply validate_update_ok in Hv; lia|]. by rewrite Hv.
  - intros e Hv. unfold save_update_settings. by rewrite Hv.
  - intros s' x' H. apply m_bind_ok in H as (found & s1 & _ & H). destruct found as [v|].
    + destruct (assistant_from_value v) as [y|]; [|done].
      apply m_bind_ok in H as ([] & s2 & Hv & [-> _]%m_ret_ok). by injection Hv.
    + apply m_ret_ok in H as [-> _]. vm_compute. reflexivity.
  - intros s' u' H. apply m_bind_ok in H as (found & s1 & _ & H). destruct found as [v|].
    + destruct (update_from_value v) as [y|]; [|done].
      apply m_bind_ok in H as ([] & s2 & Hv & [-> _]%m_ret_ok). injection Hv as Hv _.
      by apply validate_update_ok.
    + apply m_ret_ok in H as [-> _]. cbn. lia.
Qed.

(** No orphan tasks: when the run configuration is invalid or no connected
    node can take the work, creating a worker task fails and leaves the hub
    exactly as it was; no task is opened, nothing is sent. *)
Theorem unschedulable_worker_leaves_nothing (s : HubState) title prompt channel preferred engine model
    effort workspace :
  is_ok (validate_run_configuration engine model effort None workspace) = false \/
  (forall n, ~ schedulable s engine preferred n) ->
  exists e, create_worker_task title prompt channel preferred engine model effort workspace s = (Err e, s).
Proof.
  intros H. unfold create_worker_task. unfold mbind at 1, M_bind at 1, lift.
  destruct (validate_run_configuration _ _ _ _ _) as [[]|e]; [|by eexists].
  destruct H as [H|H]; [done|]. unfold mbind at 1, M_bind at 1.
  destruct (eligible_spec engine preferred s) as (r & -> & Hr).
  destruct r as [n|err]; [by apply H in Hr|]. by eexists.
Qed.

(** The installer is called with safe arguments only: an accepted request
    yields [control install <mode>] followed by options, each of which starts
    with two dashes; the node id, and over SSH the host and the user, hold no
    control character, quote or shell metacharacter, and the port is not 0. *)
Theorem install_arguments_safe (r : InstallRequest) args :
  install_args r = Ok args ->
  (exists mode rest, args = "control" :: "install" :: mode :: rest /\
     Forall (fun a => starts_with "--" a = true) rest)%string /\
  (existsb unsafe_char (chars (in_node_id r)) = false) /\
  (in_mode r = Ssh -> exists host, in_host r = Some host /\
     existsb unsafe_char (chars host) = false /\
     (forall user, in_user r = Some user -> existsb unsafe_char (chars user) = false) /\
     in_port r <> Some 0).
Proof. apply install_args_safe. Qed.
End HubTheorems.

(** ** Instances *)


(** A client that subscribed before the first run reads live what follows. *)
Definition s_subscribe : Subscribe := MkSubscribe (Some "client"%string) (Some 1).
Definition s_cl : ClientLink := MkClientLink 1 2 false 0.
Definition s_recv (cl : ClientLink) (s : HubState) : list HubToClient * ClientLink :=
  match fst (client_recv cl 1 s) with
  | Ok (out, Some cl') => (out, cl')
  | _ => ([], cl)
  end.

Lemma s_recv_step s cl ev :
  cl_lagged cl = false ->
  client_step (MkClientRun s cl ev)
    (MkClientRun s (snd (s_recv cl s)) (ev ++ delivered_events (fst (s_recv cl s)))).
Proof.
  intros Hl. unfold s_recv. destruct (client_recv cl 1 s) as [r s'] eqn:Hr.
  assert (s' = s /\ exists out cl', r = Ok (out, Some cl')) as (-> & out & cl' & ->).
  { unfold client_recv in Hr. repeat case_match; simplify_eq; eauto. }
  by apply (client_step_recv s s cl cl' 1).
Qed.

Definition s_cl1 := snd (s_recv s_cl s_hub4).
Definition s_cl2 := snd (s_recv s_cl1 s_hub4).
Definition s_cl3 := snd (s_recv s_cl2 s_hub4).

Lemma client_no_gap_no_duplicate_witness :
  exists cr, rtc client_step (MkClientRun s_hub2 s_cl (drop 1 (hs_events s_hub2))) cr /\
    cr_hub cr = s_hub4 /\ cr_delivered cr = drop 1 ([] ++ hs_events s_hub4) /\
    length (cr_delivered cr) = 3%nat.
Proof.
  set (ev0 := drop 1 (hs_events s_hub2)).
  set (ev3 := ((ev0 ++ delivered_events (fst (s_recv s_cl s_hub4)))
                 ++ delivered_events (fst (s_recv s_cl1 s_hub4)))
                 ++ delivered_events (fst (s_recv s_cl2 s_hub4))).
  assert (rtc client_step (MkClientRun s_hub2 s_cl ev0) (MkClientRun s_hub4 s_cl3 ev3)) as Hrun.
  { eapply rtc_l; [apply (client_step_hub _ s_hub4), hub_steps_evolves;
      eapply rtc_l; [exact s_step3|apply rtc_once, s_step4]|].
    eapply rtc_l; [by apply s_recv_step|]. eapply rtc_l; [by apply s_recv_step|].
    apply rtc_once. by apply s_recv_step. }
  exists (MkClientRun s_hub4 s_cl3 ev3). split; [exact Hrun|]. split; [reflexivity|].
  destruct (client_no_gap_no_duplicate [] s_hub1 s_hub2 1 s_subscribe 0 4
    (HC_SubscribeAck (Some 1) 2 :: map delivery ev0) s_cl s_hub2 (MkClientRun s_hub4 s_cl3 ev3))
    as (_ & _ & H3).
  - apply s_good1.
  - vm_refl.
  - apply rtc_once, s_step2.
  - vm_refl.
  - rewrite delivered_ack delivered_map. exact Hrun.
  - split; [|vm_refl]. rewrite H3; [reflexivity|vm_refl|]. vm_refl.
Defined.

Definition s_receipt1 : HubToClient := HC_CommandReceipt (an_id "c1") true (Some 2) (Some (an_id "2")) None.

Lemma retried_command_applied_once_witness :
  apply_command (CC_InterruptRun (an_id "c1") s_run3) s_hub4 = (Ok (MkEffect s_receipt1 None), s_hub4).
Proof.
  apply (retried_command_applied_once [] s_hub1 s_hub2 s_hub4 s_create
    (CC_InterruptRun (an_id "c1") s_run3) (MkEffect s_receipt1 None) 2 (an_id "2") None).
  - apply s_good1.
  - vm_refl.
  - reflexivity.
  - eapply rtc_l; [exact s_step3|apply rtc_once, s_step4].
  - reflexivity.
Defined.

Definition s_run_effect : CommandEffect :=
  MkEffect (accepted_receipt (an_id "c2") 3 (an_id "4")) (Some (s_node, s_run_message)).

(** The command applied, its work not yet routed. *)
Definition s_applied : HubState :=
  s_after s_db_3 s_bus3 {[ s_run3 := (s_node, s_task3) ]} {[ s_task3 := s_node ]} [] 8 5.

Lemma s_run_applied : apply_command s_start s_hub2 = (Ok s_run_effect, s_applied).
Proof. vm_refl. Qed.

Lemma dispatch_durable_before_routing_witness : exists now,
  dispatch_of (an_id "c2") (hs_hub s_applied) = Some (dispatch_row (an_id "c2") s_node s_run_message now).
Proof.
  apply (dispatch_durable_before_routing [] s_hub2 _ s_start s_run_effect s_node s_run_message).
  - apply s_good2.
  - exact s_run_applied.
  - reflexivity.
Defined.

Lemma run_starts_on_eligible_node_witness : schedulable s_hub2 "claude" None s_node.
Proof.
  apply (run_starts_on_eligible_node s_hub2 _ _ _ _ _ _ _ _ _ _ _ _ s_run_applied).
  - reflexivity.
  - apply s_good2.
Defined.

(** The assistant runs on the hub: its run cannot be interrupted from a client. *)
Definition s_local_call : HubCall := Call_assistant_run s_task3 "claude" None None "be brief" None.
Definition s_db_local : Db := Eval vm_compute in hs_hub (hub_call s_local_call s_hub2).
Definition s_bus_local : list Event := Eval vm_compute in hs_events (hub_call s_local_call s_hub2).
Definition s_hub_local : HubState := s_after s_db_local s_bus_local ∅ ∅ [] 8 6.
Definition s_interrupt : ClientCommand := CC_InterruptRun (an_id "c9") s_run3.
(** The refusal remembers the binding it read, nothing else. *)
Definition s_refused : HubState :=
  set_routing {[ s_run3 := (hub_node, s_task3) ]} {[ s_task3 := hub_node ]} s_hub_local.

Lemma s_hub_local_wf : hub_wf s_hub_local.
Proof.
  assert (hub_call s_local_call s_hub2 = s_hub_local) as <- by vm_refl.
  pose proof (ev_good _ _ (hub_call_evolves s_local_call s_hub2 I) [] s_good2) as H. apply H.
Qed.

Lemma hub_runs_never_dispatched_witness :
  target (rejected (an_id "c9") (InvalidRequest hub_local_interrupt)) <> Some hub_node.
Proof.
  apply (hub_runs_never_dispatched s_hub_local s_refused s_interrupt).
  - exact s_hub_local_wf.
  - vm_refl.
Defined.

Lemma node_events_only_from_owner_witness : exists i draft run,
  NH_NodeEvent (an_id "e4") s_report = NH_NodeEvent i draft /\ d_node_id draft = s_node /\
  d_run_id draft = Some run /\ owns_run s_hub3 s_node run (d_task_id draft).
Proof.
  destruct (node_message s_node (NH_NodeEvent (an_id "e4") s_report) s_hub3) as [r s'] eqn:Hm.
  apply (node_events_only_from_owner s_hub3 s' s_node _ r).
  - exact Hm.
  - assert (length (db_events (hs_hub
      (snd (node_message s_node (NH_NodeEvent (an_id "e4") s_report) s_hub3)))) = 4%nat) as H4 by vm_refl.
    assert (length (db_events (hs_hub s_hub3)) = 3%nat) as H3 by vm_refl.
    rewrite Hm in H4. cbn in H4. intros He. rewrite He H3 in H4. discriminate H4.
Defined.

Lemma node_event_settled_and_acknowledged_witness : exists s',
  node_message s_node (NH_NodeEvent (an_id "e4") s_report) s_hub3 = (Ok tt, s') /\
  queued s_hub3 s' s_node (HN_EventAck (an_id "e4")) /\
  (owned s_hub3 s_node s_report -> "e4"%string ∈ map er_event_id (db_events (hs_hub s'))) /\
  (~ owned s_hub3 s_node s_report -> hs_hub s' = hs_hub s_hub3 /\ hs_events s' = hs_events s_hub3).
Proof.
  apply (node_event_settled_and_acknowledged [] s_hub3 s_node (an_id "e4") s_report).
  - apply s_good3.
  - exact s_report_ok.
  - assert (length (hs_events s_hub3) = 3%nat) as H by vm_refl.
    unfold zlen. cbn [app]. rewrite H. unfold i64_max. lia.
Defined.

(** The node reconnects before its first link notices it is dead. *)
Definition s_call5 : HubCall := Call_node_open s_hello true 1.
Definition s_db_5 : Db := Eval vm_compute in hs_hub (hub_call s_call5 s_hub4).
Definition s_bus5 : list Event := Eval vm_compute in hs_events (hub_call s_call5 s_hub4).
Definition s_reconnected (old_open : bool) : HubState :=
  MkHubState s_db_5 "secret" "client" s_bus5 {[ s_node := MkConnection 2 1 ]} 3
    {[ s_run3 := (s_node, s_task3) ]} {[ s_task3 := s_node ]}
    [MkChannel old_open [s_run_message; HN_EventAck (an_id "e4")]; MkChannel true [s_run_message]] 11 6.
Definition s_link5 : NodeLink := MkNodeLink s_node 2 1 1.
Lemma stale_close_is_silent_witness :
  hs_nodes (s_reconnected false) !! s_node = Some (MkConnection 2 1) /\
  hs_hub (s_reconnected false) = hs_hub (s_reconnected true).
Proof.
  destruct (stale_close_is_silent s_hub4 (s_reconnected true) (s_reconnected false) s_hello true 1
    welcome_accept s_link1 s_link5) as (H1 & _ & H2 & _).
  - reflexivity.
  - discriminate.
  - vm_refl.
  - vm_refl.
  - split; [exact H1|exact H2].
Defined.

Lemma node_admission_witness :
  node_open s_bad_hello true 0 s_hub0 = (Ok (welcome_reject Unauthenticated, None), s_hub0) /\
  (w_accepted (welcome_reject Unauthenticated) = true <->
     h_token s_bad_hello = hs_node_secret s_hub0 /\ h_protocol_version s_bad_hello = WIRE_PROTOCOL_VERSION).
Proof.
  assert (node_open s_bad_hello true 0 s_hub0 = (Ok (welcome_reject Unauthenticated, None), s_hub0)) as H
    by vm_refl.
  split; [exact H|]. apply (node_admission s_hub0 s_hub0 s_bad_hello true 0 _ None H).
Defined.

Lemma settings_validated_witness :
  update_settings (snd (save_update_settings (MkUpdateSettings true 168 true) s_hub0))
    = (Ok (MkUpdateSettings true 168 true), snd (save_update_settings (MkUpdateSettings true 168 true) s_hub0)) /\
  save_update_settings (MkUpdateSettings true 169 true) s_hub0
    = (Err (Error_msg "interval_hours must be between 1 and 168"), s_hub0) /\
  save_assistant_settings (MkAssistantSettings "Claire" "kind" "gpt" None None "high" None false None None) s_hub0
    = (Err (Error_msg "engine must be claude or codex"), s_hub0).
Proof.
  pose proof (settings_validated s_hub0
    (MkAssistantSettings "Claire" "kind" "gpt" None None "high" None false None None)
    (MkUpdateSettings true 168 true)) as (_ & H2 & H3 & _).
  pose proof (settings_validated s_hub0 AssistantSettings_default (MkUpdateSettings true 169 true))
    as (_ & _ & _ & H4 & _).
  split; [apply H3; reflexivity|]. split; [apply H4; reflexivity|]. apply H2. vm_refl.
Defined.

Lemma unschedulable_worker_leaves_nothing_witness : exists e,
  create_worker_task "title" "go" None None "no such engine" None None None s_hub1 = (Err e, s_hub1).
Proof.
  apply (unschedulable_worker_leaves_nothing s_hub1 "title" "go" None None "no such engine" None None None).
  left. vm_refl.
Defined.

Definition s_install : InstallRequest :=
  MkInstallRequest Ssh "node-1" "wss://hub.example/ws" (Some "/srv/work"%string) None None
    (Some "host"%string) (Some "ann"%string) (Some 22) None.
Definition s_install_args : list string :=
  ["control"; "install"; "ssh"; "--hub-url=wss://hub.example/ws"; "--id=node-1"; "--workspace=/srv/work";
   "--host=host"; "--user=ann"; "--port=22"]%string.

Lemma install_arguments_safe_witness :
  (exists mode rest, s_install_args = "control" :: "install" :: mode :: rest /\
     Forall (fun a => starts_with "--" a = true) rest)%string.
Proof. apply (install_arguments_safe s_install s_install_args). vm_refl. Defined.
